(* ===== verification/_CoqProject ===== *)
-Q . S2P
Prelude.v
Floats.v
Types.v
TypesTests.v
Regex.v
Search.v
Display.v
Glob.v
GlobTests.v
Permissions.v
Auth.v
Entry.v
Database.v
Query.v
Broker.v
BrokerTests.v
Delivery.v
System.v
Locks.v
LocksSpec.v
LocksRun.v
ProtoVal.v
KuksaVal.v
KuksaValSpec.v
ProtoSdv.v
Sdv.v
SdvSpec.v
Vss.v
VssSpec.v
ServiceTests.v
Startup.v
StartupSpec.v
Main.v
Lifecycle.v
LifecycleSpec.v
VissTypes.v
Viss.v
VissSpec.v
Server.v
Client.v
ClientSpec.v
ClientServer.v
Cli.v
KuksaCli.v
SdvCli.v
CliSpec.v
CliTests.v
ProtoText.v
FeatureTests.v
CliServer.v
CliTotal.v
