(* ===== verification/Prelude.v ===== *)
(** * The KUKSA.val databroker, verified

    A development beside the Rust broker of
    src/kuksa_databroker/databroker/src/ (DB below), its client libraries
    (src/kuksa_databroker/lib, LIB below) and its interactive clients
    (src/kuksa_databroker/databroker-cli/src, CLI below).  The broker keeps the
    last value and the target of every signal of a vehicle and serves them to
    clients that carry tokens.  This header describes the whole library; the
    rest of this file is the vocabulary the other files share.

    ** The program and its parts

    - A client reaches a gRPC service (DB/grpc).  An interceptor
      (DB/grpc/server.rs) decodes the bearer token (DB/authorization/jwt) and
      turns its scopes into [Permissions] (DB/permissions.rs): four matchers of
      path patterns (DB/glob.rs) and an expiry time.
    - A handler of the service (DB/grpc/kuksa_val_v1/val.rs) converts messages
      (conversions.rs) and calls the broker (DB/broker.rs) under those
      permissions.
    - The broker has a [Database] of entries with an index of paths, and
      [Subscriptions], each behind a lock of its own.  An update is reduced to
      its changes, validated and applied; then the subscribers whose fields
      changed are notified over channels.
    - A query subscription is an SQL text compiled (DB/query/compiler.rs) to an
      expression that the executor (DB/query/executor.rs) evaluates on the
      values of its inputs whenever one of them changes.
    - The older services of sdv.databroker.v1 (DB/grpc/sdv_databroker_v1) and a
      VISS v2 server over web sockets (DB/viss) are other ways to the same
      broker operations.  A provider registers signals and streams their
      values; a socket has its own subscriptions, each with a task that
      forwards notifications.
    - At start (DB/main.rs) the broker reads VSS files (DB/vss.rs): trees of
      branches and signals, flattened into entries.
    - A client (LIB/common) holds an address, a token and a connection that it
      opens when it is first needed; LIB/kuksa and LIB/sdv wrap the methods of
      the two gRPC services.  The command line client (CLI) reads lines, calls
      one of the two libraries, prints what comes back and completes paths.

    ** Files

    - [Prelude]: [result], the [let?] notation for the operator [?], string,
      list and map lemmas, tactics and hint databases, [HashOrder].
    - [Floats], [Types] (DB/types.rs): f32 and f64 as IEEE 754 values;
      [DataType], [DataValue] and the operators [greater_than], [less_than]
      and [equals].
    - [Regex]: a language semantics of regular expressions, an executable
      matcher, and the interface of the crate [regex].
    - [Glob] (DB/glob.rs): the pattern texts as the source builds them.
    - [Permissions] (DB/permissions.rs), [Auth] (DB/authorization/mod.rs,
      jwt/scope.rs, jwt/decoder.rs and the interceptor of DB/grpc/server.rs).
    - [Entry], [Database], [Broker] (DB/broker.rs): one signal; the entries and
      their guarded accesses; subscriptions and the operations of clients.
    - [Query] (DB/query/expr.rs, compiler.rs, executor.rs).
    - [Delivery], [System]: theorems about [Broker], and the broker as a
      transition system whose steps are its critical sections.
    - [Locks] (DB/broker.rs once more): the same operations as tasks, cut at
      every [await]: the two locks and who waits for them, channels of ten
      messages, requests that are given up.  [LocksSpec] has the invariant and
      the progress of the tasks, [LocksRun] what runs of them do.
    - [ProtoVal], [KuksaVal] (DB/grpc/kuksa_val_v1/conversions.rs, val.rs):
      messages and handlers; [KuksaValSpec] has their specifications.
    - [ProtoSdv], [Sdv], [SdvSpec] (DB/grpc/sdv_databroker_v1/conversions.rs,
      broker.rs, collector.rs): the same for the older services.
    - [Vss], [VssSpec] (DB/vss.rs), [Startup], [StartupSpec] (DB/main.rs): VSS
      files and what the broker does before it serves.
    - [Main] (DB/main.rs): the arguments of the command line as data, and the
      start from the arguments to the configured server.  [Lifecycle],
      [LifecycleSpec] (DB/main.rs, DB/grpc/server.rs): the process from the
      first connection to its exit, over the tasks of [Locks]; the graceful
      shutdown on a signal.
    - [Display]: [to_string] of the primitive types.  [VissTypes], [Viss],
      [VissSpec] (DB/viss/v2/types.rs, conversions.rs, server.rs and
      DB/viss/server.rs): messages, requests and one web socket.
    - [Server]: all services as steps on one broker.
    - [Client] (LIB/common/src/lib.rs, LIB/kuksa/src/lib.rs,
      LIB/sdv/src/lib.rs): connections and calls, written against the interface
      [Remote] of what is at the other end; [ClientSpec] has the theorems that
      hold for every [Remote], [ClientServer] implements [Remote] by the broker
      and its interceptor.
    - [Search]: the searches of the crate [regex] on the patterns of [Regex],
      leftmost-first.  [Cli] (CLI/cli.rs and what kuksa_cli.rs and sdv_cli.rs
      repeat), [KuksaCli] (CLI/kuksa_cli.rs), [SdvCli] (CLI/sdv_cli.rs,
      CLI/main.rs): reading and printing values, the commands, the loop and the
      completion.  [CliSpec] and [CliServer] have their theorems, alone and
      connected to the broker; [CliTotal] that they do not panic.
    - [ProtoText] (databroker-proto/src/lib.rs): types and values read from
      texts.
    - [TypesTests], [GlobTests], [BrokerTests], [ServiceTests], [CliTests]: the
      unit tests of the source files, evaluated on the model; [FeatureTests]:
      the acceptance tests of databroker/tests, their scenarios text for text
      and the steps that interpret them, run against [Client] and [Server].

    ** What the theorems show

    - The whole server.  [Server.server_refines]: every handler of every
      service is a run of the critical sections of [System], so the invariants
      below hold for it; [Server.update_then_viss_get] follows a value from a
      provider of one service to a reader of another.
    - Invariants.  [Database.db_inv_reachable]: ids are unique, paths and
      entries are in bijection, paths are valid, every stored value has the
      declared type.  [System.sys_inv_reachable] extends this to the whole
      broker under every interleaving, [System.registrations_permanent] says
      that a registered path keeps its id and metadata.
    - Concurrency.  [LocksSpec.machine_inv_reachable] is the invariant again,
      with the tasks, locks and channels; [LocksRun.no_deadlock] (every request
      is answered when subscribers read, in a bounded number of steps),
      [LocksRun.request_alone] (the tasks refine the operations of [Broker]),
      [LocksRun.notifications_consistent] (nothing is written while an update
      notifies).  [LocksRun.stalled_subscriber] and
      [LocksRun.cancelled_update_undelivered] say what a subscriber that does
      not read does to the others.
    - Authorization.  [Database.update_authorized] (what an update may
      change), [Database.read_by_path], [Database.iter_entries_spec],
      [KuksaValSpec.get_no_leak] (what a reader may see) and
      [Delivery.noninterference] (neither reads nor notifications depend on
      values the token may not read).  [Auth.claims_grant],
      [Auth.scope_roundtrip] and [Auth.interceptor_admits] tie permissions to
      the token.
    - Delivery.  [Delivery.change_notify_content] and
      [Delivery.query_notify_content] (exact content of notifications),
      [Delivery.subscribe_fresh] and [Delivery.update_entries_fresh] (a
      subscriber's view is the database's), [Delivery.update_entries_independent].
    - Functional behaviour of the store: [Database.update_accepted],
      [Database.update_stores], [Database.add_registers],
      [Entry.validate_value_spec], [Entry.validate_allowed_spec].
    - Queries.  [Query.execute_type_sound], [Query.input_spec_complete],
      [Query.execute_no_panic], [Query.compare_with_literal].
    - Service.  [KuksaValSpec.get_spec] (the handler's loops refine a
      comprehension over the database), [KuksaValSpec.set_then_read],
      [KuksaValSpec.set_targets_actuators], [KuksaValSpec.val_subscribe_spec],
      [ProtoVal.datapoint_roundtrip].
    - The older services.  [SdvSpec.set_datapoints_spec],
      [SdvSpec.update_datapoints_spec] and [SdvSpec.register_datapoints_spec]
      give reply and database item by item, [SdvSpec.stream_equals_calls]
      reduces streaming to calls; [SdvSpec.get_datapoints_spec],
      [ProtoSdv.sdv_datapoint_roundtrip].
    - VSS files.  [VssSpec.data_entry_typed], [VssSpec.flatten_exact] (the
      flat map against the tree) and [StartupSpec.read_metadata_file_spec] (the
      database against the flat map).
    - VISS.  [VissSpec.viss_set_spec], [VissSpec.viss_metadata_exact],
      [VissSpec.viss_value_roundtrip] and [VissSpec.viss_value_bounds] (texts
      and values), [VissSpec.viss_events_active] and
      [VissSpec.viss_one_response] (the socket as a state machine).
    - Start and end.  [Main.main_start_secure] (what the arguments must say for
      the broker to serve without TLS or without authorization),
      [LifecycleSpec.graceful_shutdown] (after a signal that meets no
      registration in progress the process can run to its exit) and
      [LifecycleSpec.late_subscription_blocks_exit] (a subscription registered
      after the subscriptions were dropped keeps it from exiting).
    - Clients.  [CliTotal.cli_never_panics]: the interactive programs answer
      every line and end when they should, with any server that keeps the
      promise [CliTotal.HonestRemote], which the broker does
      ([CliTotal.broker_honest]).  [ClientServer.client_set_then_get] and
      [CliServer.cli_feed_then_get] follow a value from a call, and from a line
      that is typed, through every layer into the database and back;
      [CliSpec.cli_value_roundtrip] and [CliSpec.cli_value_typed] (texts and
      values), [CliSpec.completion_spec] (completion against the set of paths),
      [CliSpec.clients_read_alike] (the two clients),
      [ClientSpec.set_current_values_prefix] (a call that fails has done a
      prefix of its work).
    - Patterns and values: [Glob.glob_plain_spec], [Glob.glob_wildcard_spec],
      [Glob.glob_all], [Glob.is_valid_path_spec],
      [Glob.is_valid_pattern_spec], [Types.compare_integers],
      [Types.comparison_defined], [ProtoText.value_new_typed] and
      [ProtoText.value_new_as_cli] (the values of the texts).
    - Conformance.  [TypesTests.types_tests_pass], [GlobTests.glob_tests_pass],
      [BrokerTests.broker_tests_pass], [ServiceTests.service_tests_pass],
      [CliTests.cli_tests_pass] and [FeatureTests.feature_passes]: the tests of
      the repository hold of the definitions that are proved about.
    - Behaviour that differs from what a comment, a document or SQL says is
      proved as it is: [System.subscribe_race_loses_update],
      [Delivery.repeated_id_masks_change], [Query.between_integers],
      [Query.between_literal_never_executes],
      [Glob.glob_double_wildcard_middle], [Types.equals_self_float],
      [Entry.not_available_refused], [Auth.scope_digit_refused],
      [KuksaValSpec.get_single_metadata_field],
      [StartupSpec.narrow_allowed_dropped], [ClientSpec.unheard_client_stuck],
      [ClientSpec.failed_reconnect_keeps_channel],
      [ClientServer.set_metadata_ignored],
      [ClientServer.subscribe_metadata_silent],
      [CliServer.cli_set_keeps_targets], [CliSpec.token_clears_completion]; and [VissSpec.viss_metadata_exact]
      compares paths as texts, as the source does.

    ** Modelling choices

    - Integers are [Z]; [Types.dv_wf] keeps a value at its width.  Entry ids
      are [i32] from an atomic counter that wraps around: the invariant on
      unique ids holds while fewer than 2^32 entries were registered.
    - Time is an argument: an operation has one clock reading [now].
    - A [HashMap] is a [gmap]; where the source iterates over one, the order is
      the class [HashOrder], any permutation of the map's pairs.
    - An [mpsc] channel is an index into a store shared by its two ends: the
      messages sent and whether the receiver is gone.  An operation run as a
      whole is run with subscribers that read: a [send] on an open channel
      completes.  In [Locks] a channel has room for ten messages, a [send] waits
      for room, and the two theorems that compare the views are
      [LocksRun.request_alone] and [LocksRun.stalled_subscriber].
    - tokio's locks are the class [LockPolicy]: the first in line may go, and
      who holds a lock is read off the states of the tasks.
    - A task is a step on its state ([Sdv.stream_step], [Viss.ws_step]); what
      wakes it, a clock reading, a fresh identifier and whether a bounded
      channel is full are part of the event, so theorems hold for every order.
    - A method of a client is a computation on the client and the network
      ([Client.M]).  The network of [ClientServer] loses nothing and serves one
      request at a time; other clients are covered by [Server.server_refines],
      since a request is a run of the broker's critical sections.  The channel
      of connection states keeps every state (its capacity is one, so a reader
      that lags would miss some).
    - A line typed at a client is one step, with one clock reading; its output
      is what it writes to the two streams.  Operations on text are those of
      ASCII text.
    - Third-party crates are classes of operations: [RegexEngine],
      [SqlParser], [JwtLibrary], [Timestamps], [SerdeJson], [VissJson],
      [Tonic] (with http), [RegexSearch], [AnsiTerm], [CliEnv], [Clap] and
      [TokenEncoder].  Their laws ([RegexLaws], [GlobLaws], [ScopeLaws],
      [TimestampLaws], [SerdeLaws], [ClapLaws]) state documented behaviour on
      ASCII text, and each has an instance that satisfies it.
    - [debug_assert!] is off, as in a release build.  In [Query] the texts of
      error messages are dropped, the error constructors are kept.
    - All functions that model code are structurally recursive and total, so
      their theorems speak of results, not of runs that might end.  Fuel occurs
      in three places.  The reader of pattern texts of the concrete regex engine
      that the witnesses use and the search of [Search] have one unit per
      character, and each step of either uses up a character.  The printer of floats
      ([Display.shortest]) tries up to seventeen digits, which identify every
      f64 (nine are enough for an f32), at a decimal point that 400 places
      reach; a theorem about printed floats names the floats it found digits
      for ([Display.printable]).

    ** Not modelled

    Of the modelled parts, the JSON texts of VISS messages and of VSS files
    (derived with serde), the conversion of a VISS value to [SystemTime], which
    nothing uses, and of the interactive clients the history and the drawing of
    the line editor, the logo and failing writes to the terminal.  Of the tests,
    the one that verifies a signature with an RSA key: the cryptography is the
    class [JwtLibrary].  Sockets, TLS, logging, the parsing of the command line
    by clap (its declaration is modelled) and the code generated from .proto
    files are outside: input and output, or code that is not in the repository.
    The VISS server has a part in the start and none in the end of the process,
    which does not wait for it.  Outside too are the programs of
    LIB/databroker-examples, which measure the speed of the broker, and the C++,
    Go and Python parts. *)

(** ** Shared vocabulary *)

From stdpp Require Export prelude gmap strings pretty.
From Stdlib Require Export ZArith Lia.
From Stdlib Require Ascii String.
Export Ascii.AsciiSyntax String.StringSyntax.
Delimit Scope char_scope with char.

#[global] Open Scope Z_scope.

(** ** Rust's [Result] *)

Inductive result (A E : Type) : Type :=
| Ok (a : A)
| Err (e : E).
Arguments Ok {A E} a.
Arguments Err {A E} e.

Declare Scope rust_scope.
Delimit Scope rust_scope with rust.
#[global] Open Scope rust_scope.

(** The [?] operator: continue with the value or return the error. *)
Notation "'let?' x ':=' c 'in' k" :=
  (match c with Ok x => k | Err e => Err e end)
  (at level 10, x pattern, c at level 100, k at level 200,
   format "'[v' 'let?'  x  ':='  c  'in' '/' k ']'") : rust_scope.

(** [Result::map], [Result::map_err], [Result::is_ok]. *)
Definition result_map {A B E} (f : A -> B) (r : result A E) : result B E :=
  match r with Ok a => Ok (f a) | Err e => Err e end.

Definition map_err {A E F} (f : E -> F) (r : result A E) : result A F :=
  match r with Ok a => Ok a | Err e => Err (f e) end.

Definition is_ok {A E} (r : result A E) : bool :=
  match r with Ok _ => true | Err _ => false end.

(** [Option::is_some], [Option::ok_or]. *)
Definition is_some {A} (o : option A) : bool :=
  match o with Some _ => true | None => false end.

Definition ok_or {A E} (o : option A) (e : E) : result A E :=
  match o with Some a => Ok a | None => Err e end.

#[export] Instance result_eq_dec {A E} `{EqDecision A, EqDecision E} :
  EqDecision (result A E).
Proof. solve_decision. Defined.

(** [iter().map(f).collect::<Result<Vec<_>, _>>()]: stops at the first error. *)
Fixpoint collect {A B E} (f : A -> result B E) (l : list A) : result (list B) E :=
  match l with
  | [] => Ok []
  | a :: l =>
      let? b := f a in
      let? bs := collect f l in
      Ok (b :: bs)
  end.

(** A function that may panic. *)
Inductive outcome (A : Type) := Returns (a : A) | Panics.
Arguments Returns {A} a.
Arguments Panics {A}.

(** ** gRPC statuses

    The codes of [tonic::Code] and
    [tonic::Status]. *)

Inductive StatusCode :=
| SC_Ok | SC_Cancelled | SC_Unknown | SC_InvalidArgument | SC_DeadlineExceeded | SC_NotFound
| SC_AlreadyExists | SC_PermissionDenied | SC_ResourceExhausted | SC_FailedPrecondition | SC_Aborted
| SC_OutOfRange | SC_Unimplemented | SC_Internal | SC_Unavailable | SC_DataLoss | SC_Unauthenticated.

Record Status := { status_code : StatusCode; status_message : string }.

(** ** Machine integers

    A Rust integer is a [Z] together with the bounds of its type. *)

Record IntTy := { int_min : Z; int_max : Z }.

Definition i8  : IntTy := {| int_min := -128; int_max := 127 |}.
Definition i16 : IntTy := {| int_min := -32768; int_max := 32767 |}.
Definition i32 : IntTy := {| int_min := -2147483648; int_max := 2147483647 |}.
Definition i64 : IntTy := {| int_min := -9223372036854775808; int_max := 9223372036854775807 |}.
Definition u8  : IntTy := {| int_min := 0; int_max := 255 |}.
Definition u16 : IntTy := {| int_min := 0; int_max := 65535 |}.
Definition u32 : IntTy := {| int_min := 0; int_max := 4294967295 |}.
Definition u64 : IntTy := {| int_min := 0; int_max := 18446744073709551615 |}.

Definition in_range (ty : IntTy) (z : Z) : bool :=
  (int_min ty <=? z) && (z <=? int_max ty).

(** [T::try_from(z)]. *)
Definition try_from (ty : IntTy) (z : Z) : result Z unit :=
  if in_range ty z then Ok z else Err tt.

(** Two's-complement wrap-around of a 32-bit signed integer
    ([AtomicI32::fetch_add] wraps on overflow). *)
Definition wrap_i32 (z : Z) : Z := (z + 2147483648) mod 4294967296 - 2147483648.

(** [SystemTime]: nanoseconds since the Unix epoch. *)
Definition SystemTime := Z.

(** ** Iteration over hash maps and hash sets

    The iteration order of [std::collections::HashMap] and [HashSet] is
    unspecified.  Every loop over one is written with [hash_order], any
    function that permutes its argument, so a theorem holds for every order
    the program can see. *)

Class HashOrder := {
  hash_order : forall {A : Type}, list A -> list A;
  hash_order_perm : forall {A : Type} (l : list A), hash_order l ≡ₚ l
}.

(** One possible order, used by the witnesses. *)
#[export] Instance identity_order : HashOrder | 100 :=
  {| hash_order := fun A l => l; hash_order_perm := fun A l => Permutation_refl l |}.

(** ** Automation *)

Create HintDb databroker.

(** Split the boolean and propositional structure of the hypotheses and
    rewrite boolean comparisons into their propositions. *)
Ltac bool_hyps :=
  repeat match goal with
  | H : _ && _ = true |- _ => apply andb_true_iff in H; destruct H
  | H : _ || _ = false |- _ => apply orb_false_iff in H; destruct H
  | H : negb _ = true |- _ => apply negb_true_iff in H
  | H : negb _ = false |- _ => apply negb_false_iff in H
  | H : (_ <=? _)%Z = true |- _ => apply Z.leb_le in H
  | H : (_ <=? _)%Z = false |- _ => apply Z.leb_gt in H
  | H : (_ <? _)%Z = true |- _ => apply Z.ltb_lt in H
  | H : (_ <? _)%Z = false |- _ => apply Z.ltb_ge in H
  | H : (_ =? _)%Z = true |- _ => apply Z.eqb_eq in H
  | H : (_ =? _)%Z = false |- _ => apply Z.eqb_neq in H
  | H : bool_decide _ = true |- _ => apply bool_decide_eq_true in H
  | H : bool_decide _ = false |- _ => apply bool_decide_eq_false in H
  end.

(** Case analysis on every match of a hypothesis or of the goal, closing the
    contradictory branches. *)
Ltac destruct_match_in H :=
  match type of H with
  | context [match ?x with _ => _ end] => let E := fresh "E" in destruct x eqn:E
  end.
Ltac crush_match_in H := repeat (destruct_match_in H; simplify_eq/=).

(** The success value of a checking function carries no information. *)
Ltac destruct_units := repeat match goal with x : unit |- _ => destruct x end.

(** ** Generic lemmas *)

Lemma in_range_spec ty z : in_range ty z = true <-> int_min ty <= z <= int_max ty.
Proof. unfold in_range. rewrite andb_true_iff, !Z.leb_le. lia. Qed.

Lemma try_from_Ok ty z z' :
  try_from ty z = Ok z' <-> z' = z /\ int_min ty <= z <= int_max ty.
Proof.
  unfold try_from. destruct (in_range ty z) eqn:E.
  - apply in_range_spec in E. split; [by intros [= ->] | by intros [-> _]].
  - split; [done|]. intros [_ H]. apply in_range_spec in H. congruence.
Qed.

Lemma wrap_i32_range z : int_min i32 <= wrap_i32 z <= int_max i32.
Proof.
  unfold wrap_i32; simpl.
  pose proof (Z.mod_pos_bound (z + 2147483648) 4294967296). lia.
Qed.

Lemma wrap_i32_id z : int_min i32 <= z <= int_max i32 -> wrap_i32 z = z.
Proof. unfold wrap_i32; simpl. intros. rewrite Z.mod_small; lia. Qed.

(** Two counters less than [2^32] apart wrap to different identifiers. *)
Lemma wrap_i32_inj a b :
  0 <= a < 4294967296 -> 0 <= b < 4294967296 -> wrap_i32 a = wrap_i32 b -> a = b.
Proof.
  unfold wrap_i32. intros Ha Hb H.
  assert (((a + 2147483648) - (b + 2147483648)) mod 4294967296 = 0) as Hd.
  { rewrite Zminus_mod. replace ((a + 2147483648) mod 4294967296)
      with ((b + 2147483648) mod 4294967296) by lia.
    rewrite Z.sub_diag. done. }
  apply Z.mod_divide in Hd as [k Hk]; lia.
Qed.

Lemma wrap_i32_succ z : wrap_i32 (wrap_i32 z + 1) = wrap_i32 (z + 1).
Proof.
  unfold wrap_i32.
  replace ((z + 2147483648) mod 4294967296 - 2147483648 + 1 + 2147483648)
    with ((z + 2147483648) mod 4294967296 + 1) by lia.
  replace (z + 1 + 2147483648) with (z + 2147483648 + 1) by lia.
  rewrite Zplus_mod_idemp_l. done.
Qed.

Lemma and_then_Ok {E} (r k : result unit E) :
  (let? _ := r in k) = Ok tt <-> r = Ok tt /\ k = Ok tt.
Proof. destruct r as [[]|]; [by intuition | by split; [|intros [? _]]]. Qed.

Lemma collect_Ok {A B E} (f : A -> result B E) l bs :
  collect f l = Ok bs <-> Forall2 (fun a b => f a = Ok b) l bs.
Proof.
  revert bs. induction l as [|a l IH]; intros bs; simpl; split.
  - intros ?; simplify_eq. constructor.
  - intros H; inversion H; done.
  - intros H. destruct (f a) eqn:Ea; [|done]. destruct (collect f l) eqn:El; [|done].
    simplify_eq. constructor; [done|]. by apply IH.
  - intros H; inversion H as [|a' b l' bs' Ha Hl]; subst.
    rewrite Ha. apply IH in Hl. by rewrite Hl.
Qed.

Lemma elem_of_hash_order `{HashOrder} {A} (x : A) (l : list A) :
  x ∈ hash_order l <-> x ∈ l.
Proof. by rewrite hash_order_perm. Qed.

Lemma hash_order_nil `{HashOrder} {A} : hash_order (@nil A) = [].
Proof. apply Permutation_nil_r, hash_order_perm. Qed.

Lemma hash_order_single `{HashOrder} {A} (x : A) : hash_order [x] = [x].
Proof. apply Permutation_singleton_r, hash_order_perm. Qed.

Lemma list_omap_ext_in {A B} (f g : A -> option B) (l : list A) :
  (forall x, x ∈ l -> f x = g x) -> omap f l = omap g l.
Proof.
  induction l as [|a l IH]; intros Hfg; [done|]. csimpl.
  rewrite (Hfg a) by apply list_elem_of_here.
  rewrite IH; [done|]. intros x Hx. apply Hfg. by apply list_elem_of_further.
Qed.

(** The key of an element of an association list. *)
Lemma elem_of_map_fst {A B} (k : A) (v : B) (l : list (A * B)) : (k, v) ∈ l -> k ∈ map fst l.
Proof. intros Hin. apply list_elem_of_In, in_map_iff. exists (k, v). by rewrite <- list_elem_of_In. Qed.

Lemma fold_left_ext {A B} (f g : A -> B -> A) (l : list B) (a : A) :
  (forall x y, f x y = g x y) -> fold_left f l a = fold_left g l a.
Proof. intros Hfg. revert a. induction l as [|b l IH]; intros a; simpl; [done|]. by rewrite Hfg. Qed.

(** A function whose values on a list are distinct is injective there. *)
Lemma NoDup_map_inj {A B} (f : A -> B) (l : list A) (x y : A) :
  NoDup (map f l) -> x ∈ l -> y ∈ l -> f x = f y -> x = y.
Proof.
  induction l as [|a l IH]; simpl; [by intros _ ?%not_elem_of_nil|].
  intros [Ha Hnd]%NoDup_cons [-> | Hx]%elem_of_cons [-> | Hy]%elem_of_cons Hf; [done|..|by apply IH];
    destruct Ha; apply list_elem_of_In; [rewrite Hf | rewrite <- Hf]; by apply in_map, list_elem_of_In.
Qed.

Lemma filter_submseteq {A} (p : A -> bool) (l : list A) : List.filter p l ⊆+ l.
Proof.
  apply sublist_submseteq. induction l as [|a l IH]; simpl; [done|].
  destruct (p a); by constructor.
Qed.

Lemma NoDup_map_submseteq {A B} (f : A -> B) (l k : list A) :
  l ⊆+ k -> NoDup (map f k) -> NoDup (map f l).
Proof.
  intros [k' Hk]%submseteq_Permutation Hnd.
  rewrite Hk, map_app in Hnd. by apply NoDup_app in Hnd as [? _].
Qed.

(** ** Maps built by a loop of insertions *)

Lemma fold_insert_lookup {K V A} `{Countable K} (key : A -> K) (f : A -> V) l (m : gmap K V) k :
  (forall a b, a ∈ l -> b ∈ l -> key a = key b -> f a = f b) ->
  fold_left (fun m a => <[key a := f a]> m) l m !! k =
    match find (fun a => bool_decide (key a = k)) l with Some a => Some (f a) | None => m !! k end.
Proof.
  revert m. induction l as [|a l IH]; intros m Hf; simpl; [done|].
  rewrite IH by (intros ????; apply Hf; by right).
  destruct (find _ l) as [b|] eqn:Hb.
  - apply find_some in Hb as [Hb Hk]. bool_hyps. apply list_elem_of_In in Hb.
    destruct (bool_decide_reflect (key a = k)) as [Ha|]; [|done].
    f_equal. apply Hf; [by right|by left|congruence].
  - destruct (bool_decide_reflect (key a = k)) as [<-|Hn]; [by rewrite lookup_insert_eq|].
    by rewrite lookup_insert_ne.
Qed.

Lemma fold_insert_in {K V A} `{Countable K} (key : A -> K) (f : A -> V) l (m : gmap K V) a :
  (forall a b, a ∈ l -> b ∈ l -> key a = key b -> f a = f b) -> a ∈ l ->
  fold_left (fun m a => <[key a := f a]> m) l m !! key a = Some (f a).
Proof.
  intros Hf Ha. rewrite (fold_insert_lookup key f) by done.
  destruct (find _ l) as [b|] eqn:Hb.
  - apply find_some in Hb as [Hb Hk]. bool_hyps. f_equal. apply Hf; [by apply list_elem_of_In|done..].
  - pose proof (find_none _ _ Hb a (proj1 (list_elem_of_In _ _) Ha)) as Hn. simpl in Hn. by bool_hyps.
Qed.

Lemma fold_insert_notin {K V A} `{Countable K} (key : A -> K) (f : A -> V) l (m : gmap K V) k :
  (forall a, a ∈ l -> key a <> k) -> fold_left (fun m a => <[key a := f a]> m) l m !! k = m !! k.
Proof.
  revert m. induction l as [|a l IH]; intros m Hk; simpl; [done|].
  rewrite IH by (intros b Hb; apply Hk; by right). rewrite lookup_insert_ne; [done|]. apply Hk. by left.
Qed.

(** When every insertion at [k] inserts the value in [o]. *)
Lemma fold_insert_at {K V A} `{Countable K} (key : A -> K) (f : A -> V) l (m : gmap K V) k (o : option V) :
  (forall a, a ∈ l -> key a = k -> o = Some (f a)) ->
  fold_left (fun m a => <[key a := f a]> m) l m !! k =
    if existsb (fun a => bool_decide (key a = k)) l then o else m !! k.
Proof.
  revert m. induction l as [|a l IH]; intros m Ho; simpl; [done|].
  rewrite IH by (intros b Hb; apply Ho; by right).
  destruct (bool_decide_reflect (key a = k)) as [Ha|Ha]; simpl.
  - rewrite (Ho a (list_elem_of_here _ _) Ha). subst k. rewrite lookup_insert_eq. by destruct (existsb _ l).
  - by rewrite lookup_insert_ne.
Qed.
