(* ===== verification/Floats.v ===== *)
(** * Floats: IEEE 754 binary32 and binary64

    Rust's [f32] and [f64] as [SpecFloat.spec_float] with the precision and
    exponent range of each format: the conversions [f64::from], the
    comparisons, subtraction and [abs] that src/kuksa_databroker/databroker/
    src/types.rs uses, and [str::parse] for both formats.  Everything is
    executable; the lemmas are the order and symmetry facts the comparison
    operators of [DataValue] rely on. *)

From S2P Require Import Prelude.
From Stdlib Require Import SpecFloat.

(** A float format: precision (with the implicit bit) and maximal exponent. *)
Record FloatFmt := { fmt_prec : Z; fmt_emax : Z }.
Definition f32 : FloatFmt := {| fmt_prec := 24; fmt_emax := 128 |}.
Definition f64 : FloatFmt := {| fmt_prec := 53; fmt_emax := 1024 |}.

Abbreviation float := spec_float.

(** [f64::from(z)] for an integer [z] of at most 32 bits (exact). *)
Definition f64_from_int (z : Z) : float :=
  binary_normalize (fmt_prec f64) (fmt_emax f64) z 0 false.

(** [f64::from(x)] for [x : f32]: the same number in the wider format. *)
Definition f64_from_f32 (x : float) : float :=
  match x with
  | S754_finite s m e => binary_normalize (fmt_prec f64) (fmt_emax f64) (cond_Zopp s (Zpos m)) e s
  | _ => x
  end.

(** [x > y], [x < y] and [x == y] of [PartialOrd]/[PartialEq]: false as soon
    as one side is NaN. *)
Definition f_gt (x y : float) : bool :=
  match SFcompare x y with Some Gt => true | _ => false end.
Definition f_lt (x y : float) : bool :=
  match SFcompare x y with Some Lt => true | _ => false end.
Definition f_eq (x y : float) : bool :=
  match SFcompare x y with Some Eq => true | _ => false end.

(** [f32::EPSILON] (2^-23) and [f64::EPSILON] (2^-52). *)
Definition f_epsilon (fmt : FloatFmt) : float :=
  binary_normalize (fmt_prec fmt) (fmt_emax fmt) 1 (1 - fmt_prec fmt) false.

(** [(x - y).abs() < EPSILON]. *)
Definition f_close (fmt : FloatFmt) (x y : float) : bool :=
  f_lt (SFabs (SFsub (fmt_prec fmt) (fmt_emax fmt) x y)) (f_epsilon fmt).

(** ** Parsing numbers: [str::parse] *)

(** The decimal digit a byte stands for. *)
Definition digit_of (c : Ascii.ascii) : option Z :=
  let n := Z.of_N (Ascii.N_of_ascii c) in
  if (48 <=? n) && (n <=? 57) then Some (n - 48) else None.

(** All characters are digits: the number they denote (0 for no digits). *)
Fixpoint digits_value (acc : Z) (s : string) : option Z :=
  match s with
  | EmptyString => Some acc
  | String c s => match digit_of c with
                  | Some d => digits_value (acc * 10 + d) s
                  | None => None
                  end
  end.

(** [s.parse::<iN>()] and [s.parse::<uN>()]: an optional sign ([-] only for a
    signed type), at least one digit, and a value within the type's bounds. *)
Definition parse_int (ty : IntTy) (s : string) : option Z :=
  let finish (sign : Z) (digits : string) :=
    match digits with
    | EmptyString => None
    | _ => match digits_value 0 digits with
           | Some n => if in_range ty (sign * n) then Some (sign * n) else None
           | None => None
           end
    end in
  match s with
  | String c rest =>
      if Ascii.eqb c "+"%char then finish 1 rest
      else if Ascii.eqb c "-"%char then
        if int_min ty <? 0 then finish (-1) rest else None
      else finish 1 s
  | EmptyString => None
  end.

(** The leading digits of [s]: their value, their number and the rest. *)
Fixpoint take_digits (acc : Z) (n : nat) (s : string) : Z * nat * string :=
  match s with
  | String c rest =>
      match digit_of c with
      | Some d => take_digits (acc * 10 + d) (S n) rest
      | None => (acc, n, s)
      end
  | EmptyString => (acc, n, s)
  end.

(** The exponent part of a decimal literal: [e], an optional sign, digits. *)
Definition parse_exponent (s : string) : option Z :=
  match s with
  | EmptyString => Some 0
  | String e rest =>
      if Ascii.eqb e "e"%char || Ascii.eqb e "E"%char then
        let '(sign, ds) :=
          match rest with
          | String c r =>
              if Ascii.eqb c "+"%char then (1, r)
              else if Ascii.eqb c "-"%char then (-1, r) else (1, rest)
          | EmptyString => (1, rest)
          end in
        match ds with
        | EmptyString => None
        | _ => match digits_value 0 ds with Some n => Some (sign * n) | None => None end
        end
      else None
  end.

(** [m * 10^e] correctly rounded to the format. *)
Definition decimal_to_float (fmt : FloatFmt) (neg : bool) (m e : Z) : float :=
  match m with
  | Zpos p =>
      if 0 <=? e then
        binary_normalize (fmt_prec fmt) (fmt_emax fmt)
          (cond_Zopp neg (m * 10 ^ e)) 0 neg
      else
        match 10 ^ (- e) with
        | Zpos d => SFdiv (fmt_prec fmt) (fmt_emax fmt)
                      (S754_finite neg p 0) (S754_finite false d 0)
        | _ => S754_nan
        end
  | _ => S754_zero neg
  end.

Definition ascii_lower (c : Ascii.ascii) : Ascii.ascii :=
  let n := Ascii.N_of_ascii c in
  if ((65 <=? n) && (n <=? 90))%N then Ascii.ascii_of_N (n + 32) else c.

Fixpoint string_lower (s : string) : string :=
  match s with
  | EmptyString => EmptyString
  | String c s => String (ascii_lower c) (string_lower s)
  end.

(** [s.parse::<f32>()] and [s.parse::<f64>()]: an optional sign, then
    [inf], [infinity] or [nan] in any case, or a decimal number with an
    optional fraction and exponent. *)
Definition parse_float (fmt : FloatFmt) (s : string) : option float :=
  let '(neg, body) :=
    match s with
    | String c r =>
        if Ascii.eqb c "+"%char then (false, r)
        else if Ascii.eqb c "-"%char then (true, r) else (false, s)
    | EmptyString => (false, s)
    end in
  let lower := string_lower body in
  if String.eqb lower "inf" || String.eqb lower "infinity" then Some (S754_infinity neg)
  else if String.eqb lower "nan" then Some S754_nan
  else
    let '(ip, ni, rest) := take_digits 0 0 body in
    let '(m, nf, rest) :=
      match rest with
      | String c r => if Ascii.eqb c "."%char then take_digits ip 0 r else (ip, O, rest)
      | EmptyString => (ip, O, rest)
      end in
    if (Nat.eqb (ni + nf) 0) then None
    else match parse_exponent rest with
         | Some e => Some (decimal_to_float fmt neg m (e - Z.of_nat nf))
         | None => None
         end.

(** [s.parse::<bool>()]. *)
Definition parse_bool (s : string) : option bool :=
  if String.eqb s "true" then Some true
  else if String.eqb s "false" then Some false else None.

(** ** Order and symmetry *)

Lemma Pos_compare_cont_Eq_antisym p q :
  Pos.compare_cont Eq q p = CompOpp (Pos.compare_cont Eq p q).
Proof. apply (Pos.compare_antisym p q). Qed.

Lemma SFcompare_antisym x y :
  SFcompare y x = match SFcompare x y with Some c => Some (CompOpp c) | None => None end.
Proof.
  destruct x as [sx|sx| |sx mx ex], y as [sy|sy| |sy my ey]; simpl; try done;
    try (by destruct sx, sy); try (by destruct sx); try (by destruct sy).
  rewrite (Z.compare_antisym ex ey), (Pos_compare_cont_Eq_antisym mx my).
  by destruct sx, sy, (ex ?= ey), (Pos.compare_cont Eq mx my).
Qed.

Lemma f_gt_lt x y : f_gt x y = f_lt y x.
Proof. unfold f_gt, f_lt. rewrite (SFcompare_antisym x y). by destruct (SFcompare x y) as [[]|]. Qed.

Lemma f_eq_sym x y : f_eq x y = f_eq y x.
Proof. unfold f_eq. rewrite (SFcompare_antisym x y). by destruct (SFcompare x y) as [[]|]. Qed.

(** At most one of the three comparisons holds. *)
Lemma f_lt_not_gt x y : f_lt x y = true -> f_gt x y = false /\ f_eq x y = false.
Proof. unfold f_lt, f_gt, f_eq. by destruct (SFcompare x y) as [[]|]. Qed.

Lemma binary_round_sign prec emax s m e :
  SFabs (binary_round prec emax s m e) = SFabs (binary_round prec emax (negb s) m e).
Proof.
  unfold binary_round. destruct (shl_align _ _ _) as [mz ez].
  unfold binary_round_aux. destruct (shr_fexp _ _ _ _ _) as [mrs e'].
  destruct (shr_fexp _ _ _ _ _) as [mrs' e'']. destruct (shr_m mrs'); simpl; try done.
  by destruct (e'' <=? emax - prec).
Qed.

Lemma SFabs_normalize_opp prec emax z e :
  SFabs (binary_normalize prec emax (- z) e false) = SFabs (binary_normalize prec emax z e false).
Proof.
  destruct z as [|p|p]; simpl; [done|..].
  - apply (binary_round_sign prec emax true p e).
  - apply (binary_round_sign prec emax false p e).
Qed.

(** [|x - y| = |y - x|]: rounding to nearest is symmetric. *)
Lemma SFabs_sub_sym prec emax x y :
  SFabs (SFsub prec emax x y) = SFabs (SFsub prec emax y x).
Proof.
  destruct x as [sx|sx| |sx mx ex], y as [sy|sy| |sy my ey]; simpl;
    try (by destruct sx, sy); try done.
  rewrite (Z.min_comm ey ex), <- SFabs_normalize_opp. do 2 f_equal. lia.
Qed.

Lemma f_close_sym fmt x y : f_close fmt x y = f_close fmt y x.
Proof. unfold f_close. by rewrite SFabs_sub_sym. Qed.

(** A finite number is close to itself; an infinity and NaN are not. *)
Definition f_finite (x : float) : bool :=
  match x with S754_zero _ | S754_finite _ _ _ => true | _ => false end.

Lemma SFsub_self prec emax x :
  f_finite x = true -> SFabs (SFsub prec emax x x) = S754_zero false.
Proof.
  destruct x as [s|s| |s m e]; simpl; try done; [by destruct s|].
  intros _. by rewrite Z.sub_diag.
Qed.

Lemma f_close_refl_f64 x : f_close f64 x x = f_finite x.
Proof.
  destruct (f_finite x) eqn:E.
  - unfold f_close. by rewrite (SFsub_self _ _ _ E).
  - by destruct x as [s|s| |s m e]; [|destruct s| |].
Qed.

Lemma f_close_refl_f32 x : f_close f32 x x = f_finite x.
Proof.
  destruct (f_finite x) eqn:E.
  - unfold f_close. by rewrite (SFsub_self _ _ _ E).
  - by destruct x as [s|s| |s m e]; [|destruct s| |].
Qed.

(** ** Parsing integers: bounds *)

Lemma parse_int_bounds ty s z :
  parse_int ty s = Some z -> int_min ty <= z <= int_max ty.
Proof.
  intros H. apply in_range_spec. unfold parse_int in H. crush_match_in H; done.
Qed.
