(* ===== verification/Types.v ===== *)
(** * Types: the data model of the broker

    src/kuksa_databroker/databroker/src/types.rs: the enumerations
    [DataType], [EntryType], [ChangeType], the tagged union [DataValue] and
    its three comparison operators.  Integers are kept at their width by
    [dv_wf]; floats are the IEEE formats of [Floats]. *)

From S2P Require Import Prelude Floats.
From Stdlib Require Import SpecFloat.

Inductive DataType :=
| DT_String | DT_Bool
| DT_Int8 | DT_Int16 | DT_Int32 | DT_Int64
| DT_Uint8 | DT_Uint16 | DT_Uint32 | DT_Uint64
| DT_Float | DT_Double
| DT_StringArray | DT_BoolArray
| DT_Int8Array | DT_Int16Array | DT_Int32Array | DT_Int64Array
| DT_Uint8Array | DT_Uint16Array | DT_Uint32Array | DT_Uint64Array
| DT_FloatArray | DT_DoubleArray.

Inductive EntryType := ET_Sensor | ET_Attribute | ET_Actuator.

Inductive ChangeType := CT_Static | CT_OnChange | CT_Continuous.

#[export] Instance DataType_eq_dec : EqDecision DataType.
Proof. solve_decision. Defined.
#[export] Instance EntryType_eq_dec : EqDecision EntryType.
Proof. solve_decision. Defined.
#[export] Instance ChangeType_eq_dec : EqDecision ChangeType.
Proof. solve_decision. Defined.

Inductive DataValue :=
| DV_NotAvailable
| DV_Bool (b : bool)
| DV_String (s : string)
| DV_Int32 (z : Z)
| DV_Int64 (z : Z)
| DV_Uint32 (z : Z)
| DV_Uint64 (z : Z)
| DV_Float (x : float)
| DV_Double (x : float)
| DV_BoolArray (l : list bool)
| DV_StringArray (l : list string)
| DV_Int32Array (l : list Z)
| DV_Int64Array (l : list Z)
| DV_Uint32Array (l : list Z)
| DV_Uint64Array (l : list Z)
| DV_FloatArray (l : list float)
| DV_DoubleArray (l : list float).

#[export] Instance spec_float_eq_dec : EqDecision spec_float.
Proof. solve_decision. Defined.
#[export] Instance DataValue_eq_dec : EqDecision DataValue.
Proof. solve_decision. Defined.

Inductive CastError := CastErr.

(** [#[derive(PartialEq)]] on [Vec<T>]: same length and equal elements. *)
Fixpoint vec_eqb {A} (eqb : A -> A -> bool) (l k : list A) : bool :=
  match l, k with
  | [], [] => true
  | a :: l, b :: k => eqb a b && vec_eqb eqb l k
  | _, _ => false
  end.

(** [#[derive(PartialEq)]] on [DataValue].  Floats compare as IEEE numbers, so
    this relation is not reflexive (NaN) and identifies the two zeros. *)
Definition dv_eqb (a b : DataValue) : bool :=
  match a, b with
  | DV_NotAvailable, DV_NotAvailable => true
  | DV_Bool x, DV_Bool y => Bool.eqb x y
  | DV_String x, DV_String y => String.eqb x y
  | DV_Int32 x, DV_Int32 y | DV_Int64 x, DV_Int64 y
  | DV_Uint32 x, DV_Uint32 y | DV_Uint64 x, DV_Uint64 y => x =? y
  | DV_Float x, DV_Float y | DV_Double x, DV_Double y => f_eq x y
  | DV_BoolArray x, DV_BoolArray y => vec_eqb Bool.eqb x y
  | DV_StringArray x, DV_StringArray y => vec_eqb String.eqb x y
  | DV_Int32Array x, DV_Int32Array y | DV_Int64Array x, DV_Int64Array y
  | DV_Uint32Array x, DV_Uint32Array y | DV_Uint64Array x, DV_Uint64Array y => vec_eqb Z.eqb x y
  | DV_FloatArray x, DV_FloatArray y | DV_DoubleArray x, DV_DoubleArray y => vec_eqb f_eq x y
  | _, _ => false
  end.

(** Every integer lies in the range of its Rust type. *)
Definition dv_wf (v : DataValue) : bool :=
  match v with
  | DV_Int32 z => in_range i32 z
  | DV_Int64 z => in_range i64 z
  | DV_Uint32 z => in_range u32 z
  | DV_Uint64 z => in_range u64 z
  | DV_Int32Array l => forallb (in_range i32) l
  | DV_Int64Array l => forallb (in_range i64) l
  | DV_Uint32Array l => forallb (in_range u32) l
  | DV_Uint64Array l => forallb (in_range u64) l
  | _ => true
  end.

(** ** The comparison operators *)

(** [DataValue::greater_than], case by case. *)
Definition greater_than (self other : DataValue) : result bool CastError :=
  match self, other with
  | DV_Int32 value, DV_Int32 other_value => Ok (value >? other_value)
  | DV_Int32 value, DV_Int64 other_value => Ok (value >? other_value)
  | DV_Int32 value, DV_Uint32 other_value => Ok (value >? other_value)
  | DV_Int32 value, DV_Uint64 other_value =>
      if value <? 0 then Ok false
      else match try_from u64 value with
           | Ok value => Ok (value >? other_value)
           | Err _ => Err CastErr
           end
  | DV_Int32 value, DV_Float other_value => Ok (f_gt (f64_from_int value) (f64_from_f32 other_value))
  | DV_Int32 value, DV_Double other_value => Ok (f_gt (f64_from_int value) other_value)
  | DV_Int64 value, DV_Int32 other_value => Ok (value >? other_value)
  | DV_Int64 value, DV_Int64 other_value => Ok (value >? other_value)
  | DV_Int64 value, DV_Uint32 other_value => Ok (value >? other_value)
  | DV_Int64 value, DV_Uint64 other_value =>
      if value <? 0 then Ok false
      else match try_from u64 value with
           | Ok value => Ok (value >? other_value)
           | Err _ => Err CastErr
           end
  | DV_Int64 value, DV_Float other_value =>
      match try_from i32 value with
      | Ok value => Ok (f_gt (f64_from_int value) (f64_from_f32 other_value))
      | Err _ => Err CastErr
      end
  | DV_Int64 value, DV_Double other_value =>
      match try_from i32 value with
      | Ok value => Ok (f_gt (f64_from_int value) other_value)
      | Err _ => Err CastErr
      end
  | DV_Uint32 value, DV_Int32 other_value => Ok (value >? other_value)
  | DV_Uint32 value, DV_Int64 other_value => Ok (value >? other_value)
  | DV_Uint32 value, DV_Uint32 other_value => Ok (value >? other_value)
  | DV_Uint32 value, DV_Uint64 other_value => Ok (value >? other_value)
  | DV_Uint32 value, DV_Float other_value => Ok (f_gt (f64_from_int value) (f64_from_f32 other_value))
  | DV_Uint32 value, DV_Double other_value => Ok (f_gt (f64_from_int value) other_value)
  | DV_Uint64 value, DV_Int32 other_value =>
      if other_value <? 0 then Ok true
      else match try_from u64 other_value with
           | Ok other_value => Ok (value >? other_value)
           | Err _ => Err CastErr
           end
  | DV_Uint64 value, DV_Int64 other_value =>
      if other_value <? 0 then Ok true
      else match try_from u64 other_value with
           | Ok other_value => Ok (value >? other_value)
           | Err _ => Err CastErr
           end
  | DV_Uint64 value, DV_Uint32 other_value => Ok (value >? other_value)
  | DV_Uint64 value, DV_Uint64 other_value => Ok (value >? other_value)
  | DV_Uint64 value, DV_Float other_value =>
      match try_from u32 value with
      | Ok value => Ok (f_gt (f64_from_int value) (f64_from_f32 other_value))
      | Err _ => Err CastErr
      end
  | DV_Uint64 value, DV_Double other_value =>
      match try_from u32 value with
      | Ok value => Ok (f_gt (f64_from_int value) other_value)
      | Err _ => Err CastErr
      end
  | DV_Float value, DV_Int32 other_value => Ok (f_gt (f64_from_f32 value) (f64_from_int other_value))
  | DV_Float value, DV_Int64 other_value =>
      match try_from i32 other_value with
      | Ok other_value => Ok (f_gt (f64_from_f32 value) (f64_from_int other_value))
      | Err _ => Err CastErr
      end
  | DV_Float value, DV_Uint32 other_value => Ok (f_gt (f64_from_f32 value) (f64_from_int other_value))
  | DV_Float value, DV_Uint64 other_value =>
      match try_from u32 other_value with
      | Ok other_value => Ok (f_gt (f64_from_f32 value) (f64_from_int other_value))
      | Err _ => Err CastErr
      end
  | DV_Float value, DV_Float other_value => Ok (f_gt value other_value)
  | DV_Float value, DV_Double other_value => Ok (f_gt (f64_from_f32 value) other_value)
  | DV_Double value, DV_Int32 other_value => Ok (f_gt value (f64_from_int other_value))
  | DV_Double value, DV_Int64 other_value =>
      match try_from i32 other_value with
      | Ok other_value => Ok (f_gt value (f64_from_int other_value))
      | Err _ => Err CastErr
      end
  | DV_Double value, DV_Uint32 other_value => Ok (f_gt value (f64_from_int other_value))
  | DV_Double value, DV_Uint64 other_value =>
      match try_from u32 other_value with
      | Ok other_value => Ok (f_gt value (f64_from_int other_value))
      | Err _ => Err CastErr
      end
  | DV_Double value, DV_Float other_value => Ok (f_gt value (f64_from_f32 other_value))
  | DV_Double value, DV_Double other_value => Ok (f_gt value other_value)
  | _, _ => Err CastErr
  end.

(** [DataValue::less_than], case by case. *)
Definition less_than (self other : DataValue) : result bool CastError :=
  match self, other with
  | DV_Int32 value, DV_Int32 other_value => Ok (value <? other_value)
  | DV_Int32 value, DV_Int64 other_value => Ok (value <? other_value)
  | DV_Int32 value, DV_Uint32 other_value => Ok (value <? other_value)
  | DV_Int32 value, DV_Uint64 other_value =>
      if value <? 0 then Ok true
      else match try_from u64 value with
           | Ok value => Ok (value <? other_value)
           | Err _ => Err CastErr
           end
  | DV_Int32 value, DV_Float other_value => Ok (f_lt (f64_from_int value) (f64_from_f32 other_value))
  | DV_Int32 value, DV_Double other_value => Ok (f_lt (f64_from_int value) other_value)
  | DV_Int64 value, DV_Int32 other_value => Ok (value <? other_value)
  | DV_Int64 value, DV_Int64 other_value => Ok (value <? other_value)
  | DV_Int64 value, DV_Uint32 other_value => Ok (value <? other_value)
  | DV_Int64 value, DV_Uint64 other_value =>
      if value <? 0 then Ok true
      else match try_from u64 value with
           | Ok value => Ok (value <? other_value)
           | Err _ => Err CastErr
           end
  | DV_Int64 value, DV_Float other_value =>
      match try_from i32 value with
      | Ok value => Ok (f_lt (f64_from_int value) (f64_from_f32 other_value))
      | Err _ => Err CastErr
      end
  | DV_Int64 value, DV_Double other_value =>
      match try_from i32 value with
      | Ok value => Ok (f_lt (f64_from_int value) other_value)
      | Err _ => Err CastErr
      end
  | DV_Uint32 value, DV_Int32 other_value => Ok (value <? other_value)
  | DV_Uint32 value, DV_Int64 other_value => Ok (value <? other_value)
  | DV_Uint32 value, DV_Uint32 other_value => Ok (value <? other_value)
  | DV_Uint32 value, DV_Uint64 other_value => Ok (value <? other_value)
  | DV_Uint32 value, DV_Float other_value => Ok (f_lt (f64_from_int value) (f64_from_f32 other_value))
  | DV_Uint32 value, DV_Double other_value => Ok (f_lt (f64_from_int value) other_value)
  | DV_Uint64 value, DV_Int32 other_value =>
      if other_value <? 0 then Ok false
      else match try_from u64 other_value with
           | Ok other_value => Ok (value <? other_value)
           | Err _ => Err CastErr
           end
  | DV_Uint64 value, DV_Int64 other_value =>
      if other_value <? 0 then Ok false
      else match try_from u64 other_value with
           | Ok other_value => Ok (value <? other_value)
           | Err _ => Err CastErr
           end
  | DV_Uint64 value, DV_Uint32 other_value => Ok (value <? other_value)
  | DV_Uint64 value, DV_Uint64 other_value => Ok (value <? other_value)
  | DV_Uint64 value, DV_Float other_value =>
      match try_from u32 value with
      | Ok value => Ok (f_lt (f64_from_int value) (f64_from_f32 other_value))
      | Err _ => Err CastErr
      end
  | DV_Uint64 value, DV_Double other_value =>
      match try_from u32 value with
      | Ok value => Ok (f_lt (f64_from_int value) other_value)
      | Err _ => Err CastErr
      end
  | DV_Float value, DV_Int32 other_value => Ok (f_lt (f64_from_f32 value) (f64_from_int other_value))
  | DV_Float value, DV_Int64 other_value =>
      match try_from i32 other_value with
      | Ok other_value => Ok (f_lt (f64_from_f32 value) (f64_from_int other_value))
      | Err _ => Err CastErr
      end
  | DV_Float value, DV_Uint32 other_value => Ok (f_lt (f64_from_f32 value) (f64_from_int other_value))
  | DV_Float value, DV_Uint64 other_value =>
      match try_from u32 other_value with
      | Ok other_value => Ok (f_lt (f64_from_f32 value) (f64_from_int other_value))
      | Err _ => Err CastErr
      end
  | DV_Float value, DV_Float other_value => Ok (f_lt value other_value)
  | DV_Float value, DV_Double other_value => Ok (f_lt (f64_from_f32 value) other_value)
  | DV_Double value, DV_Int32 other_value => Ok (f_lt value (f64_from_int other_value))
  | DV_Double value, DV_Int64 other_value =>
      match try_from i32 other_value with
      | Ok other_value => Ok (f_lt value (f64_from_int other_value))
      | Err _ => Err CastErr
      end
  | DV_Double value, DV_Uint32 other_value => Ok (f_lt value (f64_from_int other_value))
  | DV_Double value, DV_Uint64 other_value =>
      match try_from u32 other_value with
      | Ok other_value => Ok (f_lt value (f64_from_int other_value))
      | Err _ => Err CastErr
      end
  | DV_Double value, DV_Float other_value => Ok (f_lt value (f64_from_f32 other_value))
  | DV_Double value, DV_Double other_value => Ok (f_lt value other_value)
  | _, _ => Err CastErr
  end.

(** [DataValue::equals], case by case: floats are equal when they differ by less
    than the epsilon of the format compared in. *)
Definition equals (self other : DataValue) : result bool CastError :=
  match self, other with
  | DV_Bool value, DV_Bool other_value => Ok (Bool.eqb value other_value)
  | DV_String value, DV_String other_value => Ok (String.eqb value other_value)
  | DV_Int32 value, DV_Int32 other_value => Ok (value =? other_value)
  | DV_Int32 value, DV_Int64 other_value => Ok (value =? other_value)
  | DV_Int32 value, DV_Uint32 other_value => Ok (value =? other_value)
  | DV_Int32 value, DV_Uint64 other_value =>
      if value <? 0 then Ok false
      else match try_from u64 value with
           | Ok value => Ok (value =? other_value)
           | Err _ => Err CastErr
           end
  | DV_Int32 value, DV_Float other_value => Ok (f_close f64 (f64_from_int value) (f64_from_f32 other_value))
  | DV_Int32 value, DV_Double other_value => Ok (f_close f64 (f64_from_int value) other_value)
  | DV_Int64 value, DV_Int32 other_value => Ok (value =? other_value)
  | DV_Int64 value, DV_Int64 other_value => Ok (value =? other_value)
  | DV_Int64 value, DV_Uint32 other_value => Ok (value =? other_value)
  | DV_Int64 value, DV_Uint64 other_value =>
      if value <? 0 then Ok false
      else match try_from u64 value with
           | Ok value => Ok (value =? other_value)
           | Err _ => Err CastErr
           end
  | DV_Int64 value, DV_Float other_value =>
      match try_from i32 value with
      | Ok value => Ok (f_close f64 (f64_from_int value) (f64_from_f32 other_value))
      | Err _ => Err CastErr
      end
  | DV_Int64 value, DV_Double other_value =>
      match try_from i32 value with
      | Ok value => Ok (f_close f64 (f64_from_int value) other_value)
      | Err _ => Err CastErr
      end
  | DV_Uint32 value, DV_Int32 other_value => Ok (value =? other_value)
  | DV_Uint32 value, DV_Int64 other_value => Ok (value =? other_value)
  | DV_Uint32 value, DV_Uint32 other_value => Ok (value =? other_value)
  | DV_Uint32 value, DV_Uint64 other_value => Ok (value =? other_value)
  | DV_Uint32 value, DV_Float other_value => Ok (f_close f64 (f64_from_int value) (f64_from_f32 other_value))
  | DV_Uint32 value, DV_Double other_value => Ok (f_close f64 (f64_from_int value) other_value)
  | DV_Uint64 value, DV_Int32 other_value =>
      if other_value <? 0 then Ok false
      else match try_from u64 other_value with
           | Ok other_value => Ok (value =? other_value)
           | Err _ => Err CastErr
           end
  | DV_Uint64 value, DV_Int64 other_value =>
      if other_value <? 0 then Ok false
      else match try_from u64 other_value with
           | Ok other_value => Ok (value =? other_value)
           | Err _ => Err CastErr
           end
  | DV_Uint64 value, DV_Uint32 other_value => Ok (value =? other_value)
  | DV_Uint64 value, DV_Uint64 other_value => Ok (value =? other_value)
  | DV_Uint64 value, DV_Float other_value =>
      match try_from u32 value with
      | Ok value => Ok (f_close f64 (f64_from_int value) (f64_from_f32 other_value))
      | Err _ => Err CastErr
      end
  | DV_Uint64 value, DV_Double other_value =>
      match try_from u32 value with
      | Ok value => Ok (f_close f64 (f64_from_int value) other_value)
      | Err _ => Err CastErr
      end
  | DV_Float value, DV_Int32 other_value => Ok (f_close f64 (f64_from_f32 value) (f64_from_int other_value))
  | DV_Float value, DV_Int64 other_value =>
      match try_from i32 other_value with
      | Ok other_value => Ok (f_close f64 (f64_from_f32 value) (f64_from_int other_value))
      | Err _ => Err CastErr
      end
  | DV_Float value, DV_Uint32 other_value => Ok (f_close f64 (f64_from_f32 value) (f64_from_int other_value))
  | DV_Float value, DV_Uint64 other_value =>
      match try_from u32 other_value with
      | Ok other_value => Ok (f_close f64 (f64_from_f32 value) (f64_from_int other_value))
      | Err _ => Err CastErr
      end
  | DV_Float value, DV_Float other_value => Ok (f_close f32 value other_value)
  | DV_Float value, DV_Double other_value => Ok (f_close f64 (f64_from_f32 value) other_value)
  | DV_Double value, DV_Int32 other_value => Ok (f_close f64 value (f64_from_int other_value))
  | DV_Double value, DV_Int64 other_value =>
      match try_from i32 other_value with
      | Ok other_value => Ok (f_close f64 value (f64_from_int other_value))
      | Err _ => Err CastErr
      end
  | DV_Double value, DV_Uint32 other_value => Ok (f_close f64 value (f64_from_int other_value))
  | DV_Double value, DV_Uint64 other_value =>
      match try_from u32 other_value with
      | Ok other_value => Ok (f_close f64 value (f64_from_int other_value))
      | Err _ => Err CastErr
      end
  | DV_Double value, DV_Float other_value => Ok (f_close f64 value (f64_from_f32 other_value))
  | DV_Double value, DV_Double other_value => Ok (f_close f64 value other_value)
  | _, _ => Err CastErr
  end.

(** ** Properties of the comparison operators *)

(** The integer a value denotes, for the four integer kinds. *)
Definition int_value (v : DataValue) : option Z :=
  match v with
  | DV_Int32 z | DV_Int64 z | DV_Uint32 z | DV_Uint64 z => Some z
  | _ => None
  end.

(** Numeric scalar kinds. *)
Definition is_numeric (v : DataValue) : bool :=
  match v with
  | DV_Int32 _ | DV_Int64 _ | DV_Uint32 _ | DV_Uint64 _ | DV_Float _ | DV_Double _ => true
  | _ => false
  end.
Definition is_float (v : DataValue) : bool :=
  match v with DV_Float _ | DV_Double _ => true | _ => false end.

(** A value that may be compared with a float: a 64-bit integer only when it
    fits the 32-bit type of the same signedness. *)
Definition fits_f64 (v : DataValue) : bool :=
  match v with
  | DV_Int64 z => in_range i32 z
  | DV_Uint64 z => in_range u32 z
  | _ => is_numeric v
  end.

(** The pairs the ordering operators are defined on. *)
Definition comparable (a b : DataValue) : bool :=
  is_numeric a && is_numeric b &&
  (if is_float a || is_float b then fits_f64 a && fits_f64 b else true).

(** The pairs equality is defined on. *)
Definition equatable (a b : DataValue) : bool :=
  match a, b with
  | DV_Bool _, DV_Bool _ | DV_String _, DV_String _ => true
  | _, _ => comparable a b
  end.

Lemma u64_try_from_nonneg z :
  z <= int_max u64 -> (z <? 0) = false -> try_from u64 z = Ok z.
Proof. intros Hm Hz. apply Z.ltb_ge in Hz. apply try_from_Ok. simpl in *. lia. Qed.

(** Resolve the casts and sign tests of an integer comparison. *)
Ltac solve_int_cmp :=
  repeat match goal with
  | H : in_range _ _ = true |- _ => apply in_range_spec in H; simpl in H
  | |- context [if ?z <? 0 then _ else _] => destruct (z <? 0) eqn:?
  | |- context [try_from u64 ?z] => rewrite (u64_try_from_nonneg z) by (simpl; lia || done)
  end;
  bool_hyps; try done; f_equal; symmetry;
  first [apply Z.gtb_lt | apply Z.ltb_lt | apply Z.ltb_ge
        | rewrite Z.gtb_ltb; apply Z.ltb_ge | apply Z.eqb_neq]; lia.

Lemma compare_ints a b x y :
  dv_wf a = true -> dv_wf b = true ->
  int_value a = Some x -> int_value b = Some y ->
  greater_than a b = Ok (x >? y) /\ less_than a b = Ok (x <? y) /\ equals a b = Ok (x =? y).
Proof.
  intros Ha Hb Hx Hy.
  destruct a; simplify_eq/=; destruct b; simplify_eq/=; split_and!; solve_int_cmp.
Qed.

(** On the four integer kinds the comparison operators never fail and
    agree with the order of the integers, whatever the widths and signedness
    of the two sides. *)
Theorem compare_integers a b x y :
  dv_wf a = true -> dv_wf b = true ->
  int_value a = Some x -> int_value b = Some y ->
  greater_than a b = Ok (x >? y) /\ less_than a b = Ok (x <? y) /\ equals a b = Ok (x =? y).
Proof. apply compare_ints. Qed.

Lemma compare_integers_witness :
  greater_than (DV_Uint64 18446744073709551615) (DV_Int32 (-1)) = Ok true /\
  less_than (DV_Uint64 18446744073709551615) (DV_Int32 (-1)) = Ok false /\
  equals (DV_Uint64 18446744073709551615) (DV_Int32 (-1)) = Ok false.
Proof.
  apply (compare_integers (DV_Uint64 18446744073709551615) (DV_Int32 (-1))
           18446744073709551615 (-1)); reflexivity.
Defined.

(** The two ordering operators are dual on all values: [a > b] and
    [b < a] give the same answer or the same error. *)
Theorem greater_than_less_than_dual a b : greater_than a b = less_than b a.
Proof.
  destruct a, b; simpl; try done; rewrite ?Z.gtb_ltb, ?f_gt_lt; try done;
    destruct (try_from _ _); try done; by rewrite ?Z.gtb_ltb, ?f_gt_lt.
Qed.

(** Equality is symmetric on all values, errors included. *)
Theorem equals_sym a b : equals a b = equals b a.
Proof.
  destruct a as [|x|x|x|x|x|x|x|x| | | | | | | |], b as [|y|y|y|y|y|y|y|y| | | | | | | |]; simpl; try done;
    try (by rewrite f_close_sym); try (by rewrite Z.eqb_sym).
  { by destruct x, y. }
  { by rewrite String.eqb_sym. }
  all: repeat case_match; try done; first [by rewrite f_close_sym | by rewrite Z.eqb_sym].
Qed.

Lemma try_from_is_ok ty z : is_ok (try_from ty z) = in_range ty z.
Proof. unfold try_from. by destruct (in_range ty z). Qed.

(** The ordering operators are defined exactly on the comparable pairs:
    two numbers, where a 64-bit integer compared with a float must fit 32
    bits; equality is defined in addition on two booleans and two strings.
    Everything else is a [CastError]. *)
Theorem comparison_defined a b :
  dv_wf a = true -> dv_wf b = true ->
  is_ok (greater_than a b) = comparable a b /\
  is_ok (less_than a b) = comparable a b /\
  is_ok (equals a b) = equatable a b.
Proof.
  intros Ha Hb.
  destruct a as [|x|x|x|x|x|x|x|x| | | | | | | |], b as [|y|y|y|y|y|y|y|y| | | | | | | |];
    simpl in *; try done;
    unfold comparable, fits_f64, is_numeric, is_float; simpl;
    rewrite <- ?try_from_is_ok, ?andb_true_r;
    split_and!; repeat case_match; try done;
    bool_hyps; rewrite ?in_range_spec in *; simpl in *;
    match goal with H : try_from _ ?z = Err _ |- _ => exfalso; unfold try_from in H;
      destruct (in_range u64 z) eqn:E; [done|]; apply not_true_iff_false in E;
      apply E, in_range_spec; simpl; lia end.
Qed.

Lemma comparison_defined_witness :
  is_ok (greater_than (DV_Int64 4294967296) (DV_Double (S754_zero false))) = false /\
  is_ok (less_than (DV_Int64 4294967296) (DV_Double (S754_zero false))) = false /\
  is_ok (equals (DV_Int64 4294967296) (DV_Double (S754_zero false))) = false.
Proof.
  apply (comparison_defined (DV_Int64 4294967296) (DV_Double (S754_zero false))); reflexivity.
Defined.

(** A float value equals itself exactly when it is finite: the epsilon
    test makes neither an infinity nor NaN equal to itself. *)
Theorem equals_self_float x :
  equals (DV_Float x) (DV_Float x) = Ok (f_finite x) /\
  equals (DV_Double x) (DV_Double x) = Ok (f_finite x).
Proof. simpl. by rewrite f_close_refl_f32, f_close_refl_f64. Qed.
