(* ===== verification/TypesTests.v ===== *)
(** * TypesTests: the test suite of types.rs

    The tests of src/kuksa_databroker/databroker/src/types.rs on the model: every
    assertion of the source evaluates to true. *)

From S2P Require Import Prelude Floats Types.

(** A literal of a float type. *)
Definition f32_lit (z : Z) : float := decimal_to_float f32 (z <? 0) (Z.abs z) 0.
Definition f64_lit (z : Z) : float := decimal_to_float f64 (z <? 0) (Z.abs z) 0.

(** [r.is_err()], [matches!(r, Ok(true))], [matches!(r, Ok(false))]. *)
Definition is_err (r : result bool CastError) : bool := negb (is_ok r).
Definition is_true (r : result bool CastError) : bool := match r with Ok true => true | _ => false end.
Definition is_false (r : result bool CastError) : bool := match r with Ok false => true | _ => false end.

Definition test_string_greater_than : bool :=
  is_err (greater_than (DV_String "string") (DV_NotAvailable))
  && is_err (greater_than (DV_String "string") (DV_Bool false))
  && is_err (greater_than (DV_String "string") (DV_String "string2"))
  && is_err (greater_than (DV_String "string") (DV_Int32 100))
  && is_err (greater_than (DV_String "string") (DV_Int64 100))
  && is_err (greater_than (DV_String "string") (DV_Uint32 100))
  && is_err (greater_than (DV_String "string") (DV_Uint64 100))
  && is_err (greater_than (DV_String "string") (DV_Float (f32_lit 100)))
  && is_err (greater_than (DV_String "string") (DV_Double (f64_lit 100))).

Definition test_not_available_greater_than : bool :=
  is_err (greater_than (DV_NotAvailable) (DV_NotAvailable))
  && is_err (greater_than (DV_NotAvailable) (DV_Bool false))
  && is_err (greater_than (DV_NotAvailable) (DV_String "string"))
  && is_err (greater_than (DV_NotAvailable) (DV_Int32 100))
  && is_err (greater_than (DV_NotAvailable) (DV_Int64 100))
  && is_err (greater_than (DV_NotAvailable) (DV_Uint32 100))
  && is_err (greater_than (DV_NotAvailable) (DV_Uint64 100))
  && is_err (greater_than (DV_NotAvailable) (DV_Float (f32_lit 100)))
  && is_err (greater_than (DV_NotAvailable) (DV_Double (f64_lit 100))).

Definition test_bool_greater_than : bool :=
  is_err (greater_than (DV_Bool false) (DV_NotAvailable))
  && is_err (greater_than (DV_Bool false) (DV_Bool false))
  && is_err (greater_than (DV_Bool false) (DV_String "string"))
  && is_err (greater_than (DV_Bool false) (DV_Int32 100))
  && is_err (greater_than (DV_Bool false) (DV_Int64 100))
  && is_err (greater_than (DV_Bool false) (DV_Uint32 100))
  && is_err (greater_than (DV_Bool false) (DV_Uint64 100))
  && is_err (greater_than (DV_Bool false) (DV_Float (f32_lit 100)))
  && is_err (greater_than (DV_Bool false) (DV_Double (f64_lit 100))).

Definition test_int32_greater_than : bool :=
  is_err (greater_than (DV_Int32 5000) (DV_NotAvailable))
  && is_err (greater_than (DV_Int32 5000) (DV_Bool true))
  && is_err (greater_than (DV_Int32 5000) (DV_String "string"))
  && is_true (greater_than (DV_Int32 5000) (DV_Int32 4000))
  && is_true (greater_than (DV_Int32 5000) (DV_Int32 (-4000)))
  && is_true (greater_than (DV_Int32 (-4000)) (DV_Int32 (-5000)))
  && is_true (greater_than (DV_Int32 5000) (DV_Int64 4000))
  && is_true (greater_than (DV_Int32 5000) (DV_Int64 (-4000)))
  && is_true (greater_than (DV_Int32 5000) (DV_Uint32 4000))
  && is_true (greater_than (DV_Int32 (-4000)) (DV_Int64 (-5000)))
  && is_true (greater_than (DV_Int32 (int_max i32)) (DV_Uint64 (int_max i32 - 1)))
  && is_true (greater_than (DV_Int32 30) (DV_Uint64 20))
  && is_false (greater_than (DV_Int32 (-5000)) (DV_Uint32 4000))
  && is_false (greater_than (DV_Int32 4000) (DV_Uint32 5000))
  && is_false (greater_than (DV_Int32 20) (DV_Uint64 20))
  && is_false (greater_than (DV_Int32 10) (DV_Uint64 20))
  && is_false (greater_than (DV_Int32 (-10)) (DV_Uint64 20))
  && is_false (greater_than (DV_Int32 (-10)) (DV_Uint64 (int_max u64))).

Definition test_int64_greater_than : bool :=
  is_err (greater_than (DV_Int64 5000) (DV_NotAvailable))
  && is_err (greater_than (DV_Int64 5000) (DV_Bool true))
  && is_err (greater_than (DV_Int64 5000) (DV_String "string"))
  && is_true (greater_than (DV_Int64 5000) (DV_Int32 4000))
  && is_true (greater_than (DV_Int64 5000) (DV_Int32 (-4000)))
  && is_true (greater_than (DV_Int64 (-4000)) (DV_Int32 (-5000)))
  && is_true (greater_than (DV_Int64 5000) (DV_Int64 4000))
  && is_true (greater_than (DV_Int64 5000) (DV_Int64 (-4000)))
  && is_true (greater_than (DV_Int64 5000) (DV_Uint32 4000))
  && is_true (greater_than (DV_Int64 (-4000)) (DV_Int64 (-5000)))
  && is_true (greater_than (DV_Int64 (int_max i32)) (DV_Uint64 (int_max i32 - 1)))
  && is_true (greater_than (DV_Int64 30) (DV_Uint64 20))
  && is_false (greater_than (DV_Int64 (-10)) (DV_Uint64 (int_max u64)))
  && is_false (greater_than (DV_Int64 (-5000)) (DV_Uint32 4000))
  && is_false (greater_than (DV_Int64 4000) (DV_Uint32 5000))
  && is_false (greater_than (DV_Int64 20) (DV_Uint64 20))
  && is_false (greater_than (DV_Int64 10) (DV_Uint64 20))
  && is_false (greater_than (DV_Int64 (-10)) (DV_Uint64 20)).

Definition test_uint32_greater_than : bool :=
  is_err (greater_than (DV_Uint32 5000) (DV_NotAvailable))
  && is_err (greater_than (DV_Uint32 5000) (DV_Bool true))
  && is_err (greater_than (DV_Uint32 5000) (DV_String "string"))
  && is_true (greater_than (DV_Uint32 5000) (DV_Int32 4000))
  && is_true (greater_than (DV_Uint32 5000) (DV_Int32 (-4000)))
  && is_true (greater_than (DV_Uint32 5000) (DV_Int64 4000))
  && is_true (greater_than (DV_Uint32 5000) (DV_Int64 (-4000)))
  && is_true (greater_than (DV_Uint32 5000) (DV_Float (f32_lit 4000)))
  && is_true (greater_than (DV_Uint32 5000) (DV_Double (f64_lit (-4000))))
  && is_true (greater_than (DV_Uint32 5000) (DV_Uint32 4000))
  && is_true (greater_than (DV_Uint32 (int_max u32)) (DV_Int32 (-5000)))
  && is_true (greater_than (DV_Uint32 (int_max u32)) (DV_Int64 (int_min i64)))
  && is_true (greater_than (DV_Uint32 30) (DV_Uint64 20))
  && is_false (greater_than (DV_Uint32 4000) (DV_Int32 5000))
  && is_false (greater_than (DV_Uint32 4000) (DV_Uint32 5000))
  && is_false (greater_than (DV_Uint32 20) (DV_Uint64 20))
  && is_false (greater_than (DV_Uint32 10) (DV_Uint64 20))
  && is_false (greater_than (DV_Uint32 20) (DV_Float (f32_lit 20)))
  && is_false (greater_than (DV_Uint32 10) (DV_Double (f64_lit 20))).

Definition test_uint64_greater_than : bool :=
  is_err (greater_than (DV_Uint64 5000) (DV_NotAvailable))
  && is_err (greater_than (DV_Uint64 5000) (DV_Bool true))
  && is_err (greater_than (DV_Uint64 5000) (DV_String "string"))
  && is_true (greater_than (DV_Uint64 5000) (DV_Int32 4000))
  && is_true (greater_than (DV_Uint64 5000) (DV_Int32 (-4000)))
  && is_true (greater_than (DV_Uint64 5000) (DV_Int64 4000))
  && is_true (greater_than (DV_Uint64 5000) (DV_Int64 (-4000)))
  && is_true (greater_than (DV_Uint64 5000) (DV_Float (f32_lit 4000)))
  && is_true (greater_than (DV_Uint64 5000) (DV_Double (f64_lit (-4000))))
  && is_true (greater_than (DV_Uint64 5000) (DV_Uint32 4000))
  && is_true (greater_than (DV_Uint64 (int_max u64)) (DV_Int64 (int_max i64 - 1)))
  && is_true (greater_than (DV_Uint64 30) (DV_Uint64 20))
  && is_false (greater_than (DV_Uint64 4000) (DV_Uint32 5000))
  && is_false (greater_than (DV_Uint64 20) (DV_Uint64 20))
  && is_false (greater_than (DV_Uint64 10) (DV_Uint64 20))
  && is_false (greater_than (DV_Uint64 20) (DV_Float (f32_lit 20)))
  && is_false (greater_than (DV_Uint64 10) (DV_Double (f64_lit 20))).

Definition test_float_equals : bool :=
  is_err (greater_than (DV_Float (f32_lit 5000)) (DV_NotAvailable))
  && is_err (greater_than (DV_Float (f32_lit 5000)) (DV_Bool true))
  && is_err (greater_than (DV_Float (f32_lit 5000)) (DV_String "string"))
  && is_true (equals (DV_Float (f32_lit 32)) (DV_Int32 32))
  && is_true (equals (DV_Float (f32_lit 32)) (DV_Int64 32))
  && is_true (equals (DV_Float (f32_lit 32)) (DV_Uint32 32))
  && is_true (equals (DV_Float (f32_lit 32)) (DV_Uint64 32))
  && is_true (equals (DV_Float (f32_lit 32)) (DV_Float (f32_lit 32)))
  && is_true (equals (DV_Float (f32_lit 32)) (DV_Double (f64_lit 32)))
  && is_true (equals (DV_Float (f32_lit (-32))) (DV_Int32 (-32)))
  && is_true (equals (DV_Float (f32_lit (-32))) (DV_Int64 (-32)))
  && is_false (equals (DV_Float (f32_lit (-32))) (DV_Uint32 32))
  && is_false (equals (DV_Float (f32_lit (-32))) (DV_Uint64 32))
  && is_true (equals (DV_Float (f32_lit (-32))) (DV_Float (f32_lit (-32))))
  && is_true (equals (DV_Float (f32_lit (-32))) (DV_Double (f64_lit (-32))))
  && is_false (equals (DV_Float (f32_lit 32)) (DV_Int32 33))
  && is_false (equals (DV_Float (f32_lit 32)) (DV_Int64 33))
  && is_false (equals (DV_Float (f32_lit 32)) (DV_Uint32 33))
  && is_false (equals (DV_Float (f32_lit 32)) (DV_Uint64 33))
  && is_false (equals (DV_Float (f32_lit 32)) (DV_Float (f32_lit 33)))
  && is_false (equals (DV_Float (f32_lit 32)) (DV_Double (f64_lit 33)))
  && is_false (equals (DV_Float (f32_lit (-32))) (DV_Int32 (-33)))
  && is_false (equals (DV_Float (f32_lit (-32))) (DV_Int64 (-33)))
  && is_false (equals (DV_Float (f32_lit (-32))) (DV_Uint32 33))
  && is_false (equals (DV_Float (f32_lit (-32))) (DV_Uint64 33))
  && is_false (equals (DV_Float (f32_lit (-32))) (DV_Float (f32_lit (-33))))
  && is_false (equals (DV_Float (f32_lit (-32))) (DV_Double (f64_lit (-33)))).

Definition types_tests : list bool := [
  test_string_greater_than;
  test_not_available_greater_than;
  test_bool_greater_than;
  test_int32_greater_than;
  test_int64_greater_than;
  test_uint32_greater_than;
  test_uint64_greater_than;
  test_float_equals
].

Theorem types_tests_pass : forallb id types_tests = true.
Proof. vm_compute. reflexivity. Qed.
