(* ===== verification/Regex.v ===== *)
(** * Regex: regular expressions and the interface of the regex crate

    The broker compiles pattern texts with the third-party [regex] crate
    (glob.rs, permissions.rs, authorization/jwt/scope.rs).  The crate itself is
    a parameter: [RegexEngine] has its operations.  What the broker relies on
    is stated against a language semantics: [re] and [matches] (inductive),
    decided by derivatives ([re_match]).

    [pat] is the fragment of the crate's concrete syntax that
    [glob::to_regex_string] produces; [pat_text] prints it and [pat_re] gives
    its documented meaning on ASCII input. *)

From S2P Require Import Prelude.

(** ** Regular expressions over bytes *)

Inductive re :=
| REmpty
| REps
| RClass (f : Ascii.ascii -> bool)
| RSeq (r1 r2 : re)
| RAlt (r1 r2 : re)
| RStar (r : re).

Inductive matches : re -> list Ascii.ascii -> Prop :=
| m_eps : matches REps []
| m_class f c : f c = true -> matches (RClass f) [c]
| m_seq r1 r2 s1 s2 : matches r1 s1 -> matches r2 s2 -> matches (RSeq r1 r2) (s1 ++ s2)
| m_alt_l r1 r2 s : matches r1 s -> matches (RAlt r1 r2) s
| m_alt_r r1 r2 s : matches r2 s -> matches (RAlt r1 r2) s
| m_star_nil r : matches (RStar r) []
| m_star_app r s1 s2 : s1 <> [] -> matches r s1 -> matches (RStar r) s2 -> matches (RStar r) (s1 ++ s2).

#[export] Hint Constructors matches : databroker.

Definition RPlus (r : re) : re := RSeq r (RStar r).
Definition ROpt (r : re) : re := RAlt r REps.

Fixpoint nullable (r : re) : bool :=
  match r with
  | REmpty | RClass _ => false
  | REps | RStar _ => true
  | RSeq r1 r2 => nullable r1 && nullable r2
  | RAlt r1 r2 => nullable r1 || nullable r2
  end.

(** Sequence and alternative without dead branches, which keeps derivatives
    small. *)
Definition mk_seq (r1 r2 : re) : re :=
  match r1 with REmpty => REmpty | REps => r2 | _ => RSeq r1 r2 end.

Definition mk_alt (r1 r2 : re) : re :=
  match r1, r2 with REmpty, r | r, REmpty => r | _, _ => RAlt r1 r2 end.

Fixpoint deriv (c : Ascii.ascii) (r : re) : re :=
  match r with
  | REmpty | REps => REmpty
  | RClass f => if f c then REps else REmpty
  | RSeq r1 r2 =>
      if nullable r1 then mk_alt (mk_seq (deriv c r1) r2) (deriv c r2) else mk_seq (deriv c r1) r2
  | RAlt r1 r2 => mk_alt (deriv c r1) (deriv c r2)
  | RStar r => mk_seq (deriv c r) (RStar r)
  end.

Fixpoint re_match (r : re) (s : list Ascii.ascii) : bool :=
  match s with
  | [] => nullable r
  | c :: s => re_match (deriv c r) s
  end.

(** Inversion lemmas, one per constructor. *)

Lemma matches_REmpty s : ~ matches REmpty s.
Proof. inversion 1. Qed.

Lemma matches_REps s : matches REps s <-> s = [].
Proof. split; [by inversion 1 | intros ->; constructor]. Qed.

Lemma matches_RClass f s : matches (RClass f) s <-> exists c, s = [c] /\ f c = true.
Proof. split; [inversion 1; eauto | intros (c & -> & H); by constructor]. Qed.

Lemma matches_RSeq r1 r2 s :
  matches (RSeq r1 r2) s <-> exists s1 s2, s = s1 ++ s2 /\ matches r1 s1 /\ matches r2 s2.
Proof. split; [inversion 1; eauto 10 | intros (s1 & s2 & -> & ? & ?); by constructor]. Qed.

Lemma matches_RAlt r1 r2 s : matches (RAlt r1 r2) s <-> matches r1 s \/ matches r2 s.
Proof. split; [inversion 1; auto | intros [?|?]; auto with databroker]. Qed.

Lemma matches_mk_seq r1 r2 s : matches (mk_seq r1 r2) s <-> matches (RSeq r1 r2) s.
Proof.
  destruct r1; simpl; try done; rewrite matches_RSeq.
  - split; [by intros ?%matches_REmpty|by intros (s1 & s2 & _ & ?%matches_REmpty & _)].
  - split; [intros Hm; exists [], s; by split_and!; [|constructor|]|].
    by intros (s1 & s2 & -> & ->%matches_REps & Hm).
Qed.

Lemma matches_mk_alt r1 r2 s : matches (mk_alt r1 r2) s <-> matches (RAlt r1 r2) s.
Proof.
  rewrite matches_RAlt. pose proof (matches_REmpty s) as He.
  destruct r1; destruct r2; simpl; rewrite ?matches_RAlt; tauto.
Qed.

Lemma matches_RStar_cons r c s :
  matches (RStar r) (c :: s) <->
  exists s1 s2, s = s1 ++ s2 /\ matches r (c :: s1) /\ matches (RStar r) s2.
Proof.
  split.
  - inversion 1 as [| | | | | |? s1 s2 Hne Hm Hs]; subst.
    destruct s1 as [|c' s1]; [done|]. simplify_eq/=. eauto.
  - intros (s1 & s2 & -> & H1 & H2). by apply (m_star_app r (c :: s1) s2).
Qed.

Lemma nullable_matches r : nullable r = true <-> matches r [].
Proof.
  induction r; simpl.
  - split; [done | by inversion 1].
  - rewrite matches_REps. done.
  - split; [done | by rewrite matches_RClass; intros (c & ? & _)].
  - rewrite andb_true_iff, matches_RSeq, IHr1, IHr2. split.
    + intros [? ?]. by exists [], [].
    + intros (s1 & s2 & Hs & ? & ?). symmetry in Hs. apply app_eq_nil in Hs as [-> ->]. done.
  - rewrite orb_true_iff, matches_RAlt, IHr1, IHr2. done.
  - split; [intros; constructor | done].
Qed.

Lemma deriv_matches c r s : matches (deriv c r) s <-> matches r (c :: s).
Proof.
  revert s. induction r as [| |f|r1 IH1 r2 IH2|r1 IH1 r2 IH2|r IH]; intros s; simpl.
  - split; intros H; inversion H.
  - split; intros H; inversion H.
  - rewrite matches_RClass. destruct (f c) eqn:E.
    + rewrite matches_REps. split; [intros ->; eauto | by intros (c' & [= _ ->] & _)].
    + split; [by intros ?%matches_REmpty | intros (c' & [= <- _] & ?); congruence].
  - assert (matches (mk_seq (deriv c r1) r2) s <->
            exists s1 s2, s = s1 ++ s2 /\ matches r1 (c :: s1) /\ matches r2 s2) as Hl.
    { rewrite matches_mk_seq, matches_RSeq. by setoid_rewrite IH1. }
    rewrite matches_RSeq. transitivity
      ((exists s1 s2, s = s1 ++ s2 /\ matches r1 (c :: s1) /\ matches r2 s2) \/
       (matches r1 [] /\ matches r2 (c :: s))).
    + rewrite <- Hl, <- nullable_matches, <- IH2.
      destruct (nullable r1); [rewrite matches_mk_alt, matches_RAlt|]; tauto || (split; [auto|]; by intros [?|[? _]]).
    + split.
      * intros [(s1 & s2 & -> & ? & ?)|[? ?]]; [by exists (c :: s1), s2 | by exists [], (c :: s)].
      * intros ([|c' s1] & s2 & Hs & ? & ?); simplify_eq/=; eauto 10.
  - rewrite matches_mk_alt, !matches_RAlt, IH1, IH2. done.
  - rewrite matches_mk_seq, matches_RStar_cons, matches_RSeq. by setoid_rewrite IH.
Qed.

(** The derivative matcher decides the language. *)
Lemma re_match_spec r s : re_match r s = true <-> matches r s.
Proof.
  revert r. induction s as [|c s IH]; intros r; simpl.
  - apply nullable_matches.
  - by rewrite IH, deriv_matches.
Qed.

Lemma matches_RStar_class f s : matches (RStar (RClass f)) s <-> Forall (fun c => f c = true) s.
Proof.
  induction s as [|c s IH]; [split; constructor|].
  rewrite matches_RStar_cons, Forall_cons, <- IH. setoid_rewrite matches_RClass. split.
  - intros (s1 & s2 & -> & (c' & ? & ?) & ?). by simplify_eq/=.
  - intros [? ?]. exists [], s. eauto.
Qed.

Lemma matches_RPlus_class f s :
  matches (RPlus (RClass f)) s <-> s <> [] /\ Forall (fun c => f c = true) s.
Proof.
  unfold RPlus. rewrite matches_RSeq. setoid_rewrite matches_RClass.
  setoid_rewrite matches_RStar_class. split.
  - intros (s1 & s2 & -> & (c & -> & ?) & ?). split; [done|]. by constructor.
  - destruct s as [|c s]; [by intros []|]. intros [_ [? ?]%Forall_cons].
    exists [c], s. eauto.
Qed.

(** ** Bytes and character classes *)

Abbreviation bytes := String.list_ascii_of_string.

Definition byte_code (c : Ascii.ascii) : N := Ascii.N_of_ascii c.

(** An ASCII string: what the documented meaning of the classes below is
    stated for. *)
Definition is_ascii (s : string) : bool := forallb (fun c => (byte_code c <? 128)%N) (bytes s).

(** [\s] on ASCII: tab, newline, vertical tab, form feed, carriage return, space. *)
Definition is_whitespace (c : Ascii.ascii) : bool :=
  let n := byte_code c in ((9 <=? n) && (n <=? 13) || (n =? 32))%N.

Definition is_char (x : Ascii.ascii) (c : Ascii.ascii) : bool := Ascii.eqb c x.

(** [[^.\s\:]]: the characters of a path segment. *)
Definition seg_char (c : Ascii.ascii) : bool :=
  negb (is_char "."%char c || is_whitespace c || is_char ":"%char c).

(** [.]: any character but newline. *)
Definition any_char (c : Ascii.ascii) : bool := negb (byte_code c =? 10)%N.

(** [[\.[^.\s\:]+]]: a nested class, the union of the dot, the segment
    characters and the plus sign. *)
Definition branch_char (c : Ascii.ascii) : bool :=
  is_char "."%char c || seg_char c || is_char "+"%char c.

(** ** The concrete syntax produced from globs *)

Inductive atom :=
| ALit (c : Ascii.ascii)   (* a literal character *)
| ADot                     (* \. *)
| AAny                     (* . *)
| ASeg                     (* [^.\s\:] *)
| ABranch.                 (* [\.[^.\s\:]+] *)

Inductive rep := Plus | Star.

(** An atom and the repetition operators that follow it. *)
Definition item : Type := atom * list rep.

(** A whole pattern: items between the anchors, with or without the optional
    tail [(?:\..+)?]. *)
Record pat := { pat_items : list item; pat_tail : bool }.

Definition atom_text (a : atom) : string :=
  match a with
  | ALit c => String c ""
  | ADot => "\."
  | AAny => "."
  | ASeg => "[^.\s\:]"
  | ABranch => "[\.[^.\s\:]+]"
  end.

Definition rep_text (r : rep) : string :=
  match r with Plus => "+" | Star => "*" end.

Fixpoint reps_text (rs : list rep) : string :=
  match rs with [] => "" | r :: rs => rep_text r +:+ reps_text rs end.

Definition item_text (i : item) : string := atom_text i.1 +:+ reps_text i.2.

Fixpoint items_text (l : list item) : string :=
  match l with [] => "" | i :: l => item_text i +:+ items_text l end.

Definition tail_text : string := "(?:\..+)?".

Definition pat_text (p : pat) : string :=
  "^" +:+ items_text (pat_items p) +:+ (if pat_tail p then tail_text else "") +:+ "$".

Definition atom_re (a : atom) : re :=
  RClass match a with
  | ALit c => is_char c
  | ADot => is_char "."%char
  | AAny => any_char
  | ASeg => seg_char
  | ABranch => branch_char
  end.

Definition rep_re (r : re) (k : rep) : re :=
  match k with Plus => RPlus r | Star => RStar r end.

Definition item_re (i : item) : re := fold_left rep_re i.2 (atom_re i.1).

Fixpoint items_re (l : list item) : re :=
  match l with [] => REps | i :: l => RSeq (item_re i) (items_re l) end.

Definition tail_re : re := ROpt (RSeq (atom_re ADot) (RPlus (atom_re AAny))).

Definition pat_re (p : pat) : re :=
  RSeq (items_re (pat_items p)) (if pat_tail p then tail_re else REps).

(** Characters with a meaning of their own in the crate's syntax. *)
Definition is_meta (c : Ascii.ascii) : bool :=
  existsb (is_char c) (bytes "\.+*?()|[]{}^$#&-~").

Definition item_wf (i : item) : bool :=
  match i.1 with ALit c => negb (is_meta c) | _ => true end.

Definition pat_wf (p : pat) : bool := forallb item_wf (pat_items p).

(** ** The regex crate as an interface

    [Regex::new(text)] (None for a syntax error), [Regex::is_match] and
    [Regex::captures] (the named groups of a match).  [RegexSet::is_match] is
    the disjunction over its patterns and needs no operation of its own. *)
Class RegexEngine := {
  Regex : Type;
  regex_new : string -> option Regex;
  regex_is_match : Regex -> string -> bool;
  regex_captures : Regex -> string -> option (string -> option string)
}.

(** Documented meaning of the patterns built from globs. *)
Class RegexLaws `{RegexEngine} := {
  law_pat : forall p s, pat_wf p = true -> is_ascii s = true ->
    exists rx, regex_new (pat_text p) = Some rx /\
               regex_is_match rx s = re_match (pat_re p) (bytes s)
}.

(** ** A concrete engine

    It parses the pattern texts above back to [pat] and matches by
    derivatives; other pattern texts are given by a table.  It shows that the
    laws can hold, and runs the witnesses. *)

Fixpoint strip_prefix (p s : string) : option string :=
  match p, s with
  | EmptyString, _ => Some s
  | String a p, String b s => if Ascii.eqb a b then strip_prefix p s else None
  | String _ _, EmptyString => None
  end.

Fixpoint parse_items (fuel : nat) (acc : list item) (s : string) : option pat :=
  match fuel with
  | O => None
  | S fuel =>
    let add a s := parse_items fuel ((a, []) :: acc) s in
    let repeat k s := match acc with
                      | (a, ks) :: acc => parse_items fuel ((a, ks ++ [k]) :: acc) s
                      | [] => None
                      end in
    match s with
    | EmptyString => None
    | String c rest =>
        if is_char "$"%char c then
          match rest with EmptyString => Some {| pat_items := rev acc; pat_tail := false |} | _ => None end
        else if is_char "("%char c then
          match strip_prefix tail_text s with
          | Some "$" => Some {| pat_items := rev acc; pat_tail := true |}
          | _ => None
          end
        else if is_char "\"%char c then
          match strip_prefix (atom_text ADot) s with Some s => add ADot s | None => None end
        else if is_char "."%char c then add AAny rest
        else if is_char "["%char c then
          match strip_prefix (atom_text ASeg) s with
          | Some s => add ASeg s
          | None => match strip_prefix (atom_text ABranch) s with Some s => add ABranch s | None => None end
          end
        else if is_char "+"%char c then repeat Plus rest
        else if is_char "*"%char c then repeat Star rest
        else if is_meta c then None
        else add (ALit c) rest
    end
  end.

Definition parse_pat (s : string) : option pat :=
  match s with
  | String c rest => if is_char "^"%char c then parse_items (String.length rest) [] rest else None
  | EmptyString => None
  end.

Lemma strip_prefix_app p s : strip_prefix p (p +:+ s) = Some s.
Proof. induction p as [|c p IH]; simpl; [done|]. by rewrite Ascii.eqb_refl. Qed.

Lemma is_meta_false c x : is_meta c = false -> x ∈ bytes "\.+*?()|[]{}^$#&-~" -> is_char x c = false.
Proof.
  unfold is_meta. intros H Hx. apply not_true_iff_false. intros Hc.
  apply Ascii.eqb_eq in Hc as ->. apply not_true_iff_false in H. apply H.
  apply existsb_exists. exists x. split; [by apply list_elem_of_In | apply Ascii.eqb_refl].
Qed.

Lemma parse_items_atom n acc a s :
  item_wf (a, []) = true ->
  parse_items (S n) acc (atom_text a +:+ s) = parse_items n ((a, []) :: acc) s.
Proof.
  destruct a as [c| | | |]; intros Hwf; try reflexivity.
  apply negb_true_iff in Hwf; simpl in Hwf. simpl.
  rewrite !(is_meta_false c _ Hwf) by (vm_compute; repeat constructor). by rewrite Hwf.
Qed.

Lemma parse_items_reps n acc a ks rs s :
  parse_items (length rs + n) ((a, ks) :: acc) (reps_text rs +:+ s) =
  parse_items n ((a, ks ++ rs) :: acc) s.
Proof.
  revert ks. induction rs as [|r rs IH]; intros ks; simpl; [by rewrite app_nil_r|].
  rewrite (app_assoc ks [r] rs : ks ++ r :: rs = (ks ++ [r]) ++ rs).
  by destruct r; simpl; rewrite IH.
Qed.

Lemma length_append s t : String.length (s +:+ t) = (String.length s + String.length t)%nat.
Proof. induction s as [|c s IH]; [done|]. by apply (f_equal S). Qed.

Lemma append_assoc s t u : (s +:+ t) +:+ u = s +:+ (t +:+ u).
Proof. induction s as [|c s IH]; [done|]. by apply (f_equal (String c)). Qed.

Lemma append_nil_r s : s +:+ "" = s.
Proof. induction s as [|c s IH]; [done|]. by apply (f_equal (String c)). Qed.

Lemma parse_items_end n acc (t : bool) :
  parse_items (S n) acc ((if t then tail_text else "") +:+ "$") =
  Some {| pat_items := rev acc; pat_tail := t |}.
Proof. by destruct t. Qed.

#[local] Arguments parse_items : simpl never.

(** Fuel used by the items: one step per atom and per repetition operator. *)
Definition items_cost (l : list item) : nat := sum_list_with (fun i => S (length i.2)) l.

Lemma parse_items_items n acc l s :
  forallb item_wf l = true ->
  parse_items (items_cost l + n) acc (items_text l +:+ s) = parse_items n (rev l ++ acc) s.
Proof.
  revert acc. induction l as [|[a rs] l IH]; intros acc Hwf; simpl; [done|].
  apply andb_true_iff in Hwf as [Ha Hl].
  unfold item_text; cbn [fst snd]. rewrite !append_assoc.
  rewrite parse_items_atom by done.
  rewrite <- Nat.add_assoc, parse_items_reps, IH by done. simpl.
  by rewrite <- app_assoc.
Qed.

Lemma length_reps_text rs : String.length (reps_text rs) = length rs.
Proof. induction rs as [|[] rs IH]; [done|..]; by apply (f_equal S). Qed.

Lemma items_cost_le l : (items_cost l <= String.length (items_text l))%nat.
Proof.
  induction l as [|[a rs] l IH]; [done|].
  change (items_cost ((a, rs) :: l)) with (S (length rs) + items_cost l)%nat.
  cbn [items_text]. unfold item_text; cbn [fst snd].
  rewrite !length_append, length_reps_text.
  assert (1 <= String.length (atom_text a))%nat by (destruct a; simpl; lia). lia.
Qed.

(** Parsing inverts printing. *)
Lemma parse_pat_text p : pat_wf p = true -> parse_pat (pat_text p) = Some p.
Proof.
  destruct p as [l t]; intros Hwf. unfold pat_text, parse_pat. simpl pat_items; simpl pat_tail.
  change ("^" +:+ ?s) with (String "^"%char s). simpl is_char. cbn iota.
  rewrite !length_append. pose proof (items_cost_le l).
  replace (String.length (items_text l) + _)%nat
    with (items_cost l + (String.length (items_text l) - items_cost l +
            (String.length (if t then tail_text else "") + 1)))%nat by (simpl; lia).
  rewrite parse_items_items by done. rewrite app_nil_r.
  rewrite (Nat.add_comm _ 1), Nat.add_assoc, (Nat.add_comm _ 1), <- Nat.add_assoc.
  cbn [Nat.add]. by rewrite parse_items_end, rev_involutive.
Qed.

(** A matcher and its named groups. *)
Record Matcher := { mt_match : string -> bool; mt_groups : string -> string -> option string }.

Definition pat_matcher (p : pat) : Matcher :=
  {| mt_match := fun s => re_match (pat_re p) (bytes s); mt_groups := fun _ _ => None |}.

Fixpoint assoc_text (t : string) (tbl : list (string * Matcher)) : option Matcher :=
  match tbl with
  | [] => None
  | (k, m) :: tbl => if String.eqb k t then Some m else assoc_text t tbl
  end.

Definition table_engine (tbl : list (string * Matcher)) : RegexEngine := {|
  Regex := Matcher;
  regex_new := fun t => match assoc_text t tbl with
                        | Some m => Some m
                        | None => pat_matcher <$> parse_pat t
                        end;
  regex_is_match := mt_match;
  regex_captures := fun m s => if mt_match m s then Some (mt_groups m s) else None
|}.

(** A text of the table that is not the text of a pattern. *)
Definition not_pat_text (t : string) : bool := negb (is_some (parse_pat t)).

Lemma assoc_text_pat p tbl :
  pat_wf p = true -> forallb (fun e => not_pat_text e.1) tbl = true -> assoc_text (pat_text p) tbl = None.
Proof.
  intros Hwf. induction tbl as [|[k m] tbl IH]; simpl; [done|]. intros [Hk Ht]%andb_true_iff.
  destruct (String.eqb_spec k (pat_text p)) as [->|_]; [|auto].
  unfold not_pat_text in Hk. by rewrite parse_pat_text in Hk.
Qed.

Lemma table_engine_laws tbl :
  forallb (fun e => not_pat_text e.1) tbl = true -> @RegexLaws (table_engine tbl).
Proof.
  intros Ht. constructor. intros p s Hwf _. exists (pat_matcher p). split; [|done].
  cbn [regex_new table_engine]. by rewrite (assoc_text_pat p tbl Hwf Ht), (parse_pat_text p Hwf).
Qed.
