(* ===== verification/Search.v ===== *)
(** * Search: leftmost-first search with regular expressions

    What [Regex::captures_iter] of the crate [regex] finds: the matches that a
    backtracking matcher finds first, from left to right.  [rests] lists the
    ways an expression can match at the start of a text, in the order of
    preference (greedy repetition, first alternative first), each given by what
    it leaves of the text. *)

From S2P Require Import Prelude Regex.

Section Rests.
Variable m : list Ascii.ascii -> list (list Ascii.ascii).

(** Greedy repetition; every turn must take at least one character, so the
    length of the text bounds the turns. *)
Fixpoint star_rests (fuel : nat) (s : list Ascii.ascii) : list (list Ascii.ascii) :=
  match fuel with
  | O => [s]
  | S fuel =>
      flat_map (fun s' => if (length s' <? length s)%nat then star_rests fuel s' else []) (m s) ++ [s]
  end.
End Rests.

Fixpoint rests (r : re) (s : list Ascii.ascii) : list (list Ascii.ascii) :=
  match r with
  | REmpty => []
  | REps => [s]
  | RClass f => match s with c :: s => if f c then [s] else [] | [] => [] end
  | RSeq r1 r2 => flat_map (rests r2) (rests r1 s)
  | RAlt r1 r2 => rests r1 s ++ rests r2 s
  | RStar r => star_rests (rests r) (length s) s
  end.

(** All matches, from left to right and not overlapping, of an expression that
    does not match the empty text; the length of the text is enough fuel. *)
Fixpoint find_iter (fuel : nat) (r : re) (s : list Ascii.ascii) : list (list Ascii.ascii) :=
  match fuel, s with
  | S fuel, _ :: s' =>
      match rests r s with
      | rest :: _ => firstn (length s - length rest) s :: find_iter fuel r rest
      | [] => find_iter fuel r s'
      end
  | _, _ => []
  end.

(** ** Soundness *)

Lemma star_rests_sound m r fuel s x :
  (forall s x, x ∈ m s -> exists p, s = p ++ x /\ matches r p) ->
  x ∈ star_rests m fuel s -> exists p, s = p ++ x /\ matches (RStar r) p.
Proof.
  intros Hm. revert s x. induction fuel as [|fuel IH]; intros s x; simpl.
  - intros ->%list_elem_of_singleton. exists []. auto with databroker.
  - intros [Hx| ->%list_elem_of_singleton]%elem_of_app; [|exists []; auto with databroker].
    apply list_elem_of_In, in_flat_map in Hx as (s' & Hs'%list_elem_of_In & Hx).
    destruct (length s' <? length s)%nat eqn:El; [|done]. apply Nat.ltb_lt in El.
    apply list_elem_of_In in Hx. destruct (Hm _ _ Hs') as (p & -> & Hp).
    destruct (IH _ _ Hx) as (q & -> & Hq). exists (p ++ q). rewrite app_assoc. split; [done|].
    apply m_star_app; [|done|done]. intros ->. simpl in El. lia.
Qed.

(** What a match leaves is what follows a text of the expression's language. *)
Lemma rests_sound r s x : x ∈ rests r s -> exists p, s = p ++ x /\ matches r p.
Proof.
  revert s x. induction r as [| |f|r1 IH1 r2 IH2|r1 IH1 r2 IH2|r IH]; intros s x; simpl.
  - by intros ?%not_elem_of_nil.
  - intros ->%list_elem_of_singleton. exists []. auto with databroker.
  - destruct s as [|c s]; [by intros ?%not_elem_of_nil|]. destruct (f c) eqn:Ef; [|by intros ?%not_elem_of_nil].
    intros ->%list_elem_of_singleton. exists [c]. auto with databroker.
  - intros (s' & Hs'%list_elem_of_In & Hx%list_elem_of_In)%list_elem_of_In%in_flat_map.
    destruct (IH1 _ _ Hs') as (p & -> & Hp). destruct (IH2 _ _ Hx) as (q & -> & Hq).
    exists (p ++ q). rewrite app_assoc. auto with databroker.
  - intros [Hx|Hx]%elem_of_app; [destruct (IH1 _ _ Hx) as (p & -> & Hp)|destruct (IH2 _ _ Hx) as (p & -> & Hp)];
      exists p; auto with databroker.
  - by apply star_rests_sound.
Qed.

(** ** Runs of one class *)

(** The suffixes of [w], the shortest first. *)
Fixpoint suffixes (w : list Ascii.ascii) : list (list Ascii.ascii) :=
  match w with [] => [[]] | _ :: w' => suffixes w' ++ [w] end.

Lemma suffixes_head w : exists l, suffixes w = [] :: l.
Proof. induction w as [|c w (l & E)]; [by exists []|]. exists (l ++ [c :: w]). simpl. by rewrite E. Qed.

Lemma elem_of_suffixes v w : v ∈ suffixes w -> exists u, w = u ++ v.
Proof.
  induction w as [|c w IH]; simpl.
  - intros ->%list_elem_of_singleton. by exists [].
  - intros [Hv| ->%list_elem_of_singleton]%elem_of_app; [|by exists []].
    destruct (IH Hv) as (u & ->). by exists (c :: u).
Qed.

(** A repetition that takes the characters of [w] one by one and stops at
    [rest]. *)
Lemma star_rests_run m (f : Ascii.ascii -> Prop) w rest fuel :
  (forall c s, f c -> m (c :: s) = [s]) -> m rest = [] ->
  Forall f w -> (length (w ++ rest) <= fuel)%nat ->
  star_rests m fuel (w ++ rest) = map (fun v => v ++ rest) (suffixes w).
Proof.
  intros Hm Hrest. revert fuel. induction w as [|c w IH]; intros fuel Hw Hf; simpl.
  - destruct fuel as [|fuel]; simpl; [done|]. by rewrite Hrest.
  - apply Forall_cons in Hw as [Hc Hw]. destruct fuel as [|fuel]; [simpl in Hf; lia|]. simpl in *.
    rewrite Hm by done. simpl. assert ((length (w ++ rest) <? S (length (w ++ rest)))%nat = true) as -> by
      (apply Nat.ltb_lt; lia).
    rewrite IH by (done || lia). rewrite app_nil_r, map_app. done.
Qed.
