(* ===== verification/Display.v ===== *)
(** * Display: [to_string] of the primitive types

    Rust's [Display] for [bool], the integers, [f32] and [f64], which
    src/kuksa_databroker/databroker/src/viss/v2/conversions.rs prints values
    with, and the round trips with the parsers of [Floats]. *)

From stdpp Require Import pretty.
From Stdlib Require Import SpecFloat.
From S2P Require Import Prelude Floats Regex.

#[local] Instance spec_float_decision : EqDecision spec_float.
Proof. solve_decision. Defined.

Definition bool_to_string (b : bool) : string := if b then "true" else "false".

Definition int_to_string (z : Z) : string := pretty z.

(** ** Floats: the shortest decimal that reads back

    A finite number is printed with the fewest significant digits that identify
    it; of two candidates the nearer one, the upper one in the middle.  Nine
    digits are enough for [f32] and seventeen for [f64]; the format has no
    exponent. *)

(** The position of the point of the positive number [num / den]: the [k] with
    [10^(k-1) <= num / den < 10^k]; [fuel] bounds the digits before the point
    and the zeros after it. *)
Fixpoint point_above (fuel : nat) (k num den : Z) : Z :=
  match fuel with
  | O => k
  | S fuel => if num <? den then k else point_above fuel (k + 1) num (den * 10)
  end.
Fixpoint point_below (fuel : nat) (k num den : Z) : Z :=
  match fuel with
  | O => k
  | S fuel => if den <=? num * 10 then k else point_below fuel (k - 1) (num * 10) den
  end.

(** The largest binary exponents are below 1100, so 400 decimal places reach
    every finite number. *)
Definition point (num den : Z) : Z :=
  if num <? den then point_below 400 0 num den else point_above 400 0 num den.

(** [d * 10^q], with the sign of [x], reads back as [x]. *)
Definition reads_back (fmt : FloatFmt) (x : float) (d q : Z) : bool :=
  match d, x with
  | Zpos _, S754_finite s _ _ => bool_decide (decimal_to_float fmt s d q = x)
  | _, _ => false
  end.

(** The digits and the exponent of the shortest decimal with at least [n]
    digits. *)
Fixpoint shortest (fuel : nat) (fmt : FloatFmt) (x : float) (num den k n : Z) : option (Z * Z) :=
  match fuel with
  | O => None
  | S fuel =>
      let q := k - n in
      let num' := if q <? 0 then num * 10 ^ (- q) else num in
      let den' := if q <? 0 then den else den * 10 ^ q in
      let d := num' / den' in
      let '(d1, q1) := if d + 1 =? 10 ^ n then (1, k) else (d + 1, q) in
      let up := reads_back fmt x d1 q1 in
      if reads_back fmt x d q then
        if up && (den' <=? 2 * (num' mod den')) then Some (d1, q1) else Some (d, q)
      else if up then Some (d1, q1)
      else shortest fuel fmt x num den k (n + 1)
  end.

Definition float_digits (fmt : FloatFmt) (s : bool) (m : positive) (e : Z) : option (Z * Z) :=
  let num := if e <? 0 then Zpos m else Zpos m * 2 ^ e in
  let den := if e <? 0 then 2 ^ (- e) else 1 in
  shortest 17 fmt (S754_finite s m e) num den (point num den) 1.

Fixpoint zeros (n : nat) : string := match n with O => "" | S n => String "0"%char (zeros n) end.

(** The point after [n] characters. *)
Fixpoint insert_point (n : nat) (s : string) : string :=
  match n, s with
  | S n, String c s => String c (insert_point n s)
  | _, _ => String "."%char s
  end.

(** [d * 10^q] without an exponent. *)
Definition render (d q : Z) : string :=
  let s := int_to_string d in
  if 0 <=? q then s +:+ zeros (Z.to_nat q)
  else let len := Z.of_nat (String.length s) in
       if len + q <=? 0 then "0." +:+ zeros (Z.to_nat (- (len + q))) +:+ s
       else insert_point (Z.to_nat (len + q)) s.

(** [x.to_string()]. *)
Definition float_to_string (fmt : FloatFmt) (x : float) : string :=
  match x with
  | S754_zero s => if s then "-0" else "0"
  | S754_infinity s => if s then "-inf" else "inf"
  | S754_nan => "NaN"
  | S754_finite s m e =>
      match float_digits fmt s m e with
      | Some (d, q) => (if s then "-" else "") +:+ render d q
      | None => "" (* not reached: the digits suffice *)
      end
  end.

Example float_examples :
  map (fun s => float_to_string f64 <$> parse_float f64 s)
    ["1e23"; "0.1"; "1e-6"; "2.5"; "5.684341886080802e-14"; "123456789"; "-0.0"; "4.9e-324"]
  = [Some "100000000000000000000000"; Some "0.1"; Some "0.000001"; Some "2.5";
     Some "0.00000000000005684341886080802"; Some "123456789"; Some "-0";
     Some ("0." +:+ zeros 323 +:+ "5")].
Proof. vm_compute. reflexivity. Qed.

Example float_max : (fun x => String.length (float_to_string f64 x)) <$> parse_float f64 "1.7976931348623157e308" = Some 309%nat.
Proof. vm_compute. reflexivity. Qed.

(** ** Digits *)

Lemma digit_of_pretty x : (x < 10)%N -> digit_of (pretty_N_char x) = Some (Z.of_N x).
Proof.
  intros Hx. assert (x = 0 \/ x = 1 \/ x = 2 \/ x = 3 \/ x = 4 \/ x = 5 \/ x = 6 \/ x = 7 \/ x = 8 \/ x = 9)%N as H by lia.
  by destruct H as [->|[->|[->|[->|[->|[->|[->|[->|[->| ->]]]]]]]]].
Qed.

Lemma digits_value_go x s : digits_value 0 (pretty_N_go x s) = digits_value (Z.of_N x) s.
Proof.
  revert s. induction (N.lt_wf_0 x) as [x _ IH]. intros s.
  destruct (decide (x = 0)%N) as [->|Hx]; [by rewrite pretty_N_go_0|].
  rewrite pretty_N_go_step by lia. rewrite IH by (apply N.div_lt; lia). simpl.
  rewrite digit_of_pretty by (apply N.mod_lt; lia). f_equal.
  rewrite (N.div_mod x 10) at 3 by done. lia.
Qed.

Lemma digits_value_N x : digits_value 0 (pretty x) = Some (Z.of_N x).
Proof. unfold pretty, pretty_N. case_decide; [by subst|]. apply digits_value_go. Qed.

(** A text of digits: what its value is, and that it is not empty. *)
Definition digits (s : string) (v : Z) : Prop := digits_value 0 s = Some v /\ s <> "".

Lemma digits_pos p : digits (int_to_string (Zpos p)) (Zpos p).
Proof.
  unfold int_to_string. change (pretty (Zpos p)) with (pretty (N.pos p)).
  split; [apply (digits_value_N (N.pos p))|]. intros E.
  pose proof (digits_value_N (N.pos p)) as Hv. by rewrite E in Hv.
Qed.

(** The first character of a text of digits. *)
Lemma digits_head acc s v : digits_value acc s = Some v -> s <> "" ->
  exists c rest d, s = String c rest /\ digit_of c = Some d.
Proof. destruct s as [|c rest]; [done|]. simpl. intros Hv _. destruct (digit_of c) eqn:E; [eauto|done]. Qed.

Lemma digit_not_sign c d : digit_of c = Some d ->
  Ascii.eqb c "+"%char = false /\ Ascii.eqb c "-"%char = false /\ Ascii.eqb c "."%char = false /\
  ascii_lower c = c /\ Ascii.eqb c "i"%char = false /\ Ascii.eqb c "n"%char = false.
Proof.
  destruct c as [b0 b1 b2 b3 b4 b5 b6 b7].
  destruct b0, b1, b2, b3, b4, b5, b6, b7; vm_compute; by intros.
Qed.

Lemma parse_digits ty s v : digits s v -> parse_int ty s = if in_range ty v then Some v else None.
Proof.
  intros [Hv Hs]. destruct (digits_head _ _ _ Hv Hs) as (c & rest & d & -> & Hc).
  destruct (digit_not_sign c d Hc) as (Hp & Hm & _). unfold parse_int. rewrite Hp, Hm, Hv.
  by replace (1 * v) with v by lia.
Qed.

(** Printed integers read back. *)
Lemma parse_int_to_string ty z : in_range ty z = true -> parse_int ty (int_to_string z) = Some z.
Proof.
  intros Hz. destruct z as [|p|p].
  - change (int_to_string 0) with "0". rewrite (parse_digits ty "0" 0) by done. by rewrite Hz.
  - by rewrite (parse_digits ty _ _ (digits_pos p)), Hz.
  - change (int_to_string (Zneg p)) with (String "-"%char (int_to_string (Zpos p))).
    destruct (digits_pos p) as [Hv Hs]. unfold parse_int.
    change (Ascii.eqb "-"%char "+"%char) with false. change (Ascii.eqb "-"%char "-"%char) with true. cbn iota.
    assert ((int_min ty <? 0) = true) as -> by (apply Z.ltb_lt; apply in_range_spec in Hz; lia).
    rewrite Hv. change (-1 * Zpos p) with (Zneg p). rewrite Hz.
    by destruct (int_to_string (Zpos p)).
Qed.

Lemma parse_bool_to_string b : parse_bool (bool_to_string b) = Some b.
Proof. by destruct b. Qed.

(** ** Decimals *)

Lemma take_digits_all s rest acc n v :
  digits_value acc s = Some v ->
  match rest with String c _ => digit_of c = None | EmptyString => True end ->
  take_digits acc n (s +:+ rest) = (v, (n + String.length s)%nat, rest).
Proof.
  revert acc n. induction s as [|c s IH]; intros acc n Hv Hr.
  - simpl in *. injection Hv as ->. rewrite Nat.add_0_r.
    destruct rest as [|c rest]; [done|]. simpl. by rewrite Hr.
  - simpl in *. destruct (digit_of c) as [d|]; [|done]. rewrite (IH _ _ Hv Hr).
    do 2 f_equal. lia.
Qed.

Lemma digits_value_app s t acc v : digits_value acc s = Some v -> digits_value acc (s +:+ t) = digits_value v t.
Proof.
  revert acc. induction s as [|c s IH]; intros acc; simpl; [by intros [= ->]|].
  destruct (digit_of c); [apply IH|done].
Qed.

Lemma digits_value_zeros n acc : digits_value acc (zeros n) = Some (acc * 10 ^ Z.of_nat n).
Proof.
  revert acc. induction n as [|n IH]; intros acc; cbn [zeros digits_value]; [f_equal; lia|].
  change (digit_of "0"%char) with (Some 0). cbn iota. rewrite IH. f_equal.
  rewrite Nat2Z.inj_succ, Z.pow_succ_r by lia. ring.
Qed.

Lemma zeros_length n : String.length (zeros n) = n.
Proof. induction n; simpl; congruence. Qed.

(** A prefix of a text of digits is one. *)
Lemma digits_split a b acc v : digits_value acc (a +:+ b) = Some v -> exists w, digits_value acc a = Some w /\ digits_value w b = Some v.
Proof.
  revert acc. induction a as [|c a IH]; intros acc; simpl; [by eauto|].
  destruct (digit_of c); [apply IH|done].
Qed.

Lemma insert_point_app n s : (n <= String.length s)%nat ->
  exists a b, s = a +:+ b /\ String.length a = n /\ insert_point n s = a +:+ String "."%char b.
Proof.
  revert s. induction n as [|n IH]; intros s Hn.
  - exists "", s. by destruct s.
  - destruct s as [|c s]; simpl in Hn; [lia|]. destruct (IH s) as (a & b & -> & Ha & Hi); [lia|].
    exists (String c a), b. simpl. rewrite Hi. split_and!; [done|lia|done].
Qed.

Lemma string_length_app s t : String.length (s +:+ t) = (String.length s + String.length t)%nat.
Proof. induction s; simpl; [done|]. f_equal. done. Qed.

Lemma decimal_shift fmt neg p q :
  0 <= q -> decimal_to_float fmt neg (Zpos p * 10 ^ q) 0 = decimal_to_float fmt neg (Zpos p) q.
Proof.
  intros Hq. assert (0 < 10 ^ q) as H10 by (by apply Z.pow_pos_nonneg).
  destruct (Zpos p * 10 ^ q) as [|p'|p'] eqn:E; [lia| |lia]. unfold decimal_to_float.
  rewrite (proj2 (Z.leb_le 0 q)) by lia. change (0 <=? 0) with true. cbn iota. by rewrite <- E, Z.pow_0_r, Z.mul_1_r.
Qed.

(** What [parse_float] makes of a decimal number after its sign. *)
Definition head_digit (s : string) : Prop := exists c rest d, s = String c rest /\ digit_of c = Some d.

Lemma head_digit_app acc s t v : digits_value acc s = Some v -> s <> "" -> head_digit (s +:+ t).
Proof. intros Hv Hs. destruct (digits_head _ _ _ Hv Hs) as (c & rest & d & -> & Hc). by exists c, (rest +:+ t), d. Qed.

Lemma parse_float_decimal fmt neg t ni ip nf m :
  head_digit t ->
  take_digits 0 0 t = (ip, ni, match nf with Some (_, frac) => String "."%char frac | None => "" end) ->
  match nf with
  | Some (n, frac) => take_digits ip 0 frac = (m, n, "")
  | None => m = ip
  end -> ni <> 0%nat ->
  parse_float fmt ((if neg : bool then "-" else "") +:+ t) =
    Some (decimal_to_float fmt neg m (match nf with Some (n, _) => - Z.of_nat n | None => 0 end)).
Proof.
  intros (c & body & d & -> & Hc) Ht Hf Hn. destruct (digit_not_sign c d Hc) as (Hp & Hm & _ & Hl & Hi & Hna).
  assert (parse_float fmt ((if neg : bool then "-" else "") +:+ String c body) =
    let '(neg, body) := (neg, String c body) in
    let lower := string_lower body in
    if String.eqb lower "inf" || String.eqb lower "infinity" then Some (S754_infinity neg)
    else if String.eqb lower "nan" then Some S754_nan
    else
      let '(ip, ni, rest) := take_digits 0 0 body in
      let '(m, nf, rest) :=
        match rest with
        | String c r => if Ascii.eqb c "."%char then take_digits ip 0 r else (ip, O, rest)
        | EmptyString => (ip, O, rest)
        end in
      if (Nat.eqb (ni + nf) 0) then None
      else match parse_exponent rest with
           | Some e => Some (decimal_to_float fmt neg m (e - Z.of_nat nf))
           | None => None
           end) as ->.
  { destruct neg; [reflexivity|]. change ("" +:+ String c body) with (String c body).
    unfold parse_float. cbn iota beta. by rewrite Hp, Hm. }
  cbn [string_lower String.eqb]. rewrite Hl.
  cbn [String.eqb]. rewrite Hi, Hna. cbn [orb]. rewrite Ht.
  assert (Nat.eqb ni 0 = false) as Hni by (by apply Nat.eqb_neq).
  destruct nf as [[n frac]|].
  - change (Ascii.eqb "."%char "."%char) with true. cbn iota. rewrite Hf.
    assert (Nat.eqb (ni + n) 0 = false) as -> by (apply Nat.eqb_neq; lia). simpl. do 2 f_equal; lia.
  - subst m. rewrite Nat.add_0_r, Hni. simpl. do 2 f_equal; lia.
Qed.

(** The three shapes of [render] read back as the number they stand for. *)
Lemma parse_float_render fmt neg p q :
  parse_float fmt ((if neg : bool then "-" else "") +:+ render (Zpos p) q) =
    Some (decimal_to_float fmt neg (Zpos p) q).
Proof.
  destruct (digits_pos p) as [Hv Hs]. unfold render. set (s := int_to_string (Zpos p)) in *.
  destruct (Z.leb_spec 0 q) as [Hq|Hq].
  - assert (digits_value 0 (s +:+ zeros (Z.to_nat q)) = Some (Zpos p * 10 ^ q)) as Hw.
    { by rewrite (digits_value_app _ _ _ _ Hv), digits_value_zeros, Z2Nat.id. }
    pose proof (take_digits_all _ "" 0 0 _ Hw I) as Ht. rewrite append_nil_r in Ht.
    rewrite (parse_float_decimal fmt neg _ _ _ None (Zpos p * 10 ^ q) (head_digit_app _ _ _ _ Hv Hs) Ht eq_refl);
      [by rewrite decimal_shift|]. rewrite string_length_app. destruct s; [done|]. simpl. lia.
  - destruct (Z.leb_spec (Z.of_nat (String.length s) + q) 0) as [Hl|Hl].
    + set (k := Z.to_nat (- (Z.of_nat (String.length s) + q))).
      assert (take_digits 0 0 (zeros k +:+ s) = (Zpos p, Z.to_nat (- q), "")) as Hf.
      { rewrite <- (append_nil_r (zeros k +:+ s)). rewrite (take_digits_all _ _ _ _ (Zpos p)); [|..|done].
        - rewrite string_length_app, zeros_length. do 2 f_equal. lia.
        - rewrite (digits_value_app _ _ _ _ (digits_value_zeros k 0)). exact Hv. }
      rewrite (parse_float_decimal fmt neg ("0." +:+ zeros k +:+ s) 1 0
        (Some (Z.to_nat (- q), zeros k +:+ s)) (Zpos p)); [|by exists "0"%char, ("." +:+ zeros k +:+ s), 0|done..].
      do 2 f_equal. lia.
    + destruct (insert_point_app (Z.to_nat (Z.of_nat (String.length s) + q)) s) as (a & b & Eab & Ha & ->); [lia|].
      rewrite Eab in Hv. destruct (digits_split _ _ _ _ Hv) as (w & Hwa & Hwb).
      assert (a <> "") as Hane by (intros ->; simpl in Ha; lia).
      pose proof (take_digits_all b "" w 0 _ Hwb I) as Hf. rewrite append_nil_r in Hf.
      assert (String.length b = Z.to_nat (- q)) as Hb.
      { apply (f_equal String.length) in Eab. rewrite string_length_app in Eab. lia. }
      rewrite (parse_float_decimal fmt neg _ _ w (Some (Z.to_nat (- q), b)) (Zpos p) (head_digit_app _ _ _ _ Hwa Hane)
        (take_digits_all a (String "."%char b) 0 0 w Hwa eq_refl)); [|by rewrite Hf, Hb|lia].
      do 2 f_equal. lia.
Qed.

(** Finite numbers whose digits the search finds. *)
Definition printable (fmt : FloatFmt) (x : float) : bool :=
  match x with S754_finite s m e => is_some (float_digits fmt s m e) | _ => true end.

Lemma shortest_reads_back fuel fmt x num den k n d q :
  shortest fuel fmt x num den k n = Some (d, q) -> reads_back fmt x d q = true.
Proof.
  revert n. induction fuel as [|fuel IH]; intros n; simpl; [done|].
  destruct (if _ : bool then (1, k) else _) as [d1 q1].
  destruct (reads_back fmt x d1 q1) eqn:Hup, (reads_back fmt x _ (k - n)) eqn:Hdown; simpl; try apply IH;
    [destruct (Z.leb _ _)|..]; intros; by simplify_eq.
Qed.

Lemma parse_float_to_string fmt x : printable fmt x = true -> parse_float fmt (float_to_string fmt x) = Some x.
Proof.
  destruct x as [s|s| |s m e]; simpl; [by destruct s..|done|].
  unfold is_some. destruct (float_digits fmt s m e) as [[d q]|] eqn:E; [|done]. intros _.
  apply shortest_reads_back in E. unfold reads_back in E. destruct d as [|p|p]; try done. bool_hyps.
  by rewrite parse_float_render, E.
Qed.
