(* ===== verification/Glob.v ===== *)
(** * Glob: path patterns

    src/kuksa_databroker/databroker/src/glob.rs: [to_regex_string],
    [to_regex], [is_valid_pattern] and [is_valid_path].  The pattern texts are
    those of the source; what the regex crate does with them is the interface
    of [Regex] and the class [GlobLaws] for the two static patterns and the
    two texts that are not built from items. *)

From S2P Require Import Prelude Regex.

(** ** Operations of [str] *)

(** [s.starts_with(p)], [s.ends_with(p)], [s.contains(p)]. *)
Definition starts_with (p s : string) : bool := is_some (strip_prefix p s).

Fixpoint ends_with (p s : string) : bool :=
  String.eqb p s || match s with String _ s => ends_with p s | EmptyString => false end.

Fixpoint contains (p s : string) : bool :=
  starts_with p s || match s with String _ s => contains p s | EmptyString => false end.

(** [s.replace(p, to)] for a non-empty [p]: left to right, not overlapping;
    [skip] counts the characters of a match still to be dropped. *)
Fixpoint replace_go (skip : nat) (p to s : string) : string :=
  match s with
  | EmptyString => EmptyString
  | String c rest =>
      match skip with
      | S k => replace_go k p to rest
      | O => if starts_with p s then to +:+ replace_go (String.length p - 1) p to rest
             else String c (replace_go 0 p to rest)
      end
  end.
Definition replace (p to s : string) : string := replace_go 0 p to s.

(** [list.join(sep)]. *)
Fixpoint join (sep : string) (l : list string) : string :=
  match l with
  | [] => ""
  | [s] => s
  | s :: l => s +:+ sep +:+ join sep l
  end.

(** [s.split(c)]. *)
Fixpoint split_on (c : Ascii.ascii) (s : string) : list string :=
  match s with
  | EmptyString => [""]
  | String x rest =>
      if Ascii.eqb x c then "" :: split_on c rest
      else match split_on c rest with
           | h :: t => String x h :: t
           | [] => [String x ""]
           end
  end.

(** ** glob.rs *)

Inductive GlobError := RegexError.

Definition to_regex_string (glob : string) : string :=
  (* Make sure we match the whole thing: start from the beginning *)
  let re := "^" in
  if String.eqb glob "*" then replace "^" (String Ascii.zero "") re
  else if String.eqb glob "" then re
  else
    let regex_string := replace "." "\." glob in
    let regex_string :=
      if negb (contains "*" glob) then regex_string +:+ "(?:\..+)?"
      else
        let regex_string :=
          if starts_with "**." glob then replace "**\." ".+\." regex_string
          else if starts_with "*." glob then replace "*\." "[^.\s\:]+\." regex_string
          else regex_string in
        let regex_string :=
          if ends_with ".*" glob then replace "\.*" "\.[^.\s\:]+" regex_string
          else if ends_with ".**" glob then replace "\.**" "\..*" regex_string
          else regex_string in
        let regex_string :=
          if contains ".**." glob then replace "\.**" "[\.[^.\s\:]+]*" regex_string
          else regex_string in
        if contains ".*." glob then replace "\.*" "\.[^.\s\:]+" regex_string
        else regex_string in
    (* And finally, make sure we match until EOL *)
    re +:+ regex_string +:+ "$".

Definition REGEX_VALID_PATTERN : string := "(?x)
        ^  # anchor at start (only match full paths)
        # At least one subpath (consisting of either of three):
        (?:
            [^\.\s\:]+  # Any character except :, whitespace and .
            |
            \*                 # An asterisk
            |
            \*\*               # A double asterisk
        )
        # which can be followed by ( separator + another subpath )
        # repeated any number of times
        (?:
            \. # Separator, literal dot
            (?:
                [^\.\s\:]+  # Any character except :, whitespace and .
                |
                \*                 # An asterisk
                |
                \*\*               # A double asterisk
            )+
        )*
        $  # anchor at end (to match only full paths)
        ".

Definition REGEX_VALID_PATH : string := "(?x)
        ^  # anchor at start (only match full paths)
        # At least one subpath (consisting of either of three):
        (?:
            [^\.\s\:\*]+  # Any character except :, whitespace and .
        )
        # which can be followed by ( separator + another subpath )
        # repeated any number of times
        (?:
            \. # Separator, literal dot
            (?:
                [^\.\s\:\*]+  # Any character except :, whitespace and .
            )+
        )*
        $  # anchor at end (to match only full paths)
        ".

Section Glob.
Context `{RegexEngine}.

Definition to_regex (glob : string) : result Regex GlobError :=
  ok_or (regex_new (to_regex_string glob)) RegexError.

(** The static patterns are compiled on first use; [GlobLaws] excludes the
    panic of a failed compilation. *)
Definition is_valid_pattern (input : string) : bool :=
  match regex_new REGEX_VALID_PATTERN with
  | Some rx => regex_is_match rx input
  | None => false
  end.

Definition is_valid_path (input : string) : bool :=
  match regex_new REGEX_VALID_PATH with
  | Some rx => regex_is_match rx input
  | None => false
  end.

(** A glob used as a matcher, the way its callers use it. *)
Definition glob_is_match (glob path : string) : bool :=
  match to_regex glob with
  | Ok rx => regex_is_match rx path
  | Err _ => false
  end.
End Glob.

(** ** Documented meaning of the static patterns *)

(** [[^\.\s\:\*]]: the characters of a segment of a valid path. *)
Definition path_char (c : Ascii.ascii) : bool := seg_char c && negb (is_char "*"%char c).

Definition dot_re : re := RClass (is_char "."%char).

Definition valid_path_re : re :=
  RSeq (RPlus (RClass path_char))
       (RStar (RSeq dot_re (RPlus (RPlus (RClass path_char))))).

Definition subpath_re : re :=
  RAlt (RPlus (RClass seg_char))
       (RAlt (RClass (is_char "*"%char))
             (RSeq (RClass (is_char "*"%char)) (RClass (is_char "*"%char)))).

Definition valid_pattern_re : re :=
  RSeq subpath_re (RStar (RSeq dot_re (RPlus subpath_re))).

Definition nul_text : string := String Ascii.zero "".

Class GlobLaws `{RegexEngine} := {
  glob_pat :: RegexLaws;
  law_valid_pattern : exists rx, regex_new REGEX_VALID_PATTERN = Some rx /\
    forall s, is_ascii s = true -> regex_is_match rx s = re_match valid_pattern_re (bytes s);
  law_valid_path : exists rx, regex_new REGEX_VALID_PATH = Some rx /\
    forall s, is_ascii s = true -> regex_is_match rx s = re_match valid_path_re (bytes s);
  (* "^" alone matches at the start of any text *)
  law_start : exists rx, regex_new "^" = Some rx /\ forall s, regex_is_match rx s = true;
  (* the text of the glob "**": repeated anchors, which match the empty text *)
  law_anchors : exists rx, regex_new "^**$" = Some rx /\ forall s, regex_is_match rx s = true;
  (* a literal matches wherever it occurs *)
  law_nul : exists rx, regex_new nul_text = Some rx /\
    forall s, regex_is_match rx s = contains nul_text s
}.

(** ** Strings and segments *)

Lemma bytes_append s t : bytes (s +:+ t) = bytes s ++ bytes t.
Proof. induction s as [|c s IH]; [done|]. by apply (f_equal (cons c)). Qed.

Lemma bytes_inj s t : bytes s = bytes t -> s = t.
Proof.
  intros E. rewrite <- (String.string_of_list_ascii_of_string s), E.
  apply String.string_of_list_ascii_of_string.
Qed.

Lemma bytes_of_list l : bytes (String.string_of_list_ascii l) = l.
Proof. apply String.list_ascii_of_string_of_list_ascii. Qed.

(** Every character of the string satisfies [f]. *)
Definition all_chars (f : Ascii.ascii -> bool) (s : string) : Prop :=
  Forall (fun c => f c = true) (bytes s).

Lemma join_cons2 sep a b l : join sep (a :: b :: l) = a +:+ sep +:+ join sep (b :: l).
Proof. done. Qed.

Lemma split_on_not_nil c s : split_on c s <> [].
Proof. destruct s as [|x s]; simpl; [done|]. destruct (Ascii.eqb x c); [done|]. by destruct (split_on c s). Qed.

Lemma split_on_free c s : all_chars (fun x => negb (is_char c x)) s -> split_on c s = [s].
Proof.
  induction s as [|x s IH]; [done|]. intros [Hx Hs]%Forall_cons. simpl.
  apply negb_true_iff in Hx. unfold is_char in Hx. rewrite Hx, (IH Hs). done.
Qed.

(** Splitting inverts joining when the separator occurs in no part. *)
Lemma split_on_app c s t :
  all_chars (fun x => negb (is_char c x)) s ->
  split_on c (s +:+ String c t) = s :: split_on c t.
Proof.
  induction s as [|x s IH]; intros Hs; simpl.
  - by rewrite Ascii.eqb_refl.
  - apply Forall_cons in Hs as [Hx Hs]. apply negb_true_iff in Hx. unfold is_char in Hx.
    by rewrite Hx, (IH Hs).
Qed.

Lemma split_on_join l :
  l <> [] -> Forall (all_chars (fun x => negb (is_char "."%char x))) l ->
  split_on "."%char (join "." l) = l.
Proof.
  induction l as [|a [|b l] IH]; [done| |]; intros _ [Ha Hl]%Forall_cons.
  - by apply split_on_free.
  - rewrite join_cons2. change ("." +:+ ?s) with (String "."%char s).
    rewrite split_on_app by done. f_equal. by apply IH.
Qed.

Lemma join_split_on s : join "." (split_on "."%char s) = s.
Proof.
  induction s as [|x s IH]; [done|]. simpl.
  pose proof (split_on_not_nil "."%char s) as Hne.
  destruct (Ascii.eqb x "."%char) eqn:E.
  - apply Ascii.eqb_eq in E as ->. destruct (split_on "."%char s) as [|b l]; [done|].
    rewrite join_cons2, IH. done.
  - destruct (split_on "."%char s) as [|h [|b l]]; [done| |]; by apply (f_equal (String x)).
Qed.

(** ** Valid paths *)

(** A segment of a valid path: not empty, no dot, whitespace, colon or asterisk. *)
Definition good_segment (s : string) : Prop := s <> "" /\ all_chars path_char s.

Lemma matches_plus_plus f s :
  matches (RPlus (RPlus (RClass f))) s <-> matches (RPlus (RClass f)) s.
Proof.
  split.
  - unfold RPlus at 1. rewrite matches_RSeq. intros (s1 & s2 & -> & H1 & H2).
    apply matches_RPlus_class in H1 as [Hne H1]. apply matches_RPlus_class.
    split; [destruct s1; done|]. apply Forall_app. split; [done|].
    remember (RStar (RPlus (RClass f))) as r eqn:Er.
    induction H2 as [| | | | | |r s3 s4 _ H3 _ H4 IH]; simplify_eq; [constructor|].
    apply matches_RPlus_class in H3 as [_ H3]. apply Forall_app; eauto.
  - intros H. unfold RPlus at 1. rewrite <- (app_nil_r s). constructor; [done|constructor].
Qed.

(** Dot-separated segments of characters of a class. *)
Definition segments_re (f : Ascii.ascii -> bool) : re :=
  RSeq (RPlus (RClass f)) (RStar (RSeq dot_re (RPlus (RClass f)))).

Lemma matches_RStar_ext r r' s : (forall t, matches r t -> matches r' t) -> matches (RStar r) s -> matches (RStar r') s.
Proof.
  intros Hr Hs. remember (RStar r) as rs eqn:Er.
  induction Hs as [| | | | | |r0 s1 s2 Hne H1 _ H2 IH]; simplify_eq; [constructor|]. apply m_star_app; auto.
Qed.

Lemma matches_RSeq_ext r1 r2 r1' r2' s :
  (forall t, matches r1 t <-> matches r1' t) -> (forall t, matches r2 t <-> matches r2' t) ->
  matches (RSeq r1 r2) s <-> matches (RSeq r1' r2') s.
Proof. intros H1 H2. rewrite !matches_RSeq. by setoid_rewrite H1; setoid_rewrite H2. Qed.

Lemma matches_RStar_iff r r' s :
  (forall t, matches r t <-> matches r' t) -> matches (RStar r) s <-> matches (RStar r') s.
Proof. intros Hr. split; apply matches_RStar_ext; intros t; apply Hr. Qed.

(** Equal languages, equal matchers. *)
Lemma re_match_ext r r' s : (forall t, matches r t <-> matches r' t) -> re_match r s = re_match r' s.
Proof. intros Hr. apply eq_true_iff_eq. by rewrite !re_match_spec. Qed.

Lemma valid_path_segments s : matches valid_path_re s <-> matches (segments_re path_char) s.
Proof.
  unfold valid_path_re, segments_re. apply matches_RSeq_ext; [done|]. intros t. apply matches_RStar_iff. intros t'.
  apply matches_RSeq_ext; [done|]. intros t''. apply matches_plus_plus.
Qed.

(** An asterisk is a segment character: what the pattern says of them is
    redundant. *)
Lemma matches_subpath s : matches subpath_re s <-> matches (RPlus (RClass seg_char)) s.
Proof.
  unfold subpath_re. rewrite !matches_RAlt. split; [|by left].
  assert (forall c, is_char "*"%char c = true -> seg_char c = true) as Hstar.
  { intros c Hc%Ascii.eqb_eq. by subst c. }
  rewrite matches_RPlus_class, matches_RSeq. setoid_rewrite matches_RClass.
  intros [?|[(c & -> & Hc)|(s1 & s2 & -> & (c1 & -> & H1) & (c2 & -> & H2))]]; [done| |];
    (split; [done|]); repeat constructor; by apply Hstar.
Qed.

Lemma matches_plus_subpath s : matches (RPlus subpath_re) s <-> matches (RPlus (RClass seg_char)) s.
Proof.
  rewrite <- matches_plus_plus. unfold RPlus at 1 2. apply matches_RSeq_ext; [apply matches_subpath|].
  intros t. apply matches_RStar_iff, matches_subpath.
Qed.

Lemma valid_pattern_segments s : matches valid_pattern_re s <-> matches (segments_re seg_char) s.
Proof.
  unfold valid_pattern_re, segments_re. apply matches_RSeq_ext; [apply matches_subpath|]. intros t.
  apply matches_RStar_iff. intros t'. apply matches_RSeq_ext; [done|apply matches_plus_subpath].
Qed.

(** Its language: non-empty lists of segments separated by dots. *)
Definition segment_of (f : Ascii.ascii -> bool) (s : string) : Prop := s <> "" /\ all_chars f s.

Lemma matches_segment f s : matches (RPlus (RClass f)) (bytes s) <-> segment_of f s.
Proof.
  rewrite matches_RPlus_class. unfold segment_of, all_chars. destruct s; simpl; intuition congruence.
Qed.

Lemma segments_language f s :
  f "."%char = false -> matches (segments_re f) (bytes s) <-> Forall (segment_of f) (split_on "."%char s).
Proof.
  intros Hdot.
  assert (forall a, segment_of f a -> all_chars (fun x => negb (is_char "."%char x)) a) as Hfree.
  { intros a [_ Ha]. eapply Forall_impl; [exact Ha|]. intros c Hc. apply negb_true_iff, Ascii.eqb_neq.
    intros ->. simpl in Hc. congruence. }
  assert (forall l, matches (RStar (RSeq dot_re (RPlus (RClass f)))) l ->
    exists segs, Forall (segment_of f) segs /\
      forall a, bytes a ++ l = bytes (join "." (a :: segs))) as Hstar.
  { intros l Hl. remember (RStar _) as r eqn:Er.
    induction Hl as [| | | | | |r s1 s2 _ H1 _ H2 IH]; simplify_eq.
    - exists []. split; [constructor|]. intros a. apply app_nil_r.
    - destruct (IH eq_refl) as (segs & Hs & Hj).
      apply matches_RSeq in H1 as (d & b & -> & Hd & Hb).
      apply matches_RClass in Hd as (c & -> & Hc). apply Ascii.eqb_eq in Hc as ->.
      rewrite <- (bytes_of_list b) in Hb. apply matches_segment in Hb.
      exists (String.string_of_list_ascii b :: segs). split; [by constructor|].
      intros a. rewrite join_cons2, !bytes_append, <- Hj, bytes_of_list. done. }
  split.
  - unfold segments_re. intros (s1 & s2 & E & H1 & H2)%matches_RSeq.
    rewrite <- (bytes_of_list s1) in H1. apply matches_segment in H1.
    destruct (Hstar _ H2) as (segs & Hs & Hj).
    rewrite <- (bytes_of_list s1), Hj in E. apply bytes_inj in E as ->.
    rewrite split_on_join; [by constructor|done|].
    eapply Forall_impl; [by constructor|]. apply Hfree.
  - intros Hs. rewrite <- (join_split_on s). pose proof (split_on_not_nil "."%char s) as Hne.
    destruct (split_on "."%char s) as [|a segs]; [done|]. clear Hne.
    apply Forall_cons in Hs as [Ha Hs].
    assert (forall b, exists l, bytes (join "." (b :: segs)) = bytes b ++ l /\
       matches (RStar (RSeq dot_re (RPlus (RClass f)))) l) as Hl.
    { clear Ha. induction Hs as [|x segs Hx _ IH]; intros b.
      - exists []. split; [by rewrite app_nil_r | constructor].
      - destruct (IH x) as (l & El & Hl). rewrite join_cons2, !bytes_append, El.
        exists (("."%char :: bytes x) ++ l). split; [done|].
        constructor; [done| |done].
        apply (m_seq _ _ ["."%char]); [by constructor|].
        by apply matches_segment. }
    destruct (Hl a) as (l & -> & Hm). unfold segments_re.
    constructor; [by apply matches_segment | done].
Qed.

Lemma valid_path_language s :
  matches valid_path_re (bytes s) <-> Forall good_segment (split_on "."%char s).
Proof. rewrite valid_path_segments. by apply segments_language. Qed.

(** A path is accepted exactly when it is a dot-separated list of non-empty
    segments free of whitespace, colons and asterisks. *)
Theorem is_valid_path_spec `{GlobLaws} s :
  is_ascii s = true ->
  is_valid_path s = true <-> Forall good_segment (split_on "."%char s).
Proof.
  intros Hs. unfold is_valid_path. destruct law_valid_path as (rx & -> & Hrx).
  by rewrite (Hrx s Hs), re_match_spec, valid_path_language.
Qed.

(** A pattern is accepted exactly when it is a dot-separated list of non-empty
    segments free of whitespace and colons.  Asterisks may stand anywhere in a
    segment, also beside other characters, although the pattern names them
    apart. *)
Theorem is_valid_pattern_spec `{GlobLaws} s :
  is_ascii s = true ->
  is_valid_pattern s = true <-> Forall (segment_of seg_char) (split_on "."%char s).
Proof.
  intros Hs. unfold is_valid_pattern. destruct law_valid_pattern as (rx & -> & Hrx).
  rewrite (Hrx s Hs), re_match_spec, valid_pattern_segments. by apply segments_language.
Qed.

(** The globs that stand for every signal. *)
Lemma glob_all `{GlobLaws} path : glob_is_match "**" path = true /\ glob_is_match "" path = true.
Proof.
  unfold glob_is_match, to_regex. split.
  - destruct law_anchors as (rx & Hrx & Hm). change (to_regex_string "**") with "^**$". by rewrite Hrx; simpl.
  - destruct law_start as (rx & Hrx & Hm). change (to_regex_string "") with "^". by rewrite Hrx; simpl.
Qed.

(** The table of the concrete engine for the patterns of this file.  Its matchers
    of the static patterns are for simpler expressions of the same languages. *)
Definition re_matcher (r : re) : Matcher :=
  {| mt_match := fun s => re_match r (bytes s); mt_groups := fun _ _ => None |}.

Definition glob_table : list (string * Matcher) :=
  [ (REGEX_VALID_PATTERN, re_matcher (segments_re seg_char));
    (REGEX_VALID_PATH, re_matcher (segments_re path_char));
    ("^", {| mt_match := fun _ => true; mt_groups := fun _ _ => None |});
    ("^**$", {| mt_match := fun _ => true; mt_groups := fun _ _ => None |});
    (nul_text, {| mt_match := contains nul_text; mt_groups := fun _ _ => None |}) ].

(** The engine of the witnesses. *)
Definition glob_engine : RegexEngine := table_engine glob_table.

Lemma glob_engine_laws : @GlobLaws glob_engine.
Proof.
  apply (@Build_GlobLaws glob_engine); [by apply table_engine_laws| | |by eexists ..].
  - eexists. split; [reflexivity|]. intros s _. symmetry. apply re_match_ext, valid_pattern_segments.
  - eexists. split; [reflexivity|]. intros s _. symmetry. apply re_match_ext, valid_path_segments.
Qed.

(** What the engine compiles the text of a glob to. *)
Lemma glob_engine_new g p :
  String.eqb (to_regex_string g) (pat_text p) = true -> pat_wf p = true ->
  @regex_new glob_engine (to_regex_string g) = Some (pat_matcher p).
Proof.
  intros ->%String.eqb_eq Hp. cbn [regex_new glob_engine table_engine].
  by rewrite (assoc_text_pat p glob_table Hp), (parse_pat_text p Hp).
Qed.

Lemma is_valid_path_spec_witness :
  @is_valid_path glob_engine "Vehicle.Speed" = true <-> Forall good_segment ["Vehicle"; "Speed"].
Proof. apply (@is_valid_path_spec glob_engine glob_engine_laws "Vehicle.Speed"). reflexivity. Defined.

(** ** Matching of the pattern items *)

Lemma matches_items_app l1 l2 s :
  matches (items_re (l1 ++ l2)) s <->
  exists s1 s2, s = s1 ++ s2 /\ matches (items_re l1) s1 /\ matches (items_re l2) s2.
Proof.
  revert s. induction l1 as [|i l1 IH]; intros s; simpl.
  - split; [intros ?; exists [], s; auto with databroker|].
    by intros (s1 & s2 & -> & ->%matches_REps & ?).
  - rewrite matches_RSeq. setoid_rewrite IH. setoid_rewrite matches_RSeq. split.
    + intros (s1 & s2 & -> & ? & t1 & t2 & -> & ? & ?).
      exists (s1 ++ t1), t2. rewrite app_assoc. eauto 10.
    + intros (s1 & s2 & -> & (t1 & t2 & -> & ? & ?) & ?).
      exists t1, (t2 ++ s2). rewrite app_assoc. eauto 10.
Qed.

(** Literal text: a dot is escaped, any other character stands for itself. *)
Definition char_item (c : Ascii.ascii) : item :=
  if is_char "."%char c then (ADot, []) else (ALit c, []).
Definition text_items (s : string) : list item := map char_item (bytes s).

Lemma matches_char_item c s : matches (item_re (char_item c)) s <-> s = [c].
Proof.
  unfold char_item. destruct (is_char "."%char c) eqn:E; unfold item_re, atom_re; cbn [fst snd fold_left];
    rewrite matches_RClass; unfold is_char in *.
  - apply Ascii.eqb_eq in E as ->. setoid_rewrite Ascii.eqb_eq. split; [by intros (? & -> & ->)|eauto].
  - setoid_rewrite Ascii.eqb_eq. split; [by intros (? & -> & ->)|eauto].
Qed.

Lemma matches_text_items t s : matches (items_re (text_items t)) s <-> s = bytes t.
Proof.
  revert s. induction t as [|c t IH]; intros s; simpl; [apply matches_REps|].
  rewrite matches_RSeq. setoid_rewrite matches_char_item. unfold text_items in IH.
  setoid_rewrite IH. split; [by intros (? & ? & -> & -> & ->)|].
  intros ->. by exists [c], (bytes t).
Qed.

(** Characters of a name: segment characters without a meaning in patterns. *)
Definition name_char (c : Ascii.ascii) : bool := seg_char c && negb (is_meta c).
Definition name_or_dot (c : Ascii.ascii) : bool := is_char "."%char c || name_char c.

Lemma name_char_not c x :
  name_char c = true -> x ∈ bytes "\.+*?()|[]{}^$#&-~" -> Ascii.eqb c x = false.
Proof. intros [_ H]%andb_true_iff Hx. apply negb_true_iff in H. by apply is_meta_false. Qed.

Lemma text_items_wf t : all_chars name_or_dot t -> forallb item_wf (text_items t) = true.
Proof.
  induction t as [|c t IH]; [done|]. intros [Hc Ht]%Forall_cons. simpl.
  apply andb_true_iff. split; [|by apply IH].
  unfold char_item, name_or_dot in *. destruct (is_char "."%char c); [done|].
  by apply andb_true_iff in Hc as [_ ?].
Qed.

Lemma starts_with_cons a p c s :
  starts_with (String a p) (String c s) = Ascii.eqb a c && starts_with p s.
Proof. unfold starts_with. cbn [strip_prefix]. by destruct (Ascii.eqb a c). Qed.

Lemma starts_with_nil s : starts_with "" s = true.
Proof. by destruct s. Qed.

(** Escaping the dots gives the text of the items. *)
Lemma escape_dots t : replace "." "\." t = items_text (text_items t).
Proof.
  unfold replace. induction t as [|c t IH]; [done|].
  cbn [replace_go String.length Nat.sub]. rewrite starts_with_cons, starts_with_nil, andb_true_r.
  unfold text_items in *. cbn [map bytes items_text]. unfold char_item, is_char at 1.
  rewrite (Ascii.eqb_sym c). destruct (Ascii.eqb "."%char c); by rewrite IH.
Qed.

Lemma contains_star_false t :
  all_chars name_or_dot t -> contains "*" t = false.
Proof.
  induction t as [|c t IH]; [done|]. intros [Hc Ht]%Forall_cons. cbn [contains].
  rewrite starts_with_cons, starts_with_nil, andb_true_r, Ascii.eqb_sym.
  assert (Ascii.eqb c "*"%char = false) as ->; [|by apply IH].
  unfold name_or_dot, is_char in Hc. destruct (Ascii.eqb c "."%char) eqn:E; simpl in Hc.
  - by apply Ascii.eqb_eq in E as ->.
  - by apply name_char_not; [|vm_compute; repeat constructor].
Qed.

(** ** Globs without a wildcard *)

Definition plain_pat (g : string) : pat := {| pat_items := text_items g; pat_tail := true |}.

Lemma to_regex_string_plain g :
  g <> "" -> all_chars name_or_dot g -> to_regex_string g = pat_text (plain_pat g).
Proof.
  intros Hne Hg. unfold to_regex_string.
  assert (String.eqb g "*" = false) as ->.
  { apply String.eqb_neq. intros ->. apply contains_star_false in Hg. done. }
  assert (String.eqb g "" = false) as -> by by apply String.eqb_neq.
  rewrite contains_star_false by done. simpl negb. cbv iota.
  unfold pat_text, plain_pat; simpl pat_items; simpl pat_tail. rewrite escape_dots.
  by rewrite append_assoc.
Qed.

(** A glob without a wildcard matches exactly the signal with that path and
    the signals below it. *)
Theorem glob_plain_spec `{GlobLaws} g path :
  g <> "" -> all_chars name_or_dot g -> is_ascii path = true ->
  glob_is_match g path = true <->
  path = g \/ exists rest, path = g +:+ "." +:+ rest /\ rest <> "" /\ all_chars any_char rest.
Proof.
  intros Hne Hg Hp. unfold glob_is_match, to_regex.
  rewrite (to_regex_string_plain g Hne Hg).
  destruct (law_pat (plain_pat g) path (text_items_wf g Hg) Hp) as (rx & -> & Hrx). simpl.
  rewrite Hrx, re_match_spec. unfold pat_re; simpl.
  rewrite matches_RSeq. setoid_rewrite matches_text_items. unfold tail_re, ROpt.
  setoid_rewrite matches_RAlt. setoid_rewrite matches_REps. setoid_rewrite matches_RSeq.
  unfold atom_re. setoid_rewrite matches_RClass. setoid_rewrite matches_RPlus_class. split.
  - intros (s1 & s2 & E & -> & [(d & r & -> & (c & -> & Hc) & Hr & Hany)| -> ]).
    + right. exists (String.string_of_list_ascii r). apply Ascii.eqb_eq in Hc as ->.
      split_and!; [|by destruct r|unfold all_chars; by rewrite bytes_of_list].
      apply bytes_inj. rewrite E, !bytes_append, bytes_of_list. done.
    + left. apply bytes_inj. by rewrite E, app_nil_r.
  - intros [-> |(rest & -> & Hr & Hany)].
    + exists (bytes g), []. rewrite app_nil_r. auto.
    + exists (bytes g), ("."%char :: bytes rest). rewrite !bytes_append.
      split_and!; [done|done|]. left. exists ["."%char], (bytes rest).
      split_and!; [done|by exists "."%char|by destruct rest|done].
Qed.

Lemma glob_plain_spec_witness :
  @glob_is_match glob_engine "Vehicle.ADAS" "Vehicle.ADAS.ABS" = true <->
  "Vehicle.ADAS.ABS" = "Vehicle.ADAS" \/
  exists rest, "Vehicle.ADAS.ABS" = "Vehicle.ADAS" +:+ "." +:+ rest /\ rest <> "" /\ all_chars any_char rest.
Proof.
  apply (@glob_plain_spec glob_engine glob_engine_laws "Vehicle.ADAS" "Vehicle.ADAS.ABS");
    [done | repeat constructor | reflexivity].
Defined.

(** ** Globs with single-level wildcards

    [to_regex_string] rewrites the text in up to three passes.  The passes
    are followed on the list of segments: a name, an asterisk not rewritten
    yet, or the class an asterisk becomes. *)

Inductive gtok := GName (s : string) | GStar | GSeg.

Definition gtok_text (t : gtok) : string :=
  match t with GName s => s | GStar => "*" | GSeg => "[^.\s\:]+" end.

Definition gtok_wf (t : gtok) : Prop :=
  match t with GName s => s <> "" /\ all_chars name_char s | _ => True end.

(** The glob and the escaped text of a list of segments. *)
Definition glob_of (l : list gtok) : string := join "." (map gtok_text l).
Definition text_of (l : list gtok) : string := join "\." (map gtok_text l).

Definition rewrite_star (t : gtok) : gtok := match t with GStar => GSeg | _ => t end.

(** What the passes do: rewrite all asterisks but the last segment's; all but
    the first segment's. *)
Fixpoint pass_init (l : list gtok) : list gtok :=
  match l with
  | [] => []
  | [t] => [t]
  | t :: l => rewrite_star t :: pass_init l
  end.
Definition pass_tail (l : list gtok) : list gtok :=
  match l with [] => [] | t :: l => t :: map rewrite_star l end.

Lemma text_of_cons2 t u l : text_of (t :: u :: l) = gtok_text t +:+ "\." +:+ text_of (u :: l).
Proof. done. Qed.
Lemma glob_of_cons2 t u l : glob_of (t :: u :: l) = gtok_text t +:+ "." +:+ glob_of (u :: l).
Proof. done. Qed.

(** Text free of the first character of the pattern is copied. *)
Lemma replace_skip a p to s rest :
  all_chars (fun c => negb (Ascii.eqb a c)) s ->
  replace_go 0 (String a p) to (s +:+ rest) = s +:+ replace_go 0 (String a p) to rest.
Proof.
  induction s as [|c s IH]; [done|]. intros [Hc Hs]%Forall_cons. simpl in Hc.
  apply negb_true_iff in Hc. change ((String c s) +:+ rest) with (String c (s +:+ rest)).
  cbn [replace_go]. rewrite starts_with_cons, Hc. simpl. by rewrite (IH Hs).
Qed.

Lemma name_free a s :
  all_chars name_char s -> a ∈ bytes "\.+*?()|[]{}^$#&-~" ->
  all_chars (fun c => negb (Ascii.eqb a c)) s.
Proof.
  intros H Ha. eapply Forall_impl; [exact H|]. intros c Hc. cbv beta.
  rewrite Ascii.eqb_sym. by rewrite (name_char_not c a Hc Ha).
Qed.

Lemma starts_with_name a p s rest :
  s <> "" -> all_chars name_char s -> a ∈ bytes "\.+*?()|[]{}^$#&-~" ->
  starts_with (String a p) (s +:+ rest) = false.
Proof.
  destruct s as [|c s]; [done|]. intros _ [Hc _]%Forall_cons Ha.
  change ((String c s) +:+ rest) with (String c (s +:+ rest)).
  by rewrite starts_with_cons, Ascii.eqb_sym, (name_char_not c a Hc Ha).
Qed.

Ltac meta := vm_compute; repeat constructor.

Lemma replace_init l :
  Forall gtok_wf l -> replace "*\." "[^.\s\:]+\." (text_of l) = text_of (pass_init l).
Proof.
  unfold replace. induction l as [|t [|u l] IH]; [done| |]; intros [Ht Hl]%Forall_cons.
  - destruct t as [s| |]; [|done|done]. unfold text_of; simpl.
    rewrite <- (append_nil_r s) at 1. rewrite replace_skip by (apply name_free; [apply Ht|meta]).
    apply append_nil_r.
  - specialize (IH Hl). rewrite text_of_cons2.
    change (pass_init (t :: u :: l)) with (rewrite_star t :: pass_init (u :: l)).
    assert (exists v l', pass_init (u :: l) = v :: l') as (v & l' & Ep) by (destruct l; eauto).
    rewrite Ep in *. rewrite text_of_cons2, <- IH.
    destruct t as [s| |]; simpl gtok_text; simpl rewrite_star.
    + rewrite replace_skip by (apply name_free; [apply Ht|meta]). done.
    + done.
    + by rewrite replace_skip by (repeat constructor).
Qed.

Lemma replace_tail l :
  Forall gtok_wf l -> replace "\.*" "\.[^.\s\:]+" (text_of l) = text_of (pass_tail l).
Proof.
  unfold replace. destruct l as [|t l]; [done|]. revert t.
  induction l as [|u l IH]; intros t [Ht Hl]%Forall_cons.
  - destruct t as [s| |]; [|done|done]. unfold text_of; simpl.
    rewrite <- (append_nil_r s) at 1. rewrite replace_skip by (apply name_free; [apply Ht|meta]).
    apply append_nil_r.
  - assert (replace_go 0 "\.*" "\.[^.\s\:]+" (text_of (t :: u :: l)) =
            gtok_text t +:+ replace_go 0 "\.*" "\.[^.\s\:]+" ("\." +:+ text_of (u :: l))) as ->.
    { rewrite text_of_cons2. destruct t as [s| |]; simpl gtok_text; [|done|done].
      apply replace_skip, name_free; [apply Ht|meta]. }
    change (pass_tail (t :: u :: l)) with (t :: rewrite_star u :: map rewrite_star l).
    rewrite text_of_cons2. f_equal.
    specialize (IH (rewrite_star u)).
    assert (Forall gtok_wf (rewrite_star u :: l)) as Hu.
    { apply Forall_cons in Hl as [Hu Hl]. constructor; [by destruct u|done]. }
    specialize (IH Hu). change (pass_tail (rewrite_star u :: l)) with (rewrite_star u :: map rewrite_star l) in IH.
    rewrite <- IH. apply Forall_cons in Hl as [Hw Hl].
    destruct u as [s| |]; simpl rewrite_star.
    + assert (forall r, starts_with "\.*" ("\." +:+ s +:+ r) = false) as Hs.
      { intros r. change ("\." +:+ s +:+ r) with (String "\"%char (String "."%char (s +:+ r))).
        rewrite !starts_with_cons. simpl. apply starts_with_name; [apply Hw|apply Hw|meta]. }
      assert (exists r, text_of (GName s :: l) = s +:+ r) as [r Er].
      { destruct l; [exists ""; by rewrite append_nil_r|]. by eexists. }
      rewrite Er. change ("\." +:+ s +:+ r) with (String "\"%char (String "."%char (s +:+ r))).
      cbn [replace_go]. rewrite (Hs r : starts_with "\.*" (String _ (String _ _)) = false).
      rewrite starts_with_cons. done.
    + assert (exists r, text_of (GStar :: l) = "*" +:+ r /\ text_of (GSeg :: l) = "[^.\s\:]+" +:+ r)
        as (r & -> & ->) by (destruct l; [by exists ""|by eexists]).
      done.
    + assert (exists r, text_of (GSeg :: l) = "[^.\s\:]+" +:+ r) as (r & ->)
        by (destruct l; [by exists ""|by eexists]).
      done.
Qed.

Lemma starts_with_app p t : starts_with p (p +:+ t) = true.
Proof. unfold starts_with. by rewrite strip_prefix_app. Qed.

Lemma contains_app p s t : contains p (s +:+ p +:+ t) = true.
Proof.
  induction s as [|c s IH].
  - simpl. destruct (p +:+ t) eqn:E; simpl; rewrite <- E, starts_with_app; done.
  - change ((String c s) +:+ ?r) with (String c (s +:+ r)). cbn [contains].
    rewrite IH. apply orb_true_r.
Qed.

Lemma ends_with_app p s : ends_with p (s +:+ p) = true.
Proof.
  induction s as [|c s IH].
  - simpl. destruct p; simpl; [done|]. by rewrite Ascii.eqb_refl, String.eqb_refl.
  - change ((String c s) +:+ p) with (String c (s +:+ p)). cbn [ends_with].
    rewrite IH. apply orb_true_r.
Qed.

Lemma ends_with_contains p s : ends_with p s = true -> contains p s = true.
Proof.
  induction s as [|c s IH]; cbn [ends_with contains]; intros [H|H]%orb_true_iff; try done.
  - apply String.eqb_eq in H as ->. done.
  - apply String.eqb_eq in H as ->. rewrite <- (append_nil_r (String c s)) at 2.
    by rewrite starts_with_app.
  - rewrite (IH H). apply orb_true_r.
Qed.

Lemma contains_skip a p s rest :
  all_chars (fun c => negb (Ascii.eqb a c)) s ->
  contains (String a p) (s +:+ rest) = contains (String a p) rest.
Proof.
  induction s as [|c s IH]; [done|]. intros [Hc Hs]%Forall_cons.
  apply negb_true_iff in Hc. change ((String c s) +:+ rest) with (String c (s +:+ rest)).
  cbn [contains]. by rewrite starts_with_cons, Hc, (IH Hs).
Qed.

Lemma starts_with_prefix p q s : starts_with (p +:+ q) s = true -> starts_with p s = true.
Proof.
  revert s. induction p as [|a p IH]; intros s; [by rewrite starts_with_nil|].
  destruct s as [|c s]; [done|]. change ((String a p) +:+ q) with (String a (p +:+ q)).
  rewrite !starts_with_cons. intros [-> H]%andb_true_iff. by apply IH.
Qed.

Lemma starts_with_contains p s : starts_with p s = true -> contains p s = true.
Proof. intros H. destruct s; cbn [contains]; by rewrite H. Qed.

Lemma contains_shift a p s : contains (String a p) s = true -> contains p s = true.
Proof.
  induction s as [|c s IH]; cbn [contains]; intros [H|H]%orb_true_iff; try done.
  - rewrite starts_with_cons in H. apply andb_true_iff in H as [_ H].
    apply orb_true_iff. right. destruct s; cbn [contains]; by rewrite H.
  - rewrite (IH H). apply orb_true_r.
Qed.

Lemma contains_prefix p q s : contains (p +:+ q) s = true -> contains p s = true.
Proof.
  induction s as [|c s IH]; cbn [contains]; intros [H|H]%orb_true_iff; try done.
  - by rewrite (starts_with_prefix _ _ _ H).
  - by rewrite (starts_with_prefix _ _ _ H).
  - rewrite (IH H). apply orb_true_r.
Qed.

Lemma join_app sep l1 l2 :
  l1 <> [] -> l2 <> [] -> join sep (l1 ++ l2) = join sep l1 +:+ sep +:+ join sep l2.
Proof.
  intros H1 H2. induction l1 as [|a [|b l1] IH]; [done| |].
  - destruct l2; [done|]. done.
  - change ((a :: b :: l1) ++ l2) with (a :: b :: (l1 ++ l2)). rewrite !join_cons2.
    change (b :: (l1 ++ l2)) with ((b :: l1) ++ l2). by rewrite IH, !append_assoc.
Qed.

Lemma glob_of_app l1 l2 :
  l1 <> [] -> l2 <> [] -> glob_of (l1 ++ l2) = glob_of l1 +:+ "." +:+ glob_of l2.
Proof. intros. unfold glob_of. rewrite map_app. apply join_app; by rewrite map_eq_nil_iff || destruct l1, l2. Qed.

(** The segments of a glob as it is written: names and asterisks. *)
Definition gtok_plain (t : gtok) : Prop :=
  match t with GName s => s <> "" /\ all_chars name_char s | GStar => True | GSeg => False end.

Lemma gtok_plain_wf l : Forall gtok_plain l -> Forall gtok_wf l.
Proof. intros H. eapply Forall_impl; [exact H|]. by intros []. Qed.

Lemma no_double_star l : Forall gtok_plain l -> contains "**" (glob_of l) = false.
Proof.
  induction l as [|t [|u l] IH]; [done| |]; intros [Ht Hl]%Forall_cons.
  - destruct t as [s| |]; [|done|done]. unfold glob_of; simpl.
    rewrite <- (append_nil_r s). by rewrite contains_skip by (apply name_free; [apply Ht|meta]).
  - specialize (IH Hl). rewrite glob_of_cons2.
    destruct t as [s| |]; simpl gtok_text; [| |done].
    + rewrite contains_skip by (apply name_free; [apply Ht|meta]). done.
    + done.
Qed.

Lemma escape_glob_of l : Forall gtok_plain l -> replace "." "\." (glob_of l) = text_of l.
Proof.
  unfold replace. induction l as [|t [|u l] IH]; [done| |]; intros [Ht Hl]%Forall_cons.
  - destruct t as [s| |]; [|done|done]. unfold glob_of, text_of; simpl.
    rewrite <- (append_nil_r s) at 1. rewrite replace_skip by (apply name_free; [apply Ht|meta]).
    apply append_nil_r.
  - specialize (IH Hl). rewrite glob_of_cons2, text_of_cons2, <- IH.
    destruct t as [s| |]; simpl gtok_text; [| done |done].
    by rewrite replace_skip by (apply name_free; [apply Ht|meta]).
Qed.

Definition is_star (t : gtok) : bool := match t with GStar => true | _ => false end.

Lemma starts_with_star l t u :
  Forall gtok_plain (t :: u :: l) -> starts_with "*." (glob_of (t :: u :: l)) = is_star t.
Proof.
  intros [Ht _]%Forall_cons. rewrite glob_of_cons2.
  destruct t as [s| |]; simpl gtok_text; [|done|done].
  apply starts_with_name; [apply Ht|apply Ht|meta].
Qed.

(** Facts that settle the remaining tests of [to_regex_string]. *)
Lemma glob_tests l :
  Forall gtok_plain l ->
  starts_with "**." (glob_of l) = false /\ ends_with ".**" (glob_of l) = false /\
  contains ".**." (glob_of l) = false.
Proof.
  intros Hl. apply no_double_star in Hl.
  assert (forall b, (b = true -> contains "**" (glob_of l) = true) -> b = false) as Hb.
  { intros [] H; [|done]. rewrite H in Hl; done. }
  split_and!; apply Hb; intros H.
  - apply starts_with_contains, (starts_with_prefix "**" "."). done.
  - apply ends_with_contains in H. by apply (contains_shift "."%char).
  - apply (contains_shift "."%char), (contains_prefix ".**" "."). done.
Qed.

Lemma contains_star l : GStar ∈ l -> contains "*" (glob_of l) = true.
Proof.
  intros (l1 & l2 & ->)%list_elem_of_split.
  assert (exists a b, glob_of (l1 ++ GStar :: l2) = a +:+ "*" +:+ b) as (a & b & ->);
    [|apply contains_app].
  assert (exists b, glob_of (GStar :: l2) = "*" +:+ b) as [b Hb] by (destruct l2; by eexists).
  destruct l1 as [|t l1]; [by exists "", b|].
  rewrite glob_of_app, Hb by done. exists (glob_of (t :: l1) +:+ "."), b.
  by rewrite append_assoc.
Qed.

Lemma star_at_end l : l <> [] -> ends_with ".*" (glob_of (l ++ [GStar])) = true.
Proof. intros Hl. rewrite glob_of_app by done. apply ends_with_app. Qed.

Lemma star_in_middle l1 l2 :
  l1 <> [] -> l2 <> [] -> contains ".*." (glob_of (l1 ++ GStar :: l2)) = true.
Proof.
  intros H1 H2. rewrite glob_of_app by done. destruct l2 as [|u l2]; [done|].
  rewrite glob_of_cons2. apply (contains_app ".*.").
Qed.

Lemma rewrite_star_idem l : map rewrite_star (map rewrite_star l) = map rewrite_star l.
Proof. rewrite map_map. apply map_ext. by intros []. Qed.

Lemma pass_tail_rewritten l : pass_tail (map rewrite_star l) = map rewrite_star l.
Proof. destruct l; simpl; [done|]. by rewrite rewrite_star_idem. Qed.

Lemma pass_init_snoc l t : pass_init (l ++ [t]) = map rewrite_star l ++ [t].
Proof.
  induction l as [|a l IH]; [done|]. simpl. rewrite IH.
  by destruct (l ++ [t]) eqn:E; [destruct l|].
Qed.

Lemma pass_init_wf l : Forall gtok_plain l -> Forall gtok_wf (pass_init l).
Proof.
  induction l as [|t l IH]; [constructor|]. intros [Ht Hl]%Forall_cons. simpl.
  destruct l as [|u l]; (constructor; [by destruct t|auto]).
Qed.

Lemma rewrite_star_wf l : Forall gtok_wf l -> Forall gtok_wf (map rewrite_star l).
Proof. intros H. apply Forall_map. eapply Forall_impl; [exact H|]. by intros []. Qed.

Lemma pass_tail_wf l : Forall gtok_wf l -> Forall gtok_wf (pass_tail l).
Proof. intros [|x k Hx Hk]; constructor; [done|]. by apply rewrite_star_wf. Qed.

(** The passes end with every asterisk rewritten, whichever tests fire. *)
Lemma passes_complete l1 (b2 b4 : bool) l :
  (exists m, l1 = map rewrite_star m ++ [GStar] /\ m <> [] /\ l = m ++ [GStar] /\ b2 = true) \/
  l1 = map rewrite_star l \/
  (l1 = l /\ pass_tail l = map rewrite_star l /\ (b2 || b4) = true) ->
  (let l2 := if b2 then pass_tail l1 else l1 in if b4 then pass_tail l2 else l2) = map rewrite_star l.
Proof.
  intros [(m & -> & Hm & -> & ->)|[ -> |( -> & Hp & Hb)]]; simpl.
  - assert (pass_tail (map rewrite_star m ++ [GStar]) = map rewrite_star (m ++ [GStar])) as ->.
    { destruct m as [|t m]; [done|]. simpl. by rewrite !map_app, rewrite_star_idem. }
    by destruct b4; rewrite ?pass_tail_rewritten.
  - by destruct b2, b4; rewrite ?pass_tail_rewritten.
  - destruct b2, b4; try done; by rewrite Hp, ?pass_tail_rewritten.
Qed.

Lemma to_regex_string_stars l :
  Forall gtok_plain l -> (2 <= length l)%nat -> GStar ∈ l ->
  to_regex_string (glob_of l) = "^" +:+ text_of (map rewrite_star l) +:+ "$".
Proof.
  intros Hl Hlen Hstar. destruct l as [|t [|u l]]; [simpl in Hlen; lia..|].
  unfold to_regex_string.
  pose proof (contains_star _ Hstar) as Hc. pose proof (glob_tests _ Hl) as (H1 & H2 & H3).
  pose proof (starts_with_star _ _ _ Hl) as Hs.
  assert (String.eqb (glob_of (t :: u :: l)) "*" = false) as ->.
  { apply String.eqb_neq. intros E. rewrite glob_of_cons2 in E.
    destruct t as [[|c [|]]| |]; try done. }
  assert (String.eqb (glob_of (t :: u :: l)) "" = false) as ->.
  { apply String.eqb_neq. intros E. by rewrite E in Hc. }
  rewrite Hc, H1, H2, H3, Hs, (escape_glob_of _ Hl). simpl negb. cbv iota zeta.
  set (b2 := ends_with ".*" (glob_of (t :: u :: l))).
  set (b4 := contains ".*." (glob_of (t :: u :: l))).
  set (l1 := if is_star t then pass_init (t :: u :: l) else t :: u :: l).
  assert (Forall gtok_wf l1) as Hw1.
  { unfold l1. destruct (is_star t); [by apply pass_init_wf|by apply gtok_plain_wf]. }
  assert (Forall gtok_wf (if b2 then pass_tail l1 else l1)) as Hw2.
  { destruct b2; [by apply pass_tail_wf|done]. }
  rewrite <- (passes_complete l1 b2 b4 (t :: u :: l)).
  - assert ((if is_star t then replace "*\." "[^.\s\:]+\." (text_of (t :: u :: l)) else
             text_of (t :: u :: l)) = text_of l1) as ->.
    { unfold l1. destruct (is_star t); [|done]. by apply replace_init, gtok_plain_wf. }
    cbv zeta. rewrite (replace_tail _ Hw1).
    assert ((if b2 then text_of (pass_tail l1) else text_of l1) =
            text_of (if b2 then pass_tail l1 else l1)) as -> by by destruct b2.
    rewrite (replace_tail _ Hw2). by destruct b4.
  - destruct (exists_last (l := t :: u :: l) ltac:(done)) as (m & z & E).
    assert (m <> []) as Hm by (intros ->; destruct l; done).
    destruct (is_star t) eqn:Et; unfold l1.
    + destruct (is_star z) eqn:Ez.
      * destruct z; try done. left. exists m. rewrite E, pass_init_snoc.
        split_and!; try done. unfold b2. rewrite E. by apply star_at_end.
      * right; left. rewrite E, pass_init_snoc, map_app. by destruct z.
    + right; right. split_and!; [done|by destruct t|].
      apply orb_true_iff.
      apply list_elem_of_split in Hstar as (k1 & k2 & Ek).
      assert (k1 <> []) as Hk1 by (intros ->; simplify_eq/=; done).
      unfold b2, b4. rewrite Ek. destruct k2 as [|v k2].
      * left. by apply star_at_end.
      * right. by apply star_in_middle.
Qed.

(** The rewritten segments as pattern items. *)
Definition gtok_items (t : gtok) : list item :=
  match t with GName s => text_items s | GStar | GSeg => [(ASeg, [Plus])] end.
Fixpoint toks_items (l : list gtok) : list item :=
  match l with
  | [] => []
  | [t] => gtok_items t
  | t :: l => gtok_items t ++ (ADot, []) :: toks_items l
  end.

(** One segment of a glob against one segment of a path. *)
Definition seg_matches (t : gtok) (p : string) : Prop :=
  match t with GName s => p = s | GStar | GSeg => p <> "" /\ all_chars seg_char p end.

Lemma items_text_app l1 l2 : items_text (l1 ++ l2) = items_text l1 +:+ items_text l2.
Proof.
  induction l1 as [|i l1 IH]; [done|]. cbn [app items_text]. by rewrite IH, append_assoc.
Qed.

Lemma text_items_name s : all_chars name_char s -> items_text (text_items s) = s.
Proof.
  induction s as [|c s IH]; [done|]. intros [Hc Hs]%Forall_cons.
  unfold text_items in *. cbn [map bytes items_text]. rewrite (IH Hs). unfold char_item, is_char.
  by rewrite (name_char_not c "."%char Hc ltac:(meta)).
Qed.

Lemma toks_items_text l :
  Forall gtok_wf l -> items_text (toks_items (map rewrite_star l)) = text_of (map rewrite_star l).
Proof.
  assert (forall t, gtok_wf t -> items_text (gtok_items (rewrite_star t)) = gtok_text (rewrite_star t)) as Ht.
  { intros [s| |]; [|done|done]. intros [_ H]. by apply text_items_name. }
  induction l as [|t [|u l] IH]; [done| |]; intros [Hw Hl]%Forall_cons.
  - by apply Ht.
  - change (map rewrite_star (t :: u :: l)) with (rewrite_star t :: map rewrite_star (u :: l)) in *.
    change (map rewrite_star (u :: l)) with (rewrite_star u :: map rewrite_star l) in *.
    rewrite text_of_cons2, <- IH, <- (Ht t Hw) by done.
    cbn [toks_items]. by rewrite items_text_app.
Qed.

Lemma toks_items_wf l : Forall gtok_wf l -> forallb item_wf (toks_items l) = true.
Proof.
  assert (forall t, gtok_wf t -> forallb item_wf (gtok_items t) = true) as Ht.
  { intros [s| |]; [|done|done]. intros [_ H]. apply text_items_wf.
    eapply Forall_impl; [exact H|]. intros c Hc. unfold name_or_dot. by rewrite Hc, orb_true_r. }
  induction l as [|t [|u l] IH]; [done| |]; intros [Hw Hl]%Forall_cons.
  - by apply Ht.
  - change (toks_items (t :: u :: l)) with (gtok_items t ++ (ADot, []) :: toks_items (u :: l)).
    rewrite forallb_app, (Ht t Hw). cbn [forallb andb]. rewrite (IH Hl). done.
Qed.

Lemma matches_gtok t s : gtok_wf t ->
  matches (items_re (gtok_items (rewrite_star t))) s <-> seg_matches t (String.string_of_list_ascii s).
Proof.
  assert (matches (items_re [(ASeg, [Plus])]) s <->
    String.string_of_list_ascii s <> "" /\ all_chars seg_char (String.string_of_list_ascii s)) as Hseg.
  { unfold all_chars. rewrite bytes_of_list. cbn [items_re]. rewrite matches_RSeq.
    setoid_rewrite matches_REps. unfold item_re; cbn [fst snd fold_left rep_re].
    unfold atom_re. setoid_rewrite matches_RPlus_class. split.
    - intros (s1 & s2 & -> & [? ?] & ->). rewrite app_nil_r. by destruct s1.
    - intros [? ?]. exists s, []. rewrite app_nil_r. by destruct s. }
  destruct t as [n| |]; intros Hw; simpl; [|done|done].
  rewrite matches_text_items. split.
  - intros ->. apply String.string_of_list_ascii_of_string.
  - intros <-. by rewrite bytes_of_list.
Qed.

(** A path matches the items segment by segment. *)
Lemma matches_toks l s :
  l <> [] -> Forall gtok_wf l ->
  matches (items_re (toks_items (map rewrite_star l))) (bytes s) <->
  exists parts, s = join "." parts /\ Forall2 seg_matches l parts.
Proof.
  revert s. induction l as [|t [|u l] IH]; intros s; [done| |]; intros _ [Hw Hl]%Forall_cons.
  - change (toks_items (map rewrite_star [t])) with (gtok_items (rewrite_star t)).
    rewrite (matches_gtok t _ Hw), String.string_of_list_ascii_of_string. split.
    + intros H. exists [s]. split; [done|]. by repeat constructor.
    + intros (parts & -> & H). inversion H as [|? p ? l' Hp Hl']; subst.
      by inversion Hl'; subst.
  - change (toks_items (map rewrite_star (t :: u :: l))) with
      (gtok_items (rewrite_star t) ++ (ADot, []) :: toks_items (map rewrite_star (u :: l))).
    rewrite matches_items_app. setoid_rewrite (matches_gtok t _ Hw).
    cbn [items_re]. setoid_rewrite matches_RSeq. split.
    + intros (s1 & s2 & E & H1 & d & s3 & -> & Hd & H3).
      apply (matches_char_item "."%char) in Hd as ->.
      rewrite <- (bytes_of_list s3) in H3. apply IH in H3 as (parts & Ep & H3); [|done|done].
      exists (String.string_of_list_ascii s1 :: parts). split; [|by constructor].
      destruct parts as [|p parts]; [by inversion H3|]. rewrite join_cons2, <- Ep.
      apply bytes_inj. rewrite E, !bytes_append, !bytes_of_list. done.
    + intros (parts & -> & H). inversion H as [|? p ? parts' Hp H2]; subst.
      destruct parts' as [|q parts]; [by inversion H2|].
      rewrite join_cons2, !bytes_append. exists (bytes p), ("."%char :: bytes (join "." (q :: parts))).
      split_and!; [done|by rewrite String.string_of_list_ascii_of_string|].
      exists ["."%char], (bytes (join "." (q :: parts))).
      split_and!; [done|by apply (matches_char_item "."%char)|]. apply IH; eauto.
Qed.

(** C40. A glob with single-level wildcards (at least two segments, each a name
    or [*]) matches exactly the paths with as many segments, where a name
    matches itself and [*] any one non-empty segment. *)
Theorem glob_wildcard_spec `{GlobLaws} l path :
  Forall gtok_plain l -> (2 <= length l)%nat -> GStar ∈ l -> is_ascii path = true ->
  glob_is_match (glob_of l) path = true <->
  exists parts, path = join "." parts /\ Forall2 seg_matches l parts.
Proof.
  intros Hl Hlen Hstar Hp. pose proof (gtok_plain_wf l Hl) as Hw.
  set (p := {| pat_items := toks_items (map rewrite_star l); pat_tail := false |}).
  unfold glob_is_match, to_regex.
  assert (to_regex_string (glob_of l) = pat_text p) as ->.
  { rewrite (to_regex_string_stars l Hl Hlen Hstar). unfold pat_text, p; cbn [pat_items pat_tail].
    by rewrite (toks_items_text l Hw). }
  destruct (law_pat p path (toks_items_wf _ (rewrite_star_wf l Hw)) Hp) as (rx & -> & Hrx). simpl.
  rewrite Hrx, re_match_spec. unfold pat_re, p; cbn [pat_items pat_tail].
  rewrite <- (matches_toks l path); [|by intros ->; simpl in Hlen; lia|done].
  rewrite matches_RSeq. setoid_rewrite matches_REps. split.
  - intros (s1 & s2 & E & Hm & ->). by rewrite E, app_nil_r.
  - intros Hm. exists (bytes path), []. by rewrite app_nil_r.
Qed.

Lemma glob_wildcard_spec_witness :
  @glob_is_match glob_engine "Vehicle.*.Speed" "Vehicle.Cabin.Speed" = true <->
  exists parts, "Vehicle.Cabin.Speed" = join "." parts /\
    Forall2 seg_matches [GName "Vehicle"; GStar; GName "Speed"] parts.
Proof.
  apply (@glob_wildcard_spec glob_engine glob_engine_laws [GName "Vehicle"; GStar; GName "Speed"]);
    [repeat (constructor; [by repeat constructor|]); constructor | simpl; lia
    | right; left | reflexivity].
Defined.

(** ** Double wildcards in the middle of a glob *)

(** A glob whose text the parser of the concrete syntax accepts is matched
    by the language of its items, whatever the engine. *)
Lemma glob_is_match_parsed `{GlobLaws} g p path :
  to_regex_string g = pat_text p -> pat_wf p = true -> is_ascii path = true ->
  glob_is_match g path = re_match (pat_re p) (bytes path).
Proof.
  intros E Hp Ha. unfold glob_is_match, to_regex. rewrite E.
  by destruct (law_pat p path Hp Ha) as (rx & -> & Hrx).
Qed.

(** [**] in the middle of a glob matches any run of segment characters and
    dots, so it also extends the name before it: [Vehicle.Cabin.**.Position]
    matches a signal of another branch, [Vehicle.CabinDoor.Position].
    When the same glob ends in [.*], the rewriting of the final asterisk
    consumes the first asterisk of [**] and the middle no longer spans more
    than one segment: [A.**.B.*] does not match [A.x.y.B.z]. *)
Theorem glob_double_wildcard_middle `{GlobLaws} :
  glob_is_match "Vehicle.Cabin.**.Position" "Vehicle.Cabin.Seat.Position" = true /\
  glob_is_match "Vehicle.Cabin.**.Position" "Vehicle.CabinDoor.Position" = true /\
  to_regex_string "A.**.B.*" = "^A\.[^.\s\:]+*\.B\.[^.\s\:]+$" /\
  glob_is_match "A.**.B.*" "A.x.B.z" = true /\
  glob_is_match "A.**.B.*" "A.x.y.B.z" = false.
Proof.
  split_and!; [| |reflexivity| |].
  all: match goal with |- glob_is_match ?g ?path = _ =>
         let o := eval vm_compute in (parse_pat (to_regex_string g)) in
         match o with Some ?p => rewrite (glob_is_match_parsed g p path); reflexivity end
       end.
Qed.

Lemma glob_double_wildcard_middle_witness :
  @glob_is_match glob_engine "Vehicle.Cabin.**.Position" "Vehicle.CabinDoor.Position" = true.
Proof. apply (@glob_double_wildcard_middle glob_engine glob_engine_laws). Defined.
