(* ===== verification/Permissions.v ===== *)
(** * Permissions: what a client may read, actuate, provide and create

    src/kuksa_databroker/databroker/src/permissions.rs.  The clock reading
    [SystemTime::now()] of [Permissions::expired] is an argument ([now]); a
    [RegexSet] is the list of its compiled patterns. *)

From S2P Require Import Prelude Regex Glob.

Inductive Permission :=
| Perm_Nothing
| Perm_All
| Perm_Glob (path : string).

Inductive PathMatchBuilder :=
| PMB_Nothing
| PMB_Everything
| PMB_Globs (globs : list string).

Inductive PermissionError := Denied | Expired.

Inductive PermissionsBuildError := BuildError.

Record PermissionBuilder := {
  pb_expiration : option SystemTime;
  pb_read : PathMatchBuilder;
  pb_actuate : PathMatchBuilder;
  pb_provide : PathMatchBuilder;
  pb_create : PathMatchBuilder
}.

(** ** PathMatchBuilder *)

(** [PathMatchBuilder::extend_with]. *)
Definition extend_with (self other : PathMatchBuilder) : PathMatchBuilder :=
  match self with
  | PMB_Everything => PMB_Everything (* we already allow everything *)
  | _ =>
      match other with
      | PMB_Nothing => self
      | PMB_Everything => PMB_Everything
      | PMB_Globs other_regexps =>
          match self with
          | PMB_Nothing => PMB_Globs other_regexps
          | PMB_Everything => self
          | PMB_Globs regexps => PMB_Globs (regexps ++ other_regexps)
          end
      end
  end.

(** [PathMatchBuilder::extend_with_glob]. *)
Definition extend_with_glob (self : PathMatchBuilder) (glob : string) : PathMatchBuilder :=
  match self with
  | PMB_Nothing => PMB_Globs [glob]
  | PMB_Everything => PMB_Everything
  | PMB_Globs globs => PMB_Globs (globs ++ [glob])
  end.

(** The body the four [add_*_permission] methods share. *)
Definition extend_with_permission (self : PathMatchBuilder) (permission : Permission) : PathMatchBuilder :=
  match permission with
  | Perm_Nothing => self
  | Perm_All => extend_with self PMB_Everything
  | Perm_Glob path => extend_with_glob self path
  end.

(** ** PermissionBuilder *)

Definition PermissionBuilder_new : PermissionBuilder :=
  {| pb_expiration := None; pb_read := PMB_Nothing; pb_actuate := PMB_Nothing;
     pb_provide := PMB_Nothing; pb_create := PMB_Nothing |}.

(** [PermissionBuilder::expires_at]. *)
Definition set_expires_at (self : PermissionBuilder) (expiration : SystemTime) : PermissionBuilder :=
  {| pb_expiration := Some expiration; pb_read := pb_read self; pb_actuate := pb_actuate self;
     pb_provide := pb_provide self; pb_create := pb_create self |}.

Definition add_read_permission (self : PermissionBuilder) (permission : Permission) : PermissionBuilder :=
  {| pb_expiration := pb_expiration self;
     pb_read := extend_with_permission (pb_read self) permission;
     pb_actuate := pb_actuate self; pb_provide := pb_provide self; pb_create := pb_create self |}.

Definition add_actuate_permission (self : PermissionBuilder) (permission : Permission) : PermissionBuilder :=
  {| pb_expiration := pb_expiration self; pb_read := pb_read self;
     pb_actuate := extend_with_permission (pb_actuate self) permission;
     pb_provide := pb_provide self; pb_create := pb_create self |}.

Definition add_provide_permission (self : PermissionBuilder) (permission : Permission) : PermissionBuilder :=
  {| pb_expiration := pb_expiration self; pb_read := pb_read self; pb_actuate := pb_actuate self;
     pb_provide := extend_with_permission (pb_provide self) permission;
     pb_create := pb_create self |}.

Definition add_create_permission (self : PermissionBuilder) (permission : Permission) : PermissionBuilder :=
  {| pb_expiration := pb_expiration self; pb_read := pb_read self; pb_actuate := pb_actuate self;
     pb_provide := pb_provide self;
     pb_create := extend_with_permission (pb_create self) permission |}.

Section Permissions.
Context `{RegexEngine}.

Inductive PathMatcher :=
| PM_Nothing
| PM_Everything
| PM_Regexps (set : list Regex).

Record Permissions := {
  expires_at : option SystemTime;
  p_read : PathMatcher;
  p_actuate : PathMatcher;
  p_provide : PathMatcher;
  p_create : PathMatcher
}.

Definition ALLOW_ALL : Permissions :=
  {| expires_at := None; p_read := PM_Everything; p_actuate := PM_Everything;
     p_provide := PM_Everything; p_create := PM_Everything |}.

Definition ALLOW_NONE : Permissions :=
  {| expires_at := None; p_read := PM_Nothing; p_actuate := PM_Nothing;
     p_provide := PM_Nothing; p_create := PM_Nothing |}.

(** [PathMatcher::is_match]; [RegexSet::is_match] holds when any of the
    patterns matches. *)
Definition is_match (self : PathMatcher) (path : string) : bool :=
  match self with
  | PM_Nothing => false
  | PM_Everything => true
  | PM_Regexps regexps => existsb (fun rx => regex_is_match rx path) regexps
  end.

(** [RegexSet::new]: fails when one of the patterns does not compile. *)
Definition regex_set_new (texts : list string) : result (list Regex) unit :=
  collect (fun t => ok_or (regex_new t) tt) texts.

(** [PathMatchBuilder::build]. *)
Definition pmb_build (self : PathMatchBuilder) : result PathMatcher PermissionsBuildError :=
  match self with
  | PMB_Nothing => Ok PM_Nothing
  | PMB_Everything => Ok PM_Everything
  | PMB_Globs globs =>
      let? set := map_err (fun _ => BuildError) (regex_set_new (map to_regex_string globs)) in
      Ok (PM_Regexps set)
  end.

(** [PermissionBuilder::build]. *)
Definition build (self : PermissionBuilder) : result Permissions PermissionsBuildError :=
  let? r := pmb_build (pb_read self) in
  let? a := pmb_build (pb_actuate self) in
  let? p := pmb_build (pb_provide self) in
  let? c := pmb_build (pb_create self) in
  Ok {| expires_at := pb_expiration self; p_read := r; p_actuate := a; p_provide := p; p_create := c |}.

(** [Permissions::expired]. *)
Definition expired (self : Permissions) (now : SystemTime) : result unit PermissionError :=
  match expires_at self with
  | Some expires_at => if expires_at <? now then Err Expired else Ok tt
  | None => Ok tt
  end.

Definition can_read (self : Permissions) (now : SystemTime) (path : string) : result unit PermissionError :=
  let? _ := expired self now in
  if is_match (p_read self) path then Ok tt
  (* Read permissions are included (by convention) in the others as well *)
  else if is_match (p_actuate self) path then Ok tt
  else if is_match (p_provide self) path then Ok tt
  else if is_match (p_create self) path then Ok tt
  else Err Denied.

Definition can_write_actuator_target (self : Permissions) (now : SystemTime) (path : string) : result unit PermissionError :=
  let? _ := expired self now in
  if is_match (p_actuate self) path then Ok tt else Err Denied.

Definition can_write_datapoint (self : Permissions) (now : SystemTime) (path : string) : result unit PermissionError :=
  let? _ := expired self now in
  if is_match (p_provide self) path then Ok tt else Err Denied.

Definition can_create (self : Permissions) (now : SystemTime) (path : string) : result unit PermissionError :=
  let? _ := expired self now in
  if is_match (p_create self) path then Ok tt else Err Denied.
End Permissions.

(** ** What a permission set grants *)

Section PermissionProperties.
Context `{RegexEngine}.

(** The token is still valid at [now]. *)
Definition valid_at (p : Permissions) (now : SystemTime) : bool :=
  match expires_at p with Some e => now <=? e | None => true end.

Lemma expired_valid p now : expired p now = if valid_at p now then Ok tt else Err Expired.
Proof.
  unfold expired, valid_at. destruct (expires_at p) as [e|]; [|done].
  by rewrite Z.leb_antisym; destruct (e <? now).
Qed.

(** Reading is allowed exactly while the token is valid and one of the
    four scopes covers the path; an expired token is reported as expired
    whatever its scopes. *)
Theorem can_read_spec p now path :
  can_read p now path =
    if valid_at p now then
      if is_match (p_read p) path || is_match (p_actuate p) path
         || is_match (p_provide p) path || is_match (p_create p) path
      then Ok tt else Err Denied
    else Err Expired.
Proof.
  unfold can_read. rewrite expired_valid. destruct (valid_at p now); [|done].
  by destruct (is_match (p_read p) path), (is_match (p_actuate p) path),
    (is_match (p_provide p) path), (is_match (p_create p) path).
Qed.

Lemma can_write_datapoint_valid p now path :
  can_write_datapoint p now path = Ok tt -> valid_at p now = true /\ is_match (p_provide p) path = true.
Proof.
  unfold can_write_datapoint. rewrite expired_valid.
  by destruct (valid_at p now), (is_match (p_provide p) path).
Qed.

Lemma can_write_actuator_target_valid p now path :
  can_write_actuator_target p now path = Ok tt -> valid_at p now = true /\ is_match (p_actuate p) path = true.
Proof.
  unfold can_write_actuator_target. rewrite expired_valid.
  by destruct (valid_at p now), (is_match (p_actuate p) path).
Qed.

Lemma can_create_valid p now path :
  can_create p now path = Ok tt -> valid_at p now = true /\ is_match (p_create p) path = true.
Proof.
  unfold can_create. rewrite expired_valid.
  by destruct (valid_at p now), (is_match (p_create p) path).
Qed.

(** Every write permission includes the read permission. *)
Lemma write_implies_read p now path :
  can_write_datapoint p now path = Ok tt \/ can_write_actuator_target p now path = Ok tt \/
  can_create p now path = Ok tt -> can_read p now path = Ok tt.
Proof.
  rewrite can_read_spec.
  intros [[-> ->]%can_write_datapoint_valid|[[-> ->]%can_write_actuator_target_valid
         |[-> ->]%can_create_valid]]; by rewrite ?orb_true_r.
Qed.

(** *** The builder *)

Definition permission_grants (path : string) (p : Permission) : bool :=
  match p with
  | Perm_Nothing => false
  | Perm_All => true
  | Perm_Glob g => glob_is_match g path
  end.

(** What the builder of one scope denotes. *)
Definition pmb_grants (b : PathMatchBuilder) (path : string) : bool :=
  match b with
  | PMB_Nothing => false
  | PMB_Everything => true
  | PMB_Globs globs => existsb (fun g => glob_is_match g path) globs
  end.

Lemma extend_with_permission_grants b p path :
  pmb_grants (extend_with_permission b p) path = pmb_grants b path || permission_grants path p.
Proof.
  destruct b, p; simpl; rewrite ?orb_false_r, ?orb_true_r; try done.
  rewrite existsb_app; simpl. by rewrite orb_false_r.
Qed.

Lemma pmb_build_grants b m path :
  pmb_build b = Ok m -> is_match m path = pmb_grants b path.
Proof.
  destruct b as [| |globs]; simpl; intros Hb; simplify_eq/=; [done|done|].
  unfold regex_set_new in Hb. destruct (collect _ _) as [set|] eqn:E; simplify_eq/=.
  apply collect_Ok in E. revert set E.
  induction globs as [|g globs IH]; intros set E; inversion E as [|? rx ? set' Hg Hs]; subst; [done|].
  simpl. rewrite (IH _ Hs). f_equal. unfold glob_is_match, to_regex.
  destruct (regex_new (to_regex_string g)); simplify_eq/=. done.
Qed.

(** The permission set built from a list of read permissions lets a path
    be matched exactly when one of the permissions added grants it: building
    forgets, reorders and invents nothing, and one [All] subsumes the globs. *)
Theorem built_read_matcher ps perms path :
  build (fold_left add_read_permission ps PermissionBuilder_new) = Ok perms ->
  is_match (p_read perms) path = existsb (permission_grants path) ps /\
  p_actuate perms = PM_Nothing /\ p_provide perms = PM_Nothing /\ p_create perms = PM_Nothing.
Proof.
  assert (forall b, let b' := fold_left add_read_permission ps b in
    pmb_grants (pb_read b') path = pmb_grants (pb_read b) path || existsb (permission_grants path) ps /\
    pb_actuate b' = pb_actuate b /\ pb_provide b' = pb_provide b /\ pb_create b' = pb_create b) as Hfold.
  { induction ps as [|p ps IH]; intros b; simpl; [by rewrite orb_false_r|].
    destruct (IH (add_read_permission b p)) as (-> & -> & -> & ->). simpl.
    by rewrite extend_with_permission_grants, orb_assoc. }
  destruct (Hfold PermissionBuilder_new) as (Hr & Ha & Hp & Hc). unfold build.
  rewrite Ha, Hp, Hc. simpl. destruct (pmb_build _) as [m|] eqn:Em; [|done]. intros [= <-]. simpl.
  by rewrite (pmb_build_grants _ _ path Em), Hr.
Qed.
End PermissionProperties.

(** The pattern of [Vehicle.*] and a token that may only read what it matches. *)
Definition vehicle_children : pat :=
  {| pat_items := text_items "Vehicle." ++ [(ASeg, [Plus])]; pat_tail := false |}.

Definition vehicle_reader : @Permissions glob_engine :=
  {| expires_at := None; p_read := PM_Regexps [pat_matcher vehicle_children : @Regex glob_engine];
     p_actuate := PM_Nothing; p_provide := PM_Nothing; p_create := PM_Nothing |}.

Lemma built_read_matcher_witness :
  is_match (p_read vehicle_reader) "Vehicle.Speed" =
    existsb (@permission_grants glob_engine "Vehicle.Speed") [Perm_Glob "Vehicle.*"; Perm_Nothing] /\
  p_actuate vehicle_reader = PM_Nothing /\ p_provide vehicle_reader = PM_Nothing /\
  p_create vehicle_reader = PM_Nothing.
Proof.
  apply (@built_read_matcher glob_engine [Perm_Glob "Vehicle.*"; Perm_Nothing] vehicle_reader "Vehicle.Speed").
  unfold build, pmb_build, regex_set_new. cbn [fold_left pb_read pb_actuate pb_provide pb_create
    add_read_permission extend_with_permission extend_with_glob PermissionBuilder_new map collect].
  by rewrite (glob_engine_new "Vehicle.*" vehicle_children) by reflexivity.
Defined.
