(* ===== verification/Auth.v ===== *)
(** * Auth: tokens and the permissions they carry

    src/kuksa_databroker/databroker/src/authorization/mod.rs,
    authorization/jwt/scope.rs, authorization/jwt/decoder.rs and the
    interceptor of grpc/server.rs.  The JWT crate is a parameter
    ([JwtLibrary]); the scope pattern is given to the regex engine, and
    [ScopeLaws] is its documented meaning on ASCII text. *)

From S2P Require Import Prelude Regex Glob Permissions.

(** ** Scopes (scope.rs) *)

Inductive Action := A_Read | A_Actuate | A_Provide | A_Create.

Record Scope := { action : Action; scope_path : option string }.

Inductive ScopeError := ParseError.

#[export] Instance Action_eq_dec : EqDecision Action.
Proof. solve_decision. Defined.

(** [str::split_whitespace], for ASCII text. *)
Fixpoint split_whitespace_from (current : string) (s : string) : list string :=
  match s with
  | EmptyString => if String.eqb current "" then [] else [current]
  | String c s =>
      if is_whitespace c
      then if String.eqb current "" then split_whitespace_from "" s
           else current :: split_whitespace_from "" s
      else split_whitespace_from (current +:+ String c "") s
  end.
Definition split_whitespace (s : string) : list string := split_whitespace_from "" s.

Definition SCOPE_REGEX : string := "(?x)
        ^
        (?P<action>([^:]*)) # match action

        (?::
            (?P<path>
                (
                    (
                        [A-Z][a-zA-Z0-1]*
                        |
                        \*
                    )
                    (?:
                        \.
                        (
                            [A-Z][a-zA-Z0-1]*
                            |
                            \*
                        )
                    )*
                )
            )
        )?
        $".

Section Scope.
Context `{RegexEngine}.

(** The body of the loop: one scope. *)
Definition parse_scope (regex : Regex) (scope : string) : result Scope ScopeError :=
  match regex_captures regex scope with
  | Some captures =>
      let? action :=
        match captures "action" with
        | Some action =>
            if String.eqb action "read" then Ok A_Read
            else if String.eqb action "actuate" then Ok A_Actuate
            else if String.eqb action "provide" then Ok A_Provide
            else if String.eqb action "create" then Ok A_Create
            else Err ParseError (* Unknown action *)
        | None => Err ParseError (* No action specified / Unknown action *)
        end in
      Ok {| action := action; scope_path := captures "path" |}
  | None => Err ParseError (* Capture groups couldn't be produced *)
  end.

(** [parse_whitespace_separated]; [unwrap] on a pattern that does not compile
    panics. *)
Definition parse_whitespace_separated (scope : string) : outcome (result (list Scope) ScopeError) :=
  match regex_new SCOPE_REGEX with
  | Some regex => Returns (collect (parse_scope regex) (split_whitespace scope))
  | None => Panics
  end.
End Scope.

(** ** Tokens (decoder.rs) *)

Record Claims := {
  sub : string;
  iss : string;
  aud : list string;
  iat : Z;
  exp : Z;
  claims_scope : string
}.

Inductive JwtError := PublicKeyError | DecodeError | ClaimsError.

Inductive Algorithm := RS256.
Record Validation := { algorithm : Algorithm; audience : list string }.

(** The crate [jsonwebtoken]: [DecodingKey::from_rsa_pem] and [decode]. *)
Class JwtLibrary := {
  DecodingKey : Type;
  from_rsa_pem : string -> option DecodingKey;
  jwt_decode : string -> DecodingKey -> Validation -> option Claims
}.

Section Decoder.
Context `{RegexEngine} `{JwtLibrary}.

Record Decoder := { decoding_key : DecodingKey; validator : Validation }.

(** [Decoder::new]. *)
Definition Decoder_new (public_key : string) : result Decoder JwtError :=
  match from_rsa_pem public_key with
  | Some decoding_key =>
      Ok {| decoding_key := decoding_key;
            validator := {| algorithm := RS256; audience := ["kuksa.val"] |} |}
  | None => Err PublicKeyError
  end.

(** [Decoder::decode]. *)
Definition decode_token (self : Decoder) (token : string) : result Claims JwtError :=
  match jwt_decode token (decoding_key self) (validator self) with
  | Some claims => Ok claims
  | None => Err DecodeError
  end.

(** One scope added to the builder. *)
Definition add_scope (permissions : PermissionBuilder) (scope : Scope) : PermissionBuilder :=
  match scope_path scope with
  | Some path =>
      match action scope with
      | A_Read => add_read_permission permissions (Perm_Glob path)
      | A_Actuate => add_actuate_permission permissions (Perm_Glob path)
      | A_Provide => add_provide_permission permissions (Perm_Glob path)
      | A_Create => add_create_permission permissions (Perm_Glob path)
      end
  | None => (* Empty path => all paths *)
      match action scope with
      | A_Read => add_read_permission permissions Perm_All
      | A_Actuate => add_actuate_permission permissions Perm_All
      | A_Provide => add_provide_permission permissions Perm_All
      | A_Create => add_create_permission permissions Perm_All
      end
  end.

(** [UNIX_EPOCH + Duration::from_secs(exp)]: seconds are kept in an [i64], and
    the addition panics when they do not fit. *)
Definition unix_time (secs : Z) : outcome SystemTime :=
  if secs <=? int_max i64 then Returns (secs * 1000000000) else Panics.

(** [Permissions::try_from(claims)]. *)
Definition permissions_try_from (claims : Claims) : outcome (result Permissions JwtError) :=
  match parse_whitespace_separated (claims_scope claims) with
  | Panics => Panics
  | Returns (Err ParseError) => Returns (Err ClaimsError)
  | Returns (Ok scopes) =>
      let permissions := fold_left add_scope scopes PermissionBuilder_new in
      match unix_time (exp claims) with
      | Panics => Panics
      | Returns t =>
          Returns (map_err (fun _ => ClaimsError) (build (set_expires_at permissions t)))
      end
  end.

(** ** Authorization (mod.rs) and the interceptor (grpc/server.rs) *)

Inductive Authorization := Disabled | Enabled (token_decoder : Decoder).

(** [Authorization::new]. *)
Definition Authorization_new (public_key : string) : result Authorization unit :=
  match Decoder_new public_key with
  | Ok token_decoder => Ok (Enabled token_decoder)
  | Err _ => Err tt (* InvalidPublicKey *)
  end.

(** [header[7..]]. *)
Fixpoint string_drop (n : nat) (s : string) : string :=
  match n, s with
  | O, _ => s
  | S n, String _ s => string_drop n s
  | S _, EmptyString => EmptyString
  end.

(** [Interceptor::call]: the permissions inserted into the request, or the
    status [unauthenticated].  The header is absent, not readable as text, or
    a text. *)
Definition interceptor_call (self : Authorization) (header : option (result string unit))
  : outcome (result Permissions unit) :=
  match self with
  | Disabled => Returns (Ok ALLOW_ALL)
  | Enabled token_decoder =>
      match header with
      | Some (Ok header) =>
          if starts_with "Bearer " header then
            let token := string_drop 7 header in
            match decode_token token_decoder token with
            | Ok claims =>
                match permissions_try_from claims with
                | Returns (Ok permissions) => Returns (Ok permissions)
                | Returns (Err _) => Returns (Err tt)
                | Panics => Panics
                end
            | Err _ => Returns (Err tt)
            end
          else Returns (Err tt)
      | Some (Err _) => Returns (Err tt)
      | None => Returns (Err tt)
      end
  end.
End Decoder.

(** ** Documented meaning of the scope pattern *)

Definition upper_char (c : Ascii.ascii) : bool := let n := byte_code c in ((65 <=? n) && (n <=? 90))%N.
Definition lower_char (c : Ascii.ascii) : bool := let n := byte_code c in ((97 <=? n) && (n <=? 122))%N.

(** [[a-zA-Z0-1]]: letters and the digits 0 and 1. *)
Definition scope_char (c : Ascii.ascii) : bool :=
  upper_char c || lower_char c || is_char "0"%char c || is_char "1"%char c.

Definition scope_segment_re : re :=
  RAlt (RSeq (RClass upper_char) (RStar (RClass scope_char))) (RClass (is_char "*"%char)).

Definition scope_path_re : re :=
  RSeq scope_segment_re (RStar (RSeq dot_re scope_segment_re)).

Definition no_colon (s : string) : Prop := all_chars (fun c => negb (is_char ":"%char c)) s.

(** An action and the optional path after a colon. *)
Definition scope_string (a : string) (p : option string) : string :=
  a +:+ match p with Some p => String ":"%char p | None => "" end.

Definition path_matches (p : option string) : bool :=
  match p with Some p => re_match scope_path_re (bytes p) | None => true end.

Class ScopeLaws `{RegexEngine} := {
  law_scope : exists rx, regex_new SCOPE_REGEX = Some rx /\ forall s, is_ascii s = true ->
    match regex_captures rx s with
    | Some groups => exists a p, s = scope_string a p /\ no_colon a /\ path_matches p = true /\
        groups "action" = Some a /\ groups "path" = p
    | None => forall a p, no_colon a -> path_matches p = true -> s <> scope_string a p
    end
}.

(** ** Splitting *)

Definition no_whitespace (s : string) : Prop := all_chars (fun c => negb (is_whitespace c)) s.

Lemma split_whitespace_word w cur s :
  no_whitespace w ->
  split_whitespace_from cur (w +:+ s) = split_whitespace_from (cur +:+ w) s.
Proof.
  revert cur. induction w as [|c w IH]; intros cur Hw; [by rewrite append_nil_r|].
  apply Forall_cons in Hw as [Hc Hw]. apply negb_true_iff in Hc. simpl. rewrite Hc.
  rewrite IH by done. by rewrite append_assoc.
Qed.

Lemma string_eqb_append_nil a w : w <> "" -> String.eqb (a +:+ w) "" = false.
Proof. intros Hw. by destruct a, w. Qed.

Lemma split_whitespace_join l :
  Forall (fun w => w <> "" /\ no_whitespace w) l -> split_whitespace (join " " l) = l.
Proof.
  unfold split_whitespace.
  induction l as [|a [|b l] IH]; intros Hl; [done| |]; apply Forall_cons in Hl as [[Hne Ha] Hl].
  - simpl. rewrite <- (append_nil_r a) at 1. rewrite split_whitespace_word by done. simpl.
    by destruct a.
  - rewrite join_cons2, split_whitespace_word by done.
    change (" " +:+ ?s) with (String " "%char s). cbn [split_whitespace_from].
    change ("" +:+ a) with a. change (is_whitespace " "%char) with true. cbn iota.
    destruct a as [|c a]; [done|]. cbn [String.eqb]. by rewrite IH.
Qed.

(** ** Round trip *)

Definition action_text (a : Action) : string :=
  match a with A_Read => "read" | A_Actuate => "actuate" | A_Provide => "provide" | A_Create => "create" end.

(** The text of a scope and of a list of scopes. *)
Definition scope_text (s : Scope) : string := scope_string (action_text (action s)) (scope_path s).
Definition scopes_text (l : list Scope) : string := join " " (map scope_text l).

Lemma is_ascii_append s t : is_ascii (s +:+ t) = is_ascii s && is_ascii t.
Proof. unfold is_ascii. rewrite bytes_append. apply forallb_app. Qed.

Lemma scope_string_inj a p a' p' :
  no_colon a -> no_colon a' -> scope_string a p = scope_string a' p' -> a = a' /\ p = p'.
Proof.
  unfold scope_string. revert a'. induction a as [|c a IH]; intros a' Ha Ha' E.
  - destruct a' as [|c' a']; simpl in E; [by destruct p, p'; simplify_eq|].
    destruct p; simplify_eq/=. by apply Forall_cons in Ha' as [? _].
  - apply Forall_cons in Ha as [Hc Ha]. destruct a' as [|c' a']; simpl in E.
    + destruct p'; simplify_eq/=; done.
    + injection E as -> E. apply Forall_cons in Ha' as [_ Ha'].
      by destruct (IH a' Ha Ha' E) as [-> ->].
Qed.

Lemma action_no_colon a : no_colon (action_text a).
Proof. destruct a; repeat constructor. Qed.

Section ScopeProperties.
Context `{ScopeLaws}.

Lemma parse_scope_text rx s :
  regex_new SCOPE_REGEX = Some rx -> is_ascii (scope_text s) = true ->
  path_matches (scope_path s) = true -> parse_scope rx (scope_text s) = Ok s.
Proof.
  intros Hrx Hs Hp. destruct law_scope as (rx' & Hrx' & Hlaw). simplify_eq.
  specialize (Hlaw _ Hs). unfold parse_scope.
  destruct (regex_captures rx (scope_text s)) as [g|].
  - destruct Hlaw as (a & p & E & Ha & _ & Hga & Hgp).
    apply scope_string_inj in E as [<- <-]; [|apply action_no_colon|done].
    rewrite Hga, Hgp. by destruct s as [[] p].
  - by destruct (Hlaw (action_text (action s)) (scope_path s) (action_no_colon _) Hp).
Qed.

(** The characters of a path the pattern accepts are neither whitespace nor
    outside ASCII. *)
Definition scope_path_char (c : Ascii.ascii) : bool :=
  scope_char c || is_char "*"%char c || is_char "."%char c.

(** Every class of the expression lies within [f]. *)
Fixpoint classes_in (f : Ascii.ascii -> bool) (r : re) : Prop :=
  match r with
  | REmpty | REps => True
  | RClass g => forall c, g c = true -> f c = true
  | RSeq r1 r2 | RAlt r1 r2 => classes_in f r1 /\ classes_in f r2
  | RStar r => classes_in f r
  end.

Lemma matches_chars (r : re) (f : Ascii.ascii -> bool) s :
  matches r s -> classes_in f r -> Forall (fun c => f c = true) s.
Proof.
  intros Hm. induction Hm; simpl; intros Hc; try constructor; auto; try tauto;
    apply Forall_app; tauto.
Qed.

Lemma scope_path_chars p :
  re_match scope_path_re (bytes p) = true -> Forall (fun c => scope_path_char c = true) (bytes p).
Proof.
  intros Hm%re_match_spec. eapply matches_chars; [exact Hm|]. unfold scope_path_char.
  simpl. split_and!; intros c Hc; try (rewrite Hc; by rewrite ?orb_true_r);
    unfold scope_char; by rewrite Hc.
Qed.

Lemma scope_path_char_plain c :
  scope_path_char c = true -> negb (is_whitespace c) = true /\ (byte_code c <? 128)%N = true.
Proof. destruct c as [[] [] [] [] [] [] [] []]; vm_compute; auto. Qed.

Lemma scope_text_word s :
  path_matches (scope_path s) = true ->
  scope_text s <> "" /\ no_whitespace (scope_text s) /\ is_ascii (scope_text s) = true.
Proof.
  intros Hp. unfold scope_text, scope_string, no_whitespace, all_chars.
  assert (Forall (fun c => negb (is_whitespace c) = true /\ (byte_code c <? 128)%N = true)
    (bytes (match scope_path s with Some p => String ":"%char p | None => "" end))) as Hc.
  { destruct (scope_path s) as [p|]; [|constructor]. constructor; [done|].
    eapply Forall_impl; [by apply scope_path_chars|]. apply scope_path_char_plain. }
  rewrite bytes_append, is_ascii_append. split_and!.
  - by destruct (action s).
  - apply Forall_app. split; [by destruct (action s); repeat constructor|].
    eapply Forall_impl; [exact Hc|]. by intros c [? _].
  - apply andb_true_iff. split; [by destruct (action s)|].
    apply forallb_forall. intros c Hin. rewrite Forall_forall in Hc.
    by apply Hc, list_elem_of_In.
Qed.

(** Scopes survive the way through a token: the text of any list of scopes
    whose paths the pattern accepts parses back to exactly that list. *)
Theorem scope_roundtrip (l : list Scope) :
  Forall (fun s => path_matches (scope_path s) = true) l ->
  parse_whitespace_separated (scopes_text l) = Returns (Ok l).
Proof.
  intros Hl. unfold parse_whitespace_separated, scopes_text.
  destruct law_scope as (rx & Hrx & _). rewrite Hrx. f_equal.
  rewrite split_whitespace_join.
  - apply collect_Ok. induction Hl as [|s l Hs _ IH]; simpl; constructor; [|done].
    apply parse_scope_text; [done| |done]. by apply scope_text_word.
  - apply Forall_map. eapply Forall_impl; [exact Hl|]. intros s Hs. simpl.
    by destruct (scope_text_word s Hs) as (? & ? & _).
Qed.

(** A scope whose path has a digit other than 0 and 1 in it, such as the
    second row of seats, is refused as malformed, and with it the whole token:
    the pattern's class is [0-1]. *)
Theorem scope_digit_refused :
  parse_whitespace_separated "read:Vehicle.Row1" =
    Returns (Ok [{| action := A_Read; scope_path := Some "Vehicle.Row1" |}]) /\
  parse_whitespace_separated "read:Vehicle.Row2" = Returns (Err ParseError).
Proof.
  unfold parse_whitespace_separated. destruct law_scope as (rx & Hrx & Hlaw). rewrite Hrx.
  split.
  - change (split_whitespace "read:Vehicle.Row1") with
      [scope_text {| action := A_Read; scope_path := Some "Vehicle.Row1" |}].
    cbn [collect]. by rewrite parse_scope_text.
  - change (split_whitespace "read:Vehicle.Row2") with ["read:Vehicle.Row2"]. cbn [collect].
    assert (parse_scope rx "read:Vehicle.Row2" = Err ParseError) as ->; [|done].
    specialize (Hlaw "read:Vehicle.Row2" eq_refl). unfold parse_scope.
    destruct (regex_captures rx _) as [g|]; [|done].
    destruct Hlaw as (a & p & E & Ha & Hp & _).
    change "read:Vehicle.Row2" with (scope_string "read" (Some "Vehicle.Row2")) in E.
    apply scope_string_inj in E as [<- <-]; [|apply (action_no_colon A_Read)|done].
    vm_compute in Hp. discriminate.
Qed.
End ScopeProperties.

(** ** What a token grants *)

Lemma strip_prefix_Some p s t : strip_prefix p s = Some t -> s = p +:+ t.
Proof.
  revert s. induction p as [|a p IH]; intros s; simpl; [by intros [= ->]|].
  destruct s as [|b s]; [done|]. destruct (Ascii.eqb_spec a b) as [-> | _]; [|done].
  by intros ->%IH.
Qed.

Section ClaimsProperties.
Context `{RegexEngine} `{JwtLibrary}.

(** The scope [s] allows [a] on [path]. *)
Definition scope_grants (a : Action) (path : string) (s : Scope) : bool :=
  bool_decide (action s = a) &&
  match scope_path s with Some g => glob_is_match g path | None => true end.

(** The part of a builder that belongs to an action. *)
Definition builder_part (a : Action) (b : PermissionBuilder) : PathMatchBuilder :=
  match a with
  | A_Read => pb_read b | A_Actuate => pb_actuate b | A_Provide => pb_provide b | A_Create => pb_create b
  end.
Definition matcher_part (a : Action) (p : Permissions) : PathMatcher :=
  match a with
  | A_Read => p_read p | A_Actuate => p_actuate p | A_Provide => p_provide p | A_Create => p_create p
  end.

Lemma add_scope_grants a b s path :
  pmb_grants (builder_part a (add_scope b s)) path =
  pmb_grants (builder_part a b) path || scope_grants a path s.
Proof.
  unfold add_scope, scope_grants. destruct s as [[] [g|]], a; simpl;
    rewrite ?orb_true_r, ?orb_false_r; try done;
    try apply (extend_with_permission_grants _ (Perm_Glob g) path);
    match goal with |- pmb_grants (extend_with ?x _) _ = _ => by destruct x end.
Qed.

Lemma add_scopes_grants a path l b :
  pmb_grants (builder_part a (fold_left add_scope l b)) path =
  pmb_grants (builder_part a b) path || existsb (scope_grants a path) l.
Proof.
  revert b. induction l as [|s l IH]; intros b; simpl; [by rewrite orb_false_r|].
  by rewrite IH, add_scope_grants, orb_assoc.
Qed.

Lemma build_part a b p path :
  build b = Ok p -> is_match (matcher_part a p) path = pmb_grants (builder_part a b) path.
Proof.
  unfold build. intros Hb.
  destruct (pmb_build (pb_read b)) as [r|] eqn:Er; [|done].
  destruct (pmb_build (pb_actuate b)) as [ac|] eqn:Ea; [|done].
  destruct (pmb_build (pb_provide b)) as [pr|] eqn:Ep; [|done].
  destruct (pmb_build (pb_create b)) as [cr|] eqn:Ec; [|done].
  injection Hb as <-. by destruct a; simpl; apply pmb_build_grants.
Qed.

Lemma build_expires b p : build b = Ok p -> expires_at p = pb_expiration b.
Proof. unfold build. intros Hb. crush_match_in Hb. done. Qed.

(** C35. The permissions made from a token grant an action on a path exactly
    when one of the token's scopes names that action with no path or with a
    pattern that matches, nothing more; they expire at the token's [exp]. *)
Theorem claims_grant (claims : Claims) (p : Permissions) (scopes : list Scope) :
  parse_whitespace_separated (claims_scope claims) = Returns (Ok scopes) ->
  permissions_try_from claims = Returns (Ok p) ->
  expires_at p = Some (exp claims * 1000000000) /\
  forall a path, is_match (matcher_part a p) path = existsb (scope_grants a path) scopes.
Proof.
  unfold permissions_try_from. intros -> Hp.
  unfold unix_time in Hp. destruct (exp claims <=? int_max i64); [|done].
  destruct (build _) as [q|] eqn:Eb; [|done]. simpl in Hp. injection Hp as <-. split.
  - by rewrite (build_expires _ _ Eb).
  - intros a path. rewrite (build_part a _ _ path Eb).
    transitivity (pmb_grants (builder_part a (fold_left add_scope scopes PermissionBuilder_new)) path);
      [by destruct a|]. rewrite add_scopes_grants. by destruct a.
Qed.

(** With authorization enabled, a request is let in exactly with a header
    [Bearer <token>] whose token the JWT library accepts for the audience
    [kuksa.val] under RS256 and whose claims make permissions, and it then
    carries those permissions; with authorization disabled everything is
    allowed. *)
Theorem interceptor_admits (d : Decoder) (header : option (result string unit)) (p : Permissions) :
  interceptor_call Disabled header = Returns (Ok ALLOW_ALL) /\
  (interceptor_call (Enabled d) header = Returns (Ok p) <->
   exists token claims, header = Some (Ok ("Bearer " +:+ token)) /\
     jwt_decode token (decoding_key d) (validator d) = Some claims /\
     permissions_try_from claims = Returns (Ok p)).
Proof.
  split; [done|]. unfold interceptor_call, decode_token. split.
  - intros Hi. destruct header as [[h|]|]; [|done|done].
    destruct (starts_with "Bearer " h) eqn:Es; [|done].
    unfold starts_with in Es. destruct (strip_prefix "Bearer " h) as [t|] eqn:Ep; [|done].
    apply strip_prefix_Some in Ep as ->.
    change (string_drop 7 ("Bearer " +:+ t)) with t in Hi.
    destruct (jwt_decode t (decoding_key d) (validator d)) as [claims|] eqn:Ej; [|done].
    exists t, claims. split_and!; [done|done|].
    destruct (permissions_try_from claims) as [[q|]|]; simplify_eq; done.
  - intros (t & claims & -> & Hj & Hp). unfold starts_with. rewrite strip_prefix_app.
    change (is_some (Some t)) with true. cbn iota.
    change (string_drop 7 ("Bearer " +:+ t)) with t. rewrite Hj. by rewrite Hp.
Qed.
End ClaimsProperties.

(** ** Witnesses *)

Fixpoint split_colon (s : string) : string * option string :=
  match s with
  | EmptyString => ("", None)
  | String c s => if is_char ":"%char c then ("", Some s)
                  else let '(a, p) := split_colon s in (String c a, p)
  end.

Definition scope_matcher : Matcher :=
  {| mt_match := fun s => path_matches (snd (split_colon s));
     mt_groups := fun s name => if String.eqb name "action" then Some (fst (split_colon s))
                                else if String.eqb name "path" then snd (split_colon s) else None |}.

(** An engine that also knows the scope pattern. *)
Definition auth_engine : RegexEngine := table_engine ((SCOPE_REGEX, scope_matcher) :: glob_table).

Lemma split_colon_spec s :
  s = scope_string (fst (split_colon s)) (snd (split_colon s)) /\ no_colon (fst (split_colon s)).
Proof.
  induction s as [|c s [IH Hn]]; simpl; [split; [done|constructor]|].
  destruct (is_char ":"%char c) eqn:E.
  - apply Ascii.eqb_eq in E as ->. split; [done|constructor].
  - destruct (split_colon s) as [a p]. simpl in *. split; [by rewrite IH at 1|].
    constructor; [by rewrite E|done].
Qed.

Lemma auth_engine_laws : @ScopeLaws auth_engine.
Proof.
  constructor. exists scope_matcher. split; [reflexivity|]. intros s _.
  cbn [regex_captures auth_engine table_engine scope_matcher mt_match mt_groups].
  destruct (split_colon_spec s) as [Hs Hn].
  destruct (path_matches (snd (split_colon s))) eqn:E.
  - exists (fst (split_colon s)), (snd (split_colon s)). by split_and!.
  - intros a p Ha Hp Heq. rewrite Hs in Heq. apply scope_string_inj in Heq as [_ <-]; [|done|done].
    congruence.
Qed.

Definition reader_provider : list Scope :=
  [{| action := A_Read; scope_path := Some "Vehicle.*.Speed" |};
   {| action := A_Provide; scope_path := None |}].

Lemma scope_roundtrip_witness :
  @parse_whitespace_separated auth_engine "read:Vehicle.*.Speed provide" = Returns (Ok reader_provider).
Proof.
  apply (@scope_roundtrip auth_engine auth_engine_laws reader_provider).
  repeat constructor.
Defined.

Lemma scope_digit_refused_witness :
  @parse_whitespace_separated auth_engine "read:Vehicle.Row2" = Returns (Err ParseError).
Proof. apply (@scope_digit_refused auth_engine auth_engine_laws). Defined.

Definition test_claims : Claims :=
  {| sub := "test"; iss := "test"; aud := ["kuksa.val"]; iat := 0; exp := 100; claims_scope := "read provide" |}.

Definition test_permissions : @Permissions auth_engine :=
  {| expires_at := Some 100000000000; p_read := PM_Everything; p_actuate := PM_Nothing;
     p_provide := PM_Everything; p_create := PM_Nothing |}.

Lemma claims_grant_witness :
  expires_at test_permissions = Some (100 * 1000000000) /\
  is_match (matcher_part A_Read test_permissions) "Vehicle.Speed" = true /\
  is_match (matcher_part A_Actuate test_permissions) "Vehicle.Speed" = false.
Proof.
  destruct (@claims_grant auth_engine test_claims test_permissions
    [{| action := A_Read; scope_path := None |}; {| action := A_Provide; scope_path := None |}])
    as [He Hm].
  - reflexivity.
  - reflexivity.
  - split; [exact He|]. rewrite !Hm. split; reflexivity.
Defined.
