(* ===== verification/Entry.v ===== *)
(** * Entry: one signal of the database

    src/kuksa_databroker/databroker/src/broker.rs, the data types of the
    database and [impl Entry]: reducing an update to its changes ([diff]),
    checking it against the declared type and the allowed values
    ([validate]), and applying it ([apply]). *)

From S2P Require Import Prelude Floats Types.

Inductive UpdateError :=
| UE_NotFound | UE_WrongType | UE_OutOfBounds | UE_UnsupportedType
| UE_PermissionDenied | UE_PermissionExpired.

Inductive ReadError := RE_NotFound | RE_PermissionDenied | RE_PermissionExpired.

Inductive RegistrationError :=
| REG_ValidationError | REG_PermissionDenied | REG_PermissionExpired.

Record Metadata := {
  id : Z;
  path : string;
  data_type : DataType;
  entry_type : EntryType;
  change_type : ChangeType;
  description : string;
  allowed : option DataValue;
  unit_ : option string
}.

Record Datapoint := { ts : SystemTime; value : DataValue }.

Record Entry := {
  datapoint : Datapoint;
  actuator_target : option Datapoint;
  metadata : Metadata
}.

Inductive Field := F_Datapoint | F_ActuatorTarget | F_MetadataUnit.

#[export] Instance UpdateError_eq_dec : EqDecision UpdateError.
Proof. solve_decision. Defined.
#[export] Instance Datapoint_eq_dec : EqDecision Datapoint.
Proof. solve_decision. Defined.
#[export] Instance Metadata_eq_dec : EqDecision Metadata.
Proof. solve_decision. Defined.
#[export] Instance Entry_eq_dec : EqDecision Entry.
Proof. solve_decision. Defined.
#[export] Instance Field_eq_dec : EqDecision Field.
Proof. solve_decision. Defined.

Definition field_code (f : Field) : positive :=
  match f with F_Datapoint => 1 | F_ActuatorTarget => 2 | F_MetadataUnit => 3 end.
Definition field_decode (p : positive) : option Field :=
  match p with
  | 1%positive => Some F_Datapoint | 2%positive => Some F_ActuatorTarget
  | 3%positive => Some F_MetadataUnit | _ => None
  end.

(** [#[derive(Eq, Hash)]]: fields are kept in hash sets. *)
#[export, refine] Instance Field_countable : Countable Field :=
  {| encode := field_code; decode := field_decode |}.
Proof. by intros []. Defined.

(** [actuator_target] and [allowed] carry one more [option]: [Some None] means
    "update it to None". *)
Record EntryUpdate := {
  u_path : option string;
  u_datapoint : option Datapoint;
  u_actuator_target : option (option Datapoint);
  u_entry_type : option EntryType;
  u_data_type : option DataType;
  u_description : option string;
  u_allowed : option (option DataValue);
  u_unit : option string
}.

(** [EntryUpdate::default()]. *)
Definition EntryUpdate_default : EntryUpdate :=
  {| u_path := None; u_datapoint := None; u_actuator_target := None;
     u_entry_type := None; u_data_type := None; u_description := None;
     u_allowed := None; u_unit := None |}.

(** ** Field assignments *)

Definition with_datapoint (u : EntryUpdate) (d : option Datapoint) : EntryUpdate :=
  {| u_path := u_path u; u_datapoint := d; u_actuator_target := u_actuator_target u;
     u_entry_type := u_entry_type u; u_data_type := u_data_type u;
     u_description := u_description u; u_allowed := u_allowed u; u_unit := u_unit u |}.

Definition with_actuator_target (u : EntryUpdate) (t : option (option Datapoint)) : EntryUpdate :=
  {| u_path := u_path u; u_datapoint := u_datapoint u; u_actuator_target := t;
     u_entry_type := u_entry_type u; u_data_type := u_data_type u;
     u_description := u_description u; u_allowed := u_allowed u; u_unit := u_unit u |}.

Definition with_path (u : EntryUpdate) (p : option string) : EntryUpdate :=
  {| u_path := p; u_datapoint := u_datapoint u; u_actuator_target := u_actuator_target u;
     u_entry_type := u_entry_type u; u_data_type := u_data_type u;
     u_description := u_description u; u_allowed := u_allowed u; u_unit := u_unit u |}.

Definition with_unit (u : EntryUpdate) (s : option string) : EntryUpdate :=
  {| u_path := u_path u; u_datapoint := u_datapoint u; u_actuator_target := u_actuator_target u;
     u_entry_type := u_entry_type u; u_data_type := u_data_type u;
     u_description := u_description u; u_allowed := u_allowed u; u_unit := s |}.

(** The updates of clients: of a value, or of a target, and of nothing else. *)
Definition datapoint_update (d : Datapoint) : EntryUpdate :=
  with_datapoint EntryUpdate_default (Some d).

Definition target_update (d : Datapoint) : EntryUpdate :=
  with_actuator_target EntryUpdate_default (Some (Some d)).

Definition set_datapoint (e : Entry) (d : Datapoint) : Entry :=
  {| datapoint := d; actuator_target := actuator_target e; metadata := metadata e |}.

Definition set_actuator_target (e : Entry) (t : option Datapoint) : Entry :=
  {| datapoint := datapoint e; actuator_target := t; metadata := metadata e |}.

Definition set_metadata (e : Entry) (m : Metadata) : Entry :=
  {| datapoint := datapoint e; actuator_target := actuator_target e; metadata := m |}.

Definition set_allowed (m : Metadata) (a : option DataValue) : Metadata :=
  {| id := id m; path := path m; data_type := data_type m; entry_type := entry_type m;
     change_type := change_type m; description := description m; allowed := a; unit_ := unit_ m |}.

Definition set_id (m : Metadata) (i : Z) : Metadata :=
  {| id := i; path := path m; data_type := data_type m; entry_type := entry_type m;
     change_type := change_type m; description := description m; allowed := allowed m;
     unit_ := unit_ m |}.

(** ** Operations of [impl Entry] *)

(** [Entry::diff]. *)
Definition diff (self : Entry) (update : EntryUpdate) : EntryUpdate :=
  match u_datapoint update with
  | Some dp =>
      if negb (bool_decide (change_type (metadata self) = CT_Continuous))
      then if dv_eqb (value dp) (value (datapoint self))
           then with_datapoint update None
           else update
      else update
  | None => update
  end.

(** [Entry::validate_allowed_type]. *)
Definition validate_allowed_type (self : Entry) (allowed : option DataValue) : result unit UpdateError :=
  match allowed with
  | Some allowed_values =>
      match allowed_values, data_type (metadata self) with
      | DV_BoolArray _, DT_Bool => Ok tt
      | DV_StringArray _, DT_String => Ok tt
      | DV_Int32Array _, DT_Int32 => Ok tt
      | DV_Int64Array _, DT_Int64 => Ok tt
      | DV_Uint32Array _, DT_Uint32 => Ok tt
      | DV_Uint64Array _, DT_Uint64 => Ok tt
      | DV_FloatArray _, DT_Float => Ok tt
      | DV_DoubleArray _, DT_Double => Ok tt
      | DV_BoolArray _, DT_BoolArray => Ok tt
      | DV_StringArray _, DT_StringArray => Ok tt
      | DV_Int32Array _, DT_Int32Array => Ok tt
      | DV_Int64Array _, DT_Int64Array => Ok tt
      | DV_Uint32Array _, DT_Uint32Array => Ok tt
      | DV_Uint64Array _, DT_Uint64Array => Ok tt
      | DV_FloatArray _, DT_FloatArray => Ok tt
      | DV_DoubleArray _, DT_DoubleArray => Ok tt
      | _, _ => Err UE_WrongType
      end
  | None => Ok tt (* it is allowed to set allowed to None *)
  end.

(** [slice.contains(x)], with the [PartialEq] of the element type. *)
Definition slice_contains {A} (eqb : A -> A -> bool) (l : list A) (x : A) : bool :=
  existsb (fun e => eqb e x) l.

(** One scalar against the list of allowed values. *)
Definition check_one {A} (eqb : A -> A -> bool) (l : list A) (x : A) : result unit UpdateError :=
  if slice_contains eqb l x then Ok tt else Err UE_OutOfBounds.

(** The loop over the items of an array value, leaving at the first item that
    is not allowed. *)
Fixpoint check_each {A} (eqb : A -> A -> bool) (l : list A) (items : list A) : result unit UpdateError :=
  match items with
  | [] => Ok tt
  | item :: items =>
      if slice_contains eqb l item then check_each eqb l items else Err UE_OutOfBounds
  end.

(** [Entry::validate_allowed]. *)
Definition validate_allowed (self : Entry) (value : DataValue) : result unit UpdateError :=
  match allowed (metadata self) with
  | Some allowed_values =>
      match allowed_values, value with
      | DV_BoolArray allowed_values, DV_Bool value => check_one Bool.eqb allowed_values value
      | DV_DoubleArray allowed_values, DV_Double value => check_one f_eq allowed_values value
      | DV_FloatArray allowed_values, DV_Float value => check_one f_eq allowed_values value
      | DV_Int32Array allowed_values, DV_Int32 value => check_one Z.eqb allowed_values value
      | DV_Int64Array allowed_values, DV_Int64 value => check_one Z.eqb allowed_values value
      | DV_StringArray allowed_values, DV_String value => check_one String.eqb allowed_values value
      | DV_Uint32Array allowed_values, DV_Uint32 value => check_one Z.eqb allowed_values value
      | DV_Uint64Array allowed_values, DV_Uint64 value => check_one Z.eqb allowed_values value
      | DV_BoolArray allowed_values, DV_BoolArray value => check_each Bool.eqb allowed_values value
      | DV_DoubleArray allowed_values, DV_DoubleArray value => check_each f_eq allowed_values value
      | DV_FloatArray allowed_values, DV_FloatArray value => check_each f_eq allowed_values value
      | DV_Int32Array allowed_values, DV_Int32Array value => check_each Z.eqb allowed_values value
      | DV_Int64Array allowed_values, DV_Int64Array value => check_each Z.eqb allowed_values value
      | DV_StringArray allowed_values, DV_StringArray value => check_each String.eqb allowed_values value
      | DV_Uint32Array allowed_values, DV_Uint32Array value => check_each Z.eqb allowed_values value
      | DV_Uint64Array allowed_values, DV_Uint64Array value => check_each Z.eqb allowed_values value
      | _, _ => Err UE_UnsupportedType
      end
  | None => Ok tt
  end.

(** The bounds check of a narrow integer, [T::try_from(value)]. *)
Definition check_bounds (ty : IntTy) (z : Z) : result unit UpdateError :=
  match try_from ty z with Ok _ => Ok tt | Err _ => Err UE_OutOfBounds end.

(** The loop of the narrow array cases: it sets [out_of_bounds] and breaks at
    the first element that does not fit. *)
Fixpoint array_out_of_bounds (ty : IntTy) (array : list Z) : bool :=
  match array with
  | [] => false
  | z :: array =>
      match try_from ty z with
      | Ok _ => array_out_of_bounds ty array
      | Err _ => true
      end
  end.

Definition check_array_bounds (ty : IntTy) (array : list Z) : result unit UpdateError :=
  if array_out_of_bounds ty array then Err UE_OutOfBounds else Ok tt.

(** [Entry::validate_value]. *)
Definition validate_value (self : Entry) (value : DataValue) : result unit UpdateError :=
  (* Not available is always valid *)
  if dv_eqb value DV_NotAvailable then Ok tt else
  match data_type (metadata self) with
  | DT_Bool => match value with DV_Bool _ => Ok tt | _ => Err UE_WrongType end
  | DT_String => match value with DV_String _ => Ok tt | _ => Err UE_WrongType end
  | DT_Int8 => match value with DV_Int32 value => check_bounds i8 value | _ => Err UE_WrongType end
  | DT_Int16 => match value with DV_Int32 value => check_bounds i16 value | _ => Err UE_WrongType end
  | DT_Int32 => match value with DV_Int32 _ => Ok tt | _ => Err UE_WrongType end
  | DT_Int64 => match value with DV_Int64 _ => Ok tt | _ => Err UE_WrongType end
  | DT_Uint8 => match value with DV_Uint32 value => check_bounds u8 value | _ => Err UE_WrongType end
  | DT_Uint16 => match value with DV_Uint32 value => check_bounds u16 value | _ => Err UE_WrongType end
  | DT_Uint32 => match value with DV_Uint32 _ => Ok tt | _ => Err UE_WrongType end
  | DT_Uint64 => match value with DV_Uint64 _ => Ok tt | _ => Err UE_WrongType end
  | DT_Float => match value with DV_Float _ => Ok tt | _ => Err UE_WrongType end
  | DT_Double => match value with DV_Double _ => Ok tt | _ => Err UE_WrongType end
  | DT_BoolArray => match value with DV_BoolArray _ => Ok tt | _ => Err UE_WrongType end
  | DT_StringArray => match value with DV_StringArray _ => Ok tt | _ => Err UE_WrongType end
  | DT_Int8Array =>
      match value with DV_Int32Array array => check_array_bounds i8 array | _ => Err UE_WrongType end
  | DT_Int16Array =>
      match value with DV_Int32Array array => check_array_bounds i16 array | _ => Err UE_WrongType end
  | DT_Int32Array => match value with DV_Int32Array _ => Ok tt | _ => Err UE_WrongType end
  | DT_Int64Array => match value with DV_Int64Array _ => Ok tt | _ => Err UE_WrongType end
  | DT_Uint8Array =>
      match value with DV_Uint32Array array => check_array_bounds u8 array | _ => Err UE_WrongType end
  | DT_Uint16Array =>
      match value with DV_Uint32Array array => check_array_bounds u16 array | _ => Err UE_WrongType end
  | DT_Uint32Array => match value with DV_Uint32Array _ => Ok tt | _ => Err UE_WrongType end
  | DT_Uint64Array => match value with DV_Uint64Array _ => Ok tt | _ => Err UE_WrongType end
  | DT_FloatArray => match value with DV_FloatArray _ => Ok tt | _ => Err UE_WrongType end
  | DT_DoubleArray => match value with DV_DoubleArray _ => Ok tt | _ => Err UE_WrongType end
  end.

(** [!=] on [Option<DataValue>]. *)
Definition opt_dv_eqb (a b : option DataValue) : bool :=
  match a, b with
  | Some a, Some b => dv_eqb a b
  | None, None => true
  | _, _ => false
  end.

(** [Entry::validate]. *)
Definition validate (self : Entry) (update : EntryUpdate) : result unit UpdateError :=
  let? _ := match u_datapoint update with
            | Some dp =>
                let? _ := validate_value self (value dp) in
                validate_allowed self (value dp)
            | None => Ok tt
            end in
  let? _ := match u_actuator_target update with
            | Some (Some target) =>
                let? _ := validate_value self (value target) in
                validate_allowed self (value target)
            | _ => Ok tt
            end in
  match u_allowed update with
  | Some (Some updated_allowed) =>
      if negb (opt_dv_eqb (Some updated_allowed) (allowed (metadata self)))
      then validate_allowed_type self (Some updated_allowed)
      else Ok tt
  | _ => Ok tt
  end.

(** [Entry::apply]: the changed entry and the set of changed fields. *)
Definition apply (self : Entry) (update : EntryUpdate) : Entry * gset Field :=
  let '(self, changed) :=
    match u_datapoint update with
    | Some dp => (set_datapoint self dp, {[ F_Datapoint ]})
    | None => (self, ∅)
    end in
  let '(self, changed) :=
    match u_actuator_target update with
    | Some target => (set_actuator_target self target, {[ F_ActuatorTarget ]} ∪ changed)
    | None => (self, changed)
    end in
  let self :=
    match u_allowed update with
    | Some updated_allowed =>
        if negb (opt_dv_eqb updated_allowed (allowed (metadata self)))
        then set_metadata self (set_allowed (metadata self) updated_allowed)
        else self
    | None => self
    end in
  (self, changed).

(** ** Specification *)

(** The values a signal of each declared type may hold.  The narrow integer
    types travel as 32-bit values and carry their own bounds. *)
Inductive has_type : DataType -> DataValue -> Prop :=
| ht_String s : has_type DT_String (DV_String s)
| ht_Bool b : has_type DT_Bool (DV_Bool b)
| ht_Int8 z : int_min i8 <= z <= int_max i8 -> has_type DT_Int8 (DV_Int32 z)
| ht_Int16 z : int_min i16 <= z <= int_max i16 -> has_type DT_Int16 (DV_Int32 z)
| ht_Int32 z : has_type DT_Int32 (DV_Int32 z)
| ht_Int64 z : has_type DT_Int64 (DV_Int64 z)
| ht_Uint8 z : int_min u8 <= z <= int_max u8 -> has_type DT_Uint8 (DV_Uint32 z)
| ht_Uint16 z : int_min u16 <= z <= int_max u16 -> has_type DT_Uint16 (DV_Uint32 z)
| ht_Uint32 z : has_type DT_Uint32 (DV_Uint32 z)
| ht_Uint64 z : has_type DT_Uint64 (DV_Uint64 z)
| ht_Float x : has_type DT_Float (DV_Float x)
| ht_Double x : has_type DT_Double (DV_Double x)
| ht_StringArray l : has_type DT_StringArray (DV_StringArray l)
| ht_BoolArray l : has_type DT_BoolArray (DV_BoolArray l)
| ht_Int8Array l : Forall (fun z => int_min i8 <= z <= int_max i8) l ->
    has_type DT_Int8Array (DV_Int32Array l)
| ht_Int16Array l : Forall (fun z => int_min i16 <= z <= int_max i16) l ->
    has_type DT_Int16Array (DV_Int32Array l)
| ht_Int32Array l : has_type DT_Int32Array (DV_Int32Array l)
| ht_Int64Array l : has_type DT_Int64Array (DV_Int64Array l)
| ht_Uint8Array l : Forall (fun z => int_min u8 <= z <= int_max u8) l ->
    has_type DT_Uint8Array (DV_Uint32Array l)
| ht_Uint16Array l : Forall (fun z => int_min u16 <= z <= int_max u16) l ->
    has_type DT_Uint16Array (DV_Uint32Array l)
| ht_Uint32Array l : has_type DT_Uint32Array (DV_Uint32Array l)
| ht_Uint64Array l : has_type DT_Uint64Array (DV_Uint64Array l)
| ht_FloatArray l : has_type DT_FloatArray (DV_FloatArray l)
| ht_DoubleArray l : has_type DT_DoubleArray (DV_DoubleArray l).

(** A value a signal may hold: of its type, or not available. *)
Definition value_typed (dt : DataType) (v : DataValue) : Prop :=
  v = DV_NotAvailable \/ has_type dt v.

(** The elements of a value, each as a scalar value. *)
Definition items (v : DataValue) : list DataValue :=
  match v with
  | DV_NotAvailable => []
  | DV_BoolArray l => DV_Bool <$> l
  | DV_StringArray l => DV_String <$> l
  | DV_Int32Array l => DV_Int32 <$> l
  | DV_Int64Array l => DV_Int64 <$> l
  | DV_Uint32Array l => DV_Uint32 <$> l
  | DV_Uint64Array l => DV_Uint64 <$> l
  | DV_FloatArray l => DV_Float <$> l
  | DV_DoubleArray l => DV_Double <$> l
  | scalar => [scalar]
  end.

(** The array type whose elements are the items of a value. *)
Definition array_kind (v : DataValue) : option DataType :=
  match v with
  | DV_NotAvailable => None
  | DV_Bool _ | DV_BoolArray _ => Some DT_BoolArray
  | DV_String _ | DV_StringArray _ => Some DT_StringArray
  | DV_Int32 _ | DV_Int32Array _ => Some DT_Int32Array
  | DV_Int64 _ | DV_Int64Array _ => Some DT_Int64Array
  | DV_Uint32 _ | DV_Uint32Array _ => Some DT_Uint32Array
  | DV_Uint64 _ | DV_Uint64Array _ => Some DT_Uint64Array
  | DV_Float _ | DV_FloatArray _ => Some DT_FloatArray
  | DV_Double _ | DV_DoubleArray _ => Some DT_DoubleArray
  end.

(** What the entry type promises of its own fields: the current value, the
    target and the declared allowed values fit the data type. *)
Definition entry_typed (e : Entry) : Prop :=
  value_typed (data_type (metadata e)) (value (datapoint e)) /\
  (forall t, actuator_target e = Some t -> value_typed (data_type (metadata e)) (value t)) /\
  validate_allowed_type e (allowed (metadata e)) = Ok tt.

(** ** Lemmas *)

Lemma check_bounds_spec ty z :
  check_bounds ty z = if in_range ty z then Ok tt else Err UE_OutOfBounds.
Proof. unfold check_bounds, try_from. by destruct (in_range ty z). Qed.

Lemma array_out_of_bounds_spec ty l :
  array_out_of_bounds ty l = false <-> Forall (fun z => int_min ty <= z <= int_max ty) l.
Proof.
  induction l as [|z l IH]; simpl; [done|].
  rewrite Forall_cons, <- IH, <- in_range_spec.
  unfold try_from. by destruct (in_range ty z); intuition.
Qed.

Lemma dv_eqb_NotAvailable v : dv_eqb v DV_NotAvailable = true <-> v = DV_NotAvailable.
Proof. by destruct v. Qed.

Lemma slice_contains_spec {A} (eqb : A -> A -> bool) l x :
  slice_contains eqb l x = true <-> exists y, y ∈ l /\ eqb y x = true.
Proof.
  unfold slice_contains. rewrite existsb_exists.
  by setoid_rewrite list_elem_of_In.
Qed.

Lemma check_each_spec {A} (eqb : A -> A -> bool) l k :
  check_each eqb l k = Ok tt <-> forall x, x ∈ k -> exists y, y ∈ l /\ eqb y x = true.
Proof.
  induction k as [|a k IH]; simpl.
  - split; [by intros _ x ?%not_elem_of_nil | done].
  - setoid_rewrite elem_of_cons.
    destruct (slice_contains eqb l a) eqn:E.
    + rewrite IH. apply slice_contains_spec in E.
      split; [intros H x [-> | Hx]; auto | auto].
    + split; [done|]. intros H. specialize (H a (or_introl eq_refl)).
      apply slice_contains_spec in H. congruence.
Qed.

Lemma check_one_each {A} (eqb : A -> A -> bool) l x : check_one eqb l x = check_each eqb l [x].
Proof. done. Qed.

Lemma check_each_items {A} (eqb : A -> A -> bool) (inj : A -> DataValue) l k :
  (forall a b, dv_eqb (inj a) (inj b) = eqb a b) ->
  check_each eqb l k = Ok tt <->
  forall i, i ∈ inj <$> k -> exists j, j ∈ inj <$> l /\ dv_eqb j i = true.
Proof.
  intros Hinj. rewrite check_each_spec. split.
  - intros H i (x & -> & Hx)%list_elem_of_fmap. destruct (H x Hx) as (y & Hy & E).
    exists (inj y). rewrite Hinj. split; [by apply list_elem_of_fmap_2 | done].
  - intros H x Hx. destruct (H (inj x)) as (j & (y & -> & Hy)%list_elem_of_fmap & E);
      [by apply list_elem_of_fmap_2|].
    rewrite Hinj in E. eauto.
Qed.

Lemma in_range_dec_spec ty z :
  (if in_range ty z then Ok tt else Err UE_OutOfBounds) = Ok tt <->
  int_min ty <= z <= int_max ty.
Proof. rewrite <- in_range_spec. by destruct (in_range ty z). Qed.

Lemma check_array_bounds_spec ty l :
  check_array_bounds ty l = Ok tt <-> Forall (fun z => int_min ty <= z <= int_max ty) l.
Proof.
  rewrite <- array_out_of_bounds_spec. unfold check_array_bounds.
  by destruct (array_out_of_bounds ty l).
Qed.

(** The carriers on which [validate_value] checks bounds. *)
Definition narrow_carrier (dt : DataType) (v : DataValue) : bool :=
  match dt, v with
  | (DT_Int8 | DT_Int16), DV_Int32 _ | (DT_Uint8 | DT_Uint16), DV_Uint32 _
  | (DT_Int8Array | DT_Int16Array), DV_Int32Array _
  | (DT_Uint8Array | DT_Uint16Array), DV_Uint32Array _ => true
  | _, _ => false
  end.

Lemma validate_value_typed e v :
  validate_value e v = Ok tt <-> value_typed (data_type (metadata e)) v.
Proof.
  unfold validate_value, value_typed.
  destruct (data_type (metadata e)), v; simpl;
    rewrite ?check_bounds_spec, ?in_range_dec_spec, ?check_array_bounds_spec;
    (split; [intros; try done; auto using has_type
            | intros [Hv | Hv]; inversion Hv; done]).
Qed.

Lemma validate_value_error e v err :
  validate_value e v = Err err ->
  err = if narrow_carrier (data_type (metadata e)) v then UE_OutOfBounds else UE_WrongType.
Proof.
  unfold validate_value, check_array_bounds.
  destruct (data_type (metadata e)), v; simpl; rewrite ?check_bounds_spec;
    repeat case_match; congruence.
Qed.

Lemma validate_allowed_items e a v :
  allowed (metadata e) = Some a -> validate_allowed_type e (Some a) = Ok tt ->
  array_kind v = array_kind a ->
  validate_allowed e v = Ok tt <->
  forall i, i ∈ items v -> exists j, j ∈ items a /\ dv_eqb j i = true.
Proof.
  unfold validate_allowed. intros -> Ha Hk.
  destruct a; try (by destruct (data_type (metadata e)));
    destruct v; simplify_eq/=; rewrite ?check_one_each;
    first [ by apply (check_each_items _ DV_Bool) | by apply (check_each_items _ DV_String)
          | by apply (check_each_items _ DV_Int32) | by apply (check_each_items _ DV_Int64)
          | by apply (check_each_items _ DV_Uint32) | by apply (check_each_items _ DV_Uint64)
          | by apply (check_each_items _ DV_Float) | by apply (check_each_items _ DV_Double) ].
Qed.

Lemma validate_allowed_kind e a v :
  allowed (metadata e) = Some a -> array_kind v <> array_kind a ->
  validate_allowed e v = Err UE_UnsupportedType.
Proof. unfold validate_allowed. intros -> Hk. by destruct a, v. Qed.

Lemma validate_Ok e u :
  validate e u = Ok tt <->
  (forall dp, u_datapoint u = Some dp ->
     validate_value e (value dp) = Ok tt /\ validate_allowed e (value dp) = Ok tt) /\
  (forall t, u_actuator_target u = Some (Some t) ->
     validate_value e (value t) = Ok tt /\ validate_allowed e (value t) = Ok tt) /\
  (forall a, u_allowed u = Some (Some a) ->
     opt_dv_eqb (Some a) (allowed (metadata e)) = false ->
     validate_allowed_type e (Some a) = Ok tt).
Proof.
  unfold validate. rewrite !and_then_Ok. f_equiv; [|f_equiv].
  - destruct (u_datapoint u) as [dp|]; [rewrite and_then_Ok|done].
    split; [by intros ? ? [= <-] | eauto].
  - destruct (u_actuator_target u) as [[t|]|]; [rewrite and_then_Ok|done|done].
    split; [by intros ? ? [= <-] | eauto].
  - destruct (u_allowed u) as [[a|]|]; [|done|done].
    destruct (opt_dv_eqb (Some a) _) eqn:Ea; cbn [negb].
    + split; [intros _ ? [= <-]; congruence | done].
    + split; [by intros ? ? [= <-] | eauto].
Qed.

(** ** Theorems *)

(** C31. [validate_value] decides the typing relation: it accepts exactly the
    values of the declared type (narrow integers within their bounds, element
    by element for arrays) and "not available"; the error is [OutOfBounds]
    exactly when a value of the right carrier leaves the bounds of a narrow
    type, and [WrongType] for every other value. *)
Theorem validate_value_spec (e : Entry) (v : DataValue) :
  let dt := data_type (metadata e) in
  (value_typed dt v /\ validate_value e v = Ok tt) \/
  (~ value_typed dt v /\ narrow_carrier dt v = true /\ validate_value e v = Err UE_OutOfBounds) \/
  (~ value_typed dt v /\ narrow_carrier dt v = false /\ validate_value e v = Err UE_WrongType).
Proof.
  intros dt. subst dt. rewrite <- validate_value_typed.
  destruct (validate_value e v) as [[]|err] eqn:E; [by left|].
  apply validate_value_error in E as ->. right.
  destruct (narrow_carrier _ v); [by left | by right].
Qed.

(** A value passes [validate_allowed] exactly when no list is declared, or
    the value is of the list's element type (or an array of it) and every one
    of its elements is equal, by the language's [==], to an allowed value. *)
Theorem validate_allowed_spec (e : Entry) (v : DataValue) :
  validate_allowed_type e (allowed (metadata e)) = Ok tt ->
  validate_allowed e v = Ok tt <->
  match allowed (metadata e) with
  | None => True
  | Some a => array_kind v = array_kind a /\
              forall i, i ∈ items v -> exists j, j ∈ items a /\ dv_eqb j i = true
  end.
Proof.
  intros Hty. destruct (allowed (metadata e)) as [a|] eqn:Ea.
  - destruct (decide (array_kind v = array_kind a)) as [Hk|Hk].
    + rewrite (validate_allowed_items e a v) by done. intuition.
    + rewrite (validate_allowed_kind e a v) by done. by split; [|intros [? _]].
  - unfold validate_allowed. by rewrite Ea.
Qed.

Lemma set_allowed_same m : set_allowed m (allowed m) = m.
Proof. by destruct m. Qed.

(** The effect of [apply] on each field. *)
Lemma apply_fields e u e' changed :
  apply e u = (e', changed) ->
  datapoint e' = default (datapoint e) (u_datapoint u) /\
  actuator_target e' = default (actuator_target e) (u_actuator_target u) /\
  (allowed (metadata e') = allowed (metadata e) \/
   exists a, u_allowed u = Some a /\ opt_dv_eqb a (allowed (metadata e)) = false /\
             allowed (metadata e') = a) /\
  metadata e' = set_allowed (metadata e) (allowed (metadata e')) /\
  (F_Datapoint ∈ changed <-> is_some (u_datapoint u) = true) /\
  (F_ActuatorTarget ∈ changed <-> is_some (u_actuator_target u) = true) /\
  F_MetadataUnit ∉ changed.
Proof.
  unfold apply. intros E.
  destruct (u_datapoint u) as [dp|], (u_actuator_target u) as [t|], (u_allowed u) as [a|];
    simpl in *; try (destruct (opt_dv_eqb a (allowed (metadata e))) eqn:Ea; simpl in *);
    simplify_eq/=; split_and!; rewrite ?set_allowed_same; try done; try set_solver; eauto 10.
Qed.

Lemma set_allowed_type m a : data_type (set_allowed m a) = data_type m.
Proof. done. Qed.

(** Applying a validated update keeps an entry well typed and, the allowed
    list apart, never touches its metadata. *)
Lemma apply_typed e u e' changed :
  entry_typed e -> validate e u = Ok tt -> apply e u = (e', changed) ->
  entry_typed e' /\ metadata e' = set_allowed (metadata e) (allowed (metadata e')).
Proof.
  intros (Hd & Ht & Ha) (Vd & Vt & Va)%validate_Ok E.
  apply apply_fields in E as (Ed & Et & Eal & Em & _). split; [|done].
  assert (data_type (metadata e') = data_type (metadata e)) as Edt by by rewrite Em.
  unfold entry_typed. rewrite Edt, Ed, Et. split_and!.
  - destruct (u_datapoint u) as [dp|]; simpl; [|done].
    apply validate_value_typed. by apply Vd.
  - intros t. destruct (u_actuator_target u) as [[t'|]|]; simpl; intros; simplify_eq; eauto.
    apply validate_value_typed. by apply Vt.
  - unfold validate_allowed_type in *. rewrite Edt.
    destruct Eal as [-> | (a & Hu & Hneq & ->)]; [done|].
    destruct a as [a|]; [|done]. by apply Va.
Qed.

(** "Not available" passes the type check of every signal, yet a signal
    that declares allowed values refuses it as unsupported: once such a signal
    has a value, no update makes it unavailable again. *)
Theorem not_available_refused (e : Entry) (a : DataValue) (u : EntryUpdate) (t : SystemTime) :
  allowed (metadata e) = Some a -> array_kind a <> None ->
  u_datapoint u = Some {| ts := t; value := DV_NotAvailable |} ->
  validate_value e DV_NotAvailable = Ok tt /\ validate e u = Err UE_UnsupportedType.
Proof.
  intros Ha Hk Hu. split; [done|]. unfold validate. rewrite Hu. simpl.
  rewrite (validate_allowed_kind e a); done.
Qed.

(** ** Witnesses *)

Definition gear : Entry :=
  {| datapoint := {| ts := 0; value := DV_Int32 1 |};
     actuator_target := None;
     metadata := {| id := 0; path := "Vehicle.Gear"; data_type := DT_Int32;
                    entry_type := ET_Actuator; change_type := CT_OnChange; description := "";
                    allowed := Some (DV_Int32Array [0; 1; 2]); unit_ := None |} |}.

Definition gear_to (z : Z) : EntryUpdate :=
  with_datapoint EntryUpdate_default (Some {| ts := 5; value := DV_Int32 z |}).

Lemma validate_allowed_spec_witness :
  validate_allowed gear (DV_Int32 2) = Ok tt /\
  (validate_allowed gear (DV_Int32 2) = Ok tt ->
   forall i, i ∈ items (DV_Int32 2) -> exists j, j ∈ items (DV_Int32Array [0; 1; 2]) /\ dv_eqb j i = true).
Proof.
  split; [reflexivity|]. intros H.
  exact (proj2 (proj1 (validate_allowed_spec gear (DV_Int32 2) eq_refl) H)).
Defined.

Lemma not_available_refused_witness :
  validate gear (with_datapoint EntryUpdate_default (Some {| ts := 5; value := DV_NotAvailable |}))
  = Err UE_UnsupportedType.
Proof.
  refine (proj2 (not_available_refused gear (DV_Int32Array [0; 1; 2]) _ 5 _ _ _));
    [reflexivity | discriminate | reflexivity].
Defined.
