(* ===== verification/Database.v ===== *)
(** * Database: the entries, their index and the guarded accesses

    src/kuksa_databroker/databroker/src/broker.rs, [Database],
    [EntryReadAccess], [DatabaseReadAccess] and [DatabaseWriteAccess].  The
    permissions and the clock reading of the access are arguments. *)

From S2P Require Import Prelude Types Regex Glob Permissions Entry.

Record Database := {
  next_id : Z;
  path_to_id : gmap string Z;
  entries : gmap Z Entry
}.

(** [Database::new]. *)
Definition Database_new : Database := {| next_id := 0; path_to_id := ∅; entries := ∅ |}.

Definition set_entries (db : Database) (m : gmap Z Entry) : Database :=
  {| next_id := next_id db; path_to_id := path_to_id db; entries := m |}.

(** [EntryReadAccess]: an entry, or only its metadata and the reason. *)
Inductive EntryReadAccess :=
| ERA_Entry (e : Entry)
| ERA_Err (m : Metadata) (err : ReadError).

Definition era_datapoint (self : EntryReadAccess) : result Datapoint ReadError :=
  match self with ERA_Entry entry => Ok (datapoint entry) | ERA_Err _ err => Err err end.

Definition era_actuator_target (self : EntryReadAccess) : result (option Datapoint) ReadError :=
  match self with ERA_Entry entry => Ok (actuator_target entry) | ERA_Err _ err => Err err end.

Definition era_metadata (self : EntryReadAccess) : Metadata :=
  match self with ERA_Entry entry => metadata entry | ERA_Err metadata _ => metadata end.

(** The conversions of [PermissionError] at the call sites. *)
Definition read_error (e : PermissionError) : ReadError :=
  match e with Denied => RE_PermissionDenied | Expired => RE_PermissionExpired end.
Definition registration_error (e : PermissionError) : RegistrationError :=
  match e with Denied => REG_PermissionDenied | Expired => REG_PermissionExpired end.

Section Database.
Context `{RegexEngine} `{HashOrder}.

(** [EntryReadAccess::new]. *)
Definition EntryReadAccess_new (entry : Entry) (permissions : Permissions) (now : SystemTime)
  : EntryReadAccess :=
  match can_read permissions now (path (metadata entry)) with
  | Ok _ => ERA_Entry entry
  | Err Denied => ERA_Err (metadata entry) RE_PermissionDenied
  | Err Expired => ERA_Err (metadata entry) RE_PermissionExpired
  end.

(** ** Read access *)

(** [DatabaseReadAccess::get_entry_by_id]. *)
Definition get_entry_by_id (db : Database) (permissions : Permissions) (now : SystemTime) (i : Z)
  : result Entry ReadError :=
  match entries db !! i with
  | Some entry =>
      match can_read permissions now (path (metadata entry)) with
      | Ok _ => Ok entry
      | Err Denied => Err RE_PermissionDenied
      | Err Expired => Err RE_PermissionExpired
      end
  | None => Err RE_NotFound
  end.

(** [DatabaseReadAccess::get_entry_by_path]. *)
Definition get_entry_by_path (db : Database) (permissions : Permissions) (now : SystemTime)
  (p : string) : result Entry ReadError :=
  match path_to_id db !! p with
  | Some i => get_entry_by_id db permissions now i
  | None => Err RE_NotFound
  end.

(** [DatabaseReadAccess::get_metadata_by_id]. *)
Definition get_metadata_by_id (db : Database) (i : Z) : option Metadata :=
  metadata <$> entries db !! i.

(** [DatabaseReadAccess::get_metadata_by_path]. *)
Definition get_metadata_by_path (db : Database) (p : string) : option Metadata :=
  match path_to_id db !! p with
  | Some i => get_metadata_by_id db i
  | None => None
  end.

(** [DatabaseReadAccess::iter_entries]: the items of [EntryReadIterator], in
    the order of the hash map. *)
Definition iter_entries (db : Database) (permissions : Permissions) (now : SystemTime)
  : list EntryReadAccess :=
  map (fun entry => EntryReadAccess_new entry permissions now)
      (hash_order (map snd (map_to_list (entries db)))).

(** ** Write access *)

(** [DatabaseWriteAccess::update]. *)
Definition update (db : Database) (permissions : Permissions) (now : SystemTime) (i : Z)
  (update : EntryUpdate) : result (gset Field) UpdateError * Database :=
  match entries db !! i with
  | Some entry =>
      if is_some (u_path update) || is_some (u_entry_type update)
         || is_some (u_data_type update) || is_some (u_description update)
      then (Err UE_PermissionDenied, db) else
      match u_datapoint update, can_write_datapoint permissions now (path (metadata entry)) with
      | Some _, Err Denied => (Err UE_PermissionDenied, db)
      | Some _, Err Expired => (Err UE_PermissionExpired, db)
      | _, _ =>
          match u_actuator_target update,
                can_write_actuator_target permissions now (path (metadata entry)) with
          | Some _, Err Denied => (Err UE_PermissionDenied, db)
          | Some _, Err Expired => (Err UE_PermissionExpired, db)
          | _, _ =>
              (* Reduce update to only include changes *)
              let update := diff entry update in
              (* Validate update *)
              match validate entry update with
              | Ok _ =>
                  let '(entry, changed_fields) := apply entry update in
                  (Ok changed_fields, set_entries db (<[i := entry]> (entries db)))
              | Err err => (Err err, db)
              end
          end
      end
  | None => (Err UE_NotFound, db)
  end.

(** [DatabaseWriteAccess::update_by_path]. *)
Definition update_by_path (db : Database) (permissions : Permissions) (now : SystemTime)
  (p : string) (u : EntryUpdate) : result (gset Field) UpdateError * Database :=
  match path_to_id db !! p with
  | Some i => update db permissions now i u
  | None => (Err UE_NotFound, db)
  end.

(** [DatabaseWriteAccess::add]. *)
Definition add (db : Database) (permissions : Permissions) (now : SystemTime) (name : string)
  (data_type : DataType) (change_type : ChangeType) (entry_type : EntryType)
  (description : string) (allowed : option DataValue) (datapoint : option Datapoint)
  (unit_ : option string) : result Z RegistrationError * Database :=
  if negb (is_valid_path name) then (Err REG_ValidationError, db) else
  match map_err registration_error (can_create permissions now name) with
  | Err err => (Err err, db)
  | Ok _ =>
      match path_to_id db !! name with
      | Some i => (Ok i, db) (* It already exists *)
      | None =>
          let temp_id := 0 in
          let new_entry :=
            {| metadata := {| id := temp_id; path := name; data_type := data_type;
                              entry_type := entry_type; change_type := change_type;
                              description := description; allowed := allowed; unit_ := unit_ |};
               datapoint := match datapoint with
                            | Some datapoint => datapoint
                            | None => {| ts := now; value := DV_NotAvailable |}
                            end;
               actuator_target := None |} in
          match validate_allowed_type new_entry (Entry.allowed (metadata new_entry)) with
          | Err _ => (Err REG_ValidationError, db)
          | Ok _ =>
              (* Get next id (and bump it) *)
              let i := next_id db in
              let new_entry := set_metadata new_entry (set_id (metadata new_entry) i) in
              (Ok i, {| next_id := wrap_i32 (next_id db + 1);
                        path_to_id := <[name := i]> (path_to_id db);
                        entries := <[i := new_entry]> (entries db) |})
          end
      end
  end.
End Database.

(** ** Invariant *)

Section Invariant.
Context `{RegexEngine} `{HashOrder}.

(** The ids in use are the first [size] values of the wrapping counter, the
    path index and the entries describe each other, and every entry is well
    typed and carries a valid path. *)
Record db_inv (db : Database) : Prop := {
  inv_size : Z.of_nat (size (entries db)) <= 4294967296;
  inv_next : next_id db = wrap_i32 (Z.of_nat (size (entries db)));
  inv_ids : forall i, is_Some (entries db !! i) <->
    exists k, 0 <= k < Z.of_nat (size (entries db)) /\ i = wrap_i32 k;
  inv_entry : forall i e, entries db !! i = Some e ->
    id (metadata e) = i /\ path_to_id db !! path (metadata e) = Some i /\
    is_valid_path (path (metadata e)) = true /\ entry_typed e;
  inv_index : forall p i, path_to_id db !! p = Some i ->
    exists e, entries db !! i = Some e /\ path (metadata e) = p
}.

(** One critical section on the database. Registration goes through
    [AuthorizedAccess::add_entry], which never passes a datapoint. *)
Inductive db_step (db : Database) : Database -> Prop :=
| step_add permissions now name dt ct et description allowed unit_ :
    Z.of_nat (size (entries db)) < 4294967296 ->
    db_step db (snd (add db permissions now name dt ct et description allowed None unit_))
| step_update permissions now i u :
    db_step db (snd (update db permissions now i u)).

(** ** Lemmas on the operations *)

Lemma db_inv_new : db_inv Database_new.
Proof.
  split; simpl; try done.
  intros i. rewrite lookup_empty, map_size_empty. split; [by intros [? ?]|].
  intros (k & ? & _). lia.
Qed.

(** A successful update: what it required and what it did. *)
Lemma update_Ok db permissions now i u changed db' :
  update db permissions now i u = (Ok changed, db') ->
  exists e e', entries db !! i = Some e /\
    apply e (diff e u) = (e', changed) /\ validate e (diff e u) = Ok tt /\
    db' = set_entries db (<[i := e']> (entries db)) /\
    (is_some (u_datapoint u) = true -> can_write_datapoint permissions now (path (metadata e)) = Ok tt) /\
    (is_some (u_actuator_target u) = true ->
       can_write_actuator_target permissions now (path (metadata e)) = Ok tt) /\
    u_path u = None /\ u_entry_type u = None /\ u_data_type u = None /\ u_description u = None.
Proof.
  unfold update. destruct (entries db !! i) as [e|]; [|done].
  destruct (u_path u), (u_entry_type u), (u_data_type u), (u_description u); try done; simpl.
  intros Hu. exists e.
  assert (exists e', apply e (diff e u) = (e', changed) /\ validate e (diff e u) = Ok tt /\
    db' = set_entries db (<[i:=e']> (entries db))) as (e' & ? & ? & ?).
  { destruct (validate e (diff e u)) as [[]|], (apply e (diff e u)) as [e' c];
      crush_match_in Hu; eauto. }
  exists e'. split_and!; try done; intros; crush_match_in Hu; by destruct_units.
Qed.

Lemma update_Err db permissions now i u err db' :
  update db permissions now i u = (Err err, db') -> db' = db.
Proof.
  unfold update. intros Hu. crush_match_in Hu; done.
Qed.

Lemma diff_other e u :
  u_actuator_target (diff e u) = u_actuator_target u /\ u_allowed (diff e u) = u_allowed u.
Proof. unfold diff. repeat case_match; done. Qed.

(** What [diff] keeps of a datapoint. *)
Lemma diff_datapoint e u :
  u_datapoint (diff e u) =
    match u_datapoint u with
    | Some dp => if bool_decide (change_type (metadata e) = CT_Continuous)
                    || negb (dv_eqb (value dp) (value (datapoint e)))
                 then Some dp else None
    | None => None
    end.
Proof.
  unfold diff. destruct (u_datapoint u) eqn:E; [|done].
  destruct (bool_decide _), (dv_eqb _ _); simpl; done.
Qed.

Lemma size_insert_present db i (e e' : Entry) :
  entries db !! i = Some e -> size (<[i:=e']> (entries db)) = size (entries db).
Proof. intros Hi. apply map_size_insert_Some. eauto. Qed.

(** Replacing an entry by one with the same identity keeps the invariant. *)
Lemma db_inv_replace db i e e' :
  db_inv db -> entries db !! i = Some e -> entry_typed e' ->
  id (metadata e') = id (metadata e) -> path (metadata e') = path (metadata e) ->
  db_inv (set_entries db (<[i:=e']> (entries db))).
Proof.
  intros [Hs Hn Hi He Hx] Hl Ht Hid Hp. destruct (He _ _ Hl) as (Eid & Ep & Ev & _).
  split; simpl; rewrite ?(size_insert_present db i e e' Hl); try done.
  - intros j. rewrite <- Hi, lookup_insert_is_Some'. split; [intros [<- | ?]; eauto | auto].
  - intros j f. rewrite lookup_insert_Some. intros [[<- <-]|[_ ?]]; [|eauto].
    by rewrite Hid, Hp.
  - intros p j Hj. destruct (Hx _ _ Hj) as (f & Hf & Hfp).
    destruct (decide (j = i)) as [->|]; simplify_eq.
    + exists e'. by rewrite lookup_insert_eq.
    + exists f. by rewrite lookup_insert_ne.
Qed.

Lemma update_preserves db permissions now i u :
  db_inv db -> db_inv (snd (update db permissions now i u)).
Proof.
  intros Hinv. destruct (update _ _ _ _ _) as [[changed|err] db'] eqn:E; simpl.
  - apply update_Ok in E as (e & e' & Hl & Ha & Hv & -> & _).
    destruct (inv_entry _ Hinv _ _ Hl) as (_ & _ & _ & Ht).
    destruct (apply_typed e _ _ _ Ht Hv Ha) as [Ht' Hm].
    apply (db_inv_replace db i e e'); try done; by rewrite Hm.
  - by apply update_Err in E as ->.
Qed.

(** The entry that [add] registers under the id [i]. *)
Definition registered (now : SystemTime) (i : Z) (name : string) (dt : DataType) (ct : ChangeType)
  (et : EntryType) (desc : string) (al : option DataValue) (dp : option Datapoint)
  (un : option string) : Entry :=
  {| datapoint := default {| ts := now; value := DV_NotAvailable |} dp;
     actuator_target := None;
     metadata := {| id := i; path := name; data_type := dt; entry_type := et; change_type := ct;
                    description := desc; allowed := al; unit_ := un |} |}.

(** The three outcomes of [add]. *)
Lemma add_cases db permissions now name dt ct et desc al dp un r db' :
  add db permissions now name dt ct et desc al dp un = (r, db') ->
  (exists err, r = Err err /\ db' = db) \/
  (is_valid_path name = true /\ can_create permissions now name = Ok tt /\
   ((exists i, path_to_id db !! name = Some i /\ r = Ok i /\ db' = db) \/
    (let e := registered now (next_id db) name dt ct et desc al dp un in
     path_to_id db !! name = None /\ validate_allowed_type e al = Ok tt /\ r = Ok (next_id db) /\
     db' = {| next_id := wrap_i32 (next_id db + 1);
              path_to_id := <[name := next_id db]> (path_to_id db);
              entries := <[next_id db := e]> (entries db) |}))).
Proof.
  unfold add. destruct (is_valid_path name); simpl; [|intros; simplify_eq; eauto].
  destruct (can_create permissions now name) as [[]|]; simpl; [|intros; simplify_eq; eauto].
  destruct (path_to_id db !! name) as [i|] eqn:Ei; [intros; simplify_eq; right; eauto 8|].
  intros Ha. destruct (validate_allowed_type _ _) as [[]|] eqn:E in Ha; simplify_eq; [|by eauto].
  right. split_and!; try done. right.
  by split_and!.
Qed.

Lemma next_id_fresh db : db_inv db -> Z.of_nat (size (entries db)) < 4294967296 ->
  entries db !! next_id db = None.
Proof.
  intros [Hs Hn Hi _ _] Hlt. apply eq_None_not_Some. rewrite Hi, Hn.
  intros (k & Hk & E%wrap_i32_inj); lia.
Qed.

(** Registering a well-typed entry under the next id keeps the invariant. *)
Lemma db_inv_register db e :
  db_inv db -> Z.of_nat (size (entries db)) < 4294967296 ->
  path_to_id db !! path (metadata e) = None -> is_valid_path (path (metadata e)) = true ->
  id (metadata e) = next_id db -> entry_typed e ->
  db_inv {| next_id := wrap_i32 (next_id db + 1);
            path_to_id := <[path (metadata e) := next_id db]> (path_to_id db);
            entries := <[next_id db := e]> (entries db) |}.
Proof.
  intros Hinv Hlt Hnone Hv Hid Ht. pose proof (next_id_fresh db Hinv Hlt) as Hf.
  pose proof Hinv as [Hs Hn Hi He Hx].
  split; simpl; rewrite ?map_size_insert_None by done; rewrite ?Nat2Z.inj_succ.
  - lia.
  - rewrite Hn, wrap_i32_succ. done.
  - intros j. rewrite lookup_insert_is_Some', Hi, Hn. split.
    + intros [<- | (k & ? & ->)]; eexists; (split; [|reflexivity]); lia.
    + intros (k & Hk & ->). destruct (decide (k = Z.of_nat (size (entries db)))) as [-> |]; [by left|].
      right. exists k. split; [lia|done].
  - intros j f. rewrite lookup_insert_Some. intros [[<- <-]|[_ Hj]].
    + by rewrite lookup_insert_eq.
    + destruct (He _ _ Hj) as (? & Hp & ? & ?). split_and!; try done.
      rewrite lookup_insert_ne by congruence. done.
  - intros p j. rewrite lookup_insert_Some. intros [[<- <-]|[Hne Hj]].
    + exists e. by rewrite lookup_insert_eq.
    + destruct (Hx _ _ Hj) as (f & Hjf & Hfp). exists f. split; [|done].
      rewrite lookup_insert_ne; [done|]. intros <-. congruence.
Qed.

Lemma add_preserves db permissions now name dt ct et desc al un :
  db_inv db -> Z.of_nat (size (entries db)) < 4294967296 ->
  db_inv (snd (add db permissions now name dt ct et desc al None un)).
Proof.
  intros Hinv Hlt. destruct (add _ _ _ _ _ _ _ _ _ _ _) as [r db'] eqn:E. simpl.
  apply add_cases in E as [(? & _ & ->) | (Hv & _ & [(? & _ & _ & ->) | (Hnone & Hal & _ & ->)])];
    try done.
  apply (db_inv_register db (registered now (next_id db) name dt ct et desc al None un)); try done.
  split_and!; [by left | done | done].
Qed.

(** ** Theorems *)

(** Every database the broker can reach, from the empty one through any
    sequence of registrations and updates by any clients, satisfies the
    invariant: ids are unique and identify their entries, paths and entries
    are in bijection, every path is valid and every value, target and allowed
    list has the declared type.  (Fewer than 2^32 registrations: the 32-bit
    counter wraps.) *)
Theorem db_inv_reachable (db : Database) : rtc db_step Database_new db -> db_inv db.
Proof.
  intros Hr. pose proof db_inv_new as Hinv. revert Hinv.
  induction Hr as [|db1 db2 db3 [] _ IH]; auto using add_preserves, update_preserves.
Qed.

(** C13. Authorization of updates: whatever an update changes, it changes only
    the entry it names, never the index, and of that entry only the value (with
    permission to provide the path), the target (with permission to actuate
    it) and the allowed list; a refused update changes nothing. *)
Theorem update_authorized (db : Database) permissions now i u r db' :
  update db permissions now i u = (r, db') ->
  next_id db' = next_id db /\ path_to_id db' = path_to_id db /\
  (is_ok r = false -> db' = db) /\
  (forall j, j <> i -> entries db' !! j = entries db !! j) /\
  (forall e, entries db !! i = Some e -> exists e', entries db' !! i = Some e' /\
     metadata e' = set_allowed (metadata e) (allowed (metadata e')) /\
     (datapoint e' <> datapoint e -> can_write_datapoint permissions now (path (metadata e)) = Ok tt) /\
     (actuator_target e' <> actuator_target e ->
        can_write_actuator_target permissions now (path (metadata e)) = Ok tt)).
Proof.
  intros E. destruct r as [changed|err]; simpl.
  - apply update_Ok in E as (e & e' & Hl & Ha & _ & -> & Hd & Ht & _).
    apply apply_fields in Ha as (Ed & Et & _ & Hm & _). split_and!; try done; simpl.
    + intros j Hj. by rewrite lookup_insert_ne.
    + intros f Hf. simplify_eq. exists e'. rewrite lookup_insert_eq. split_and!; try done.
      * intros Hne. apply Hd. rewrite diff_datapoint in Ed. by destruct (u_datapoint u).
      * intros Hne. apply Ht. rewrite (proj1 (diff_other _ _)) in Et. by destruct (u_actuator_target u).
  - apply update_Err in E as ->. split_and!; try done. intros e He. exists e.
    split_and!; try done. by destruct e as [? ? []].
Qed.
(** What an accepted update stores and reports.  A new value is stored with
    its timestamp and reported as changed exactly when the signal is continuous
    or the value differs (by [==]) from the current one; otherwise even the
    timestamp stays.  A new target, [None] included, is always stored and
    reported. *)
Theorem update_stores (db : Database) permissions now i u changed db' e :
  update db permissions now i u = (Ok changed, db') -> entries db !! i = Some e ->
  exists e', entries db' !! i = Some e' /\
    (forall dp, u_datapoint u = Some dp ->
       if bool_decide (change_type (metadata e) = CT_Continuous)
          || negb (dv_eqb (value dp) (value (datapoint e)))
       then datapoint e' = dp /\ F_Datapoint ∈ changed
       else datapoint e' = datapoint e /\ F_Datapoint ∉ changed) /\
    (u_datapoint u = None -> datapoint e' = datapoint e /\ F_Datapoint ∉ changed) /\
    (forall t, u_actuator_target u = Some t -> actuator_target e' = t /\ F_ActuatorTarget ∈ changed) /\
    (u_actuator_target u = None ->
       actuator_target e' = actuator_target e /\ F_ActuatorTarget ∉ changed).
Proof.
  intros (f & e' & Hl & Ha & _ & -> & _)%update_Ok He. simplify_eq.
  apply apply_fields in Ha as (Ed & Et & _ & _ & Hcd & Hct & _).
  rewrite diff_datapoint in *. rewrite (proj1 (diff_other _ _)) in *.
  exists e'. simpl. rewrite lookup_insert_eq. split_and!; [done|..].
  - intros dp Hdp. rewrite Hdp in *. destruct (_ || _) in *; simpl in *; rewrite Hcd; done.
  - intros Hdp. rewrite Hdp in *. simpl in *. rewrite Hcd. done.
  - intros t Hta. rewrite Hta in *. simpl in *. rewrite Hct. done.
  - intros Hta. rewrite Hta in *. simpl in *. rewrite Hct. done.
Qed.

(** The updates of clients in full: the outcome and the new database. *)
Definition update_error (e : PermissionError) : UpdateError :=
  match e with Denied => UE_PermissionDenied | Expired => UE_PermissionExpired end.

(** The check of a value against type and allowed list. *)
Definition check_value (e : Entry) (v : DataValue) : result unit UpdateError :=
  let? _ := validate_value e v in validate_allowed e v.

(** The current value is kept: same value and not continuous. *)
Definition keeps_value (e : Entry) (d : Datapoint) : bool :=
  negb (bool_decide (change_type (metadata e) = CT_Continuous)) && dv_eqb (value d) (value (datapoint e)).

Lemma set_entries_same db i e : entries db !! i = Some e -> set_entries db (<[i := e]> (entries db)) = db.
Proof. intros He. rewrite insert_id by done. by destruct db. Qed.

Lemma target_update_eq db permissions now i e d :
  entries db !! i = Some e ->
  update db permissions now i (target_update d) =
    match can_write_actuator_target permissions now (path (metadata e)) with
    | Err err => (Err (update_error err), db)
    | Ok _ => match check_value e (value d) with
              | Ok _ => (Ok {[ F_ActuatorTarget ]},
                         set_entries db (<[i := set_actuator_target e (Some d)]> (entries db)))
              | Err err => (Err err, db)
              end
    end.
Proof.
  intros He. unfold update, check_value. rewrite He. simpl.
  destruct (can_write_actuator_target _ _ _) as [[]|[]]; try done. unfold validate. simpl.
  destruct (validate_value e (value d)) as [[]|]; [|done].
  destruct (validate_allowed e (value d)) as [[]|]; [|done]. by rewrite (right_id_L ∅ (∪)).
Qed.

Lemma datapoint_update_eq db permissions now i e d :
  entries db !! i = Some e ->
  update db permissions now i (datapoint_update d) =
    match can_write_datapoint permissions now (path (metadata e)) with
    | Err err => (Err (update_error err), db)
    | Ok _ => if keeps_value e d then (Ok ∅, db) else
              match check_value e (value d) with
              | Ok _ => (Ok {[ F_Datapoint ]}, set_entries db (<[i := set_datapoint e d]> (entries db)))
              | Err err => (Err err, db)
              end
    end.
Proof.
  intros He. unfold update, check_value, keeps_value. rewrite He. simpl.
  destruct (can_write_datapoint _ _ _) as [[]|[]]; try done. unfold diff, validate. simpl.
  destruct (bool_decide _); simpl; [|destruct (dv_eqb _ _); simpl; [by rewrite set_entries_same|]];
    (destruct (validate_value e (value d)) as [[]|]; [|done]);
    by destruct (validate_allowed e (value d)) as [[]|].
Qed.

Lemma check_value_typed e v :
  value_typed (data_type (metadata e)) v -> validate_allowed e v = Ok tt -> check_value e v = Ok tt.
Proof. intros Ht Ha. unfold check_value. by rewrite (proj2 (validate_value_typed e v) Ht). Qed.

(** A permitted and well-typed value is accepted; a signal that is not
    continuous keeps an equal one. *)
Lemma datapoint_update_accepted db permissions now i e dp :
  entries db !! i = Some e -> can_write_datapoint permissions now (path (metadata e)) = Ok tt ->
  value_typed (data_type (metadata e)) (value dp) -> validate_allowed e (value dp) = Ok tt ->
  exists cf db', update db permissions now i (datapoint_update dp) = (Ok cf, db') /\
    exists e', entries db' !! i = Some e' /\
      (datapoint e' = dp \/
       datapoint e' = datapoint e /\ dv_eqb (value dp) (value (datapoint e)) = true /\
       change_type (metadata e) <> CT_Continuous) /\
      metadata e' = metadata e.
Proof.
  intros He Hw Ht Ha. rewrite (datapoint_update_eq db permissions now i e dp He), Hw.
  rewrite check_value_typed by done. destruct (keeps_value e dp) eqn:Ek.
  - unfold keeps_value in Ek. bool_hyps. eexists _, _. split; [done|]. exists e.
    split_and!; [done|by right|done].
  - eexists _, _. split; [done|]. eexists. split; [by apply lookup_insert_eq|].
    split; [by left|done].
Qed.

(** One entry's part of these updates: the new entry or the error. *)
Definition provide (permissions : Permissions) (now : SystemTime) (e : Entry) (d : Datapoint)
  : result Entry UpdateError :=
  match can_write_datapoint permissions now (path (metadata e)) with
  | Err err => Err (update_error err)
  | Ok _ => if keeps_value e d then Ok e
            else result_map (fun _ => set_datapoint e d) (check_value e (value d))
  end.

Definition actuate (permissions : Permissions) (now : SystemTime) (e : Entry) (d : Datapoint)
  : result Entry UpdateError :=
  match can_write_actuator_target permissions now (path (metadata e)) with
  | Err err => Err (update_error err)
  | Ok _ => result_map (fun _ => set_actuator_target e (Some d)) (check_value e (value d))
  end.

(** What an attempt on the entry with an id reports and leaves behind. *)
Definition attempt_error (attempt : Entry -> result Entry UpdateError) (e : option Entry)
  : option UpdateError :=
  match e with
  | None => Some UE_NotFound
  | Some e => match attempt e with Ok _ => None | Err err => Some err end
  end.

Definition attempt_entry (attempt : Entry -> result Entry UpdateError) (e : option Entry) : option Entry :=
  match e with
  | None => None
  | Some e => match attempt e with Ok e' => Some e' | Err _ => Some e end
  end.

Definition error_of {A E} (r : result A E) : option E := match r with Ok _ => None | Err e => Some e end.

(** The update [mk d] does to an entry what [attempt d] says. *)
Definition attempts (mk : Datapoint -> EntryUpdate) (permissions : Permissions) (now : SystemTime)
  (attempt : Entry -> Datapoint -> result Entry UpdateError) : Prop :=
  forall db i d,
    error_of (fst (update db permissions now i (mk d))) =
      attempt_error (fun e => attempt e d) (entries db !! i) /\
    entries (snd (update db permissions now i (mk d))) !! i =
      attempt_entry (fun e => attempt e d) (entries db !! i).

Lemma update_missing db permissions now i u :
  entries db !! i = None -> update db permissions now i u = (Err UE_NotFound, db).
Proof. intros He. unfold update. by rewrite He. Qed.

Lemma provide_attempts permissions now :
  attempts datapoint_update permissions now (provide permissions now).
Proof.
  intros db i d. destruct (entries db !! i) as [e|] eqn:He.
  - rewrite (datapoint_update_eq db permissions now i e d He). simpl. unfold provide.
    destruct (can_write_datapoint _ _ _) as [[]|]; simpl; [|done].
    destruct (keeps_value e d); simpl; [done|].
    destruct (check_value e (value d)); simpl; [|done]. by rewrite lookup_insert_eq.
  - rewrite update_missing by done. simpl. by rewrite He.
Qed.

Lemma actuate_attempts permissions now :
  attempts target_update permissions now (actuate permissions now).
Proof.
  intros db i d. destruct (entries db !! i) as [e|] eqn:He.
  - rewrite (target_update_eq db permissions now i e d He). simpl. unfold actuate.
    destruct (can_write_actuator_target _ _ _) as [[]|]; simpl; [|done].
    destruct (check_value e (value d)); simpl; [|done]. by rewrite lookup_insert_eq.
  - rewrite update_missing by done. simpl. by rewrite He.
Qed.

(** Under the invariant a path with metadata is the path of one entry. *)
Lemma get_metadata_by_path_Some db p m :
  db_inv db -> get_metadata_by_path db p = Some m ->
  exists e, path_to_id db !! p = Some (id m) /\ entries db !! id m = Some e /\ m = metadata e /\ path m = p.
Proof.
  intros Hinv Hm. unfold get_metadata_by_path, get_metadata_by_id in Hm.
  destruct (path_to_id db !! p) as [i|] eqn:Hp; [|done].
  destruct (inv_index db Hinv p i Hp) as (e & He & Hpe). rewrite He in Hm. simpl in Hm. simplify_eq.
  destruct (inv_entry db Hinv i e He) as (Hi & _). exists e. by rewrite Hi.
Qed.

Lemma get_metadata_by_path_entry db i e :
  db_inv db -> entries db !! i = Some e -> get_metadata_by_path db (path (metadata e)) = Some (metadata e).
Proof.
  intros Hinv He. destruct (inv_entry db Hinv i e He) as (_ & Hp & _).
  unfold get_metadata_by_path, get_metadata_by_id. by rewrite Hp, He.
Qed.

(** The permission checks of [update]. *)
Definition update_permitted (permissions : Permissions) (now : SystemTime) (p : string)
  (u : EntryUpdate) : Prop :=
  (u_datapoint u <> None -> can_write_datapoint permissions now p = Ok tt) /\
  (u_actuator_target u <> None -> can_write_actuator_target permissions now p = Ok tt).

(** C30. An update is accepted exactly when the entry exists, no immutable
    metadata is named, the token permits what is written, the part that
    changes the entry has the declared type and lies in the allowed list, and
    a replaced allowed list has the right element type. *)
Theorem update_accepted (db : Database) permissions now i u :
  is_ok (fst (update db permissions now i u)) = true <->
  exists e, entries db !! i = Some e /\
    u_path u = None /\ u_entry_type u = None /\ u_data_type u = None /\ u_description u = None /\
    update_permitted permissions now (path (metadata e)) u /\
    (forall dp, u_datapoint (diff e u) = Some dp ->
       value_typed (data_type (metadata e)) (value dp) /\ validate_allowed e (value dp) = Ok tt) /\
    (forall t, u_actuator_target u = Some (Some t) ->
       value_typed (data_type (metadata e)) (value t) /\ validate_allowed e (value t) = Ok tt) /\
    (forall a, u_allowed u = Some (Some a) -> opt_dv_eqb (Some a) (allowed (metadata e)) = false ->
       validate_allowed_type e (Some a) = Ok tt).
Proof.
  split.
  - destruct (update _ _ _ _ _) as [[changed|] db'] eqn:E; [intros _|done].
    apply update_Ok in E as (e & e' & Hl & _ & (Hd & Ht & Ha)%validate_Ok & _ & Pd & Pt & H1 & H2 & H3 & H4).
    rewrite (proj1 (diff_other _ _)), (proj2 (diff_other _ _)) in *.
    setoid_rewrite validate_value_typed in Hd. setoid_rewrite validate_value_typed in Ht.
    exists e. split_and!; try done. split; intros Hne.
    + apply Pd. by destruct (u_datapoint u).
    + apply Pt. by destruct (u_actuator_target u).
  - intros (e & Hl & H1 & H2 & H3 & H4 & [Pd Pt] & Hd & Ht & Ha).
    assert (validate e (diff e u) = Ok tt) as Hv.
    { apply validate_Ok. rewrite (proj1 (diff_other _ _)), (proj2 (diff_other _ _)).
      setoid_rewrite validate_value_typed. done. }
    unfold update. rewrite Hl, H1, H2, H3, H4, Hv. simpl.
    destruct (u_datapoint u), (u_actuator_target u); rewrite ?Pd, ?Pt by done;
      destruct (apply _ _); done.
Qed.
(** Registration.  [add] succeeds exactly when the path is valid, the token
    may create it and the allowed list has the right type (which is not even
    looked at when the path exists).  A new path is mapped to a new entry that
    holds no value and no target; registering an existing path returns its id;
    nothing else in the database changes. *)
Theorem add_registers (db : Database) permissions now name dt ct et desc al un i db' :
  db_inv db -> Z.of_nat (size (entries db)) < 4294967296 ->
  add db permissions now name dt ct et desc al None un = (Ok i, db') ->
  is_valid_path name = true /\ can_create permissions now name = Ok tt /\
  path_to_id db' !! name = Some i /\
  (forall p, p <> name -> path_to_id db' !! p = path_to_id db !! p) /\
  (forall j, is_Some (entries db !! j) -> entries db' !! j = entries db !! j) /\
  match path_to_id db !! name with
  | Some j => i = j /\ db' = db
  | None => entries db !! i = None /\
            entries db' !! i = Some (registered now i name dt ct et desc al None un)
  end.
Proof.
  intros Hinv Hlt [(? & ? & _) | (Hv & Hc & [(j & Hj & Hr & ->) | (Hn & Hal & Hr & ->)])]%add_cases;
    [done|..]; simplify_eq.
  - rewrite Hj. by split_and!.
  - rewrite Hn. pose proof (next_id_fresh db Hinv Hlt) as Hf. simpl.
    split_and!; try done; rewrite ?lookup_insert_eq; try done.
    + intros p Hp. by rewrite lookup_insert_ne.
    + intros j [e He]. rewrite lookup_insert_ne; [done|]. intros <-. congruence.
Qed.

(** Registering the same path again, whatever the other arguments, returns
    the same id and leaves the database alone. *)
Theorem add_idempotent (db : Database) permissions now name dt ct et desc al dp un i db' :
  add db permissions now name dt ct et desc al dp un = (Ok i, db') ->
  forall permissions2 now2 dt2 ct2 et2 desc2 al2 dp2 un2,
  can_create permissions2 now2 name = Ok tt ->
  add db' permissions2 now2 name dt2 ct2 et2 desc2 al2 dp2 un2 = (Ok i, db').
Proof.
  intros [(? & ? & _) | (Hv & Hc & Hcase)]%add_cases; [done|]. intros p2 n2 ? ? ? ? ? ? ? Hc2.
  assert (path_to_id db' !! name = Some i) as Hi.
  { destruct Hcase as [(j & Hj & Hr & ->) | (_ & _ & Hr & ->)]; simplify_eq; [done|].
    simpl. by rewrite lookup_insert_eq. }
  unfold add. by rewrite Hv, Hc2, Hi.
Qed.

Lemma get_entry_by_id_spec db permissions now i :
  get_entry_by_id db permissions now i =
    match entries db !! i with
    | Some e => map_err read_error (result_map (fun _ => e) (can_read permissions now (path (metadata e))))
    | None => Err RE_NotFound
    end.
Proof.
  unfold get_entry_by_id. destruct (entries db !! i) as [e|]; [|done].
  by destruct (can_read permissions now (path (metadata e))) as [[]|[]].
Qed.

Lemma get_entry_Ok db permissions now i e :
  get_entry_by_id db permissions now i = Ok e <->
  entries db !! i = Some e /\ can_read permissions now (path (metadata e)) = Ok tt.
Proof.
  rewrite get_entry_by_id_spec. destruct (entries db !! i) as [f|]; [|by split; [|intros [? _]]].
  destruct (can_read permissions now (path (metadata f))) as [[]|] eqn:E; simpl; split;
    intros; destruct_and?; simplify_eq; try done. congruence.
Qed.

(** Reading by path: the entry returned is the one registered under that
    path, and it is returned exactly when the token may read the path; an
    unknown path is [NotFound] whatever the token, a known one that may not be
    read is [PermissionDenied] or [PermissionExpired]. *)
Theorem read_by_path (db : Database) permissions now p :
  db_inv db ->
  get_entry_by_path db permissions now p =
    match path_to_id db !! p ≫= fun i => entries db !! i with
    | Some e => match can_read permissions now p with
                | Ok _ => Ok e
                | Err err => Err (read_error err)
                end
    | None => Err RE_NotFound
    end /\
  (forall e, get_entry_by_path db permissions now p = Ok e ->
     path (metadata e) = p /\ entries db !! id (metadata e) = Some e /\ entry_typed e).
Proof.
  intros Hinv. unfold get_entry_by_path.
  destruct (path_to_id db !! p) as [i|] eqn:Ei; simpl; [|done].
  destruct (inv_index _ Hinv _ _ Ei) as (e & He & <-).
  rewrite get_entry_by_id_spec, He.
  destruct (can_read permissions now (path (metadata e))) as [[]|[]]; simpl; split; try done.
  intros f [= <-]. destruct (inv_entry _ Hinv _ _ He) as (-> & _ & _ & ?). done.
Qed.

Lemma elem_of_iter_entries db permissions now a :
  a ∈ iter_entries db permissions now <->
  exists i e, entries db !! i = Some e /\ a = EntryReadAccess_new e permissions now.
Proof.
  unfold iter_entries. rewrite list_elem_of_In, in_map_iff. split.
  - intros (e & <- & He%list_elem_of_In). rewrite elem_of_hash_order in He.
    apply list_elem_of_In, in_map_iff in He as ([i e'] & <- & Hin).
    apply list_elem_of_In, elem_of_map_to_list in Hin. eauto.
  - intros (i & e & He & ->). exists e. split; [done|]. apply list_elem_of_In.
    rewrite elem_of_hash_order. apply list_elem_of_In, in_map_iff. exists (i, e). split; [done|].
    by apply list_elem_of_In, elem_of_map_to_list.
Qed.

(** What a read access shows. *)
Lemma EntryReadAccess_new_spec e permissions now :
  era_metadata (EntryReadAccess_new e permissions now) = metadata e /\
  (is_ok (era_datapoint (EntryReadAccess_new e permissions now)) = true <->
     can_read permissions now (path (metadata e)) = Ok tt) /\
  (forall d, era_datapoint (EntryReadAccess_new e permissions now) = Ok d ->
     d = datapoint e /\ can_read permissions now (path (metadata e)) = Ok tt) /\
  (forall t, era_actuator_target (EntryReadAccess_new e permissions now) = Ok t ->
     t = actuator_target e /\ can_read permissions now (path (metadata e)) = Ok tt).
Proof.
  unfold EntryReadAccess_new.
  destruct (can_read permissions now (path (metadata e))) as [[]|[]]; simpl; split_and!; try done;
    by intros ? [= <-].
Qed.

(** Iterating over the database shows every entry exactly once, in some
    order, and shows the value and the target of an entry only to a token that
    may read its path: the others get the metadata and an error. *)
Theorem iter_entries_spec (db : Database) permissions now :
  db_inv db ->
  map (fun a => id (era_metadata a)) (iter_entries db permissions now)
    ≡ₚ map fst (map_to_list (entries db)) /\
  (forall a, a ∈ iter_entries db permissions now ->
     entries db !! id (era_metadata a) <> None /\
     (is_ok (era_datapoint a) = true <->
        can_read permissions now (path (era_metadata a)) = Ok tt) /\
     (is_ok (era_actuator_target a) = true <->
        can_read permissions now (path (era_metadata a)) = Ok tt)).
Proof.
  intros Hinv. unfold iter_entries. split.
  - rewrite hash_order_perm, !map_map. erewrite map_ext_in; [reflexivity|].
    intros [i e] Hin%list_elem_of_In%elem_of_map_to_list. simpl.
    destruct (inv_entry _ Hinv _ _ Hin) as (<- & _).
    unfold EntryReadAccess_new. by destruct (can_read _ _ _) as [?|[]].
  - intros a (e & <- & He%list_elem_of_In)%list_elem_of_In%in_map_iff.
    rewrite elem_of_hash_order in He.
    apply list_elem_of_In, in_map_iff in He as ([i e'] & <- & Hin). simpl.
    apply list_elem_of_In, elem_of_map_to_list in Hin.
    destruct (inv_entry _ Hinv _ _ Hin) as (Hid & _).
    unfold EntryReadAccess_new.
    destruct (can_read permissions now (path (metadata e'))) as [[]|[]] eqn:Ec; simpl;
      rewrite Ec, Hid, Hin; done.
Qed.
End Invariant.

(** ** Witnesses *)

Section Witnesses.
#[local] Existing Instance glob_engine.

Definition speed_db : Database :=
  snd (add Database_new ALLOW_ALL 0 "Vehicle.Speed" DT_Int8 CT_OnChange ET_Actuator "" None None None).

Definition speed_to (z : Z) : EntryUpdate :=
  with_datapoint EntryUpdate_default (Some {| ts := 5; value := DV_Int32 z |}).

Definition speed_db2 : Database := snd (update speed_db ALLOW_ALL 1 0 (speed_to 100)).

Lemma speed_db_inv : db_inv speed_db.
Proof. apply add_preserves; [apply db_inv_new | vm_compute; done]. Qed.

Lemma db_inv_reachable_witness :
  db_inv speed_db2 /\ value <$> (datapoint <$> entries speed_db2 !! 0) = Some (DV_Int32 100).
Proof.
  split; [|vm_compute; reflexivity].
  apply (db_inv_reachable speed_db2).
  apply rtc_l with speed_db; [|apply rtc_once].
  - apply step_add. vm_compute. reflexivity.
  - apply step_update.
Defined.

Lemma update_authorized_witness :
  path_to_id (snd (update speed_db ALLOW_ALL 1 0 (speed_to 200))) = path_to_id speed_db /\
  fst (update speed_db ALLOW_ALL 1 0 (speed_to 200)) = Err UE_OutOfBounds /\
  snd (update speed_db ALLOW_ALL 1 0 (speed_to 200)) = speed_db.
Proof.
  pose proof (update_authorized speed_db ALLOW_ALL 1 0 (speed_to 200) _ _ (surjective_pairing _))
    as (_ & Hp & Hu & _).
  split; [exact Hp|]. split; [vm_compute; reflexivity|]. apply Hu. vm_compute. reflexivity.
Defined.

Lemma update_stores_witness :
  exists e', entries speed_db2 !! 0 = Some e' /\ datapoint e' = {| ts := 5; value := DV_Int32 100 |}.
Proof.
  destruct (entries speed_db !! 0) as [e|] eqn:He; [|vm_compute in He; discriminate].
  destruct (update_stores speed_db ALLOW_ALL 1 0 (speed_to 100) {[F_Datapoint]} speed_db2 e)
    as (e' & He' & Hd & _).
  - vm_compute. reflexivity.
  - exact He.
  - exists e'. split; [exact He'|]. specialize (Hd _ eq_refl).
    vm_compute in He. injection He as <-. exact (proj1 Hd).
Defined.

Lemma add_registers_witness :
  path_to_id speed_db !! "Vehicle.Speed" = Some 0 /\
  entries speed_db !! 0 =
    Some (registered 0 0 "Vehicle.Speed" DT_Int8 CT_OnChange ET_Actuator "" None None None).
Proof.
  destruct (add_registers Database_new ALLOW_ALL 0 "Vehicle.Speed" DT_Int8 CT_OnChange ET_Actuator
    "" None None 0 speed_db) as (_ & _ & Hp & _ & _ & _ & He).
  - apply db_inv_new.
  - vm_compute. reflexivity.
  - vm_compute. reflexivity.
  - split; assumption.
Defined.

Lemma add_idempotent_witness :
  add speed_db ALLOW_ALL 9 "Vehicle.Speed" DT_String CT_Static ET_Sensor "other" None None None
  = (Ok 0, speed_db).
Proof.
  apply (add_idempotent Database_new ALLOW_ALL 0 "Vehicle.Speed" DT_Int8 CT_OnChange ET_Actuator
    "" None None None); vm_compute; reflexivity.
Defined.

Lemma read_by_path_witness :
  get_entry_by_path speed_db ALLOW_NONE 3 "Vehicle.Speed" = Err RE_PermissionDenied /\
  get_entry_by_path speed_db ALLOW_NONE 3 "Vehicle.Gear" = Err RE_NotFound.
Proof.
  split.
  - rewrite (proj1 (read_by_path speed_db ALLOW_NONE 3 "Vehicle.Speed" speed_db_inv)).
    vm_compute. reflexivity.
  - rewrite (proj1 (read_by_path speed_db ALLOW_NONE 3 "Vehicle.Gear" speed_db_inv)).
    vm_compute. reflexivity.
Defined.

Lemma iter_entries_spec_witness :
  map (fun a => id (era_metadata a)) (iter_entries speed_db ALLOW_NONE 3) ≡ₚ [0].
Proof.
  rewrite (proj1 (iter_entries_spec speed_db ALLOW_NONE 3 speed_db_inv)).
  vm_compute. reflexivity.
Defined.
End Witnesses.
