(* ===== verification/Query.v ===== *)
(** * Query: compiling and executing subscription queries

    src/kuksa_databroker/databroker/src/query/expr.rs, compiler.rs and
    executor.rs.  The SQL parser is the third-party crate [sqlparser]: its
    function [parse_sql] is a parameter ([SqlParser]), and of its syntax trees
    the constructors the compiler matches on are written out, every other one
    is an [Other] constructor.  The texts of error messages are not modelled. *)

From S2P Require Import Prelude Floats Types Glob Entry.

(** ** The part of sqlparser's syntax trees the compiler inspects *)

Inductive SqlValue :=
| SV_Number (n : string)
| SV_SingleQuotedString (s : string)
| SV_DoubleQuotedString (s : string)
| SV_Boolean (b : bool)
| SV_Other.

Inductive SqlBinaryOperator :=
| BO_Gt | BO_GtEq | BO_Lt | BO_LtEq | BO_Eq | BO_NotEq | BO_And | BO_Or | BO_Other.

Inductive SqlUnaryOperator := UO_Not | UO_Other.

Inductive SqlExpr :=
| SE_Value (v : SqlValue)
| SE_Identifier (id : string)
| SE_CompoundIdentifier (ids : list string)
| SE_BinaryOp (left : SqlExpr) (op : SqlBinaryOperator) (right : SqlExpr)
| SE_Nested (e : SqlExpr)
| SE_UnaryOp (op : SqlUnaryOperator) (e : SqlExpr)
| SE_Between (e : SqlExpr) (negated : bool) (low high : SqlExpr)
| SE_Other.

Inductive SelectItem :=
| SI_UnnamedExpr (e : SqlExpr)
| SI_ExprWithAlias (e : SqlExpr) (alias : string)
| SI_Other.

Record Select := { sel_projection : list SelectItem; sel_selection : option SqlExpr }.

Inductive SetExpr := SX_Select (s : Select) | SX_Other.
Inductive Statement := ST_Query (body : SetExpr) | ST_Other.

(** [sqlparser::parser::Parser::parse_sql] with the generic dialect. *)
Class SqlParser := { parse_sql : string -> result (list Statement) unit }.

(** ** Expressions (expr.rs) *)

Inductive Operator := Op_And | Op_Or | Op_Eq | Op_NotEq | Op_Gt | Op_Ge | Op_Lt | Op_Le.
Inductive UnaryOperator := Uop_Not.

Inductive Expr :=
| E_Datapoint (name : string) (data_type : DataType)
| E_Alias (expr : Expr) (alias : string)
| E_Cast (expr : Expr) (data_type : DataType)
| E_UnresolvedLiteral (raw : string)
| E_ResolvedLiteral (value : DataValue) (data_type : DataType)
| E_BinaryOperation (left : Expr) (operator : Operator) (right : Expr)
| E_UnaryOperation (expr : Expr) (operator : UnaryOperator)
| E_Between (expr : Expr) (negated : bool) (low high : Expr).

Inductive UnresolvedLiteral := UL_Number (raw : string) | UL_Error.

(** [Expr::get_type]. *)
Fixpoint get_type (self : Expr) : result DataType UnresolvedLiteral :=
  match self with
  | E_Datapoint _ data_type => Ok data_type
  | E_Alias expr _ => get_type expr
  | E_Cast _ data_type => Ok data_type
  | E_UnresolvedLiteral raw => Err (UL_Number raw)
  | E_ResolvedLiteral _ data_type => Ok data_type
  | E_BinaryOperation _ _ _ => Ok DT_Bool
  | E_UnaryOperation _ Uop_Not => Ok DT_Bool
  | E_Between _ _ _ _ => Ok DT_Bool
  end.

(** ** Compiler (compiler.rs) *)

Inductive CompilationError :=
| CE_UnknownField (name : string)
| CE_MalformedNumber
| CE_UnsupportedOperator
| CE_UnsupportedOperation
| CE_TypeError
| CE_InvalidLogic
| CE_InvalidComparison
| CE_ParseError.

(** [trait CompilationInput]. *)
Definition CompilationInput := string -> result DataType CompilationError.

(** [CompilationInputImpl::get_datapoint_type] over its [schema]. *)
Definition schema_input (schema : gmap string DataType) : CompilationInput :=
  fun field => match schema !! field with
               | Some v => Ok v
               | None => Err (CE_UnknownField field)
               end.

Record CompiledQuery := {
  selection : option Expr;
  projection : list Expr;
  input_spec : gset string
}.

(** [CompiledQuery::new]. *)
Definition CompiledQuery_new : CompiledQuery :=
  {| selection := None; projection := []; input_spec := ∅ |}.

(** [resolve_literal]. *)
Definition resolve_literal (unresolved_literal : UnresolvedLiteral) (wanted_type : DataType)
  : result Expr UnresolvedLiteral :=
  let literal {A} (parsed : option A) (inj : A -> DataValue) :=
    match parsed with
    | Some value => Ok (E_ResolvedLiteral (inj value) wanted_type)
    | None => Err UL_Error
    end in
  match wanted_type, unresolved_literal with
  | DT_Int8, UL_Number raw => literal (parse_int i8 raw) DV_Int32
  | DT_Int16, UL_Number raw => literal (parse_int i16 raw) DV_Int32
  | DT_Int32, UL_Number raw => literal (parse_int i32 raw) DV_Int32
  | DT_Int64, UL_Number raw => literal (parse_int i64 raw) DV_Int64
  | DT_Uint8, UL_Number raw => literal (parse_int u8 raw) DV_Uint32
  | DT_Uint16, UL_Number raw => literal (parse_int u16 raw) DV_Uint32
  | DT_Uint32, UL_Number raw => literal (parse_int u32 raw) DV_Uint32
  | DT_Uint64, UL_Number raw => literal (parse_int u64 raw) DV_Uint64
  | DT_Float, UL_Number raw => literal (parse_float f32 raw) DV_Float
  | DT_Double, UL_Number raw => literal (parse_float f64 raw) DV_Double
  | _, _ => Err UL_Error
  end.

(** Two numeric literals compared with each other: parsed together, as [i64],
    else as [u64], else as [f64]. *)
Definition resolve_two_literals (raw_left raw_right : string) : result (Expr * Expr) CompilationError :=
  match parse_int i64 raw_left, parse_int i64 raw_right with
  | Some left_value, Some right_value =>
      Ok (E_ResolvedLiteral (DV_Int64 left_value) DT_Int64,
          E_ResolvedLiteral (DV_Int64 right_value) DT_Int64)
  | _, _ =>
      match parse_int u64 raw_left, parse_int u64 raw_right with
      | Some left_value, Some right_value =>
          Ok (E_ResolvedLiteral (DV_Uint64 left_value) DT_Uint64,
              E_ResolvedLiteral (DV_Uint64 right_value) DT_Uint64)
      | _, _ =>
          match parse_float f64 raw_left, parse_float f64 raw_right with
          | Some left_value, Some right_value =>
              Ok (E_ResolvedLiteral (DV_Double left_value) DT_Double,
                  E_ResolvedLiteral (DV_Double right_value) DT_Double)
          | _, _ => Err CE_TypeError
          end
      end
  end.

(** The operands of a binary operation with unresolved literals resolved. *)
Definition resolve_operands (left_expr right_expr : Expr) : result (Expr * Expr) CompilationError :=
  match get_type left_expr, get_type right_expr with
  | Err literal, Ok right_type =>
      match resolve_literal literal right_type with
      | Ok left_expr => Ok (left_expr, right_expr)
      | Err _ => Err CE_TypeError
      end
  | Ok left_type, Err literal =>
      match resolve_literal literal left_type with
      | Ok right_expr => Ok (left_expr, right_expr)
      | Err _ => Err CE_TypeError
      end
  | Err left_literal, Err right_literal =>
      match left_literal, right_literal with
      | UL_Number raw_left, UL_Number raw_right => resolve_two_literals raw_left raw_right
      | _, _ => Err CE_TypeError
      end
  | Ok _, Ok _ => Ok (left_expr, right_expr)
  end.

(** The final [match op] of the binary case. *)
Definition compile_operator (op : SqlBinaryOperator) (left_expr right_expr : Expr)
  : result Expr CompilationError :=
  let logical operator :=
    match get_type left_expr, get_type right_expr with
    | Ok DT_Bool, Ok DT_Bool => Ok (E_BinaryOperation left_expr operator right_expr)
    | _, _ => Err CE_TypeError
    end in
  match op with
  | BO_Gt => Ok (E_BinaryOperation left_expr Op_Gt right_expr)
  | BO_GtEq => Ok (E_BinaryOperation left_expr Op_Ge right_expr)
  | BO_Lt => Ok (E_BinaryOperation left_expr Op_Lt right_expr)
  | BO_LtEq => Ok (E_BinaryOperation left_expr Op_Le right_expr)
  | BO_Eq => Ok (E_BinaryOperation left_expr Op_Eq right_expr)
  | BO_NotEq => Ok (E_BinaryOperation left_expr Op_NotEq right_expr)
  | BO_And => logical Op_And
  | BO_Or => logical Op_Or
  | BO_Other => Err CE_UnsupportedOperator
  end.

(** [compile_expr]: the expression and the grown [output.input_spec]. *)
Fixpoint compile_expr (expr : SqlExpr) (input : CompilationInput) (spec : gset string)
  : result (Expr * gset string) CompilationError :=
  let datapoint name :=
    (* Does the datapoint exist? *)
    let? data_type := input name in
    Ok (E_Datapoint name data_type, {[ name ]} ∪ spec) in
  match expr with
  | SE_Value (SV_Number n) => Ok (E_UnresolvedLiteral n, spec)
  | SE_Value (SV_SingleQuotedString s) => Ok (E_ResolvedLiteral (DV_String s) DT_String, spec)
  | SE_Value (SV_Boolean n) => Ok (E_ResolvedLiteral (DV_Bool n) DT_Bool, spec)
  | SE_Value (SV_DoubleQuotedString s) => Ok (E_ResolvedLiteral (DV_String s) DT_String, spec)
  | SE_Identifier name => datapoint name
  | SE_CompoundIdentifier ids => datapoint (join "." ids)
  | SE_BinaryOp l op r =>
      let? (left_expr, spec) := compile_expr l input spec in
      let? (right_expr, spec) := compile_expr r input spec in
      (* Resolve unresolved literals if any *)
      let? (left_expr, right_expr) := resolve_operands left_expr right_expr in
      let? e := compile_operator op left_expr right_expr in
      Ok (e, spec)
  | SE_Nested e => compile_expr e input spec
  | SE_UnaryOp UO_Not e =>
      let? (e, spec) := compile_expr e input spec in
      Ok (E_UnaryOperation e Uop_Not, spec)
  | SE_UnaryOp UO_Other _ => Err CE_UnsupportedOperator
  | SE_Between e negated low high =>
      let? (e, spec) := compile_expr e input spec in
      let? (low, spec) := compile_expr low input spec in
      let? (high, spec) := compile_expr high input spec in
      Ok (E_Between e negated low high, spec)
  | SE_Value SV_Other | SE_Other => Err CE_UnsupportedOperator
  end.

(** The loop over [select.projection]. *)
Fixpoint compile_projection (items : list SelectItem) (input : CompilationInput)
  (query : CompiledQuery) : result CompiledQuery CompilationError :=
  match items with
  | [] => Ok query
  | c :: items =>
      let push e spec :=
        {| selection := selection query; projection := projection query ++ [e]; input_spec := spec |} in
      match c with
      | SI_UnnamedExpr expr =>
          let? (expr, spec) := compile_expr expr input (input_spec query) in
          compile_projection items input (push expr spec)
      | SI_ExprWithAlias expr alias =>
          let? (expr, spec) := compile_expr expr input (input_spec query) in
          compile_projection items input (push (E_Alias expr alias) spec)
      | SI_Other => Err CE_UnsupportedOperation
      end
  end.

(** The condition of the [WHERE] clause. *)
Definition compile_selection (sel : option SqlExpr) (input : CompilationInput)
  (query : CompiledQuery) : result CompiledQuery CompilationError :=
  match sel with
  | None => Ok query
  | Some expr =>
      let? (condition, spec) := compile_expr expr input (input_spec query) in
      match get_type condition with
      | Ok data_type =>
          if negb (bool_decide (data_type = DT_Bool)) then Err CE_TypeError
          else Ok {| selection := Some condition; projection := projection query; input_spec := spec |}
      | Err _ =>
          Ok {| selection := Some condition; projection := projection query; input_spec := spec |}
      end
  end.

(** [compile], after parsing. *)
Definition compile_ast (ast : list Statement) (input : CompilationInput)
  : result CompiledQuery CompilationError :=
  match head ast with
  | Some (ST_Query (SX_Select select)) =>
      let? query := compile_selection (sel_selection select) input CompiledQuery_new in
      compile_projection (sel_projection select) input query
  | _ => Err CE_UnsupportedOperation
  end.

(** [compile]. *)
Definition compile `{SqlParser} (sql : string) (input : CompilationInput)
  : result CompiledQuery CompilationError :=
  match parse_sql sql with
  | Ok ast => compile_ast ast input
  | Err _ => Err CE_ParseError
  end.

(** ** Executor (executor.rs) *)

(** [ExecutionError]; [EX_Panic] is the [todo!()] of the [Cast] case.  The
    [debug_assert!] of the unresolved-literal case is not active in a release
    build. *)
Inductive ExecutionError := EX_GeneralError | EX_TypeError | EX_CastError | EX_Panic.

(** [trait ExecutionInput]. *)
Definition ExecutionInput := string -> DataValue.

(** [ExecutionInputImpl::lookup] over its [fields]. *)
Definition fields_input (fields : gmap string DataValue) : ExecutionInput :=
  fun field => match fields !! field with Some value => value | None => DV_NotAvailable end.

(** A comparison result as a value. *)
Definition bool_result (r : result bool CastError) : result DataValue ExecutionError :=
  match r with Ok b => Ok (DV_Bool b) | Err _ => Err EX_CastError end.

(** [execute_binary_operation] on the outcomes of its operands. *)
Definition execute_binary_operation (left : result DataValue ExecutionError) (operator : Operator)
  (right : result DataValue ExecutionError) : result DataValue ExecutionError :=
  let? left_value := left in
  let? right_value := right in
  match operator with
  | Op_Or => match left_value, right_value with
             | DV_Bool l, DV_Bool r => Ok (DV_Bool (l || r))
             | _, _ => Err EX_TypeError
             end
  | Op_And => match left_value, right_value with
              | DV_Bool l, DV_Bool r => Ok (DV_Bool (l && r))
              | _, _ => Err EX_TypeError
              end
  | Op_Eq => bool_result (equals left_value right_value)
  | Op_NotEq => bool_result (result_map negb (equals left_value right_value))
  | Op_Gt => bool_result (greater_than left_value right_value)
  | Op_Ge => match greater_than left_value right_value with
             | Ok greater_than =>
                 if greater_than then Ok (DV_Bool greater_than)
                 else bool_result (equals left_value right_value)
             | Err _ => Err EX_CastError
             end
  | Op_Lt => bool_result (less_than left_value right_value)
  | Op_Le => match less_than left_value right_value with
             | Ok less_than =>
                 if less_than then Ok (DV_Bool less_than)
                 else bool_result (equals left_value right_value)
             | Err _ => Err EX_CastError
             end
  end.

(** [execute_unary_operation]. *)
Definition execute_unary_operation (expr : result DataValue ExecutionError) (operator : UnaryOperator)
  : result DataValue ExecutionError :=
  match operator with
  | Uop_Not => match expr with
               | Ok (DV_Bool b) => Ok (DV_Bool (negb b))
               | Ok _ => Err EX_TypeError
               | Err e => Err e
               end
  end.

(** [execute_between_operation]. *)
Definition execute_between_operation (expr : result DataValue ExecutionError) (negated : bool)
  (low high : result DataValue ExecutionError) : result DataValue ExecutionError :=
  let upper :=
    match execute_binary_operation expr Op_Le high with
    | Ok (DV_Bool true) => if negated then Ok (DV_Bool false) else Ok (DV_Bool true)
    | Ok (DV_Bool false) => if negb negated then Ok (DV_Bool false) else Ok (DV_Bool true)
    | Ok _ => Err EX_TypeError
    | Err e => Err e
    end in
  match execute_binary_operation expr Op_Ge low with
  | Ok (DV_Bool true) => if negated then Ok (DV_Bool false) else upper
  | Ok (DV_Bool false) => if negb negated then Ok (DV_Bool false) else upper
  | Ok _ => Err EX_TypeError
  | Err e => Err e
  end.

(** [Expr::execute]. *)
Fixpoint execute_expr (self : Expr) (input : ExecutionInput) : result DataValue ExecutionError :=
  match self with
  | E_Datapoint name _ => Ok (input name)
  | E_Alias expr _ => execute_expr expr input
  | E_BinaryOperation l operator r =>
      execute_binary_operation (execute_expr l input) operator (execute_expr r input)
  | E_UnaryOperation expr operator => execute_unary_operation (execute_expr expr input) operator
  | E_ResolvedLiteral value _ => Ok value
  | E_Between expr negated low high =>
      execute_between_operation (execute_expr expr input) negated
        (execute_expr low input) (execute_expr high input)
  | E_Cast _ _ => Err EX_Panic
  | E_UnresolvedLiteral _ => Err EX_TypeError
  end.

(** The name of a projected field. *)
Definition field_name (index : nat) (e : Expr) : string :=
  match e with
  | E_Datapoint name _ => name
  | E_Alias _ alias => alias
  | _ => "field_" +:+ pretty index
  end.

(** The loop over [self.projection.iter().enumerate()]. *)
Fixpoint execute_projection (index : nat) (l : list Expr) (input : ExecutionInput)
  : result (list (string * DataValue)) ExecutionError :=
  match l with
  | [] => Ok []
  | e :: l =>
      let? value := execute_expr e input in
      let? fields := execute_projection (S index) l input in
      Ok ((field_name index e, value) :: fields)
  end.

(** [CompiledQuery::execute]. *)
Definition execute (self : CompiledQuery) (input : ExecutionInput)
  : result (option (list (string * DataValue))) ExecutionError :=
  let? condition_fulfilled :=
    match selection self with
    | Some condition =>
        match execute_expr condition input with
        | Ok (DV_Bool b) => Ok b
        | Ok _ => Err EX_GeneralError
        | Err e => Err e
        end
    | None => Ok true
    end in
  if (condition_fulfilled : bool) then
    let? fields := execute_projection 0 (projection self) input in
    Ok (Some fields)
  else Ok None. (* Successful execution, but condition wasn't met *)

(** ** Specification *)

(** What the compiler guarantees of an expression: datapoints exist with the
    recorded type and are listed in the input specification, literals have
    their type, there is no cast, the operands of an operator have a type, and
    those of a logical operator are boolean. *)
Fixpoint expr_ok (input : CompilationInput) (spec : gset string) (e : Expr) : Prop :=
  match e with
  | E_Datapoint name dt => input name = Ok dt /\ name ∈ spec
  | E_Alias e _ => expr_ok input spec e
  | E_Cast _ _ => False
  | E_UnresolvedLiteral _ => True
  | E_ResolvedLiteral v dt => has_type dt v
  | E_BinaryOperation l op r =>
      expr_ok input spec l /\ expr_ok input spec r /\
      is_ok (get_type l) = true /\ is_ok (get_type r) = true /\
      (op = Op_And \/ op = Op_Or -> get_type l = Ok DT_Bool /\ get_type r = Ok DT_Bool)
  | E_UnaryOperation e _ => expr_ok input spec e
  | E_Between e _ low high =>
      expr_ok input spec e /\ expr_ok input spec low /\ expr_ok input spec high
  end.

Definition query_ok (input : CompilationInput) (q : CompiledQuery) : Prop :=
  (forall c, selection q = Some c -> expr_ok input (input_spec q) c) /\
  Forall (expr_ok input (input_spec q)) (projection q).

(** The values supplied have the types the query was compiled against. *)
Definition input_typed (input : CompilationInput) (spec : gset string) (values : ExecutionInput) : Prop :=
  forall name dt, name ∈ spec -> input name = Ok dt -> value_typed dt (values name).

(** ** Lemmas *)

Lemma expr_ok_mono input spec spec' e :
  spec ⊆ spec' -> expr_ok input spec e -> expr_ok input spec' e.
Proof. intros Hs. induction e; simpl; intuition. Qed.

(** A larger schema that keeps the types of the smaller one. *)
Lemma expr_ok_schema input input' spec e :
  (forall name dt, input name = Ok dt -> input' name = Ok dt) ->
  expr_ok input spec e -> expr_ok input' spec e.
Proof. intros Hs. induction e; simpl; intuition. Qed.

Lemma query_ok_schema input input' q :
  (forall name dt, input name = Ok dt -> input' name = Ok dt) ->
  query_ok input q -> query_ok input' q.
Proof.
  intros Hs [Hsel Hpr]. split.
  - intros c Hc. eapply expr_ok_schema; eauto.
  - eapply Forall_impl; [exact Hpr|]. intros e. by apply expr_ok_schema.
Qed.

Lemma resolve_literal_typed lit dt x :
  resolve_literal lit dt = Ok x ->
  exists v, x = E_ResolvedLiteral v dt /\ has_type dt v.
Proof.
  unfold resolve_literal. intros Hr.
  destruct dt, lit as [raw|]; try done;
    match type of Hr with match ?p with _ => _ end = _ => destruct p eqn:E; [|done] end;
    injection Hr as <-; eexists; (split; [reflexivity|]); constructor;
    by apply parse_int_bounds in E.
Qed.

Lemma resolve_two_literals_ok input spec l r x y :
  resolve_two_literals l r = Ok (x, y) ->
  expr_ok input spec x /\ expr_ok input spec y /\
  is_ok (get_type x) = true /\ is_ok (get_type y) = true.
Proof.
  unfold resolve_two_literals. intros Hr.
  crush_match_in Hr; split_and!; try done; constructor.
Qed.

Lemma resolve_operands_ok input spec l r x y :
  expr_ok input spec l -> expr_ok input spec r -> resolve_operands l r = Ok (x, y) ->
  expr_ok input spec x /\ expr_ok input spec y /\
  is_ok (get_type x) = true /\ is_ok (get_type y) = true.
Proof.
  unfold resolve_operands. intros Hl Hr Hxy.
  destruct (get_type l) as [lt|ll] eqn:El, (get_type r) as [rt|rl] eqn:Er.
  - simplify_eq. by rewrite El, Er.
  - destruct (resolve_literal rl lt) eqn:E; simplify_eq.
    apply resolve_literal_typed in E as (v & -> & Hv). by rewrite El.
  - destruct (resolve_literal ll rt) eqn:E; simplify_eq.
    apply resolve_literal_typed in E as (v & -> & Hv). by rewrite Er.
  - destruct ll, rl; try done. by apply (resolve_two_literals_ok input spec) in Hxy.
Qed.

Lemma compile_operator_ok input spec op l r x :
  expr_ok input spec l -> expr_ok input spec r ->
  is_ok (get_type l) = true -> is_ok (get_type r) = true ->
  compile_operator op l r = Ok x -> expr_ok input spec x.
Proof.
  unfold compile_operator. intros Hl Hr Tl Tr Hx.
  destruct op; simpl in Hx; crush_match_in Hx; simplify_eq/=; rewrite ?E, ?E0;
    split_and!; try done; intros [? | ?]; done.
Qed.

Lemma compile_expr_ok e input spec x spec' :
  compile_expr e input spec = Ok (x, spec') -> spec ⊆ spec' /\ expr_ok input spec' x.
Proof.
  revert spec x spec'.
  induction e as [v|n|ns|l IHl op r IHr|e IH|op e IH|e IH neg low IHl high IHh|];
    intros spec x spec' Hc; simpl in Hc.
  - destruct v; simplify_eq; split; try done; constructor.
  - destruct (input n) eqn:E; simplify_eq. split; [set_solver|]. split; [done|set_solver].
  - destruct (input _) eqn:E; simplify_eq. split; [set_solver|]. split; [done|set_solver].
  - destruct (compile_expr l input spec) as [[lx ls]|] eqn:El; [|done].
    destruct (compile_expr r input ls) as [[rx rs]|] eqn:Er; [|done].
    destruct (resolve_operands lx rx) as [[ly ry]|] eqn:Ex; [|done].
    destruct (compile_operator op ly ry) eqn:Eo; simplify_eq.
    apply IHl in El as [Hsl Hl]. apply IHr in Er as [Hsr Hr].
    apply (expr_ok_mono _ _ _ _ Hsr) in Hl.
    destruct (resolve_operands_ok input spec' lx rx ly ry) as (? & ? & ? & ?); try done.
    split; [by etrans|]. by apply (compile_operator_ok _ _ op ly ry).
  - by apply IH.
  - destruct op; [|done]. destruct (compile_expr e input spec) as [[ex es]|] eqn:E; simplify_eq.
    apply (IH _ _ _ E).
  - destruct (compile_expr e input spec) as [[ex es]|] eqn:Ee; [|done].
    destruct (compile_expr low input es) as [[lx ls]|] eqn:El; [|done].
    destruct (compile_expr high input ls) as [[hx hs]|] eqn:Eh; simplify_eq.
    apply IH in Ee as [Hs1 He]. apply IHl in El as [Hs2 Hl]. apply IHh in Eh as [Hs3 Hh].
    split; [by do 2 etrans|]. simpl. split_and!; try done.
    + apply (expr_ok_mono _ _ _ _ (transitivity Hs2 Hs3) He).
    + apply (expr_ok_mono _ _ _ _ Hs3 Hl).
  - done.
Qed.

Lemma compile_projection_ok items input q q' :
  compile_projection items input q = Ok q' -> query_ok input q -> query_ok input q'.
Proof.
  revert q. induction items as [|c items IH]; intros q; simpl; [by intros [= <-]|].
  assert (forall x spec, input_spec q ⊆ spec -> expr_ok input spec x -> query_ok input q ->
    query_ok input {| selection := selection q; projection := projection q ++ [x]; input_spec := spec |})
    as Hpush.
  { intros x spec Hs Hx [Hsel Hpr]. split; simpl.
    - intros c0 Hc. eapply expr_ok_mono; eauto.
    - apply Forall_app. split; [|by constructor].
      eapply Forall_impl; [exact Hpr|]. intros. by eapply expr_ok_mono. }
  destruct c as [e|e alias|]; [| |done]; destruct (compile_expr e input (input_spec q)) as [[x spec]|] eqn:E;
    try done; apply compile_expr_ok in E as [Hs Hx]; intros Hc Hq; eapply IH; eauto.
Qed.

Lemma compile_ast_ok ast input q : compile_ast ast input = Ok q -> query_ok input q.
Proof.
  unfold compile_ast. destruct (head ast) as [[[sel|]|]|]; try done.
  destruct (compile_selection _ _ _) as [q0|] eqn:E; [|done].
  intros Hc. apply (compile_projection_ok _ _ _ _ Hc).
  unfold compile_selection in E. destruct (sel_selection sel) as [e|]; simplify_eq; [|done].
  destruct (compile_expr e input _) as [[x spec]|] eqn:Ee; [|done].
  apply compile_expr_ok in Ee as [_ Hx].
  crush_match_in E; (split; simpl; [by intros ? [= <-] | constructor]).
Qed.

Lemma compile_ok `{SqlParser} sql input q : compile sql input = Ok q -> query_ok input q.
Proof. unfold compile. destruct (parse_sql sql); [apply compile_ast_ok | done]. Qed.

Lemma execute_expr_agree input spec e in1 in2 :
  expr_ok input spec e -> (forall name, name ∈ spec -> in1 name = in2 name) ->
  execute_expr e in1 = execute_expr e in2.
Proof.
  intros He Hin. induction e; simpl in *; destruct_and?; try done.
  - by rewrite Hin.
  - by apply IHe.
  - by rewrite IHe1, IHe2.
  - by rewrite IHe.
  - by rewrite IHe1, IHe2, IHe3.
Qed.

Lemma execute_projection_agree input spec l index in1 in2 :
  Forall (expr_ok input spec) l -> (forall name, name ∈ spec -> in1 name = in2 name) ->
  execute_projection index l in1 = execute_projection index l in2.
Proof.
  intros Hl Hin. revert index. induction Hl as [|e l He _ IH]; intros index; simpl; [done|].
  by rewrite (execute_expr_agree input spec e in1 in2), IH.
Qed.

Lemma execute_agree input q in1 in2 :
  query_ok input q -> (forall name, name ∈ input_spec q -> in1 name = in2 name) ->
  execute q in1 = execute q in2.
Proof.
  intros [Hsel Hpr] Hin. unfold execute.
  rewrite (execute_projection_agree input (input_spec q) (projection q) 0 in1 in2) by done.
  destruct (selection q) as [c|]; [|done].
  by rewrite (execute_expr_agree input (input_spec q) c in1 in2) by auto.
Qed.

(** A comparison never panics and yields a boolean. *)
Lemma bool_result_cases r :
  (exists b, bool_result r = Ok (DV_Bool b)) \/ bool_result r = Err EX_CastError.
Proof. destruct r; simpl; eauto. Qed.

Lemma binary_operation_cases l op r :
  (exists b, execute_binary_operation l op r = Ok (DV_Bool b)) \/
  execute_binary_operation l op r = Err EX_TypeError \/
  execute_binary_operation l op r = Err EX_CastError \/
  (exists err, (l = Err err \/ r = Err err) /\ execute_binary_operation l op r = Err err).
Proof.
  unfold execute_binary_operation. destruct l as [x|el]; [|by eauto 10].
  destruct r as [y|er]; [|by eauto 10].
  destruct op;
    try (edestruct bool_result_cases as [[b ->] | ->]; by eauto 10);
    repeat case_match; try (by eauto 10);
    edestruct bool_result_cases as [[b ->] | ->]; by eauto 10.
Qed.

Lemma between_operation_cases e neg l h :
  (exists b, execute_between_operation e neg l h = Ok (DV_Bool b)) \/
  execute_between_operation e neg l h = Err EX_TypeError \/
  execute_between_operation e neg l h = Err EX_CastError \/
  (exists err, (e = Err err \/ l = Err err \/ h = Err err) /\
     execute_between_operation e neg l h = Err err).
Proof.
  unfold execute_between_operation.
  destruct (binary_operation_cases e Op_Ge l) as [[b ->] | [-> | [-> | (err & [? | ?] & ->)]]];
    [|by eauto 10..].
  destruct (binary_operation_cases e Op_Le h) as [[b' Eh] | [Eh | [Eh | (err & [? | ?] & Eh)]]];
    rewrite Eh; destruct b, neg; simpl; try destruct b'; by eauto 10.
Qed.

Lemma execute_expr_no_panic input spec e values :
  expr_ok input spec e -> execute_expr e values <> Err EX_Panic.
Proof.
  intros He. induction e as [| | | | |l IHl op r IHr|e IH []|e IH neg lo IHl hi IHh];
    simpl in *; destruct_and?; try done.
  - auto.
  - destruct (binary_operation_cases (execute_expr l values) op (execute_expr r values))
      as [[b ->] | [-> | [-> | (err & [? | ?] & ->)]]]; try done; intros [= ->]; intuition.
  - specialize (IH He). destruct (execute_expr e values) as [[]|]; simpl; congruence.
  - destruct (between_operation_cases (execute_expr e values) neg (execute_expr lo values)
      (execute_expr hi values)) as [[b ->] | [-> | [-> | (err & [? | [? | ?]] & ->)]]];
      try done; intros [= ->]; intuition.
Qed.

Lemma execute_projection_no_panic input spec l index values :
  Forall (expr_ok input spec) l -> execute_projection index l values <> Err EX_Panic.
Proof.
  intros Hl. revert index. induction Hl as [|e l He _ IH]; intros index; simpl; [done|].
  pose proof (execute_expr_no_panic input spec e values He).
  specialize (IH (S index)).
  destruct (execute_expr e values), (execute_projection (S index) l values); congruence.
Qed.

Lemma execute_expr_typed input spec e values v dt :
  expr_ok input spec e -> input_typed input spec values ->
  execute_expr e values = Ok v -> get_type e = Ok dt -> value_typed dt v.
Proof.
  intros He Hin. revert v dt.
  induction e as [| | | | |l IHl op r IHr|e IH []|e IH neg lo IHl hi IHh];
    intros v dt Hv Ht; simpl in *; destruct_and?; try done.
  - simplify_eq. by apply Hin.
  - eauto.
  - simplify_eq. by right.
  - injection Ht as <-. right.
    destruct (binary_operation_cases (execute_expr l values) op (execute_expr r values))
      as [[b Eb] | [Eb | [Eb | (err & _ & Eb)]]]; rewrite Eb in Hv; simplify_eq. constructor.
  - injection Ht as <-. right. unfold execute_unary_operation in Hv. crush_match_in Hv. constructor.
  - injection Ht as <-. right.
    destruct (between_operation_cases (execute_expr e values) neg (execute_expr lo values)
      (execute_expr hi values)) as [[b Eb] | [Eb | [Eb | (err & _ & Eb)]]];
      rewrite Eb in Hv; simplify_eq. constructor.
Qed.

Lemma execute_expr_has_type e values v :
  execute_expr e values = Ok v -> exists dt, get_type e = Ok dt.
Proof. revert v. induction e as [| | | | | |? ? []|]; intros v; simpl; eauto; done. Qed.

(** ** Theorems *)

(** [input_spec] is complete: a compiled query, executed on two inputs that
    agree on the datapoints listed there, gives the same answer, so it is
    enough to re-run a query when one of them changes. *)
Theorem input_spec_complete `{SqlParser} sql input q in1 in2 :
  compile sql input = Ok q ->
  (forall name, name ∈ input_spec q -> in1 name = in2 name) ->
  execute q in1 = execute q in2.
Proof.
  intros Hq%compile_ok. by apply (execute_agree input).
Qed.

(** A compiled query never reaches the unimplemented cast of the executor:
    executing it cannot panic, whatever the values. *)
Theorem execute_no_panic `{SqlParser} sql input q values :
  compile sql input = Ok q -> execute q values <> Err EX_Panic.
Proof.
  intros [Hsel Hpr]%compile_ok. unfold execute.
  pose proof (execute_projection_no_panic _ _ _ 0%nat values Hpr) as Hp.
  destruct (selection q) as [c|].
  - pose proof (execute_expr_no_panic _ _ c values (Hsel c eq_refl)) as Hc.
    destruct (execute_expr c values) as [[| [] | | | | | | | | | | | | | | |]|]; try congruence.
    by destruct (execute_projection 0 (projection q) values); try congruence.
  - by destruct (execute_projection 0 (projection q) values); try congruence.
Qed.

(** The rows of a response: one field per projected expression, with its name
    and a value of its type. *)
Definition row_typed (index : nat) (e : Expr) (field : string * DataValue) : Prop :=
  fst field = field_name index e /\
  exists dt, get_type e = Ok dt /\ value_typed dt (snd field).

Lemma execute_projection_typed input spec l index values fields :
  Forall (expr_ok input spec) l -> input_typed input spec values ->
  execute_projection index l values = Ok fields ->
  length fields = length l /\
  forall k e f, l !! k = Some e -> fields !! k = Some f -> row_typed (index + k) e f.
Proof.
  intros Hl Hin. revert index fields.
  induction Hl as [|e l He _ IH]; intros index fields Hp; simpl in Hp; [by simplify_eq|].
  destruct (execute_expr e values) as [v|] eqn:Ev; [|done].
  destruct (execute_projection (S index) l values) as [fs|] eqn:Ef; simplify_eq.
  apply IH in Ef as [Hlen Hrow]. split; [by simpl; rewrite Hlen|].
  intros [|k] e' f; simpl; intros; simplify_eq.
  - rewrite Nat.add_0_r. split; [done|].
    destruct (execute_expr_has_type _ _ _ Ev) as [dt Ht]. exists dt. split; [done|].
    by eapply (execute_expr_typed input spec _ values).
  - rewrite Nat.add_succ_r. by apply Hrow.
Qed.

Lemma execute_typed input q values fields :
  query_ok input q -> input_typed input (input_spec q) values ->
  execute q values = Ok (Some fields) ->
  length fields = length (projection q) /\
  (forall k e f, projection q !! k = Some e -> fields !! k = Some f -> row_typed k e f) /\
  (forall c, selection q = Some c -> execute_expr c values = Ok (DV_Bool true)).
Proof.
  intros [Hsel Hpr] Hin He. unfold execute in He.
  assert ((forall c, selection q = Some c -> execute_expr c values = Ok (DV_Bool true)) /\
    execute_projection 0 (projection q) values = Ok fields) as [Hc Hp].
  { destruct (selection q) as [c|]; crush_match_in He; (split; [|done]); intros ? [= <-].
    by crush_match_in E. }
  destruct (execute_projection_typed _ _ _ _ _ _ Hpr Hin Hp) as [Hl Hrow].
  split_and!; done.
Qed.

(** C34. Type soundness: when the values supplied have the types the query was
    compiled against, a response has one field per projected expression, in
    order, each under its name (datapoint path, alias or [field_<index>]) and
    with a value of the type the compiler computed; and the condition, if any,
    was true. *)
Theorem execute_type_sound `{SqlParser} sql input q values fields :
  compile sql input = Ok q -> input_typed input (input_spec q) values ->
  execute q values = Ok (Some fields) ->
  length fields = length (projection q) /\
  (forall k e f, projection q !! k = Some e -> fields !! k = Some f -> row_typed k e f) /\
  (forall c, selection q = Some c -> execute_expr c values = Ok (DV_Bool true)).
Proof. intros Hq%compile_ok. by apply (execute_typed input). Qed.

(** The integer types and the carrier each literal of that type gets. *)
Definition int_literal (dt : DataType) : option (IntTy * (Z -> DataValue)) :=
  match dt with
  | DT_Int8 => Some (i8, DV_Int32) | DT_Int16 => Some (i16, DV_Int32)
  | DT_Int32 => Some (i32, DV_Int32) | DT_Int64 => Some (i64, DV_Int64)
  | DT_Uint8 => Some (u8, DV_Uint32) | DT_Uint16 => Some (u16, DV_Uint32)
  | DT_Uint32 => Some (u32, DV_Uint32) | DT_Uint64 => Some (u64, DV_Uint64)
  | _ => None
  end.

(** The meaning of the six comparison operators on integers. *)
Definition int_comparison (op : SqlBinaryOperator) : option (Z -> Z -> bool) :=
  match op with
  | BO_Gt => Some Z.gtb | BO_GtEq => Some Z.geb | BO_Lt => Some Z.ltb | BO_LtEq => Some Z.leb
  | BO_Eq => Some Z.eqb | BO_NotEq => Some (fun x y => negb (x =? y))
  | _ => None
  end.

Lemma resolve_int_literal dt ty inj raw z :
  int_literal dt = Some (ty, inj) -> parse_int ty raw = Some z ->
  resolve_literal (UL_Number raw) dt = Ok (E_ResolvedLiteral (inj z) dt).
Proof. intros Hd Hp. destruct dt; simplify_eq/=; by rewrite Hp. Qed.

(** [>=] and [<=] are computed as strict comparison or equality. *)
Lemma gt_or_eq {E} x y :
  (if y <? x then Ok (DV_Bool (y <? x)) else Ok (DV_Bool (x =? y)))
  = @Ok _ E (DV_Bool (y <=? x)).
Proof.
  destruct (y <? x) eqn:E1; bool_hyps; do 2 f_equal; symmetry; [apply Z.leb_le; lia|].
  destruct (x =? y) eqn:E2; bool_hyps; [apply Z.leb_le | apply Z.leb_gt]; lia.
Qed.

Lemma lt_or_eq {E} x y :
  (if x <? y then Ok (DV_Bool (x <? y)) else Ok (DV_Bool (x =? y)))
  = @Ok _ E (DV_Bool (x <=? y)).
Proof. rewrite (Z.eqb_sym x y). apply gt_or_eq. Qed.

Lemma execute_int_comparison dt ty inj op rop cmp x y l r :
  int_literal dt = Some (ty, inj) -> int_comparison op = Some cmp ->
  compile_operator op l r = Ok (E_BinaryOperation l rop r) ->
  execute_binary_operation (Ok (inj x)) rop (Ok (inj y)) = Ok (DV_Bool (cmp x y)).
Proof.
  intros Hd Hc Ho. destruct op; simplify_eq/=; destruct dt; simplify_eq/=;
    rewrite ?Z.gtb_ltb, ?Z.geb_leb, ?lt_or_eq, ?gt_or_eq; done.
Qed.

Lemma int_comparison_compiles op cmp l r :
  int_comparison op = Some cmp ->
  exists rop, compile_operator op l r = Ok (E_BinaryOperation l rop r).
Proof. destruct op; simpl; try done; eauto. Qed.

(** A condition that compares an integer signal of any width with a number
    compiles when the number fits the signal's type, and executing it compares
    the two integers: [>], [>=], [<], [<=], [=] and [!=] mean what they say. *)
Theorem compare_with_literal input name dt ty inj op cmp raw y spec x values :
  input name = Ok dt -> int_literal dt = Some (ty, inj) -> parse_int ty raw = Some y ->
  int_comparison op = Some cmp -> values name = inj x ->
  exists e, compile_expr (SE_BinaryOp (SE_Identifier name) op (SE_Value (SV_Number raw))) input spec
            = Ok (e, {[ name ]} ∪ spec) /\
    execute_expr e values = Ok (DV_Bool (cmp x y)).
Proof.
  intros Hn Hd Hp Hop Hv. simpl. rewrite Hn. unfold resolve_operands. simpl.
  rewrite (resolve_int_literal dt ty inj raw y Hd Hp).
  destruct (int_comparison_compiles op cmp (E_Datapoint name dt)
    (E_ResolvedLiteral (inj y) dt) Hop) as [rop Ho].
  rewrite Ho. eexists. split; [reflexivity|]. cbn [execute_expr]. rewrite Hv.
  by apply (execute_int_comparison dt ty inj op rop cmp x y _ _ Hd Hop Ho).
Qed.

(** Literals do not resolve inside BETWEEN. *)
Lemma between_literal_error values e neg raw_low high :
  exists err, execute_expr (E_Between e neg (E_UnresolvedLiteral raw_low) high) values = Err err.
Proof.
  simpl. unfold execute_between_operation, execute_binary_operation.
  destruct (execute_expr e values); eauto.
Qed.

(** BETWEEN with a number as its lower bound compiles, and then fails on
    every execution: the compiler resolves number literals in binary
    operations only, so the query never produces a response. *)
Theorem between_literal_never_executes input spec e neg raw_low high x spec' values :
  compile_expr (SE_Between e neg (SE_Value (SV_Number raw_low)) high) input spec = Ok (x, spec') ->
  exists err, execute_expr x values = Err err.
Proof.
  simpl. intros Hc. crush_match_in Hc. apply (between_literal_error values _ neg raw_low).
Qed.

Lemma ge_integers a b x y :
  dv_wf a = true -> dv_wf b = true -> int_value a = Some x -> int_value b = Some y ->
  execute_binary_operation (Ok a) Op_Ge (Ok b) = Ok (DV_Bool (y <=? x)) /\
  execute_binary_operation (Ok a) Op_Le (Ok b) = Ok (DV_Bool (x <=? y)).
Proof.
  intros Ha Hb Hx Hy. destruct (compare_ints a b x y) as (Hg & Hl & He); try done.
  simpl. rewrite Hg, Hl, He. simpl. by rewrite Z.gtb_ltb, gt_or_eq, lt_or_eq.
Qed.

(** BETWEEN on integers of any widths is the closed interval; but NOT
    BETWEEN asks for a value that is below the lower and above the upper bound
    at once, so it is false for every value of every non-empty interval. *)
Theorem between_integers a l h x low high :
  dv_wf a = true -> dv_wf l = true -> dv_wf h = true ->
  int_value a = Some x -> int_value l = Some low -> int_value h = Some high ->
  execute_between_operation (Ok a) false (Ok l) (Ok h)
    = Ok (DV_Bool ((low <=? x) && (x <=? high))) /\
  (low <= high -> execute_between_operation (Ok a) true (Ok l) (Ok h) = Ok (DV_Bool false)).
Proof.
  intros Ha Hl Hh Hx Hlo Hhi. unfold execute_between_operation.
  rewrite (proj1 (ge_integers a l x low Ha Hl Hx Hlo)), (proj2 (ge_integers a h x high Ha Hh Hx Hhi)).
  split; [by destruct (low <=? x), (x <=? high)|]. intros Hle.
  destruct (low <=? x) eqn:E1, (x <=? high) eqn:E2; simpl; try done. bool_hyps. lia.
Qed.

(** ** Witnesses *)

(** A parser that knows one query. *)
Definition speeding_sql : string := "SELECT Vehicle.Speed AS speed WHERE Vehicle.Speed > 100".

Definition speeding_ast : list Statement :=
  [ST_Query (SX_Select
    {| sel_projection := [SI_ExprWithAlias (SE_CompoundIdentifier ["Vehicle"; "Speed"]) "speed"];
       sel_selection := Some (SE_BinaryOp (SE_CompoundIdentifier ["Vehicle"; "Speed"]) BO_Gt
                                          (SE_Value (SV_Number "100"))) |})].

Definition one_query_parser : SqlParser :=
  {| parse_sql := fun sql => if String.eqb sql speeding_sql then Ok speeding_ast else Err tt |}.

Definition speed_schema : CompilationInput := schema_input {[ "Vehicle.Speed" := DT_Uint8 ]}.

Definition speeding : CompiledQuery :=
  {| selection := Some (E_BinaryOperation (E_Datapoint "Vehicle.Speed" DT_Uint8) Op_Gt
                          (E_ResolvedLiteral (DV_Uint32 100) DT_Uint8));
     projection := [E_Alias (E_Datapoint "Vehicle.Speed" DT_Uint8) "speed"];
     input_spec := {[ "Vehicle.Speed" ]} |}.

Definition speed_is (z : Z) : ExecutionInput := fields_input {[ "Vehicle.Speed" := DV_Uint32 z ]}.

Lemma speeding_compiles : @compile one_query_parser speeding_sql speed_schema = Ok speeding.
Proof. vm_compute. reflexivity. Qed.

Lemma input_spec_complete_witness :
  execute speeding (speed_is 120)
  = execute speeding (fields_input {[ "Vehicle.Speed" := DV_Uint32 120; "Vehicle.Gear" := DV_Int32 3 ]}).
Proof.
  apply (@input_spec_complete one_query_parser speeding_sql speed_schema); [apply speeding_compiles|].
  intros name Hn. simpl in Hn. apply elem_of_singleton in Hn as ->. vm_compute. reflexivity.
Defined.

Lemma execute_no_panic_witness : execute speeding (speed_is 7) <> Err EX_Panic.
Proof.
  apply (@execute_no_panic one_query_parser speeding_sql speed_schema), speeding_compiles.
Defined.

Lemma execute_type_sound_witness :
  row_typed 0 (E_Alias (E_Datapoint "Vehicle.Speed" DT_Uint8) "speed") ("speed", DV_Uint32 120).
Proof.
  eapply (@execute_type_sound one_query_parser speeding_sql speed_schema speeding (speed_is 120)).
  - apply speeding_compiles.
  - intros name dt Hn. simpl in Hn. apply elem_of_singleton in Hn as ->. intros Hdt.
    vm_compute in Hdt. injection Hdt as <-. right. vm_compute. apply ht_Uint8. simpl. lia.
  - vm_compute. reflexivity.
  - reflexivity.
  - reflexivity.
Defined.

Lemma compare_with_literal_witness :
  exists e, compile_expr (SE_BinaryOp (SE_Identifier "Vehicle.Speed") BO_GtEq (SE_Value (SV_Number "100")))
              speed_schema ∅ = Ok (e, {[ "Vehicle.Speed" ]} ∪ ∅) /\
    execute_expr e (speed_is 100) = Ok (DV_Bool (100 >=? 100)).
Proof.
  apply (compare_with_literal speed_schema "Vehicle.Speed" DT_Uint8 u8 DV_Uint32 BO_GtEq Z.geb
           "100" 100 ∅ 100 (speed_is 100)); vm_compute; reflexivity.
Defined.

Lemma between_literal_never_executes_witness :
  exists err, execute_expr
    (E_Between (E_Datapoint "Vehicle.Speed" DT_Uint8) false (E_UnresolvedLiteral "1") (E_UnresolvedLiteral "9"))
    (speed_is 5) = Err err.
Proof.
  eapply (between_literal_never_executes speed_schema ∅ (SE_Identifier "Vehicle.Speed") false
    "1" (SE_Value (SV_Number "9"))).
  vm_compute. reflexivity.
Defined.

Lemma between_integers_witness :
  execute_between_operation (Ok (DV_Uint32 50)) true (Ok (DV_Int64 10)) (Ok (DV_Int64 20))
  = Ok (DV_Bool false).
Proof.
  refine (proj2 (between_integers (DV_Uint32 50) (DV_Int64 10) (DV_Int64 20) 50 10 20
    _ _ _ _ _ _) _); [reflexivity..|lia].
Defined.
