(* ===== verification/Broker.v ===== *)
(** * Broker: subscriptions, notification and the operations of clients

    src/kuksa_databroker/databroker/src/broker.rs: [Subscriptions],
    [ChangeSubscription], [QuerySubscription], [AuthorizedAccess] and
    [DataBroker].  An [mpsc] channel is an index into a store shared by the
    sender (in the subscription) and the receiver (the client's stream); the
    store keeps every message sent and whether the receiver is gone.  The
    operations here run to their end, so a [send] completes; [Locks] cuts them at
    every [await] and gives the channels their capacity.  The functions that
    take the two locks one after the other are split at that point, so that the
    step relation of [System] can interleave them. *)

From S2P Require Import Prelude Types Regex Glob Permissions Entry Database Query.

(** ** Channels *)

Record Channel (A : Type) := { sent : list A; closed : bool }.
Arguments sent {A} _.
Arguments closed {A} _.
Arguments Build_Channel {A} _ _.

(** A [Sender] or a [Receiver]: the index of its channel. *)
Abbreviation ChanId := nat.

(** [mpsc::channel]: a new channel at the end of the store. *)
Definition channel {A} (store : list (Channel A)) : ChanId * list (Channel A) :=
  (length store, store ++ [Build_Channel [] false]).

(** [Sender::send]: fails when the receiver is gone. *)
Definition send {A} (store : list (Channel A)) (c : ChanId) (message : A)
  : result unit unit * list (Channel A) :=
  match store !! c with
  | Some ch => if closed ch then (Err tt, store)
               else (Ok tt, <[c := Build_Channel (sent ch ++ [message]) false]> store)
  | None => (Err tt, store)
  end.

(** [Sender::is_closed]. *)
Definition is_closed {A} (store : list (Channel A)) (c : ChanId) : bool :=
  match store !! c with Some ch => closed ch | None => true end.

(** The receiver is dropped. *)
Definition drop_receiver {A} (store : list (Channel A)) (c : ChanId) : list (Channel A) :=
  match store !! c with
  | Some ch => <[c := Build_Channel (sent ch) true]> store
  | None => store
  end.

(** ** Data *)

Record QueryField := { qf_name : string; qf_value : DataValue }.
Record QueryResponse := { qr_fields : list QueryField }.

Record ChangeNotification := { cn_update : EntryUpdate; cn_fields : gset Field }.
Record EntryUpdates := { updates : list ChangeNotification }.

Inductive NotificationError := NotificationErr.
Inductive QueryError := QE_CompilationError (e : CompilationError) | QE_InternalError.
Inductive SubscriptionError := SE_NotFound | SE_InvalidInput | SE_InternalError.

(** The [changed] argument of [notify]. *)
Abbreviation Changes := (gmap Z (gset Field)).

Section Broker.
Context `{RegexEngine} `{HashOrder} `{SqlParser}.

Record ChangeSubscription := {
  cs_entries : gmap Z (gset Field);
  cs_sender : ChanId;
  cs_permissions : Permissions
}.

Record QuerySubscription := {
  qs_query : CompiledQuery;
  qs_sender : ChanId;
  qs_permissions : Permissions
}.

Record Subscriptions := {
  query_subscriptions : list QuerySubscription;
  change_subscriptions : list ChangeSubscription
}.

(** The stores of the channels of change and of query subscriptions. *)
Record Channels := {
  change_channels : list (Channel EntryUpdates);
  query_channels : list (Channel QueryResponse)
}.

(** [DataBroker], with the channels its clients listen on; [shutdown_trigger]
    counts the messages broadcast on it. *)
Record DataBroker := {
  database : Database;
  subscriptions : Subscriptions;
  channels : Channels;
  version : string;
  shutdown_trigger : nat
}.

(** ** ChangeSubscription::notify *)

(** [!fields.is_disjoint(changed_fields)]. *)
Definition overlaps (fields changed_fields : gset Field) : bool :=
  negb (bool_decide (fields ## changed_fields)).

(** One notification of the [Some(changed)] branch. *)
Definition changed_notification (entry : Entry) (fields changed_fields : gset Field)
  : ChangeNotification :=
  let update := with_path EntryUpdate_default (Some (path (metadata entry))) in
  let '(update, notify_fields) :=
    if bool_decide (F_Datapoint ∈ changed_fields) && bool_decide (F_Datapoint ∈ fields)
    then (with_datapoint update (Some (datapoint entry)), {[ F_Datapoint ]})
    else (update, ∅) in
  let '(update, notify_fields) :=
    if bool_decide (F_ActuatorTarget ∈ changed_fields) && bool_decide (F_ActuatorTarget ∈ fields)
    then (with_actuator_target update (Some (actuator_target entry)),
          {[ F_ActuatorTarget ]} ∪ notify_fields)
    else (update, notify_fields) in
  (* fill unit field always *)
  {| cn_update := with_unit update (unit_ (metadata entry)); cn_fields := notify_fields |}.

(** The loop that collects the notifications of the [Some(changed)] branch. *)
Definition collect_changed (self : ChangeSubscription) (changed : list (Z * gset Field))
  (db : Database) (now : SystemTime) : list ChangeNotification :=
  omap (fun '(i, changed_fields) =>
    match cs_entries self !! i with
    | Some fields =>
        if overlaps fields changed_fields then
          match get_entry_by_id db (cs_permissions self) now i with
          | Ok entry => Some (changed_notification entry fields changed_fields)
          | Err _ => None
          end
        else None
    | None => None
    end) changed.

(** One notification of the [None] branch (the initial one). *)
Definition initial_notification (entry : Entry) (fields : gset Field) : ChangeNotification :=
  let update := with_path EntryUpdate_default (Some (path (metadata entry))) in
  let '(update, notify_fields) :=
    if bool_decide (F_Datapoint ∈ fields)
    then (with_datapoint update (Some (datapoint entry)), {[ F_Datapoint ]})
    else (update, ∅) in
  let '(update, notify_fields) :=
    if bool_decide (F_ActuatorTarget ∈ fields)
    then (with_actuator_target update (Some (actuator_target entry)),
          {[ F_ActuatorTarget ]} ∪ notify_fields)
    else (update, notify_fields) in
  {| cn_update := update; cn_fields := notify_fields |}.

Definition collect_initial (self : ChangeSubscription) (db : Database) (now : SystemTime)
  : list ChangeNotification :=
  omap (fun '(i, fields) =>
    match get_entry_by_id db (cs_permissions self) now i with
    | Ok entry => Some (initial_notification entry fields)
    | Err _ => None
    end) (hash_order (map_to_list (cs_entries self))).

(** [send], with its error as a [NotificationError]. *)
Definition send_notification {A} (store : list (Channel A)) (c : ChanId) (message : A)
  : result unit NotificationError * list (Channel A) :=
  match send store c message with
  | (Ok _, store) => (Ok tt, store)
  | (Err _, store) => (Err NotificationErr, store)
  end.

(** [ChangeSubscription::notify]. *)
Definition change_notify (self : ChangeSubscription) (changed : option Changes) (db : Database)
  (now : SystemTime) (store : list (Channel EntryUpdates))
  : result unit NotificationError * list (Channel EntryUpdates) :=
  match changed with
  | Some changed =>
      let changed := hash_order (map_to_list changed) in
      let matches := existsb (fun '(i, changed_fields) =>
        match cs_entries self !! i with
        | Some fields => overlaps fields changed_fields
        | None => false
        end) changed in
      if matches then
        let notifications := collect_changed self changed db now in
        match notifications with
        | [] => (Ok tt, store)
        | _ => send_notification store (cs_sender self) {| updates := notifications |}
        end
      else (Ok tt, store)
  | None => send_notification store (cs_sender self) {| updates := collect_initial self db now |}
  end.

(** ** QuerySubscription *)

(** [QuerySubscription::generate_input]. *)
Definition generate_input (self : QuerySubscription) (changed : option Changes) (db : Database)
  (now : SystemTime) : option (gmap string DataValue) :=
  let id_used_in_query :=
    match changed with
    | Some changed =>
        existsb (fun '(i, fields) =>
          match get_metadata_by_id db i with
          | Some metadata =>
              bool_decide (path metadata ∈ input_spec (qs_query self))
              && bool_decide (F_Datapoint ∈ fields)
          | None => false
          end) (hash_order (map_to_list changed))
    | None => true (* Always generate input if `changed` is None *)
    end in
  if id_used_in_query then
    Some (fold_left (fun input name =>
            match get_entry_by_path db (qs_permissions self) now name with
            | Ok entry => <[name := value (datapoint entry)]> input
            | Err _ => <[name := DV_NotAvailable]> input
            end) (hash_order (elements (input_spec (qs_query self)))) ∅)
  else None.

(** [QuerySubscription::notify]. *)
Definition query_notify (self : QuerySubscription) (changed : option Changes) (db : Database)
  (now : SystemTime) (store : list (Channel QueryResponse))
  : result unit NotificationError * list (Channel QueryResponse) :=
  match generate_input self changed db now with
  | Some input =>
      match execute (qs_query self) (fields_input input) with
      | Ok (Some fields) =>
          send_notification store (qs_sender self)
            {| qr_fields := map (fun e => {| qf_name := fst e; qf_value := snd e |}) fields |}
      | Ok None => (Ok tt, store)
      | Err _ => (Ok tt, store) (* no cleanup needed *)
      end
  | None => (Ok tt, store)
  end.

(** ** Subscriptions *)

Definition add_query_subscription (self : Subscriptions) (subscription : QuerySubscription) : Subscriptions :=
  {| query_subscriptions := query_subscriptions self ++ [subscription];
     change_subscriptions := change_subscriptions self |}.

Definition add_change_subscription (self : Subscriptions) (subscription : ChangeSubscription) : Subscriptions :=
  {| query_subscriptions := query_subscriptions self;
     change_subscriptions := change_subscriptions self ++ [subscription] |}.

(** One of the two loops of [Subscriptions::notify]: every subscription is
    notified, an error is remembered. *)
Fixpoint notify_all {S A} (notify_one : S -> list (Channel A) -> result unit NotificationError * list (Channel A))
  (subs : list S) (error : option NotificationError) (store : list (Channel A))
  : option NotificationError * list (Channel A) :=
  match subs with
  | [] => (error, store)
  | sub :: subs =>
      let '(r, store) := notify_one sub store in
      notify_all notify_one subs (match r with Ok _ => error | Err err => Some err end) store
  end.

(** [Subscriptions::notify]. *)
Definition notify (self : Subscriptions) (changed : option Changes) (db : Database)
  (now : SystemTime) (chans : Channels) : result unit NotificationError * Channels :=
  let '(error, qstore) :=
    notify_all (fun sub => query_notify sub changed db now) (query_subscriptions self) None
      (query_channels chans) in
  let '(error, cstore) :=
    notify_all (fun sub => change_notify sub changed db now) (change_subscriptions self) error
      (change_channels chans) in
  (match error with Some err => Err err | None => Ok tt end,
   {| change_channels := cstore; query_channels := qstore |}).

(** [Subscriptions::clear]. *)
Definition clear (self : Subscriptions) : Subscriptions :=
  {| query_subscriptions := []; change_subscriptions := [] |}.

(** [Subscriptions::cleanup]. *)
Definition cleanup (self : Subscriptions) (chans : Channels) : Subscriptions :=
  {| query_subscriptions :=
       List.filter (fun sub => negb (is_closed (query_channels chans) (qs_sender sub)))
         (query_subscriptions self);
     change_subscriptions :=
       List.filter (fun sub => negb (is_closed (change_channels chans) (cs_sender sub)))
         (change_subscriptions self) |}.

(** ** AuthorizedAccess *)

Definition set_database (b : DataBroker) (db : Database) : DataBroker :=
  {| database := db; subscriptions := subscriptions b; channels := channels b;
     version := version b; shutdown_trigger := shutdown_trigger b |}.
Definition set_subscriptions (b : DataBroker) (s : Subscriptions) : DataBroker :=
  {| database := database b; subscriptions := s; channels := channels b;
     version := version b; shutdown_trigger := shutdown_trigger b |}.
Definition set_channels (b : DataBroker) (c : Channels) : DataBroker :=
  {| database := database b; subscriptions := subscriptions b; channels := c;
     version := version b; shutdown_trigger := shutdown_trigger b |}.

(** [AuthorizedAccess::add_entry]. *)
Definition add_entry (b : DataBroker) (permissions : Permissions) (now : SystemTime) (name : string)
  (data_type : DataType) (change_type : ChangeType) (entry_type : EntryType)
  (description : string) (allowed : option DataValue) (unit_ : option string)
  : result Z RegistrationError * DataBroker :=
  let '(r, db) := add (database b) permissions now name data_type change_type entry_type
                    description allowed None unit_ in
  (r, set_database b db).

(** The read operations of [AuthorizedAccess], one read lock each. *)
Definition access_get_id_by_path (b : DataBroker) (name : string) : option Z :=
  id <$> Database.get_metadata_by_path (database b) name.
Definition access_get_datapoint (b : DataBroker) (permissions : Permissions) (now : SystemTime) (i : Z)
  : result Datapoint ReadError :=
  result_map datapoint (Database.get_entry_by_id (database b) permissions now i).
Definition access_get_datapoint_by_path (b : DataBroker) (permissions : Permissions) (now : SystemTime)
  (name : string) : result Datapoint ReadError :=
  result_map datapoint (Database.get_entry_by_path (database b) permissions now name).
Definition access_get_metadata (b : DataBroker) (i : Z) : option Metadata :=
  Database.get_metadata_by_id (database b) i.
Definition access_get_metadata_by_path (b : DataBroker) (p : string) : option Metadata :=
  Database.get_metadata_by_path (database b) p.
Definition access_get_entry_by_path (b : DataBroker) (permissions : Permissions) (now : SystemTime)
  (p : string) : result Entry ReadError :=
  Database.get_entry_by_path (database b) permissions now p.
Definition access_get_entry_by_id (b : DataBroker) (permissions : Permissions) (now : SystemTime)
  (i : Z) : result Entry ReadError :=
  Database.get_entry_by_id (database b) permissions now i.
Definition map_entries {T} (b : DataBroker) (permissions : Permissions) (now : SystemTime)
  (f : EntryReadAccess -> T) : list T :=
  map f (iter_entries (database b) permissions now).
Definition filter_map_entries {T} (b : DataBroker) (permissions : Permissions) (now : SystemTime)
  (f : EntryReadAccess -> option T) : list T :=
  omap f (iter_entries (database b) permissions now).
(** [for_each_entry], with the state of the [FnMut] passed along. *)
Definition for_each_entry {S} (b : DataBroker) (permissions : Permissions) (now : SystemTime)
  (f : S -> EntryReadAccess -> S) (s : S) : S :=
  fold_left f (iter_entries (database b) permissions now) s.

(** The loop of [update_entries] over the updates. *)
Fixpoint apply_updates (db : Database) (permissions : Permissions) (now : SystemTime)
  (updates : list (Z * EntryUpdate)) (changed : Changes) (errors : list (Z * UpdateError))
  : Database * Changes * list (Z * UpdateError) :=
  match updates with
  | [] => (db, changed, errors)
  | (i, u) :: updates =>
      match update db permissions now i u with
      | (Ok changed_fields, db) =>
          let changed := if bool_decide (changed_fields = ∅) then changed
                         else <[i := changed_fields]> changed in
          apply_updates db permissions now updates changed errors
      | (Err err, db) =>
          apply_updates db permissions now updates changed (errors ++ [(i, err)])
      end
  end.

(** [update_entries], the section under the database lock: apply the updates,
    downgrade the lock and notify.  The flag says that a cleanup is due. *)
Definition update_entries_locked (b : DataBroker) (permissions : Permissions) (now : SystemTime)
  (updates : list (Z * EntryUpdate)) : list (Z * UpdateError) * bool * DataBroker :=
  let '(db, changed, errors) := apply_updates (database b) permissions now updates ∅ [] in
  let '(r, chans) := notify (subscriptions b) (Some changed) db now (channels b) in
  (errors, negb (is_ok r), set_channels (set_database b db) chans).

(** The cleanup of closed subscriptions, under the subscriptions' write lock. *)
Definition cleanup_subscriptions (b : DataBroker) : DataBroker :=
  set_subscriptions b (cleanup (subscriptions b) (channels b)).

(** [AuthorizedAccess::update_entries] run without interruption. *)
Definition update_entries (b : DataBroker) (permissions : Permissions) (now : SystemTime)
  (updates : list (Z * EntryUpdate)) : result unit (list (Z * UpdateError)) * DataBroker :=
  let '(errors, cleanup_needed, b) := update_entries_locked b permissions now updates in
  let b := if (cleanup_needed : bool) then cleanup_subscriptions b else b in
  (match errors with [] => Ok tt | _ => Err errors end, b).

(** [AuthorizedAccess::subscribe] up to the release of the database lock: the
    channel is created and the initial notification sent. *)
Definition subscribe_initial (b : DataBroker) (permissions : Permissions) (now : SystemTime)
  (valid_entries : gmap Z (gset Field)) : result ChangeSubscription SubscriptionError * DataBroker :=
  if bool_decide (valid_entries = ∅) then (Err SE_InvalidInput, b) else
  let '(sender, store) := channel (change_channels (channels b)) in
  let subscription := {| cs_entries := valid_entries; cs_sender := sender; cs_permissions := permissions |} in
  (* Send everything subscribed to in an initial notification *)
  let '(_, store) := change_notify subscription None (database b) now store in
  (Ok subscription,
   set_channels b {| change_channels := store; query_channels := query_channels (channels b) |}).

(** The registration of the subscription, under the subscriptions' lock. *)
Definition subscribe_register (b : DataBroker) (subscription : ChangeSubscription) : DataBroker :=
  set_subscriptions b (add_change_subscription (subscriptions b) subscription).

(** [AuthorizedAccess::subscribe] run without interruption. *)
Definition subscribe (b : DataBroker) (permissions : Permissions) (now : SystemTime)
  (valid_entries : gmap Z (gset Field)) : result ChanId SubscriptionError * DataBroker :=
  match subscribe_initial b permissions now valid_entries with
  | (Err err, b) => (Err err, b)
  | (Ok subscription, b) => (Ok (cs_sender subscription), subscribe_register b subscription)
  end.

(** [DatabaseReadAccess] as a [CompilationInput]. *)
Definition database_input (db : Database) : CompilationInput :=
  fun p => match Database.get_metadata_by_path db p with
           | Some metadata => Ok (data_type metadata)
           | None => Err (CE_UnknownField p)
           end.

(** [AuthorizedAccess::subscribe_query]; the database lock is held to the end. *)
Definition subscribe_query (b : DataBroker) (permissions : Permissions) (now : SystemTime)
  (query : string) : result ChanId QueryError * DataBroker :=
  match compile query (database_input (database b)) with
  | Ok compiled_query =>
      let '(sender, store) := channel (query_channels (channels b)) in
      let subscription := {| qs_query := compiled_query; qs_sender := sender; qs_permissions := permissions |} in
      (* Send the initial execution of query *)
      match query_notify subscription None (database b) now store with
      | (r, store) =>
          let b := set_channels b {| change_channels := change_channels (channels b);
                                     query_channels := store |} in
          match r with
          | Ok _ => (Ok sender, set_subscriptions b (add_query_subscription (subscriptions b) subscription))
          | Err _ => (Err QE_InternalError, b)
          end
      end
  | Err e => (Err (QE_CompilationError e), b)
  end.

(** ** DataBroker *)

(** [DataBroker::new]. *)
Definition DataBroker_new (version : string) : DataBroker :=
  {| database := Database_new;
     subscriptions := {| query_subscriptions := []; change_subscriptions := [] |};
     channels := {| change_channels := []; query_channels := [] |};
     version := version; shutdown_trigger := 0 |}.

(** [DataBroker::shutdown]. *)
Definition shutdown (b : DataBroker) : DataBroker :=
  (* Drain subscriptions *)
  let b := set_subscriptions b (clear (subscriptions b)) in
  (* Signal shutdown *)
  {| database := database b; subscriptions := subscriptions b; channels := channels b;
     version := version b; shutdown_trigger := S (shutdown_trigger b) |}.
End Broker.
