(* ===== verification/BrokerTests.v ===== *)
(** * BrokerTests: the test suites of broker.rs and executor.rs

    The tests of src/kuksa_databroker/databroker/src/broker.rs and
    src/kuksa_databroker/databroker/src/query/executor.rs on the model, with the
    executable regex engine and a parser that knows the queries of the tests.  A
    test is a computation on the broker, the clock and the positions in the
    streams of its subscriptions that stops at a panic; every test passes. *)

From S2P Require Import Prelude Floats Types TypesTests Regex Glob Permissions Entry Database Query Broker.

#[local] Existing Instance glob_engine.

(** The documented result of [sqlparser] for the queries of the tests. *)
Definition select_of (projection : list SelectItem) (selection : option SqlExpr) : list Statement :=
  [ST_Query (SX_Select {| sel_projection := projection; sel_selection := selection |})].

Definition select_points (names : list string) : list Statement :=
  select_of (map (fun name => SI_UnnamedExpr (SE_CompoundIdentifier ["test"; name])) names) None.

Definition executor_sql : string := "
    SELECT
        Vehicle.Cabin.Seat.Row1.Pos1.Position,
        Vehicle.Cabin.Seat.Row1.Pos2.Position
    WHERE
        Vehicle.Datapoint1 > 50
        AND
        Vehicle.Datapoint2 = true
    ".

Definition executor_ast : list Statement :=
  select_of
    [SI_UnnamedExpr (SE_CompoundIdentifier ["Vehicle"; "Cabin"; "Seat"; "Row1"; "Pos1"; "Position"]);
     SI_UnnamedExpr (SE_CompoundIdentifier ["Vehicle"; "Cabin"; "Seat"; "Row1"; "Pos2"; "Position"])]
    (Some (SE_BinaryOp
       (SE_BinaryOp (SE_CompoundIdentifier ["Vehicle"; "Datapoint1"]) BO_Gt (SE_Value (SV_Number "50")))
       BO_And
       (SE_BinaryOp (SE_CompoundIdentifier ["Vehicle"; "Datapoint2"]) BO_Eq (SE_Value (SV_Boolean true))))).

#[local] Instance test_parser : SqlParser :=
  {| parse_sql := fun sql =>
       if String.eqb sql "SELECT test.datapoint1" then Ok (select_points ["datapoint1"])
       else if String.eqb sql "SELECT test.datapoint1, test.datapoint2"
            then Ok (select_points ["datapoint1"; "datapoint2"])
       else if String.eqb sql executor_sql then Ok executor_ast
       else Err tt |}.

(** ** Computations of tests *)

Record World := {
  broker : DataBroker;
  clock : SystemTime;
  (* the messages each stream has yielded *)
  change_position : gmap ChanId nat;
  query_position : gmap ChanId nat
}.

(** [None] is a panic, or a stream that never yields. *)
Definition T (A : Type) : Type := World -> option (A * World).

Definition ret {A} (a : A) : T A := fun w => Some (a, w).
Definition bind {A B} (x : T A) (k : A -> T B) : T B :=
  fun w => match x w with Some (a, w) => k a w | None => None end.

Declare Scope test_scope.
Delimit Scope test_scope with test.
Notation "x <-- c ; k" := (bind c (fun x => k)) (at level 100, c at next level, right associativity) : test_scope.
Notation "c ;; k" := (bind c (fun _ => k)) (at level 100, right associativity) : test_scope.
#[local] Open Scope test_scope.

(** [panic!], [assert!]. *)
Definition panic {A} : T A := fun _ => None.
Definition assert_ (b : bool) : T unit := if b then ret tt else panic.

(** [Result::expect], [Result::unwrap_err]. *)
Definition expect {A E} (r : result A E) : T A := match r with Ok a => ret a | Err _ => panic end.
Definition expect_err {A E} (r : result A E) : T E := match r with Ok _ => panic | Err e => ret e end.

(** [SystemTime::now()]: later than before. *)
Definition now_ : T SystemTime :=
  fun w => Some (clock w, {| broker := broker w; clock := clock w + 1; change_position := change_position w;
                             query_position := query_position w |}).

(** An operation on the broker, at the time it is. *)
Definition on_broker {A} (f : DataBroker -> SystemTime -> A * DataBroker) : T A :=
  fun w => let '(a, b) := f (broker w) (clock w) in
           Some (a, {| broker := b; clock := clock w; change_position := change_position w;
                       query_position := query_position w |}).

Definition reading {A} (f : DataBroker -> SystemTime -> A) : T A := on_broker (fun b now => (f b now, b)).

Definition next_message {A} (store : list (Channel A)) (c : ChanId) (position : nat) : option A :=
  match store !! c with Some ch => sent ch !! position | None => None end.

(** [stream.next().await] of a subscription, of a query. *)
Definition next (c : ChanId) : T EntryUpdates :=
  fun w =>
    let position := default O (change_position w !! c) in
    match next_message (change_channels (channels (broker w))) c position with
    | Some m => Some (m, {| broker := broker w; clock := clock w;
                            change_position := <[c := S position]> (change_position w);
                            query_position := query_position w |})
    | None => None
    end.
Definition next_response (c : ChanId) : T QueryResponse :=
  fun w =>
    let position := default O (query_position w !! c) in
    match next_message (query_channels (channels (broker w))) c position with
    | Some m => Some (m, {| broker := broker w; clock := clock w; change_position := change_position w;
                            query_position := <[c := S position]> (query_position w) |})
    | None => None
    end.

(** With [permissions::ALLOW_ALL]. *)
Definition register (name : string) (data_type : DataType) (entry_type : EntryType) (description : string)
  (allowed : option DataValue) (unit_ : option string) : T (result Z RegistrationError) :=
  on_broker (fun b now => add_entry b ALLOW_ALL now name data_type CT_OnChange entry_type description allowed unit_).
Definition update_ (updates : list (Z * EntryUpdate)) : T (result unit (list (Z * UpdateError))) :=
  on_broker (fun b now => update_entries b ALLOW_ALL now updates).
Definition get_datapoint_ (i : Z) : T (result Datapoint ReadError) :=
  reading (fun b now => access_get_datapoint b ALLOW_ALL now i).
Definition get_entry_ (i : Z) : T (result Entry ReadError) :=
  reading (fun b now => access_get_entry_by_id b ALLOW_ALL now i).
Definition subscribe_ (entries : gmap Z (gset Field)) : T (result ChanId SubscriptionError) :=
  on_broker (fun b now => subscribe b ALLOW_ALL now entries).
Definition subscribe_query_ (query : string) : T (result ChanId QueryError) :=
  on_broker (fun b now => subscribe_query b ALLOW_ALL now query).

(** A fresh broker, and no panic. *)
Definition passes (test : T unit) : bool :=
  match test {| broker := DataBroker_new ""; clock := 0; change_position := ∅; query_position := ∅ |} with
  | Some _ => true
  | None => false
  end.

(** The updates of the tests. *)
Definition set_value (ts : SystemTime) (value : DataValue) : EntryUpdate :=
  with_datapoint EntryUpdate_default (Some {| ts := ts; value := value |}).
Definition set_target (ts : SystemTime) (value : DataValue) : EntryUpdate :=
  with_actuator_target EntryUpdate_default (Some (Some {| ts := ts; value := value |})).
Definition set_allowed_to (d : option Datapoint) (allowed : option DataValue) : EntryUpdate :=
  {| u_path := None; u_datapoint := d; u_actuator_target := None; u_entry_type := None; u_data_type := None;
     u_description := None; u_allowed := Some allowed; u_unit := None |}.

Definition opt_eqb {A} (eqb : A -> A -> bool) (a b : option A) : bool :=
  match a, b with Some x, Some y => eqb x y | None, None => true | _, _ => false end.

(** The assertions on what a read gives. *)
Definition expect_value (i : Z) (v : DataValue) : T unit :=
  r <-- get_datapoint_ i; d <-- expect r; assert_ (dv_eqb (value d) v).
Definition expect_datapoint (i : Z) (time : SystemTime) (v : DataValue) : T unit :=
  r <-- get_datapoint_ i; d <-- expect r; assert_ (dv_eqb (value d) v && (ts d =? time)).
Definition expect_metadata (i : Z) (p : string) (dt : DataType) (desc : string) (al : option DataValue) : T unit :=
  r <-- get_entry_ i; e <-- expect r;
  assert_ ((id (metadata e) =? i) && String.eqb (path (metadata e)) p && bool_decide (data_type (metadata e) = dt)
         && String.eqb (description (metadata e)) desc && opt_eqb dv_eqb (allowed (metadata e)) al).
Definition expect_unit (i : Z) (u : option string) : T unit :=
  r <-- get_entry_ i; e <-- expect r; assert_ (opt_eqb String.eqb (unit_ (metadata e)) u).

(** The assertions on the fields of a response: names and values. *)
Definition expect_fields (response : QueryResponse) (expected : list (string * DataValue)) : T unit :=
  assert_ (vec_eqb (fun a b => String.eqb (fst a) (fst b) && dv_eqb (snd a) (snd b))
           (map (fun f => (qf_name f, qf_value f)) (qr_fields response)) expected).

(** The assertions on a notification with one update. *)
Definition expect_update (m : EntryUpdates) (p : string) (v : DataValue) : T unit :=
  match updates m with
  | [n] => assert_ (opt_eqb String.eqb (u_path (cn_update n)) (Some p)
                  && match u_datapoint (cn_update n) with Some d => dv_eqb (value d) v | None => false end)
  | _ => panic
  end.

(** ** Entries and values *)

Definition test_register_datapoint : bool := passes (
  r <-- register "test.datapoint1" DT_Bool ET_Sensor "Test datapoint 1" (Some (DV_BoolArray [true])) (Some "kg");
  id1 <-- expect r;
  expect_metadata id1 "test.datapoint1" DT_Bool "Test datapoint 1" (Some (DV_BoolArray [true]));;
  expect_unit id1 (Some "kg");;
  r <-- register "test.datapoint2" DT_String ET_Sensor "Test datapoint 2" None (Some "km");
  id2 <-- expect r;
  expect_metadata id2 "test.datapoint2" DT_String "Test datapoint 2" None;;
  expect_unit id2 (Some "km");;
  r <-- register "test.datapoint1" DT_Bool ET_Sensor "Test datapoint 1 (modified)" None None;
  id3 <-- expect r;
  assert_ (id3 =? id1)).

Definition test_register_invalid_type : bool := passes (
  r <-- register "test.signal3" DT_String ET_Sensor "Test signal 3" (Some (DV_Int32Array [1; 2; 3; 4])) None;
  (* everything fine, should not succed to register because allowed is Int32Array and data_type is String *)
  assert_ (negb (is_ok r))).

Definition test_get_set_datapoint : bool := passes (
  r <-- register "test.datapoint1" DT_Int32 ET_Sensor "Test datapoint 1" None None; id1 <-- expect r;
  r <-- register "test.datapoint2" DT_Bool ET_Actuator "Test datapoint 2" None None; id2 <-- expect r;
  (* Data point exists with value NotAvailable *)
  expect_value id1 DV_NotAvailable;;
  r <-- get_entry_ id2; entry <-- expect r;
  assert_ (dv_eqb (value (datapoint entry)) DV_NotAvailable && negb (is_some (actuator_target entry)));;
  time1 <-- now_;
  r <-- update_ [(id1, set_value time1 (DV_Bool true))];
  e <-- expect_err r;
  assert_ (match e with (i, UE_WrongType) :: _ => i =? id1 | _ => false end);;
  r <-- update_ [(id1, set_value time1 (DV_Int32 100))]; expect r;;
  time2 <-- now_;
  r <-- update_ [(id2, set_target time2 (DV_Bool true))]; expect r;;
  (* Data point exists with value 100 *)
  expect_datapoint id1 time1 (DV_Int32 100);;
  r <-- get_entry_ id2; entry <-- expect r;
  assert_ (match actuator_target entry with
           | Some target => dv_eqb (value target) (DV_Bool true) && (ts target =? time2)
           | None => false
           end)).

Definition test_get_set_allowed_values : bool := passes (
  r <-- register "test.datapoint1" DT_Int32 ET_Sensor "Test datapoint 1" (Some (DV_Int32Array [100])) None;
  id1 <-- expect r;
  time0 <-- now_;
  r <-- update_ [(id1, set_allowed_to (Some {| ts := time0; value := DV_Int32 1 |}) (Some (DV_Int32Array [100])))];
  (* everything fine should fail because trying to set a value which is not in allowed values *)
  assert_ (negb (is_ok r));;
  r <-- update_ [(id1, set_allowed_to None (Some (DV_BoolArray [true])))];
  (* everything fine should fail because trying to set array of type Bool does not match data_type *)
  assert_ (negb (is_ok r));;
  r <-- update_ [(id1, set_allowed_to None None)]; expect r;;
  time1 <-- now_;
  r <-- update_ [(id1, set_value time1 (DV_Int32 1))]; expect r;;
  expect_datapoint id1 time1 (DV_Int32 1)).

(** The tests of arrays differ in the type, in the values that are accepted and
    refused. *)
Definition array_test (dt : DataType) (accepted refused : list DataValue) (last : DataValue) : T unit :=
  r <-- register "Vehicle.TestArray" dt ET_Sensor "Run of the mill test array" None None; i <-- expect r;
  time <-- now_;
  fold_right (fun v k => r <-- update_ [(i, set_value time v)]; expect r;; k) (
  fold_right (fun v k => r <-- update_ [(i, set_value time v)]; assert_ (negb (is_ok r));; k) (
  expect_datapoint i time last) refused) accepted.

Definition test_bool_array : bool :=
  passes (array_test DT_BoolArray [DV_BoolArray [true; true; false; true]] []
            (DV_BoolArray [true; true; false; true])).

Definition test_string_array : bool :=
  passes (array_test DT_StringArray [DV_StringArray ["yes"; "no"; "maybe"; "nah"]] []
            (DV_StringArray ["yes"; "no"; "maybe"; "nah"])).

Definition test_string_array_allowed_values : bool := passes (
  r <-- register "Vehicle.TestArray" DT_StringArray ET_Sensor "Run of the mill test array"
          (Some (DV_StringArray ["yes"; "no"; "maybe"; "nah"])) None;
  i <-- expect r;
  time <-- now_;
  r <-- update_ [(i, set_value time (DV_StringArray ["yes"; "no"; "maybe"; "nah"]))]; expect r;;
  expect_datapoint i time (DV_StringArray ["yes"; "no"; "maybe"; "nah"]);;
  (* check if duplicate is working *)
  r <-- update_ [(i, set_value time (DV_StringArray ["yes"; "no"; "maybe"; "nah"; "yes"]))]; expect r;;
  expect_datapoint i time (DV_StringArray ["yes"; "no"; "maybe"; "nah"; "yes"]);;
  r <-- update_ [(i, set_value time (DV_StringArray ["yes"; "no"; "maybe"; "nah"; "true"]))];
  (* everything fine vlaue string(true) not in the allowed values *)
  assert_ (negb (is_ok r))).

Definition test_int8_array : bool :=
  passes (array_test DT_Int8Array [DV_Int32Array [10; 20; 30; 40]] [DV_Int32Array [100; 200; 300; 400]]
            (DV_Int32Array [10; 20; 30; 40])).

Definition test_uint8_array : bool :=
  passes (array_test DT_Uint8Array [DV_Uint32Array [10; 20; 30; 40]] [DV_Uint32Array [100; 200; 300; 400]]
            (DV_Uint32Array [10; 20; 30; 40])).

Definition test_float_array : bool :=
  let values := DV_FloatArray (map f32_lit [10; 20; 30; 40]) in
  passes (array_test DT_FloatArray [values] [] values).

Definition test_register_invalid_and_valid_path : bool := passes (
  r <-- register "test. signal:3" DT_String ET_Sensor "Test signal 3" (Some (DV_Int32Array [1; 2; 3; 4])) None;
  error <-- expect_err r;
  assert_ (match error with REG_ValidationError => true | _ => false end);;
  let name := "Vehicle._kuksa.databroker.GitVersion.Do_you_not_like_smörgåstårta.tschö_mit_ö.東京_Москва_r#true" in
  r <-- register name DT_Bool ET_Sensor "Test datapoint" (Some (DV_BoolArray [true])) None;
  i <-- expect r;
  expect_metadata i name DT_Bool "Test datapoint" (Some (DV_BoolArray [true]))).

(** The metadata of all entries can be read without permissions. *)
Definition test_metadata_for_each : bool := passes (
  r <-- register "Vehicle.Test1" DT_Bool ET_Sensor "Run of the mill test signal" None None; id1 <-- expect r;
  r <-- register "Vehicle.Test2" DT_Bool ET_Sensor "Run of the mill test signal" None None; id2 <-- expect r;
  permissions <-- expect (build PermissionBuilder_new);
  metadata <-- reading (fun b now => map_entries b permissions now era_metadata);
  assert_ (forallb (fun entry => if String.eqb (path entry) "Vehicle.Test1" then id entry =? id1
                                 else if String.eqb (path entry) "Vehicle.Test2" then id entry =? id2
                                 else false) metadata)).

(** ** Subscriptions *)

Definition test_subscribe_query_and_get : bool := passes (
  r <-- register "test.datapoint1" DT_Int32 ET_Sensor "Test datapoint 1" None None; id1 <-- expect r;
  r <-- subscribe_query_ "SELECT test.datapoint1"; stream <-- expect r;
  (* Expect an initial query response *)
  response <-- next_response stream; expect_fields response [("test.datapoint1", DV_NotAvailable)];;
  time <-- now_;
  r <-- update_ [(id1, set_value time (DV_Int32 101))]; expect r;;
  (* Value has been set, expect the next item in stream to match. *)
  response <-- next_response stream; expect_fields response [("test.datapoint1", DV_Int32 101)];;
  (* Check that the data point has been stored as well *)
  expect_value id1 (DV_Int32 101)).

(** [for i in 0..n]. *)
Fixpoint for_in (i : Z) (n : nat) (f : Z -> T unit) : T unit :=
  match n with O => ret tt | S n => f i;; for_in (i + 1) n f end.

Definition test_multi_subscribe : bool := passes (
  r <-- register "test.datapoint1" DT_Int32 ET_Sensor "Test datapoint 1" None None; id1 <-- expect r;
  r <-- subscribe_query_ "SELECT test.datapoint1"; subscription1 <-- expect r;
  r <-- subscribe_query_ "SELECT test.datapoint1"; subscription2 <-- expect r;
  response <-- next_response subscription1; expect_fields response [("test.datapoint1", DV_NotAvailable)];;
  response <-- next_response subscription2; expect_fields response [("test.datapoint1", DV_NotAvailable)];;
  for_in 0 100 (fun i =>
    time <-- now_;
    r <-- update_ [(id1, set_value time (DV_Int32 i))]; expect r;;
    response <-- next_response subscription1; expect_fields response [("test.datapoint1", DV_Int32 i)];;
    response <-- next_response subscription2; expect_fields response [("test.datapoint1", DV_Int32 i)])).

Definition test_subscribe_after_new_registration : bool := passes (
  r <-- register "test.datapoint1" DT_Int32 ET_Sensor "Test datapoint 1" None None; id1 <-- expect r;
  r <-- subscribe_query_ "SELECT test.datapoint1"; subscription <-- expect r;
  response <-- next_response subscription; expect_fields response [("test.datapoint1", DV_NotAvailable)];;
  time <-- now_;
  r <-- update_ [(id1, set_value time (DV_Int32 200))]; expect r;;
  response <-- next_response subscription; expect_fields response [("test.datapoint1", DV_Int32 200)];;
  expect_value id1 (DV_Int32 200);;
  r <-- register "test.datapoint1" DT_Int32 ET_Sensor "Test datapoint 1 (new description)" None None; id2 <-- expect r;
  (* Re-registration should result in the same id *)
  assert_ (id1 =? id2);;
  time <-- now_;
  r <-- update_ [(id1, set_value time (DV_Int32 102))]; expect r;;
  response <-- next_response subscription; expect_fields response [("test.datapoint1", DV_Int32 102)];;
  expect_value id1 (DV_Int32 102)).

Definition test_subscribe_set_multiple : bool := passes (
  r <-- register "test.datapoint1" DT_Int32 ET_Sensor "Test datapoint 1" None None; id1 <-- expect r;
  r <-- register "test.datapoint2" DT_Int32 ET_Sensor "Test datapoint 2" None None; id2 <-- expect r;
  r <-- subscribe_query_ "SELECT test.datapoint1, test.datapoint2"; subscription <-- expect r;
  response <-- next_response subscription;
  expect_fields response [("test.datapoint1", DV_NotAvailable); ("test.datapoint2", DV_NotAvailable)];;
  for_in 0 10 (fun i =>
    time1 <-- now_; time2 <-- now_;
    r <-- update_ [(id1, set_value time1 (DV_Int32 (- i))); (id2, set_value time2 (DV_Int32 i))];
    expect r);;
  for_in 0 10 (fun i =>
    response <-- next_response subscription;
    expect_fields response [("test.datapoint1", DV_Int32 (- i)); ("test.datapoint2", DV_Int32 i)])).

Definition test_subscribe_and_get : bool := passes (
  r <-- register "test.datapoint1" DT_Int32 ET_Sensor "Test datapoint 1" None None; id1 <-- expect r;
  r <-- subscribe_ {[ id1 := {[ F_Datapoint ]} ]}; stream <-- expect r;
  (* Stream should yield initial notification with current values i.e. NotAvailable *)
  m <-- next stream; expect_update m "test.datapoint1" DV_NotAvailable;;
  time <-- now_;
  r <-- update_ [(id1, set_value time (DV_Int32 101))]; expect r;;
  (* Value has been set, expect the next item in stream to match. *)
  m <-- next stream; expect_update m "test.datapoint1" (DV_Int32 101);;
  (* Check that the data point has been stored as well *)
  expect_value id1 (DV_Int32 101)).

(** ** executor.rs *)

Record TestExecutionInput := { seat_pos : Z; datapoint1 : Z; datapoint2 : bool }.

Definition execution_input (self : TestExecutionInput) : ExecutionInput := fun field =>
  if String.eqb field "Vehicle.Cabin.Seat.Row1.Pos1.Position" then DV_Int32 (seat_pos self)
  else if String.eqb field "Vehicle.Datapoint1" then DV_Int32 (datapoint1 self)
  else if String.eqb field "Vehicle.Datapoint2" then DV_Bool (datapoint2 self)
  else DV_NotAvailable.

Definition test_compilation_input : CompilationInput := fun field =>
  if String.eqb field "Vehicle.Cabin.Seat.Row1.Pos1.Position" then Ok DT_Int32
  else if String.eqb field "Vehicle.Cabin.Seat.Row1.Pos2.Position" then Ok DT_Int32
  else if String.eqb field "Vehicle.Datapoint1" then Ok DT_Int32
  else if String.eqb field "Vehicle.Datapoint2" then Ok DT_Bool
  else if String.eqb field "Vehicle.ADAS.ABS.IsActive" then Ok DT_Bool
  else Err (CE_UnknownField field).

Definition executor_test : bool :=
  match compile executor_sql test_compilation_input with
  | Ok compiled_query =>
      forallb (fun p => bool_decide (p ∈ input_spec compiled_query))
        ["Vehicle.Cabin.Seat.Row1.Pos1.Position"; "Vehicle.Cabin.Seat.Row1.Pos2.Position";
         "Vehicle.Datapoint1"; "Vehicle.Datapoint2"]
      && match execute compiled_query
                 (execution_input {| seat_pos := 230; datapoint1 := 61; datapoint2 := true |}) with
         | Ok (Some fields) =>
             vec_eqb (fun a b => String.eqb (fst a) (fst b) && dv_eqb (snd a) (snd b)) fields
               [("Vehicle.Cabin.Seat.Row1.Pos1.Position", DV_Int32 230);
                ("Vehicle.Cabin.Seat.Row1.Pos2.Position", DV_NotAvailable)]
         | _ => false
         end
      && match execute compiled_query
                 (execution_input {| seat_pos := 230; datapoint1 := 40 (* Condition not met *); datapoint2 := true |}) with
         | Ok None => true
         | _ => false
         end
  | Err _ => false
  end.

Definition broker_tests : list bool := [
  test_register_datapoint; test_register_invalid_type; test_get_set_datapoint; test_get_set_allowed_values;
  test_subscribe_query_and_get; test_multi_subscribe; test_subscribe_after_new_registration;
  test_subscribe_set_multiple; test_bool_array; test_string_array; test_string_array_allowed_values;
  test_int8_array; test_uint8_array; test_float_array; test_subscribe_and_get; test_metadata_for_each;
  test_register_invalid_and_valid_path; executor_test
].

Theorem broker_tests_pass : forallb Datatypes.id broker_tests = true.
Proof. vm_compute. reflexivity. Qed.
