(* ===== verification/Delivery.v ===== *)
(** * Delivery: what subscribers see

    Theorems on the operations of [Broker]: the content of change
    notifications, the independence of the updates of a batch, freshness of a
    subscriber's view, and non-interference of what a token may not read. *)

From S2P Require Import Prelude Types Regex Glob Permissions Entry Database Query Broker.

Section Delivery.
Context `{RegexEngine} `{HashOrder} `{SqlParser}.

(** ** Content of notifications *)

Lemma overlaps_spec f g : overlaps f g = true <-> exists x, x ∈ f /\ x ∈ g.
Proof.
  unfold overlaps. rewrite negb_true_iff, bool_decide_eq_false. split.
  - intros Hd. destruct (decide (f ∩ g = ∅)) as [He|He].
    + destruct Hd. by apply disjoint_intersection_L.
    + apply set_choose_L in He as [x Hx]. exists x. set_solver.
  - intros (x & ? & ?) Hd. set_solver.
Qed.

(** The fields of a notification of the [Some(changed)] branch. *)
Lemma changed_notification_fields e fields cf :
  let n := changed_notification e fields cf in
  u_path (cn_update n) = Some (path (metadata e)) /\
  u_datapoint (cn_update n) =
    (if bool_decide (F_Datapoint ∈ cf /\ F_Datapoint ∈ fields) then Some (datapoint e) else None) /\
  u_actuator_target (cn_update n) =
    (if bool_decide (F_ActuatorTarget ∈ cf /\ F_ActuatorTarget ∈ fields)
     then Some (actuator_target e) else None) /\
  u_unit (cn_update n) = unit_ (metadata e) /\
  u_entry_type (cn_update n) = None /\ u_data_type (cn_update n) = None /\
  u_description (cn_update n) = None /\ u_allowed (cn_update n) = None /\
  (F_Datapoint ∈ cn_fields n <-> F_Datapoint ∈ cf /\ F_Datapoint ∈ fields) /\
  (F_ActuatorTarget ∈ cn_fields n <-> F_ActuatorTarget ∈ cf /\ F_ActuatorTarget ∈ fields) /\
  F_MetadataUnit ∉ cn_fields n.
Proof.
  unfold changed_notification. rewrite !bool_decide_and.
  destruct (bool_decide (F_Datapoint ∈ cf)) eqn:E1, (bool_decide (F_Datapoint ∈ fields)) eqn:E2,
    (bool_decide (F_ActuatorTarget ∈ cf)) eqn:E3, (bool_decide (F_ActuatorTarget ∈ fields)) eqn:E4;
    bool_hyps; simpl; split_and!; try done;
    rewrite ?elem_of_union, ?elem_of_singleton, ?elem_of_empty; intuition congruence.
Qed.

(** The fields of the initial notification. *)
Lemma initial_notification_fields e fields :
  let n := initial_notification e fields in
  u_path (cn_update n) = Some (path (metadata e)) /\
  u_datapoint (cn_update n) = (if bool_decide (F_Datapoint ∈ fields) then Some (datapoint e) else None) /\
  u_actuator_target (cn_update n) =
    (if bool_decide (F_ActuatorTarget ∈ fields) then Some (actuator_target e) else None).
Proof.
  unfold initial_notification.
  by destruct (bool_decide (F_Datapoint ∈ fields)), (bool_decide (F_ActuatorTarget ∈ fields)).
Qed.

Lemma elem_of_collect_changed self changed db now n :
  n ∈ collect_changed self (hash_order (map_to_list changed)) db now <->
  exists i cf fields e,
    changed !! i = Some cf /\ cs_entries self !! i = Some fields /\ overlaps fields cf = true /\
    get_entry_by_id db (cs_permissions self) now i = Ok e /\ n = changed_notification e fields cf.
Proof.
  unfold collect_changed. rewrite list_elem_of_omap. split.
  - intros ([i cf] & Hin & Hn). rewrite elem_of_hash_order, elem_of_map_to_list in Hin.
    crush_match_in Hn. exists i, cf. eauto 10.
  - intros (i & cf & fields & e & Hc & Hs & Ho & Hg & ->). exists (i, cf).
    rewrite elem_of_hash_order, elem_of_map_to_list. split; [done|]. by rewrite Hs, Ho, Hg.
Qed.

Lemma elem_of_collect_initial self db now n :
  n ∈ collect_initial self db now <->
  exists i fields e, cs_entries self !! i = Some fields /\
    get_entry_by_id db (cs_permissions self) now i = Ok e /\ n = initial_notification e fields.
Proof.
  unfold collect_initial. rewrite list_elem_of_omap. split.
  - intros ([i fields] & Hin & Hn). rewrite elem_of_hash_order, elem_of_map_to_list in Hin.
    crush_match_in Hn. eauto 10.
  - intros (i & fields & e & Hs & Hg & ->). exists (i, fields).
    rewrite elem_of_hash_order, elem_of_map_to_list. split; [done|]. by rewrite Hg.
Qed.

(** What a call of [change_notify] appends to a channel. *)
Definition change_message (self : ChangeSubscription) (changed : option Changes) (db : Database)
  (now : SystemTime) : list EntryUpdates :=
  match changed with
  | Some changed =>
      match collect_changed self (hash_order (map_to_list changed)) db now with
      | [] => []
      | ns => [{| updates := ns |}]
      end
  | None => [{| updates := collect_initial self db now |}]
  end.

(** The early test of the loop only skips work: with no match there is
    nothing to collect. *)
Lemma collect_changed_no_match self l db now :
  existsb (fun '(i, changed_fields) =>
    match cs_entries self !! i with
    | Some fields => overlaps fields changed_fields
    | None => false
    end) l = false -> collect_changed self l db now = [].
Proof.
  induction l as [|[i cf] l IH]; simpl; [done|]. intros [Hh Ht]%orb_false_iff.
  unfold collect_changed in *. simpl. rewrite (IH Ht).
  destruct (cs_entries self !! i); [|done]. by rewrite Hh.
Qed.

(** [change_notify] is: send the message, if there is one. *)
Lemma change_notify_message self changed db now store :
  change_notify self changed db now store =
    match change_message self changed db now with
    | [] => (Ok tt, store)
    | m :: _ => send_notification store (cs_sender self) m
    end.
Proof.
  unfold change_notify, change_message. destruct changed as [changed|]; [|done].
  destruct (existsb _ _) eqn:Ex.
  - by destruct (collect_changed _ _ _ _).
  - by rewrite collect_changed_no_match.
Qed.

(** ** Theorems on notifications *)

(** C28. A change notification tells a subscriber the truth and the whole truth:
    it names exactly the entries that changed in a field it subscribed to and
    that its token may read at that moment; each carries the entry's path, the
    current value and target exactly when they changed and were asked for, and
    nothing else of the entry but its unit.  With nothing to tell, nothing is
    sent. *)
Theorem change_notify_content self changed db now store ch store' r :
  store !! cs_sender self = Some ch -> closed ch = false ->
  change_notify self (Some changed) db now store = (r, store') ->
  r = Ok tt /\
  exists msgs, store' = <[cs_sender self := Build_Channel (sent ch ++ msgs) false]> store /\
    (length msgs <= 1)%nat /\ Forall (fun m => updates m <> []) msgs /\
    forall n, n ∈ mjoin (updates <$> msgs) <->
      exists i cf fields e,
        changed !! i = Some cf /\ cs_entries self !! i = Some fields /\
        (exists f, f ∈ fields /\ f ∈ cf) /\
        entries db !! i = Some e /\ can_read (cs_permissions self) now (path (metadata e)) = Ok tt /\
        n = changed_notification e fields cf.
Proof.
  intros Hch Hopen. rewrite change_notify_message. unfold change_message.
  assert (forall n, n ∈ collect_changed self (hash_order (map_to_list changed)) db now <->
    exists i cf fields e,
        changed !! i = Some cf /\ cs_entries self !! i = Some fields /\
        (exists f, f ∈ fields /\ f ∈ cf) /\
        entries db !! i = Some e /\ can_read (cs_permissions self) now (path (metadata e)) = Ok tt /\
        n = changed_notification e fields cf) as Hspec.
  { intros n. rewrite elem_of_collect_changed. setoid_rewrite overlaps_spec.
    setoid_rewrite get_entry_Ok. do 4 (apply exist_proper; intros ?). tauto. }
  destruct (collect_changed _ _ _ _) as [|n ns]; intros Hr.
  - injection Hr as <- <-. split; [done|]. exists []. rewrite app_nil_r.
    rewrite (list_insert_id store (cs_sender self)) by (destruct ch; simpl in *; by subst).
    split_and!; [done|simpl; lia|constructor|]. intros n. simpl. apply Hspec.
  - unfold send_notification, send in Hr. rewrite Hch, Hopen in Hr. injection Hr as <- <-.
    split; [done|]. eexists [_]. split_and!; [done|simpl; lia|by constructor|].
    simpl. rewrite app_nil_r. apply Hspec.
Qed.

(** ** Batches of updates *)

(** An update changes no other entry, and its outcome depends only on the
    entry it names. *)
Lemma update_other db permissions now i u j :
  j <> i -> entries (snd (update db permissions now i u)) !! j = entries db !! j.
Proof.
  intros Hj. destruct (update db permissions now i u) as [[c|err] db'] eqn:E; simpl.
  - apply update_Ok in E as (e & e' & _ & _ & _ & -> & _). simpl. by rewrite lookup_insert_ne.
  - by apply update_Err in E as ->.
Qed.

Lemma update_local db1 db2 permissions now i u :
  entries db1 !! i = entries db2 !! i ->
  fst (update db1 permissions now i u) = fst (update db2 permissions now i u) /\
  entries (snd (update db1 permissions now i u)) !! i = entries (snd (update db2 permissions now i u)) !! i.
Proof.
  intros Hi. unfold update. destruct (entries db1 !! i) as [e|] eqn:E1; rewrite <- Hi.
  - repeat case_match; simpl; rewrite ?lookup_insert_eq, ?E1, <- ?Hi; done.
  - simpl. by rewrite E1, <- Hi.
Qed.

(** One update of a batch: the database, the changes and the errors after it. *)
Definition step_update1 (permissions : Permissions) (now : SystemTime)
  (s : Database * Changes * list (Z * UpdateError)) (iu : Z * EntryUpdate) :=
  let '(db, changed, errors) := s in
  let '(r, db') := update db permissions now (fst iu) (snd iu) in
  (db',
   match r with
   | Ok cf => if bool_decide (cf = ∅) then changed else <[fst iu := cf]> changed
   | Err _ => changed
   end,
   match r with Ok _ => errors | Err err => errors ++ [(fst iu, err)] end).

Lemma apply_updates_fold db permissions now us changed errors :
  apply_updates db permissions now us changed errors =
  fold_left (step_update1 permissions now) us (db, changed, errors).
Proof.
  revert db changed errors. induction us as [|[i u] us IH]; intros; simpl; [done|].
  destruct (update db permissions now i u) as [[c|err] db']; apply IH.
Qed.

(** The outcome of a batch without repeated ids, entry by entry: an entry
    named by [u] is updated by [u] as if alone; every other entry is left. *)
Lemma apply_updates_entry permissions now us db changed errors db' changed' errors' :
  NoDup (map fst us) ->
  apply_updates db permissions now us changed errors = (db', changed', errors') ->
  (forall i, i ∉ map fst us -> entries db' !! i = entries db !! i /\ changed' !! i = changed !! i) /\
  (forall i u, (i, u) ∈ us ->
     entries db' !! i = entries (snd (update db permissions now i u)) !! i /\
     changed' !! i = match fst (update db permissions now i u) with
                     | Ok cf => if bool_decide (cf = ∅) then changed !! i else Some cf
                     | Err _ => changed !! i
                     end).
Proof.
  rewrite apply_updates_fold. revert db changed errors.
  induction us as [|[j v] us IH]; intros db changed errors Hnd E; simpl in *.
  - simplify_eq. split; [done|]. by intros i u ?%not_elem_of_nil.
  - apply NoDup_cons in Hnd as [Hj Hnd].
    destruct (update db permissions now j v) as [r db1] eqn:Eu.
    destruct (IH _ _ _ Hnd E) as [Hout Hin]. split.
    + intros i [Hij Hi]%not_elem_of_cons. destruct (Hout i Hi) as [-> ->].
      pose proof (update_other db permissions now j v i Hij) as Ho. rewrite Eu in Ho.
      split; [done|]. repeat case_match; by rewrite ?lookup_insert_ne.
    + intros i u [[= -> ->] | Hi]%elem_of_cons.
      * destruct (Hout j Hj) as [-> ->]. rewrite Eu. split; [done|].
        destruct r as [cf|]; simpl; [|done]. destruct (bool_decide (cf = ∅)); by rewrite ?lookup_insert_eq.
      * assert (i <> j) as Hij.
        { intros ->. by apply Hj, (elem_of_map_fst j u). }
        destruct (Hin i u Hi) as [-> ->].
        pose proof (update_other db permissions now j v i Hij) as Ho. rewrite Eu in Ho. simpl in Ho.
        destruct (update_local db1 db permissions now i u Ho) as [-> ->]. split; [done|].
        repeat case_match; by rewrite ?lookup_insert_ne.
Qed.

Lemma apply_updates_errors permissions now us db changed errors :
  NoDup (map fst us) ->
  (apply_updates db permissions now us changed errors).2 =
  errors ++ omap (fun iu => match fst (update db permissions now (fst iu) (snd iu)) with
                            | Err err => Some (fst iu, err) | Ok _ => None end) us.
Proof.
  rewrite apply_updates_fold. revert db changed errors.
  induction us as [|[j v] us IH]; intros db changed errors Hnd; simpl in *; [by rewrite app_nil_r|].
  apply NoDup_cons in Hnd as [Hj Hnd].
  destruct (update db permissions now j v) as [r db1] eqn:Eu. rewrite IH by done.
  replace (omap _ us) with (omap (fun iu => match fst (update db permissions now (fst iu) (snd iu)) with
                            | Err err => Some (fst iu, err) | Ok _ => None end) us).
  - destruct r; simpl; [done|]. by rewrite <- app_assoc.
  - apply list_omap_ext_in. intros [i u] Hi. simpl.
    assert (i <> j) as Hij.
    { intros ->. by apply Hj, (elem_of_map_fst j u). }
    pose proof (update_other db permissions now j v i Hij) as Ho. rewrite Eu in Ho. simpl in Ho.
    by destruct (update_local db1 db permissions now i u Ho) as [-> _].
Qed.

(** The failures of a batch when every update is tried alone on [db]. *)
Definition failures (db : Database) (permissions : Permissions) (now : SystemTime)
  (us : list (Z * EntryUpdate)) : list (Z * UpdateError) :=
  omap (fun iu => match fst (update db permissions now (fst iu) (snd iu)) with
                  | Err err => Some (fst iu, err) | Ok _ => None end) us.

(** [update_entries] decomposed: the loop, the notification, the cleanup. *)
Lemma update_entries_inv b permissions now us r b' :
  update_entries b permissions now us = (r, b') ->
  exists db' changed errors nr chans,
    apply_updates (database b) permissions now us ∅ [] = (db', changed, errors) /\
    notify (subscriptions b) (Some changed) db' now (channels b) = (nr, chans) /\
    r = match errors with [] => Ok tt | _ => Err errors end /\
    database b' = db' /\ channels b' = chans /\
    subscriptions b' = if is_ok nr then subscriptions b else cleanup (subscriptions b) chans.
Proof.
  unfold update_entries, update_entries_locked. intros Hu.
  destruct (apply_updates _ _ _ _ _ _) as [[db' changed] errors] eqn:Ea.
  destruct (notify _ _ _ _ _) as [nr chans] eqn:En.
  injection Hu as <- <-. exists db', changed, errors, nr, chans.
  destruct nr; simpl; split_and!; done.
Qed.

(** The updates of a batch that names every entry at most once are judged
    and applied independently of each other: the call reports exactly the
    updates that fail on their own, in order, and still performs all the
    others; entries it does not name are left alone. *)
Theorem update_entries_independent b permissions now us r b' :
  NoDup (map fst us) -> update_entries b permissions now us = (r, b') ->
  r = match failures (database b) permissions now us with [] => Ok tt | errs => Err errs end /\
  (forall i u, (i, u) ∈ us ->
     entries (database b') !! i = entries (snd (update (database b) permissions now i u)) !! i) /\
  (forall i, i ∉ map fst us -> entries (database b') !! i = entries (database b) !! i).
Proof.
  intros Hnd (db' & changed & errors & nr & chans & Ea & _ & -> & -> & _)%update_entries_inv.
  destruct (apply_updates_entry _ _ _ _ _ _ _ _ _ Hnd Ea) as [Hout Hin].
  pose proof (apply_updates_errors permissions now us (database b) ∅ [] Hnd) as He.
  rewrite Ea in He. simpl in He. unfold failures. rewrite <- He. split_and!; [by destruct errors|..].
  - intros i u Hi. by apply Hin.
  - intros i Hi. by apply Hout.
Qed.

(** A batch of one update is that update. *)
Lemma update_entries_one b permissions now i u :
  fst (update_entries b permissions now [(i, u)]) =
    match fst (update (database b) permissions now i u) with Ok _ => Ok tt | Err err => Err [(i, err)] end /\
  database (snd (update_entries b permissions now [(i, u)])) = snd (update (database b) permissions now i u).
Proof.
  destruct (update_entries b permissions now [(i, u)]) as [r b'] eqn:Eu.
  apply update_entries_inv in Eu as (db' & changed & errors & nr & chans & Ea & _ & -> & <- & _).
  simpl in *. destruct (update _ _ _ _ _) as [[cf|err] db1]; simplify_eq/=; done.
Qed.

Lemma elem_of_failures db permissions now us i err :
  (i, err) ∈ failures db permissions now us <->
  exists u, (i, u) ∈ us /\ fst (update db permissions now i u) = Err err.
Proof.
  unfold failures. rewrite list_elem_of_omap. split.
  - intros ([j u] & Hin & Hu). simpl in Hu. destruct (update _ _ _ _ _) as [[]] eqn:Eu; simplify_eq/=.
    exists u. by rewrite Eu.
  - intros (u & Hin & Hu). exists (i, u). split; [done|]. simpl. by rewrite Hu.
Qed.

(** A batch of single-field updates, entry by entry. *)
Lemma update_entries_attempts b permissions now mk attempt (ds : list (Z * Datapoint)) r b' :
  attempts mk permissions now attempt -> NoDup (map fst ds) ->
  update_entries b permissions now (map (fun '(i, d) => (i, mk d)) ds) = (r, b') ->
  exists errs, r = match errs with [] => Ok tt | _ => Err errs end /\
    (forall i err, (i, err) ∈ errs <-> exists d, (i, d) ∈ ds /\
       attempt_error (fun e => attempt e d) (entries (database b) !! i) = Some err) /\
    (forall i d, (i, d) ∈ ds ->
       entries (database b') !! i = attempt_entry (fun e => attempt e d) (entries (database b) !! i)) /\
    (forall i, i ∉ map fst ds -> entries (database b') !! i = entries (database b) !! i).
Proof.
  intros Hatt Hnd Hu.
  assert (map fst (map (fun '(i, d) => (i, mk d)) ds) = map fst ds) as Hfst.
  { rewrite map_map. apply map_ext. by intros []. }
  assert (forall i u, (i, u) ∈ map (fun '(i, d) => (i, mk d)) ds <-> exists d, (i, d) ∈ ds /\ u = mk d) as Hel.
  { intros i u. rewrite list_elem_of_In, in_map_iff. setoid_rewrite list_elem_of_In. split.
    - intros ([j d] & Hjd & Hin). simplify_eq. eauto.
    - intros (d & Hin & ->). by exists (i, d). }
  rewrite <- Hfst in Hnd. destruct (update_entries_independent _ _ _ _ _ _ Hnd Hu) as (-> & Hin & Hout).
  exists (failures (database b) permissions now (map (fun '(i, d) => (i, mk d)) ds)). split_and!.
  - by destruct (failures _ _ _ _).
  - intros i err. rewrite elem_of_failures. setoid_rewrite Hel. split.
    + intros (u & (d & Hd & ->) & Hf). exists d. split; [done|].
      destruct (Hatt (database b) i d) as [<- _]. by rewrite Hf.
    + intros (d & Hd & Ha). exists (mk d). split; [by exists d|].
      destruct (Hatt (database b) i d) as [He _]. rewrite Ha in He. by destruct (fst _); simplify_eq/=.
  - intros i d Hd. rewrite (Hin i (mk d)) by (apply Hel; eauto). by destruct (Hatt (database b) i d) as [_ <-].
  - intros i Hi. apply Hout. by rewrite Hfst.
Qed.

(** ** Freshness *)

(** The values a list of messages carries for a path, in order. *)
Definition values_for (p : string) (ns : list ChangeNotification) : list Datapoint :=
  omap (fun n => if bool_decide (u_path (cn_update n) = Some p)
                 then u_datapoint (cn_update n) else None) ns.

(** The last value a subscriber has been sent for a path. *)
Definition last_value (p : string) (msgs : list EntryUpdates) : option Datapoint :=
  last (values_for p (mjoin (updates <$> msgs))).

(** The subscriber's view is up to date: for every entry whose value it
    subscribed to, the last value it was sent is the one in the database. *)
Definition fresh (b : DataBroker) (sub : ChangeSubscription) : Prop :=
  forall i fields e ch,
    cs_entries sub !! i = Some fields -> F_Datapoint ∈ fields ->
    entries (database b) !! i = Some e ->
    change_channels (channels b) !! cs_sender sub = Some ch ->
    last_value (path (metadata e)) (sent ch) = Some (datapoint e).

(** A notification that carries only current values of the database. *)
Definition truthful (db : Database) (n : ChangeNotification) : Prop :=
  forall p d, u_path (cn_update n) = Some p -> u_datapoint (cn_update n) = Some d ->
  exists i e, entries db !! i = Some e /\ path (metadata e) = p /\ datapoint e = d.

Lemma changed_notification_truthful db i e fields cf :
  entries db !! i = Some e -> truthful db (changed_notification e fields cf).
Proof.
  intros He p d. destruct (changed_notification_fields e fields cf) as (-> & -> & _).
  intros [= <-]. case_bool_decide; [|done]. intros [= <-]. eauto.
Qed.

Lemma initial_notification_truthful db i e fields :
  entries db !! i = Some e -> truthful db (initial_notification e fields).
Proof.
  intros He p d. destruct (initial_notification_fields e fields) as (-> & -> & _).
  intros [= <-]. case_bool_decide; [|done]. intros [= <-]. eauto.
Qed.

Lemma change_message_truthful self changed db now m n :
  m ∈ change_message self changed db now -> n ∈ updates m -> truthful db n.
Proof.
  unfold change_message. destruct changed as [changed|].
  - destruct (collect_changed _ _ _ _) eqn:E; [by intros ?%not_elem_of_nil|].
    intros ->%list_elem_of_singleton Hn. simpl in Hn. rewrite <- E in Hn.
    apply elem_of_collect_changed in Hn as (i & cf & fs & e & _ & _ & _ & [He _]%get_entry_Ok & ->).
    by eapply changed_notification_truthful.
  - intros ->%list_elem_of_singleton
      (i & fs & e & _ & [He _]%get_entry_Ok & ->)%elem_of_collect_initial.
    by eapply initial_notification_truthful.
Qed.

(** What one notification of a subscription does to a channel [c]. *)
Lemma change_notify_store self changed db now store c ch :
  store !! c = Some ch ->
  exists msgs, (change_notify self changed db now store).2 !! c
               = Some (Build_Channel (sent ch ++ msgs) (closed ch)) /\
    (forall m, m ∈ msgs -> m ∈ change_message self changed db now) /\
    (c = cs_sender self -> closed ch = false -> msgs = change_message self changed db now).
Proof.
  intros Hc. rewrite change_notify_message.
  assert (Some ch = Some (Build_Channel (sent ch ++ []) (closed ch))) as Hid.
  { rewrite app_nil_r. by destruct ch. }
  destruct (change_message self changed db now) as [|m ms] eqn:Em.
  { exists []. split_and!; [by simpl; rewrite Hc | by intros ? ?%not_elem_of_nil | done]. }
  assert (ms = []) as ->.
  { unfold change_message in Em. destruct changed; simplify_eq; [|done].
    destruct (collect_changed _ _ _ _); by simplify_eq. }
  unfold send_notification, send.
  destruct (decide (c = cs_sender self)) as [->|Hne].
  - rewrite Hc. destruct (closed ch) eqn:Ecl.
    + exists []. split_and!; [by simpl; rewrite Hc, Hid | by intros ? ?%not_elem_of_nil | done].
    + exists [m]. simpl. rewrite list_lookup_insert_eq by by apply lookup_lt_Some in Hc.
      split_and!; [done|done|done].
  - exists []. split_and!; [|by intros ? ?%not_elem_of_nil|done].
    destruct (store !! cs_sender self) as [ch'|]; [destruct (closed ch')|]; simpl;
      rewrite ?list_lookup_insert_ne by done; rewrite ?Hc; exact Hid.
Qed.

Lemma notify_all_store subs changed db now error store c ch :
  store !! c = Some ch ->
  exists msgs,
    (notify_all (fun sub => change_notify sub changed db now) subs error store).2 !! c
      = Some (Build_Channel (sent ch ++ msgs) (closed ch)) /\
    (forall m, m ∈ msgs -> exists sub, m ∈ change_message sub changed db now) /\
    (forall sub m, sub ∈ subs -> c = cs_sender sub -> closed ch = false ->
       m ∈ change_message sub changed db now -> m ∈ msgs).
Proof.
  revert error store ch. induction subs as [|sub subs IH]; intros error store ch Hc; simpl.
  - exists []. rewrite app_nil_r. split_and!; [by destruct ch | by intros ? ?%not_elem_of_nil
      | by intros ? ? ?%not_elem_of_nil].
  - destruct (change_notify_store sub changed db now store c ch Hc) as (ms1 & H1c & Hs1 & Hown).
    destruct (change_notify sub changed db now store) as [r store1]. simpl in *.
    destruct (IH (match r with Ok _ => error | Err err => Some err end) store1 _ H1c)
      as (ms2 & -> & Hs2 & Hall). simpl in *.
    exists (ms1 ++ ms2). rewrite app_assoc. split_and!; [done|..].
    + intros m [Hm|Hm]%elem_of_app; eauto.
    + intros s m [-> | Hs]%elem_of_cons Hsc Hopen Hm; apply elem_of_app; [left|right; eauto].
      by rewrite Hown.
Qed.

(** The same for the whole of [notify], seen from one change channel. *)
Lemma notify_change_channel subs changed db now chans c ch r chans' :
  notify subs changed db now chans = (r, chans') -> change_channels chans !! c = Some ch ->
  exists msgs, change_channels chans' !! c = Some (Build_Channel (sent ch ++ msgs) (closed ch)) /\
    (forall m, m ∈ msgs -> exists sub, m ∈ change_message sub changed db now) /\
    (forall sub m, sub ∈ change_subscriptions subs -> c = cs_sender sub -> closed ch = false ->
       m ∈ change_message sub changed db now -> m ∈ msgs).
Proof.
  unfold notify. destruct (notify_all _ (query_subscriptions subs) _ _) as [err qstore].
  intros Hn Hc.
  destruct (notify_all_store (change_subscriptions subs) changed db now err _ c ch Hc)
    as (msgs & Hm & Hms).
  destruct (notify_all _ (change_subscriptions subs) err _) as [err' cstore].
  injection Hn as _ <-. by exists msgs.
Qed.

Lemma update_entry_cases db permissions now i u e' :
  entries (snd (update db permissions now i u)) !! i = Some e' ->
  exists e, entries db !! i = Some e /\ path (metadata e') = path (metadata e) /\
    (datapoint e' = datapoint e \/
     exists cf, fst (update db permissions now i u) = Ok cf /\ F_Datapoint ∈ cf).
Proof.
  destruct (update db permissions now i u) as [[cf|err] db'] eqn:E; simpl.
  - apply update_Ok in E as (e & e1 & Hl & Ha & _ & -> & _). simpl. rewrite lookup_insert_eq.
    intros [= <-]. exists e. apply apply_fields in Ha as (Hd & _ & _ & Hm & Hcf & _).
    split_and!; [done | by rewrite Hm |].
    destruct (u_datapoint (diff e u)); [right | by left]. exists cf. split; [done|]. by apply Hcf.
  - apply update_Err in E as ->. eauto.
Qed.

(** After a batch without repeated ids, an entry has its old value or is among
    the changes. *)
Lemma apply_updates_cases permissions now us db db' changed' errors' i e' :
  NoDup (map fst us) ->
  apply_updates db permissions now us ∅ [] = (db', changed', errors') ->
  entries db' !! i = Some e' ->
  exists e, entries db !! i = Some e /\ path (metadata e') = path (metadata e) /\
    (datapoint e' = datapoint e \/ exists cf, changed' !! i = Some cf /\ F_Datapoint ∈ cf).
Proof.
  intros Hnd Ea He'. destruct (apply_updates_entry _ _ _ _ _ _ _ _ _ Hnd Ea) as [Hout Hin].
  destruct (decide (i ∈ map fst us)) as [Hi|Hi].
  - apply list_elem_of_In, in_map_iff in Hi as ([j u] & Hj & Hi%list_elem_of_In). simpl in Hj. subst j.
    destruct (Hin i u Hi) as [Hent Hch]. rewrite Hent in He'.
    apply update_entry_cases in He' as (e & He & Hp & Hd). exists e. split_and!; [done|done|].
    destruct Hd as [Hd | (cf & Hok & Hcf)]; [by left|right]. exists cf. split; [|done].
    rewrite Hch, Hok. case_bool_decide as Hemp; [|done]. subst cf. by apply not_elem_of_empty in Hcf.
  - destruct (Hout i Hi) as [Hent _]. rewrite Hent in He'. eauto.
Qed.

Lemma apply_updates_inv db permissions now us changed errors :
  db_inv db -> db_inv (apply_updates db permissions now us changed errors).1.1.
Proof.
  rewrite apply_updates_fold. revert db changed errors.
  induction us as [|[i u] us IH]; intros db changed errors Hinv; simpl; [done|].
  pose proof (update_preserves db permissions now i u Hinv) as Hu.
  destruct (update db permissions now i u) as [r db1]. by apply IH.
Qed.

Lemma db_inv_path_unique db i j e f :
  db_inv db -> entries db !! i = Some e -> entries db !! j = Some f ->
  path (metadata e) = path (metadata f) -> i = j.
Proof.
  intros Hinv He Hf Hp. destruct (inv_entry _ Hinv _ _ He) as (_ & Hi & _).
  destruct (inv_entry _ Hinv _ _ Hf) as (_ & Hj & _). congruence.
Qed.

Lemma values_for_app p l k : values_for p (l ++ k) = values_for p l ++ values_for p k.
Proof. apply omap_app. Qed.

(** New messages that carry only [d] for [p], and carry it unless it was the
    last value already. *)
Lemma last_value_app p l msgs d :
  (forall d', d' ∈ values_for p (mjoin (updates <$> msgs)) -> d' = d) ->
  (values_for p (mjoin (updates <$> msgs)) <> [] \/ last_value p l = Some d) ->
  last_value p (l ++ msgs) = Some d.
Proof.
  unfold last_value. rewrite fmap_app, list.join_app, values_for_app, last_app.
  generalize (values_for p (mjoin (updates <$> msgs))) as k. intros k Hk Hor.
  destruct (last k) as [d'|] eqn:El.
  - f_equal. apply Hk. by apply last_Some_elem_of in El.
  - apply last_None in El as ->. by destruct Hor.
Qed.

(** Truthful messages carry the current value of the entry at a path. *)
Lemma truthful_values db msgs i e d' :
  db_inv db -> entries db !! i = Some e ->
  (forall m n, m ∈ msgs -> n ∈ updates m -> truthful db n) ->
  d' ∈ values_for (path (metadata e)) (mjoin (updates <$> msgs)) -> d' = datapoint e.
Proof.
  intros Hinv He Ht (n & Hn & Hd)%list_elem_of_omap.
  apply list_elem_of_join in Hn as (ns & Hn & (m & -> & Hm)%list_elem_of_fmap).
  case_bool_decide as Hp; [|done].
  destruct (Ht m n Hm Hn _ _ Hp Hd) as (j & f & Hf & Hfp & <-).
  by rewrite (db_inv_path_unique db j i f e) in Hf; simplify_eq.
Qed.

Lemma values_for_elem p ns n d :
  n ∈ ns -> u_path (cn_update n) = Some p -> u_datapoint (cn_update n) = Some d ->
  values_for p ns <> [].
Proof.
  intros Hn Hp Hd Hnil. assert (d ∈ values_for p ns) as Hin.
  { apply list_elem_of_omap. exists n. by rewrite bool_decide_true. }
  rewrite Hnil in Hin. by apply not_elem_of_nil in Hin.
Qed.

(** The message a fresh subscription owes its subscriber after a batch. *)
Lemma change_message_carries sub changed db now i e fields cf :
  changed !! i = Some cf -> F_Datapoint ∈ cf ->
  cs_entries sub !! i = Some fields -> F_Datapoint ∈ fields ->
  entries db !! i = Some e -> can_read (cs_permissions sub) now (path (metadata e)) = Ok tt ->
  exists m n, m ∈ change_message sub (Some changed) db now /\ n ∈ updates m /\
    u_path (cn_update n) = Some (path (metadata e)) /\ u_datapoint (cn_update n) = Some (datapoint e).
Proof.
  intros Hc Hcf Hs Hf He Hr.
  assert (changed_notification e fields cf ∈
    collect_changed sub (hash_order (map_to_list changed)) db now) as Hin.
  { apply elem_of_collect_changed. exists i, cf, fields, e. split_and!; try done.
    - apply overlaps_spec. eauto.
    - by apply get_entry_Ok. }
  unfold change_message. destruct (collect_changed _ _ _ _) as [|n0 ns] eqn:E;
    [by apply not_elem_of_nil in Hin|].
  eexists _, _. split_and!; [by apply list_elem_of_singleton | exact Hin |..];
    destruct (changed_notification_fields e fields cf) as (Hp & Hd & _); [done|].
  rewrite Hd. by rewrite bool_decide_true.
Qed.

Lemma subscription_kept b permissions now us b' r sub ch :
  update_entries b permissions now us = (r, b') ->
  sub ∈ change_subscriptions (subscriptions b) ->
  change_channels (channels b) !! cs_sender sub = Some ch -> closed ch = false ->
  sub ∈ change_subscriptions (subscriptions b').
Proof.
  intros (db' & changed & errors & nr & chans & _ & En & _ & _ & _ & ->)%update_entries_inv Hsub Hch Hopen.
  destruct (is_ok nr); [done|]. simpl.
  apply list_elem_of_In, List.filter_In. split; [by apply list_elem_of_In|].
  destruct (notify_change_channel _ _ _ _ _ _ _ _ _ En Hch) as (msgs & Hc & _).
  unfold is_closed. by rewrite Hc, Hopen.
Qed.


(** A successful [subscribe] registers the subscription. *)
Lemma subscribe_registers b permissions now valid_entries c b' :
  subscribe b permissions now valid_entries = (Ok c, b') ->
  database b' = database b /\
  exists sub, sub ∈ change_subscriptions (subscriptions b') /\
    cs_entries sub = valid_entries /\ cs_sender sub = c /\ cs_permissions sub = permissions.
Proof.
  unfold subscribe, subscribe_initial. case_bool_decide; [done|]. unfold channel.
  destruct (change_notify _ _ _ _ _) as [r store']. intros [= <- <-]. split; [done|].
  eexists. split; [apply elem_of_app; right; by apply list_elem_of_singleton|]. done.
Qed.

(** A new change subscription starts with an up-to-date view: the stream
    returned already holds the current value of every entry whose value it
    subscribes to and may read, and the subscription is registered. *)
Theorem subscribe_fresh b permissions now valid_entries c b' :
  db_inv (database b) ->
  (forall i fields e, valid_entries !! i = Some fields -> entries (database b) !! i = Some e ->
     can_read permissions now (path (metadata e)) = Ok tt) ->
  subscribe b permissions now valid_entries = (Ok c, b') ->
  exists sub, sub ∈ change_subscriptions (subscriptions b') /\
    cs_entries sub = valid_entries /\ cs_sender sub = c /\ cs_permissions sub = permissions /\
    database b' = database b /\ fresh b' sub.
Proof.
  intros Hinv Hread. unfold subscribe, subscribe_initial. case_bool_decide; [done|].
  unfold channel. set (store := change_channels (channels b)).
  set (sub := {| cs_entries := valid_entries; cs_sender := length store; cs_permissions := permissions |}).
  cbn [change_notify cs_sender sub].
  assert ((store ++ [Build_Channel [] false]) !! length store = Some (Build_Channel [] false)) as Hch.
  { by apply list_lookup_middle. }
  unfold send_notification, send. rewrite Hch. simpl.
  intros [= <- <-]. exists sub. simpl. split_and!; try done.
  { apply elem_of_app. right. by apply list_elem_of_singleton. }
  intros i fields e ch Hs Hf He. simpl in *.
  rewrite list_lookup_insert_eq by (rewrite length_app; simpl; lia). intros [= <-]. simpl.
  set (ms := [{| updates := collect_initial sub (database b) now |}]).
  apply (last_value_app (path (metadata e)) [] ms).
  - intros d'. apply (truthful_values (database b) ms i e); [done|done|].
    intros m n Hm Hn. by eapply (change_message_truthful sub None).
  - left. destruct (initial_notification_fields e fields) as (Hp & Hd & _).
    rewrite bool_decide_true in Hd by done.
    apply (values_for_elem _ _ (initial_notification e fields) (datapoint e)); [|done|done].
    simpl. rewrite app_nil_r. apply elem_of_collect_initial. exists i, fields, e.
    split_and!; try done. apply get_entry_Ok. split; [done|]. by apply (Hread i fields).
Qed.

(** ** Repeated ids *)

(** When a batch names the same entry twice, the changes of the second
    update replace those of the first: a subscriber that asked only for fields
    the first one changed is told nothing, although the database did change. *)
Theorem repeated_id_masks_change db permissions now i u1 u2 c1 c2 db1 db2 sub fields :
  update db permissions now i u1 = (Ok c1, db1) -> update db1 permissions now i u2 = (Ok c2, db2) ->
  c2 <> ∅ -> cs_entries sub = {[ i := fields ]} -> fields ## c2 ->
  let '(db', changed, errors) := apply_updates db permissions now [(i, u1); (i, u2)] ∅ [] in
  db' = db2 /\ errors = [] /\ changed !! i = Some c2 /\
  forall store, change_notify sub (Some changed) db' now store = (Ok tt, store).
Proof.
  intros E1 E2 Hne Hs Hd. cbn [apply_updates]. rewrite E1, E2, (bool_decide_false _ Hne).
  split_and!; [done | done | by rewrite lookup_insert_eq |].
  intros store. rewrite change_notify_message. unfold change_message.
  destruct (collect_changed _ _ _ _) as [|n ns] eqn:E; [done|].
  assert (n ∈ n :: ns) as Hn by left. rewrite <- E in Hn.
  apply elem_of_collect_changed in Hn as (j & cf & fs & e & Hc & Hj & Ho & _).
  rewrite Hs in Hj. apply lookup_singleton_Some in Hj as [-> ->].
  rewrite lookup_insert_eq in Hc. simplify_eq. unfold overlaps in Ho.
  by rewrite bool_decide_true in Ho.
Qed.

(** ** Query subscriptions *)

(** The value of a path as a token may see it. *)
Definition visible_value (db : Database) (permissions : Permissions) (now : SystemTime) : ExecutionInput :=
  fun name => match get_entry_by_path db permissions now name with
              | Ok entry => value (datapoint entry)
              | Err _ => DV_NotAvailable
              end.

(** A change of a value the query depends on. *)
Definition query_triggered (self : QuerySubscription) (changed : option Changes) (db : Database) : Prop :=
  match changed with
  | None => True
  | Some changed => exists i cf e, changed !! i = Some cf /\ F_Datapoint ∈ cf /\
      entries db !! i = Some e /\ path (metadata e) ∈ input_spec (qs_query self)
  end.

Lemma fold_input_lookup (f : string -> DataValue) l (m : gmap string DataValue) name :
  fold_left (fun input n => <[n := f n]> input) l m !! name =
  (if bool_decide (name ∈ l) then Some (f name) else m !! name).
Proof.
  revert m. induction l as [|n l IH]; intros m; simpl.
  - done.
  - rewrite IH. destruct (decide (name ∈ l)) as [Hin|Hin].
    + by rewrite !bool_decide_true by (try apply elem_of_cons; auto).
    + rewrite bool_decide_false by done. destruct (decide (name = n)) as [->|Hne].
      * rewrite bool_decide_true by apply elem_of_cons, or_introl, eq_refl.
        by rewrite lookup_insert_eq.
      * rewrite bool_decide_false by (intros [?|?]%elem_of_cons; done).
        by rewrite lookup_insert_ne.
Qed.

Lemma generate_input_spec self changed db now :
  match generate_input self changed db now with
  | Some input => query_triggered self changed db /\
      forall name, name ∈ input_spec (qs_query self) ->
        fields_input input name = visible_value db (qs_permissions self) now name
  | None => ~ query_triggered self changed db
  end.
Proof.
  unfold generate_input.
  set (used := match changed with Some _ => _ | None => true end).
  assert (used = true <-> query_triggered self changed db) as Hused.
  { unfold used, query_triggered. destruct changed as [changed|]; [|done].
    rewrite existsb_exists. setoid_rewrite <- list_elem_of_In. split.
    - intros ([i cf] & Hin & Hb). rewrite elem_of_hash_order, elem_of_map_to_list in Hin.
      unfold get_metadata_by_id in Hb. destruct (entries db !! i) as [e|] eqn:He; [|done].
      simpl in Hb. bool_hyps. eauto 10.
    - intros (i & cf & e & Hc & Hcf & He & Hp). exists (i, cf).
      rewrite elem_of_hash_order, elem_of_map_to_list. split; [done|].
      unfold get_metadata_by_id. rewrite He. simpl. by rewrite !bool_decide_true. }
  destruct used; [|by intros Hq%Hused]. split; [by apply Hused|]. intros name Hn.
  unfold fields_input.
  erewrite (fold_left_ext _ (fun input n => <[n := visible_value db (qs_permissions self) now n]> input)).
  - rewrite fold_input_lookup, bool_decide_true; [done|].
    by rewrite elem_of_hash_order, elem_of_elements.
  - intros m n. unfold visible_value. by destruct (get_entry_by_path db _ now n).
Qed.

(** C29. A query subscriber receives the result of its query on the values it
    may read, and only when there is reason to: the query is run exactly when
    the value of one of its inputs changed (or initially), inputs the token may
    not read count as not available, and a response is sent exactly when the
    condition holds. *)
Theorem query_notify_content self changed db now store ch sql input :
  compile sql input = Ok (qs_query self) ->
  store !! qs_sender self = Some ch -> closed ch = false ->
  (~ query_triggered self changed db -> query_notify self changed db now store = (Ok tt, store)) /\
  (query_triggered self changed db ->
   query_notify self changed db now store =
     (Ok tt,
      match execute (qs_query self) (visible_value db (qs_permissions self) now) with
      | Ok (Some fields) =>
          <[qs_sender self := Build_Channel
             (sent ch ++ [{| qr_fields := map (fun e => {| qf_name := fst e; qf_value := snd e |}) fields |}])
             false]> store
      | _ => store
      end)).
Proof.
  intros Hq%compile_ok Hch Hopen. unfold query_notify.
  pose proof (generate_input_spec self changed db now) as Hg.
  destruct (generate_input self changed db now) as [m|]; [|by split; [|intros ?%Hg]].
  destruct Hg as [Ht Hm]. split; [by intros ?|]. intros _.
  rewrite (execute_agree input _ _ _ Hq Hm).
  destruct (execute _ _) as [[fields|]|]; [|done|done].
  unfold send_notification, send. by rewrite Hch, Hopen.
Qed.

(** ** Non-interference *)

(** Two databases a token cannot tell apart: the same paths and metadata, and
    the same values and targets wherever it may read. *)
Definition low_equiv (permissions : Permissions) (now : SystemTime) (db1 db2 : Database) : Prop :=
  path_to_id db1 = path_to_id db2 /\
  (forall i, metadata <$> entries db1 !! i = metadata <$> entries db2 !! i) /\
  (forall i e1 e2, entries db1 !! i = Some e1 -> entries db2 !! i = Some e2 ->
     can_read permissions now (path (metadata e1)) = Ok tt -> e1 = e2).

#[export] Instance low_equiv_equivalence permissions now : Equivalence (low_equiv permissions now).
Proof.
  split.
  - intros db. split_and!; [done|done|congruence].
  - intros db1 db2 (Hp & Hm & Hr). split_and!; [done|intros i; by rewrite Hm|].
    intros i e1 e2 H1e H2e Hc. symmetry. apply (Hr i e2 e1 H2e H1e).
    specialize (Hm i). rewrite H1e, H2e in Hm. simpl in Hm. congruence.
  - intros db1 db2 db3 (Hp & Hm & Hr) (Hp' & Hm' & Hr'). split_and!; [by etrans|intros i; by rewrite Hm, Hm'|].
    intros i e1 e3 H1e H3e Hc. specialize (Hm i). rewrite H1e in Hm.
    destruct (entries db2 !! i) as [e2|] eqn:H2e; [|done].
    pose proof (Hr i e1 e2 H1e H2e Hc) as <-. by apply (Hr' i e1 e3 H2e H3e Hc).
Qed.

#[export] Instance get_entry_by_id_proper permissions now :
  Proper (low_equiv permissions now ==> eq ==> eq) (fun db => get_entry_by_id db permissions now).
Proof.
  intros db1 db2 (_ & Hm & Hr) i ? <-. rewrite !get_entry_by_id_spec.
  specialize (Hm i). specialize (Hr i).
  destruct (entries db1 !! i) as [e1|], (entries db2 !! i) as [e2|]; simpl in Hm; try done.
  injection Hm as Hm. rewrite <- Hm.
  destruct (can_read permissions now (path (metadata e1))) as [[]|] eqn:Hc; [|done].
  by rewrite (Hr e1 e2).
Qed.

#[export] Instance get_entry_by_path_proper permissions now :
  Proper (low_equiv permissions now ==> eq ==> eq) (fun db => get_entry_by_path db permissions now).
Proof.
  intros db1 db2 Heq p ? <-. unfold get_entry_by_path. destruct Heq as (Hp & Hm & Hr). rewrite <- Hp.
  destruct (path_to_id db1 !! p) as [i|]; [|done].
  by apply get_entry_by_id_proper.
Qed.

Lemma get_metadata_by_id_low permissions now db1 db2 i :
  low_equiv permissions now db1 db2 -> get_metadata_by_id db1 i = get_metadata_by_id db2 i.
Proof. intros (_ & Hm & _). apply Hm. Qed.

Lemma existsb_ext_in {A} (f g : A -> bool) l :
  (forall x, x ∈ l -> f x = g x) -> existsb f l = existsb g l.
Proof.
  induction l as [|a l IH]; intros Hfg; simpl; [done|].
  rewrite (Hfg a) by apply list_elem_of_here. f_equal. apply IH.
  intros x Hx. apply Hfg. by apply list_elem_of_further.
Qed.

(** C12. Non-interference: what a client reads by id or path and what its change
    and query subscriptions are sent does not depend on values and targets its
    token may not read: on two databases that agree on everything it may read,
    every answer and every notification is the same, whatever changed. *)
Theorem noninterference permissions now db1 db2 :
  low_equiv permissions now db1 db2 ->
  (forall i, get_entry_by_id db1 permissions now i = get_entry_by_id db2 permissions now i) /\
  (forall p, get_entry_by_path db1 permissions now p = get_entry_by_path db2 permissions now p) /\
  (forall sub changed store, cs_permissions sub = permissions ->
     change_notify sub changed db1 now store = change_notify sub changed db2 now store) /\
  (forall sub changed store, qs_permissions sub = permissions ->
     query_notify sub changed db1 now store = query_notify sub changed db2 now store).
Proof.
  intros Heq.
  assert (forall i, get_entry_by_id db1 permissions now i = get_entry_by_id db2 permissions now i) as Hid
    by (intros i; by apply get_entry_by_id_proper).
  assert (forall p, get_entry_by_path db1 permissions now p = get_entry_by_path db2 permissions now p)
    as Hpath by (intros p; by apply get_entry_by_path_proper).
  split_and!; [done|done|..].
  - intros sub changed store Hp. rewrite !change_notify_message. unfold change_message.
    destruct changed as [changed|].
    + unfold collect_changed. rewrite Hp. erewrite list_omap_ext_in; [reflexivity|].
      intros [i cf] _. by rewrite Hid.
    + unfold collect_initial. rewrite Hp. erewrite list_omap_ext_in; [reflexivity|].
      intros [i cf] _. by rewrite Hid.
  - intros sub changed store Hp. unfold query_notify, generate_input. rewrite Hp.
    erewrite fold_left_ext by (intros; rewrite Hpath; reflexivity).
    destruct changed as [changed|]; [|done].
    erewrite existsb_ext_in; [reflexivity|]. intros [i cf] _. by rewrite (get_metadata_by_id_low _ _ _ _ _ Heq).
Qed.
End Delivery.

(** ** Witnesses *)

Section DeliveryWitnesses.
#[local] Existing Instance glob_engine.
#[local] Existing Instance one_query_parser.

(** A broker with one registered signal. *)
Definition speed_broker : DataBroker :=
  set_database (DataBroker_new "test") speed_db.

Definition speed_sub : ChangeSubscription :=
  {| cs_entries := {[ 0 := {[ F_Datapoint ]} ]}; cs_sender := 0; cs_permissions := ALLOW_ALL |}.

(** The same broker after a subscription to the value of the signal. *)
Definition watched : DataBroker := snd (subscribe speed_broker ALLOW_ALL 1 (cs_entries speed_sub)).

Definition watch_channel : Channel EntryUpdates :=
  Build_Channel [{| updates := [initial_notification
    (registered 0 0 "Vehicle.Speed" DT_Int8 CT_OnChange ET_Actuator "" None None None) {[ F_Datapoint ]}] |}] false.

Lemma two_ids : NoDup [0; 7].
Proof. by apply (bool_decide_unpack _). Qed.

Lemma watched_inv : db_inv (database watched).
Proof. exact speed_db_inv. Qed.

Lemma watched_channel : change_channels (channels watched) !! 0%nat = Some watch_channel.
Proof. vm_compute. reflexivity. Qed.

Lemma change_notify_content_witness :
  exists msgs, (length msgs <= 1)%nat /\
    snd (change_notify speed_sub (Some {[ 0 := {[ F_Datapoint ]} ]}) speed_db2 2 [Build_Channel [] false])
    = [Build_Channel ([] ++ msgs) false].
Proof.
  destruct (change_notify_content speed_sub {[ 0 := {[ F_Datapoint ]} ]} speed_db2 2
    [Build_Channel [] false] (Build_Channel [] false) _ _ eq_refl eq_refl (surjective_pairing _))
    as (_ & msgs & Hs & Hl & _).
  exists msgs. split; [exact Hl | exact Hs].
Defined.

Lemma update_entries_independent_witness :
  fst (update_entries watched ALLOW_ALL 2 [(0, speed_to 100); (7, speed_to 1)])
  = Err [(7, UE_NotFound)].
Proof.
  rewrite (proj1 (update_entries_independent watched ALLOW_ALL 2 [(0, speed_to 100); (7, speed_to 1)] _ _
    two_ids (surjective_pairing _))).
  vm_compute. reflexivity.
Defined.

Lemma speed_readable i fields e :
  cs_entries speed_sub !! i = Some fields -> entries (database watched) !! i = Some e ->
  can_read (@ALLOW_ALL glob_engine) 2 (path (metadata e)) = Ok tt.
Proof. reflexivity. Qed.

Lemma subscribe_fresh_witness :
  exists sub, sub ∈ change_subscriptions (subscriptions watched) /\ cs_sender sub = 0%nat /\ fresh watched sub.
Proof.
  destruct (subscribe_fresh speed_broker ALLOW_ALL 1 (cs_entries speed_sub) 0%nat watched)
    as (sub & Hin & _ & Hs & _ & _ & Hf).
  - exact speed_db_inv.
  - reflexivity.
  - unfold watched. rewrite (surjective_pairing (subscribe _ _ _ _)) at 1. apply f_equal2; [|reflexivity].
    vm_compute. reflexivity.
  - exists sub. split; [exact Hin|]. split; [exact Hs|exact Hf].
Defined.

Lemma watched_fresh : fresh watched speed_sub.
Proof.
  intros i fields e ch Hs _ He Hc. simpl in Hs. apply lookup_singleton_Some in Hs as [<- <-].
  vm_compute in He. vm_compute in Hc. simplify_eq. vm_compute. reflexivity.
Qed.


Definition target_to (z : Z) : EntryUpdate :=
  with_actuator_target EntryUpdate_default (Some (Some {| ts := 6; value := DV_Int32 z |})).

Lemma repeated_id_masks_change_witness :
  let '(db', changed, errors) :=
    apply_updates speed_db ALLOW_ALL 1 [(0, speed_to 100); (0, target_to 50)] ∅ [] in
  value <$> (datapoint <$> entries db' !! 0) = Some (DV_Int32 100) /\
  change_notify speed_sub (Some changed) db' 1 [Build_Channel [] false] = (Ok tt, [Build_Channel [] false]).
Proof.
  pose proof (repeated_id_masks_change speed_db ALLOW_ALL 1 0 (speed_to 100) (target_to 50)
    {[ F_Datapoint ]} {[ F_ActuatorTarget ]} speed_db2 (snd (update speed_db2 ALLOW_ALL 1 0 (target_to 50)))
    speed_sub {[ F_Datapoint ]}) as Hm.
  destruct (apply_updates _ _ _ _ _ _) as [[db' changed] errors].
  destruct Hm as (-> & _ & _ & Hn); [vm_compute; reflexivity | vm_compute; reflexivity |
    discriminate | reflexivity | by apply disjoint_singleton_l, not_elem_of_singleton |].
  split; [vm_compute; reflexivity|apply Hn].
Defined.

Definition speeding_sub : QuerySubscription :=
  {| qs_query := speeding; qs_sender := 0; qs_permissions := ALLOW_ALL |}.

Lemma query_notify_content_witness :
  query_notify speeding_sub None speed_db2 2 [Build_Channel [] false] =
    (Ok tt, match execute speeding (visible_value speed_db2 ALLOW_ALL 2) with
            | Ok (Some fields) =>
                [Build_Channel [{| qr_fields := map (fun e => {| qf_name := fst e; qf_value := snd e |}) fields |}] false]
            | _ => [Build_Channel [] false]
            end).
Proof.
  rewrite (proj2 (query_notify_content speeding_sub None speed_db2 2 [Build_Channel [] false]
    (Build_Channel [] false) speeding_sql speed_schema speeding_compiles eq_refl eq_refl) I).
  vm_compute. reflexivity.
Defined.

(** A token without permissions cannot tell the signal's value. *)
Lemma noninterference_witness :
  get_entry_by_path speed_db ALLOW_NONE 2 "Vehicle.Speed" = get_entry_by_path speed_db2 ALLOW_NONE 2 "Vehicle.Speed" /\
  entries speed_db !! 0 <> entries speed_db2 !! 0.
Proof.
  split; [|vm_compute; discriminate].
  apply (noninterference ALLOW_NONE 2 speed_db speed_db2). split; [reflexivity|]. split.
  - intros i. destruct (decide (i = 0)) as [->|Hi]; [vm_compute; reflexivity|].
    unfold speed_db2. by rewrite update_other.
  - discriminate.
Defined.
End DeliveryWitnesses.
