(* ===== verification/System.v ===== *)
(** * System: clients interleaved

    The broker as a transition system.  Every step is one critical section of
    src/kuksa_databroker/databroker/src/broker.rs: the operations that release
    one lock before they take the other contribute one step per lock.  An update
    with its notifications, which holds the database all along, is one step;
    [Locks] splits it further and lets it wait for its subscribers.  The
    invariant of the reachable states and what it means for subscribers. *)

From S2P Require Import Prelude Types Regex Glob Permissions Entry Database Query Broker Delivery.

Section System.
Context `{RegexEngine} `{HashOrder} `{SqlParser}.

(** The broker and the change subscriptions that have had their initial
    notification but are not registered yet. *)
Record System := {
  sys_broker : DataBroker;
  pending : list ChangeSubscription
}.

Definition sys_new (version : string) : System :=
  {| sys_broker := DataBroker_new version; pending := [] |}.

Definition drop_change_receiver (b : DataBroker) (c : ChanId) : DataBroker :=
  set_channels b {| change_channels := drop_receiver (change_channels (channels b)) c;
                    query_channels := query_channels (channels b) |}.
Definition drop_query_receiver (b : DataBroker) (c : ChanId) : DataBroker :=
  set_channels b {| change_channels := change_channels (channels b);
                    query_channels := drop_receiver (query_channels (channels b)) c |}.

(** The steps: requests of clients, the second halves of [subscribe] and
    [update_entries] (the cleanup, which the housekeeping task also runs at any
    time), clients going away, and shutdown. *)
Inductive sys_step (s : System) : System -> Prop :=
| sys_add_entry permissions now name dt ct et desc al un :
    Z.of_nat (size (entries (database (sys_broker s)))) < 4294967296 ->
    sys_step s {| sys_broker := snd (add_entry (sys_broker s) permissions now name dt ct et desc al un);
                  pending := pending s |}
| sys_update permissions now us :
    sys_step s {| sys_broker := (update_entries_locked (sys_broker s) permissions now us).2;
                  pending := pending s |}
| sys_cleanup :
    sys_step s {| sys_broker := cleanup_subscriptions (sys_broker s); pending := pending s |}
| sys_subscribe_initial permissions now valid_entries sub b :
    subscribe_initial (sys_broker s) permissions now valid_entries = (Ok sub, b) ->
    sys_step s {| sys_broker := b; pending := pending s ++ [sub] |}
| sys_subscribe_register sub l1 l2 :
    pending s = l1 ++ sub :: l2 ->
    sys_step s {| sys_broker := subscribe_register (sys_broker s) sub; pending := l1 ++ l2 |}
| sys_subscribe_query permissions now sql :
    sys_step s {| sys_broker := snd (subscribe_query (sys_broker s) permissions now sql);
                  pending := pending s |}
| sys_drop_change c :
    sys_step s {| sys_broker := drop_change_receiver (sys_broker s) c; pending := pending s |}
| sys_drop_query c :
    sys_step s {| sys_broker := drop_query_receiver (sys_broker s) c; pending := pending s |}
| sys_shutdown :
    sys_step s {| sys_broker := shutdown (sys_broker s); pending := pending s |}.

(** ** Invariant *)

(** A response that fits the query: one field per projected expression, with
    its name and a value of its compile-time type. *)
Definition response_ok (q : CompiledQuery) (resp : QueryResponse) : Prop :=
  length (qr_fields resp) = length (projection q) /\
  forall k e f, projection q !! k = Some e -> qr_fields resp !! k = Some f ->
    row_typed k e (qf_name f, qf_value f).

(** The query subscriptions and their channels: the queries type-check against
    the present database, every subscription has a channel of its own, and
    everything ever sent on it fits the query. *)
Record queries_inv (db : Database) (subs : list QuerySubscription)
  (store : list (Channel QueryResponse)) : Prop := {
  qi_ok : forall q, q ∈ subs -> query_ok (database_input db) (qs_query q);
  qi_chan : forall q, q ∈ subs -> (qs_sender q < length store)%nat;
  qi_nodup : NoDup (map qs_sender subs);
  qi_sent : forall q ch, q ∈ subs -> store !! qs_sender q = Some ch ->
    Forall (response_ok (qs_query q)) (sent ch)
}.

(** The change subscriptions, registered or pending: something is subscribed
    to, and every subscription has a channel of its own. *)
Record changes_inv (subs : list ChangeSubscription) (n : nat) : Prop := {
  ci_entries : forall c, c ∈ subs -> cs_entries c <> ∅;
  ci_chan : forall c, c ∈ subs -> (cs_sender c < n)%nat;
  ci_nodup : NoDup (map cs_sender subs)
}.

Record sys_inv (s : System) : Prop := {
  si_db : db_inv (database (sys_broker s));
  si_queries : queries_inv (database (sys_broker s))
    (query_subscriptions (subscriptions (sys_broker s))) (query_channels (channels (sys_broker s)));
  si_changes : changes_inv (change_subscriptions (subscriptions (sys_broker s)) ++ pending s)
    (length (change_channels (channels (sys_broker s))))
}.

(** ** The database never forgets a path or changes a type *)

Definition extends (db db' : Database) : Prop :=
  forall name dt, database_input db name = Ok dt -> database_input db' name = Ok dt.

#[export] Instance extends_preorder : PreOrder extends.
Proof. split; [by intros db name dt|]. intros db1 db2 db3 H12 H23 name dt Hn. by apply H23, H12. Qed.

Lemma database_input_Ok db name dt :
  database_input db name = Ok dt <->
  exists i e, path_to_id db !! name = Some i /\ entries db !! i = Some e /\ data_type (metadata e) = dt.
Proof.
  unfold database_input, get_metadata_by_path, get_metadata_by_id. split.
  - intros Hd. destruct (path_to_id db !! name) as [i|]; [|done].
    destruct (entries db !! i) as [e|] eqn:He; [|done]. simpl in Hd. simplify_eq. eauto.
  - intros (i & e & -> & -> & <-). done.
Qed.

Lemma update_extends db permissions now i u : extends db (snd (update db permissions now i u)).
Proof.
  destruct (update db permissions now i u) as [[cf|err] db'] eqn:E; simpl;
    [|by apply update_Err in E as ->].
  apply update_Ok in E as (e & e' & Hl & Ha & _ & -> & _).
  apply apply_fields in Ha as (_ & _ & _ & Hm & _).
  intros name dt (j & f & Hj & Hf & <-)%database_input_Ok. apply database_input_Ok. simpl.
  destruct (decide (j = i)) as [->|Hne].
  - exists i, e'. rewrite lookup_insert_eq. split_and!; [done|done|]. simplify_eq. by rewrite Hm.
  - exists j, f. by rewrite lookup_insert_ne.
Qed.

Lemma apply_updates_extends db permissions now us changed errors :
  extends db (apply_updates db permissions now us changed errors).1.1.
Proof.
  rewrite apply_updates_fold. revert db changed errors.
  induction us as [|[i u] us IH]; intros db changed errors; [done|]. simpl.
  pose proof (update_extends db permissions now i u) as Hu.
  destruct (update db permissions now i u) as [r db1]. etrans; [exact Hu|apply IH].
Qed.

Lemma add_extends db permissions now name dt ct et desc al un :
  db_inv db -> Z.of_nat (size (entries db)) < 4294967296 ->
  extends db (snd (add db permissions now name dt ct et desc al None un)).
Proof.
  intros Hinv Hlt. destruct (add _ _ _ _ _ _ _ _ _ _ _) as [r db'] eqn:E. simpl.
  pose proof (next_id_fresh db Hinv Hlt) as Hfresh.
  apply add_cases in E as [(? & _ & ->) | (_ & _ & [(? & _ & _ & ->) | (Hnone & _ & _ & ->)])]; [done|done|].
  intros n t (j & f & Hj & Hf & <-)%database_input_Ok. apply database_input_Ok. simpl. exists j, f.
  rewrite !lookup_insert_ne by congruence. done.
Qed.

(** ** Preservation *)

(** What a token sees of a database has the types queries are compiled with. *)
Lemma visible_value_typed db permissions now spec :
  db_inv db -> input_typed (database_input db) spec (visible_value db permissions now).
Proof.
  intros Hinv name dt _ (i & e & Hi & He & <-)%database_input_Ok.
  unfold visible_value, get_entry_by_path. rewrite Hi.
  destruct (get_entry_by_id db permissions now i) as [f|] eqn:Hg; [|by left].
  apply get_entry_Ok in Hg as [Hf _]. simplify_eq.
  by destruct (inv_entry _ Hinv _ _ He) as (_ & _ & _ & Ht & _).
Qed.

(** One query notification: only its own channel changes, by at most one
    response, and that fits the query. *)
Lemma query_notify_store self changed db now store c :
  db_inv db -> query_ok (database_input db) (qs_query self) ->
  let store' := (query_notify self changed db now store).2 in
  length store' = length store /\
  (c <> qs_sender self -> store' !! c = store !! c) /\
  (forall ch', store' !! qs_sender self = Some ch' -> exists ch resps,
     store !! qs_sender self = Some ch /\ sent ch' = sent ch ++ resps /\
     Forall (response_ok (qs_query self)) resps).
Proof.
  intros Hinv Hq. unfold query_notify.
  assert (forall ch', store !! qs_sender self = Some ch' -> exists ch resps,
     store !! qs_sender self = Some ch /\ sent ch' = sent ch ++ resps /\
     Forall (response_ok (qs_query self)) resps) as Hsame.
  { intros ch' Hc. exists ch', []. rewrite app_nil_r. split_and!; [done|done|constructor]. }
  pose proof (generate_input_spec self changed db now) as Hg.
  destruct (generate_input self changed db now) as [m|]; [|by simpl].
  rewrite (execute_agree _ _ _ _ Hq (proj2 Hg)).
  destruct (execute _ _) as [[fields|]|] eqn:Ex; [|by simpl|by simpl].
  destruct (execute_typed _ _ _ _ Hq (visible_value_typed db _ now _ Hinv) Ex) as (Hl & Hrow & _).
  unfold send_notification, send. destruct (store !! qs_sender self) as [ch|] eqn:Hch; [|by simpl; rewrite Hch].
  destruct (closed ch); [by simpl; rewrite Hch|]. simpl. split_and!.
  - apply length_insert.
  - intros Hne. by rewrite list_lookup_insert_ne.
  - intros ch'. rewrite list_lookup_insert_eq by by apply lookup_lt_Some in Hch.
    intros [= <-]. eexists ch, _. split_and!; [done|done|]. apply Forall_singleton. split; simpl.
    + by rewrite length_map.
    + intros k e f He Hf. rewrite list_lookup_fmap in Hf.
      destruct (fields !! k) as [[n v]|] eqn:Hk; simplify_eq/=. by apply (Hrow k e (n, v)).
Qed.

Lemma queries_inv_notify db subs all changed now error store :
  db_inv db -> queries_inv db all store -> (forall q, q ∈ subs -> q ∈ all) ->
  queries_inv db all
    (notify_all (fun sub => query_notify sub changed db now) subs error store).2.
Proof.
  intros Hinv. revert error store.
  induction subs as [|q subs IH]; intros error store Hq Hsub; simpl; [done|].
  assert (q ∈ all) as Hin by (apply Hsub; left).
  destruct (query_notify q changed db now store) as [r store'] eqn:E.
  apply IH; [|intros q' Hq'; apply Hsub; by right].
  destruct Hq as [Hok Hch Hnd Hsent].
  assert (length store' = length store) as Hlen.
  { pose proof (query_notify_store q changed db now store 0%nat Hinv (Hok q Hin)) as (Hl & _).
    by rewrite E in Hl. }
  split; [done | by setoid_rewrite Hlen | done |].
  intros q' ch' Hq' Hc'.
  destruct (query_notify_store q changed db now store (qs_sender q') Hinv (Hok q Hin)) as (_ & Hne & Hown).
  rewrite E in Hne, Hown. simpl in *.
  destruct (decide (qs_sender q' = qs_sender q)) as [Heq|Hdiff].
  - assert (q' = q) as -> by (by apply (NoDup_map_inj qs_sender all)).
    destruct (Hown ch' Hc') as (ch & resps & Hc & -> & Hr).
    apply Forall_app. split; [by apply (Hsent q)|done].
  - rewrite Hne in Hc' by done. by apply (Hsent q').
Qed.

Lemma queries_inv_extends db db' subs store :
  extends db db' -> queries_inv db subs store -> queries_inv db' subs store.
Proof.
  intros He [Hok Hch Hnd Hsent]. split; [|done|done|done].
  intros q Hq. eapply query_ok_schema; [exact He|]. by apply Hok.
Qed.

Lemma queries_inv_submseteq db subs subs' store :
  subs' ⊆+ subs -> queries_inv db subs store -> queries_inv db subs' store.
Proof.
  intros Hs [Hok Hch Hnd Hsent].
  assert (forall q, q ∈ subs' -> q ∈ subs) as Hsub by (intros q Hq; by eapply elem_of_submseteq).
  split; [eauto|eauto|by eapply NoDup_map_submseteq|eauto].
Qed.

Lemma drop_receiver_lookup {A} (store : list (Channel A)) c c' ch :
  drop_receiver store c !! c' = Some ch -> exists ch0, store !! c' = Some ch0 /\ sent ch = sent ch0.
Proof.
  unfold drop_receiver. destruct (store !! c) as [ch1|] eqn:Hc; [|by eauto].
  destruct (decide (c = c')) as [<-|Hne].
  - rewrite list_lookup_insert_eq by by apply lookup_lt_Some in Hc. intros [= <-]. eauto.
  - rewrite list_lookup_insert_ne by done. eauto.
Qed.

Lemma drop_receiver_length {A} (store : list (Channel A)) c :
  length (drop_receiver store c) = length store.
Proof. unfold drop_receiver. destruct (store !! c); [apply length_insert|done]. Qed.

Lemma queries_inv_drop db subs store c :
  queries_inv db subs store -> queries_inv db subs (drop_receiver store c).
Proof.
  intros [Hok Hch Hnd Hsent]. split; [done| |done|].
  - intros q Hq. rewrite drop_receiver_length. by apply Hch.
  - intros q ch Hq (ch0 & Hc0 & ->)%drop_receiver_lookup. by apply (Hsent q).
Qed.

(** A new channel at the end of the store. *)
Lemma queries_inv_channel db subs store :
  queries_inv db subs store -> queries_inv db subs (store ++ [Build_Channel [] false]).
Proof.
  intros [Hok Hch Hnd Hsent]. split; [done| |done|].
  - intros q Hq. rewrite length_app. specialize (Hch q Hq). lia.
  - intros q ch Hq. rewrite lookup_app_l by by apply Hch. by apply Hsent.
Qed.

(** Registering a subscription on the last channel of the store. *)
Lemma queries_inv_add db subs store q :
  queries_inv db subs store -> query_ok (database_input db) (qs_query q) ->
  qs_sender q = length store ->
  queries_inv db (subs ++ [q]) (store ++ [Build_Channel [] false]).
Proof.
  intros [Hok Hch Hnd Hsent] Hq Hlen. split.
  - intros q' [?| ->%list_elem_of_singleton]%elem_of_app; auto.
  - intros q' [Hq'| ->%list_elem_of_singleton]%elem_of_app; rewrite length_app; simpl; [|lia].
    specialize (Hch q' Hq'). lia.
  - rewrite map_app. apply NoDup_app. split_and!; [done| |apply NoDup_singleton].
    intros x Hx%list_elem_of_In%in_map_iff ->%list_elem_of_singleton.
    destruct Hx as (q' & Hq' & Hin%list_elem_of_In). specialize (Hch q' Hin). lia.
  - intros q' ch [Hq'| ->%list_elem_of_singleton]%elem_of_app.
    + rewrite lookup_app_l by by apply Hch. by apply Hsent.
    + rewrite Hlen, list_lookup_middle by done. intros [= <-]. constructor.
Qed.

Lemma changes_inv_submseteq subs subs' n n' :
  subs' ⊆+ subs -> (n <= n')%nat -> changes_inv subs n -> changes_inv subs' n'.
Proof.
  intros Hs Hn [He Hch Hnd].
  assert (forall c, c ∈ subs' -> c ∈ subs) as Hsub by (intros c Hc; by eapply elem_of_submseteq).
  split; [eauto| |by eapply NoDup_map_submseteq].
  intros c Hc. specialize (Hch c (Hsub c Hc)). lia.
Qed.

(** A new subscription on the channel [n]. *)
Lemma changes_inv_snoc subs n sub :
  cs_entries sub <> ∅ -> cs_sender sub = n -> changes_inv subs n -> changes_inv (subs ++ [sub]) (S n).
Proof.
  intros Hne Hs [He Hch Hnd]. split.
  - intros c [?| ->%list_elem_of_singleton]%elem_of_app; auto.
  - intros c [Hc| ->%list_elem_of_singleton]%elem_of_app; [specialize (Hch c Hc)|]; lia.
  - rewrite map_app. apply NoDup_app. split_and!; [done| |apply NoDup_singleton].
    intros x Hx%list_elem_of_In%in_map_iff ->%list_elem_of_singleton.
    destruct Hx as (c & Hc & Hin%list_elem_of_In). specialize (Hch c Hin). lia.
Qed.

Lemma change_notify_length self changed db now store :
  length (change_notify self changed db now store).2 = length store.
Proof.
  rewrite change_notify_message. destruct (change_message _ _ _ _); [done|].
  unfold send_notification, send. destruct (store !! cs_sender self) as [ch|]; [|done].
  destruct (closed ch); [done|]. apply length_insert.
Qed.

Lemma notify_all_length subs changed db now error store :
  length (notify_all (fun sub => change_notify sub changed db now) subs error store).2 = length store.
Proof.
  revert error store. induction subs as [|sub subs IH]; intros error store; simpl; [done|].
  pose proof (change_notify_length sub changed db now store) as Hl.
  destruct (change_notify sub changed db now store) as [r store']. rewrite IH. exact Hl.
Qed.

Lemma sys_inv_new v : sys_inv (sys_new v).
Proof.
  split; simpl; [apply db_inv_new| |].
  - split; simpl; try (by intros ? ?%not_elem_of_nil); [constructor|by intros ? ? ?%not_elem_of_nil].
  - split; simpl; try (by intros ? ?%not_elem_of_nil). constructor.
Qed.

Lemma sys_inv_update b p permissions now us :
  sys_inv {| sys_broker := b; pending := p |} ->
  sys_inv {| sys_broker := (update_entries_locked b permissions now us).2; pending := p |}.
Proof.
  intros [Hdb Hq Hc]. simpl in *. unfold update_entries_locked.
  pose proof (apply_updates_inv (database b) permissions now us ∅ [] Hdb) as Hdb'.
  pose proof (apply_updates_extends (database b) permissions now us ∅ []) as Hext.
  destruct (apply_updates _ _ _ _ _ _) as [[db' changed] errors]. simpl in *. unfold notify.
  pose proof (queries_inv_notify db' (query_subscriptions (subscriptions b)) _ (Some changed) now None _
    Hdb' (queries_inv_extends _ _ _ _ Hext Hq) (fun q Hin => Hin)) as Hq'.
  destruct (notify_all _ (query_subscriptions _) _ _) as [err qstore].
  pose proof (notify_all_length (change_subscriptions (subscriptions b)) (Some changed) db' now err
    (change_channels (channels b))) as Hl.
  destruct (notify_all _ (change_subscriptions _) _ _) as [err' cstore].
  split; simpl in *; [done|done|by rewrite Hl].
Qed.

Lemma sys_inv_subscribe_initial b p permissions now valid_entries sub b' :
  sys_inv {| sys_broker := b; pending := p |} ->
  subscribe_initial b permissions now valid_entries = (Ok sub, b') ->
  sys_inv {| sys_broker := b'; pending := p ++ [sub] |}.
Proof.
  intros [Hdb Hq Hc] Hs. simpl in *. unfold subscribe_initial in Hs.
  case_bool_decide as Hne; [done|]. unfold channel in Hs.
  set (sub0 := {| cs_entries := valid_entries; cs_sender := length (change_channels (channels b));
                  cs_permissions := permissions |}) in Hs.
  set (store0 := change_channels (channels b) ++ [Build_Channel [] false]) in Hs.
  pose proof (change_notify_length sub0 None (database b) now store0) as Hl.
  destruct (change_notify sub0 None (database b) now store0) as [r store'].
  injection Hs as <- <-. split; simpl in *; [done|done|].
  rewrite Hl, app_assoc. unfold store0. rewrite length_app, Nat.add_comm. by apply changes_inv_snoc.
Qed.

Lemma sys_inv_subscribe_query b p permissions now sql :
  sys_inv {| sys_broker := b; pending := p |} ->
  sys_inv {| sys_broker := snd (subscribe_query b permissions now sql); pending := p |}.
Proof.
  intros [Hdb Hq Hc]. simpl in *. unfold subscribe_query.
  destruct (compile sql (database_input (database b))) as [cq|] eqn:Ecq; [|done].
  apply compile_ok in Ecq. unfold channel.
  set (sub0 := {| qs_query := cq; qs_sender := length (query_channels (channels b));
                  qs_permissions := permissions |}).
  pose proof (queries_inv_notify (database b) [sub0] _ None now None _ Hdb
    (queries_inv_add _ _ _ sub0 Hq Ecq eq_refl)) as Hq'.
  simpl in Hq'. specialize (Hq' ltac:(intros q ->%list_elem_of_singleton; apply elem_of_app; right; left)).
  destruct (query_notify sub0 None (database b) now _) as [[[]|err] store']; simpl in *.
  - by split.
  - split; simpl; [done| |done]. eapply queries_inv_submseteq; [|exact Hq'].
    by apply submseteq_inserts_r.
Qed.

Lemma sys_inv_step s s' : sys_inv s -> sys_step s s' -> sys_inv s'.
Proof.
  destruct s as [b p]. intros Hinv Hstep. inversion Hstep; subst; simpl in *.
  - destruct Hinv as [Hdb Hq Hc]. simpl in *. unfold add_entry.
    pose proof (add_preserves (database b) permissions now name dt ct et desc al un Hdb H2) as Hdb'.
    pose proof (add_extends (database b) permissions now name dt ct et desc al un Hdb H2) as Hext.
    destruct (add _ _ _ _ _ _ _ _ _ _ _) as [r db']. split; simpl in *; [done| |done].
    by eapply queries_inv_extends.
  - by apply sys_inv_update.
  - destruct Hinv as [Hdb Hq Hc]. split; simpl in *; [done|..].
    + eapply queries_inv_submseteq; [|exact Hq]. apply filter_submseteq.
    + eapply changes_inv_submseteq; [|reflexivity|exact Hc].
      apply submseteq_app; [apply filter_submseteq|done].
  - by eapply sys_inv_subscribe_initial.
  - destruct Hinv as [Hdb Hq Hc]. split; simpl in *; [done|done|].
    eapply changes_inv_submseteq; [|reflexivity|exact Hc].
    rewrite <- app_assoc. simpl. subst p. by apply submseteq_skips_l, submseteq_cons_middle.
  - by apply sys_inv_subscribe_query.
  - destruct Hinv as [Hdb Hq Hc]. split; simpl in *; [done|done|]. by rewrite drop_receiver_length.
  - destruct Hinv as [Hdb Hq Hc]. split; simpl in *; [done| |done]. by apply queries_inv_drop.
  - destruct Hinv as [Hdb Hq Hc]. split; simpl in *; [done|..].
    + eapply queries_inv_submseteq; [|exact Hq]. apply submseteq_nil_l.
    + eapply changes_inv_submseteq; [|reflexivity|exact Hc]. by apply submseteq_inserts_l.
Qed.

Lemma sys_inv_rtc s s' : sys_inv s -> rtc sys_step s s' -> sys_inv s'.
Proof. intros Hinv Hr. induction Hr as [|s1 s2 s3 Hs _ IH]; [done|]. by apply IH, (sys_inv_step s1). Qed.

Lemma update_keeps_entry db permissions now i u j e :
  entries db !! j = Some e ->
  exists e', entries (snd (update db permissions now i u)) !! j = Some e' /\
    metadata e' = set_allowed (metadata e) (allowed (metadata e')).
Proof.
  intros He. destruct (update db permissions now i u) as [[cf|err] db'] eqn:E; simpl.
  - apply update_Ok in E as (e0 & e' & Hl & Ha & _ & -> & _). simpl.
    apply apply_fields in Ha as (_ & _ & _ & Hm & _).
    destruct (decide (j = i)) as [->|Hne].
    + exists e'. rewrite lookup_insert_eq. by simplify_eq.
    + exists e. rewrite lookup_insert_ne by done. by rewrite set_allowed_same.
  - apply update_Err in E as ->. exists e. by rewrite set_allowed_same.
Qed.

Lemma apply_updates_keeps_entry db permissions now us changed errors i e :
  entries db !! i = Some e ->
  exists e', entries (apply_updates db permissions now us changed errors).1.1 !! i = Some e' /\
    metadata e' = set_allowed (metadata e) (allowed (metadata e')).
Proof.
  rewrite apply_updates_fold. revert db changed errors e.
  induction us as [|[j u] us IH]; intros db changed errors e He; simpl.
  - exists e. by rewrite set_allowed_same.
  - destruct (update_keeps_entry db permissions now j u i e He) as (e1 & He1 & Hm1).
    destruct (update db permissions now j u) as [r db1]. simpl in *.
    edestruct (IH db1) as (e2 & He2 & Hm2); [exact He1|].
    exists e2. split; [exact He2|]. rewrite Hm2, Hm1. done.
Qed.

Lemma add_keeps_entry db permissions now name dt ct et desc al un i e :
  db_inv db -> Z.of_nat (size (entries db)) < 4294967296 -> entries db !! i = Some e ->
  entries (snd (add db permissions now name dt ct et desc al None un)) !! i = Some e.
Proof.
  intros Hinv Hlt He. pose proof (next_id_fresh db Hinv Hlt) as Hf.
  destruct (add _ _ _ _ _ _ _ _ _ _ _) as [r db'] eqn:E. simpl.
  apply add_cases in E as [(? & _ & ->) | (_ & _ & [(? & _ & _ & ->) | (_ & _ & _ & ->)])]; [done|done|].
  simpl. rewrite lookup_insert_ne; [done|congruence].
Qed.

(** No step removes an entry or changes its identity. *)
Lemma step_keeps_entry s s' i e :
  sys_inv s -> sys_step s s' -> entries (database (sys_broker s)) !! i = Some e ->
  exists e', entries (database (sys_broker s')) !! i = Some e' /\
    metadata e' = set_allowed (metadata e) (allowed (metadata e')).
Proof.
  destruct s as [b p]. intros Hinv Hstep He.
  assert (exists e', entries (database b) !! i = Some e' /\
    metadata e' = set_allowed (metadata e) (allowed (metadata e'))) as Hsame.
  { exists e. by rewrite set_allowed_same. }
  inversion Hstep as [? ? ? ? ? ? ? ? ? Hlt|permissions now us| |? ? ? ? ? Hsub| |? ? sql| | |];
    subst; simpl in *; try exact Hsame.
  - unfold add_entry. destruct Hinv as [Hdb _ _]. simpl in *.
    pose proof (add_keeps_entry (database b) permissions now name dt ct et desc al un i e Hdb Hlt He) as Ha.
    destruct (add _ _ _ _ _ _ _ _ _ _ _) as [r db']. exists e. by rewrite set_allowed_same.
  - unfold update_entries_locked.
    pose proof (apply_updates_keeps_entry (database b) permissions now us ∅ [] i e He) as Ha.
    destruct (apply_updates _ _ _ _ _ _) as [[db' changed] errors].
    by destruct (notify _ _ _ _ _) as [nr chans].
  - unfold subscribe_initial in Hsub. case_bool_decide; [done|].
    destruct (channel _) as [c0 st0], (change_notify _ _ _ _ _) as [r0 st1].
    by injection Hsub as _ <-.
  - unfold subscribe_query. destruct (compile _ _); [|exact Hsame].
    destruct (channel _) as [c0 st0], (query_notify _ _ _ _ _) as [[|] st1]; exact Hsame.
Qed.

(** ** Theorems *)

(** C9. Every state the broker can reach, under any interleaving of any number
    of clients, satisfies the system invariant: the database invariant; every
    subscription has a channel of its own; every registered query still
    type-checks against the database; and every response ever sent on a
    registered query's channel has the shape and types of the query. *)
Theorem sys_inv_reachable v s : rtc sys_step (sys_new v) s -> sys_inv s.
Proof.
  apply sys_inv_rtc, sys_inv_new.
Qed.

(** C39. Signals are permanent: along any execution a path, once registered,
    keeps its id, its data type and its metadata (the allowed list apart). *)
Theorem registrations_permanent v s s' i e :
  rtc sys_step (sys_new v) s -> rtc sys_step s s' ->
  entries (database (sys_broker s)) !! i = Some e ->
  exists e', entries (database (sys_broker s')) !! i = Some e' /\
    path_to_id (database (sys_broker s')) !! path (metadata e) = Some i /\
    metadata e' = set_allowed (metadata e) (allowed (metadata e')).
Proof.
  intros Hr Hs He.
  assert (sys_inv s) as Hinv by (apply (sys_inv_rtc (sys_new v)); [apply sys_inv_new|done]).
  assert (exists e', entries (database (sys_broker s')) !! i = Some e' /\
    metadata e' = set_allowed (metadata e) (allowed (metadata e'))) as (e' & He' & Hm).
  { clear Hr. revert e He. induction Hs as [s|s1 s2 s3 Hstep Hrest IH]; intros e He.
    - exists e. split; [done|]. by rewrite set_allowed_same.
    - destruct (step_keeps_entry s1 s2 i e Hinv Hstep He) as (e1 & He1 & Hm1).
      destruct (IH (sys_inv_step _ _ Hinv Hstep) e1 He1) as (e2 & He2 & Hm2).
      exists e2. split; [done|]. rewrite Hm2, Hm1. done. }
  exists e'. split_and!; [done| |done].
  pose proof (sys_inv_rtc _ _ Hinv Hs) as [Hdb' _ _].
  destruct (inv_entry _ Hdb' _ _ He') as (_ & Hp & _). by rewrite Hm in Hp.
Qed.
End System.

(** ** Runs *)

Section Runs.
#[local] Existing Instance glob_engine.
#[local] Existing Instance one_query_parser.

Definition speed_sys : System := {| sys_broker := speed_broker; pending := [] |}.

Lemma speed_sys_reachable : rtc sys_step (sys_new "test") speed_sys.
Proof.
  apply rtc_once. change speed_sys with {| sys_broker := snd (add_entry (sys_broker (sys_new "test"))
    ALLOW_ALL 0 "Vehicle.Speed" DT_Int8 CT_OnChange ET_Actuator "" None None); pending := [] |}.
  apply sys_add_entry. vm_compute. reflexivity.
Qed.

(** A subscriber between its two critical sections, and a client's update. *)
Definition half_subscribed : DataBroker :=
  (subscribe_initial speed_broker ALLOW_ALL 1 (cs_entries speed_sub)).2.
Definition raced : DataBroker :=
  subscribe_register (update_entries_locked half_subscribed ALLOW_ALL 2 [(0, speed_to 100)]).2 speed_sub.

(** The initial notification of [subscribe] and the registration are two
    critical sections: an update that falls between them reaches the database
    but not the new subscriber, which is then registered, listening, and out
    of date. *)
Theorem subscribe_race_loses_update :
  exists s, rtc sys_step (sys_new "test") s /\
    speed_sub ∈ change_subscriptions (subscriptions (sys_broker s)) /\
    is_closed (change_channels (channels (sys_broker s))) (cs_sender speed_sub) = false /\
    ~ fresh (sys_broker s) speed_sub.
Proof.
  exists {| sys_broker := raced; pending := [] |}. split_and!.
  - etrans; [exact speed_sys_reachable|].
    apply rtc_l with {| sys_broker := half_subscribed; pending := [] ++ [speed_sub] |};
      [|apply rtc_l with {| sys_broker := (update_entries_locked half_subscribed ALLOW_ALL 2
          [(0, speed_to 100)]).2; pending := [speed_sub] |}; [|apply rtc_once]].
    + apply (sys_subscribe_initial speed_sys ALLOW_ALL 1 (cs_entries speed_sub)). reflexivity.
    + apply (sys_update {| sys_broker := half_subscribed; pending := [speed_sub] |}).
    + by apply (sys_subscribe_register {| sys_broker := (update_entries_locked half_subscribed ALLOW_ALL 2
          [(0, speed_to 100)]).2; pending := [speed_sub] |} speed_sub [] []).
  - change (speed_sub ∈ [speed_sub]). left.
  - vm_compute. reflexivity.
  - intros Hf.
    destruct (entries (database raced) !! 0) as [e|] eqn:He; [|vm_compute in He; discriminate].
    destruct (change_channels (channels raced) !! 0%nat) as [ch|] eqn:Hch;
      [|vm_compute in Hch; discriminate].
    specialize (Hf 0 {[ F_Datapoint ]} e ch eq_refl ltac:(set_solver) He Hch).
    vm_compute in He, Hch. injection He as <-. injection Hch as <-. vm_compute in Hf. discriminate.
Qed.

Lemma sys_inv_reachable_witness : sys_inv speed_sys.
Proof. apply (sys_inv_reachable "test"), speed_sys_reachable. Defined.

Lemma registrations_permanent_witness :
  exists e', entries (database half_subscribed) !! 0 = Some e' /\
    path_to_id (database half_subscribed) !! "Vehicle.Speed" = Some 0.
Proof.
  destruct (registrations_permanent "test" speed_sys
    {| sys_broker := half_subscribed; pending := [] ++ [speed_sub] |} 0
    (registered 0 0 "Vehicle.Speed" DT_Int8 CT_OnChange ET_Actuator "" None None None))
    as (e' & He' & Hp & _).
  - apply speed_sys_reachable.
  - apply rtc_once, (sys_subscribe_initial speed_sys ALLOW_ALL 1 (cs_entries speed_sub)). reflexivity.
  - vm_compute. reflexivity.
  - exists e'. split; [exact He' | exact Hp].
Defined.
End Runs.
