(* ===== verification/Locks.v ===== *)
(** * Locks: the tasks of the broker, their locks and their channels

    The operations of src/kuksa_databroker/databroker/src/broker.rs cut at every
    [await]: each is a task that waits for the database lock or for the lock of
    the subscriptions, and [update_entries] also waits, once per subscriber, for
    room in a channel of ten messages while it holds both locks for reading.
    [System] runs an update in one step; here other tasks and the clients that
    read the channels run in between.

    A lock is given by who holds it, which the states of the tasks determine, and
    by the tasks that wait for it in the order they came; which of them may go
    next is tokio's business, [LockPolicy].  A section under a write lock has no
    [await] in it and is one step. *)

From S2P Require Import Prelude Types Regex Glob Permissions Entry Database Query Broker Delivery.

(** Whether a task may take the lock that these tasks wait for, when nobody
    holds it in a way that excludes it.  Documented: the lock is fair, so the
    first in line may. *)
Class LockPolicy := {
  may_acquire : list nat -> nat -> bool;
  first_may_acquire t queue : may_acquire (t :: queue) t = true
}.

(** tokio's policy: strictly in the order of arrival. *)
Definition fifo : LockPolicy :=
  {| may_acquire := fun queue t => match queue with first :: _ => Nat.eqb first t | [] => false end;
     first_may_acquire := fun t _ => Nat.eqb_refl t |}.

(** [mpsc::channel(10)]. *)
Definition CAPACITY : nat := 10.

Section Locks.
Context `{RegexEngine} `{HashOrder} `{SqlParser} `{LockPolicy}.

(** ** Requests and tasks *)

Inductive Op :=
| Op_add_entry (permissions : Permissions) (now : SystemTime) (name : string) (data_type : DataType)
    (change_type : ChangeType) (entry_type : EntryType) (description : string) (allowed : option DataValue)
    (unit_ : option string)
| Op_read
| Op_update (permissions : Permissions) (now : SystemTime) (updates : list (Z * EntryUpdate))
| Op_subscribe (permissions : Permissions) (now : SystemTime) (valid_entries : gmap Z (gset Field))
| Op_subscribe_query (permissions : Permissions) (now : SystemTime) (query : string)
| Op_housekeeping
| Op_shutdown.

Inductive TaskResult :=
| TR_added (r : result Z RegistrationError)
| TR_read (db : Database)
| TR_updated (r : result unit (list (Z * UpdateError)))
| TR_subscribed (r : result ChanId SubscriptionError)
| TR_queried (r : result ChanId QueryError)
| TR_done
| TR_cancelled.

(** Where a task is. *)
Inductive Task :=
| T_start (op : Op)  (* waits for its first lock *)
| T_notify (now : SystemTime) (changed : Changes) (errors : list (Z * UpdateError))
    (* the updates are applied and the lock downgraded; waits for the subscriptions *)
| T_sending (now : SystemTime) (changed : Changes) (errors : list (Z * UpdateError))
    (queries : list QuerySubscription) (changes : list ChangeSubscription) (failed : bool)
    (* in the loops of [Subscriptions::notify], with what is left of them *)
| T_cleanup (errors : list (Z * UpdateError))
| T_register (subscription : ChangeSubscription)
| T_query_register (subscription : QuerySubscription)
| T_end (r : TaskResult).

Inductive LockId := L_database | L_subscriptions.
#[export] Instance LockId_eq_dec : EqDecision LockId.
Proof. solve_decision. Defined.

(** The lock a task waits for. *)
Definition wants (task : Task) : option LockId :=
  match task with
  | T_start (Op_add_entry _ _ _ _ _ _ _ _ _) | T_start Op_read | T_start (Op_update _ _ _)
  | T_start (Op_subscribe _ _ _) | T_start (Op_subscribe_query _ _ _) => Some L_database
  | T_start Op_housekeeping | T_start Op_shutdown | T_notify _ _ _ | T_cleanup _ | T_register _
  | T_query_register _ => Some L_subscriptions
  | T_sending _ _ _ _ _ _ | T_end _ => None
  end.

(** The read guards a task holds between two steps; write guards do not outlive
    a step. *)
Definition holds_database (task : Task) : bool :=
  match task with T_notify _ _ _ | T_sending _ _ _ _ _ _ | T_query_register _ => true | _ => false end.
Definition holds_subscriptions (task : Task) : bool :=
  match task with T_sending _ _ _ _ _ _ => true | _ => false end.

Record Machine := {
  mc_broker : DataBroker;
  (* the messages each client has taken from its channel *)
  mc_change_received : gmap ChanId nat;
  mc_query_received : gmap ChanId nat;
  mc_tasks : list Task;
  mc_database_queue : list nat;
  mc_subscriptions_queue : list nat
}.

Definition machine_new (version : string) : Machine :=
  {| mc_broker := DataBroker_new version; mc_change_received := ∅; mc_query_received := ∅;
     mc_tasks := []; mc_database_queue := []; mc_subscriptions_queue := [] |}.

Definition queued (lock : LockId) (task : Task) (t : nat) : list nat :=
  if bool_decide (wants task = Some lock) then [t] else [].

Definition leave (t : nat) (queue : list nat) : list nat := filter (fun t' => t' <> t) queue.

(** Task [t] goes on as [task], and leaves the broker as [b]. *)
Definition become (m : Machine) (b : DataBroker) (t : nat) (task : Task) : Machine :=
  {| mc_broker := b; mc_change_received := mc_change_received m; mc_query_received := mc_query_received m;
     mc_tasks := <[t := task]> (mc_tasks m);
     mc_database_queue := leave t (mc_database_queue m) ++ queued L_database task t;
     mc_subscriptions_queue := leave t (mc_subscriptions_queue m) ++ queued L_subscriptions task t |}.

(** ** Taking a lock *)

Definition can_read_database (m : Machine) (t : nat) : bool := may_acquire (mc_database_queue m) t.
Definition can_write_database (m : Machine) (t : nat) : bool :=
  may_acquire (mc_database_queue m) t && negb (existsb holds_database (mc_tasks m)).
Definition can_read_subscriptions (m : Machine) (t : nat) : bool := may_acquire (mc_subscriptions_queue m) t.
Definition can_write_subscriptions (m : Machine) (t : nat) : bool :=
  may_acquire (mc_subscriptions_queue m) t && negb (existsb holds_subscriptions (mc_tasks m)).

(** ** Channels with room for ten messages *)

Definition received (got : gmap ChanId nat) (c : ChanId) : nat := default O (got !! c).

Definition is_full {A} (store : list (Channel A)) (got : gmap ChanId nat) (c : ChanId) : bool :=
  match store !! c with
  | Some ch => (CAPACITY + received got c <=? length (sent ch))%nat
  | None => false
  end.

(** The message [QuerySubscription::notify] sends, if any, like
    [change_message]. *)
Definition query_message (self : QuerySubscription) (changed : option Changes) (db : Database)
  (now : SystemTime) : list QueryResponse :=
  match generate_input self changed db now with
  | Some input =>
      match execute (qs_query self) (fields_input input) with
      | Ok (Some fields) => [{| qr_fields := map (fun e => {| qf_name := fst e; qf_value := snd e |}) fields |}]
      | _ => []
      end
  | None => []
  end.

(** Whether [send] would wait: there is something to send, somebody listens,
    and there is no room. *)
Definition waits {A} (message : list A) (store : list (Channel A)) (got : gmap ChanId nat) (c : ChanId) : bool :=
  match message with [] => false | _ :: _ => negb (is_closed store c) && is_full store got c end.

(** ** Steps of a task *)

(** [AuthorizedAccess::subscribe_query] up to the lock of the subscriptions. *)
Definition query_initial (b : DataBroker) (permissions : Permissions) (now : SystemTime) (query : string)
  : result QuerySubscription QueryError * DataBroker :=
  match compile query (database_input (database b)) with
  | Ok compiled_query =>
      let '(sender, store) := channel (query_channels (channels b)) in
      let subscription := {| qs_query := compiled_query; qs_sender := sender; qs_permissions := permissions |} in
      (* Send the initial execution of query *)
      let '(r, store) := query_notify subscription None (database b) now store in
      let b := set_channels b {| change_channels := change_channels (channels b); query_channels := store |} in
      (match r with Ok _ => Ok subscription | Err _ => Err QE_InternalError end, b)
  | Err e => (Err (QE_CompilationError e), b)
  end.

Definition query_register (b : DataBroker) (subscription : QuerySubscription) : DataBroker :=
  set_subscriptions b (add_query_subscription (subscriptions b) subscription).

(** The first section of an operation, under the lock it waits for. *)
Definition start_step (m : Machine) (t : nat) (op : Op) : option Machine :=
  let b := mc_broker m in
  match op with
  | Op_add_entry permissions now name data_type change_type entry_type description allowed unit_ =>
      if can_write_database m t then
        let '(r, b) := add_entry b permissions now name data_type change_type entry_type description allowed unit_ in
        Some (become m b t (T_end (TR_added r)))
      else None
  | Op_read =>
      if can_read_database m t then Some (become m b t (T_end (TR_read (database b)))) else None
  | Op_update permissions now updates =>
      if can_write_database m t then
        let '(db, changed, errors) := apply_updates (database b) permissions now updates ∅ [] in
        Some (become m (set_database b db) t (T_notify now changed errors))
      else None
  | Op_subscribe permissions now valid_entries =>
      if can_read_database m t then
        match subscribe_initial b permissions now valid_entries with
        | (Ok subscription, b) => Some (become m b t (T_register subscription))
        | (Err err, b) => Some (become m b t (T_end (TR_subscribed (Err err))))
        end
      else None
  | Op_subscribe_query permissions now query =>
      if can_read_database m t then
        match query_initial b permissions now query with
        | (Ok subscription, b) => Some (become m b t (T_query_register subscription))
        | (Err err, b) => Some (become m b t (T_end (TR_queried (Err err))))
        end
      else None
  | Op_housekeeping =>
      if can_write_subscriptions m t then Some (become m (cleanup_subscriptions b) t (T_end TR_done)) else None
  | Op_shutdown =>
      if can_write_subscriptions m t then Some (become m (shutdown b) t (T_end TR_done)) else None
  end.

(** One turn of the loops of [Subscriptions::notify], or their end. *)
Definition sending_step (m : Machine) (t : nat) (now : SystemTime) (changed : Changes)
  (errors : list (Z * UpdateError)) (queries : list QuerySubscription) (changes : list ChangeSubscription)
  (failed : bool) : option Machine :=
  let b := mc_broker m in
  let chans := channels b in
  match queries, changes with
  | sub :: queries, _ =>
      let message := query_message sub (Some changed) (database b) now in
      if waits message (query_channels chans) (mc_query_received m) (qs_sender sub) then None else
      let '(r, store) := query_notify sub (Some changed) (database b) now (query_channels chans) in
      Some (become m (set_channels b {| change_channels := change_channels chans; query_channels := store |}) t
              (T_sending now changed errors queries changes (failed || negb (is_ok r))))
  | [], sub :: changes =>
      let message := change_message sub (Some changed) (database b) now in
      if waits message (change_channels chans) (mc_change_received m) (cs_sender sub) then None else
      let '(r, store) := change_notify sub (Some changed) (database b) now (change_channels chans) in
      Some (become m (set_channels b {| change_channels := store; query_channels := query_channels chans |}) t
              (T_sending now changed errors [] changes (failed || negb (is_ok r))))
  | [], [] =>
      Some (become m b t
              (if failed then T_cleanup errors
               else T_end (TR_updated (match errors with [] => Ok tt | _ => Err errors end))))
  end.

Definition task_step (m : Machine) (t : nat) (task : Task) : option Machine :=
  let b := mc_broker m in
  match task with
  | T_start op => start_step m t op
  | T_notify now changed errors =>
      if can_read_subscriptions m t then
        Some (become m b t (T_sending now changed errors (query_subscriptions (subscriptions b))
                              (change_subscriptions (subscriptions b)) false))
      else None
  | T_sending now changed errors queries changes failed =>
      sending_step m t now changed errors queries changes failed
  | T_cleanup errors =>
      if can_write_subscriptions m t then
        Some (become m (cleanup_subscriptions b) t
                (T_end (TR_updated (match errors with [] => Ok tt | _ => Err errors end))))
      else None
  | T_register subscription =>
      if can_write_subscriptions m t then
        Some (become m (subscribe_register b subscription) t (T_end (TR_subscribed (Ok (cs_sender subscription)))))
      else None
  | T_query_register subscription =>
      if can_write_subscriptions m t then
        Some (become m (query_register b subscription) t (T_end (TR_queried (Ok (qs_sender subscription)))))
      else None
  | T_end _ => None
  end.

(** ** Events *)

(** A request comes in; a task runs to its next [await]; a client takes a
    message or goes away; a request is cancelled, its future dropped at the
    [await] it is at. *)
Inductive LockEvent :=
| LE_request (op : Op)
| LE_run (t : nat)
| LE_receive_change (c : ChanId)
| LE_receive_query (c : ChanId)
| LE_drop_change (c : ChanId)
| LE_drop_query (c : ChanId)
| LE_cancel (t : nat).

(** What a request does before it waits for anything. *)
Definition first_task (op : Op) : Task :=
  match op with
  | Op_subscribe _ _ valid_entries =>
      if bool_decide (valid_entries = ∅) then T_end (TR_subscribed (Err SE_InvalidInput)) else T_start op
  | _ => T_start op
  end.

Definition has_message {A} (store : list (Channel A)) (got : gmap ChanId nat) (c : ChanId) : bool :=
  match store !! c with
  | Some ch => negb (closed ch) && (received got c <? length (sent ch))%nat
  | None => false
  end.

Definition receive_from (got : gmap ChanId nat) (c : ChanId) : gmap ChanId nat := <[c := S (received got c)]> got.

Definition with_received (m : Machine) (change query : gmap ChanId nat) : Machine :=
  {| mc_broker := mc_broker m; mc_change_received := change; mc_query_received := query; mc_tasks := mc_tasks m;
     mc_database_queue := mc_database_queue m; mc_subscriptions_queue := mc_subscriptions_queue m |}.

Definition with_channels (m : Machine) (chans : Channels) : Machine :=
  {| mc_broker := set_channels (mc_broker m) chans; mc_change_received := mc_change_received m;
     mc_query_received := mc_query_received m; mc_tasks := mc_tasks m;
     mc_database_queue := mc_database_queue m; mc_subscriptions_queue := mc_subscriptions_queue m |}.

Definition lock_step (m : Machine) (event : LockEvent) : option Machine :=
  let chans := channels (mc_broker m) in
  match event with
  | LE_request op =>
      let task := first_task op in
      let t := length (mc_tasks m) in
      Some {| mc_broker := mc_broker m; mc_change_received := mc_change_received m;
              mc_query_received := mc_query_received m; mc_tasks := mc_tasks m ++ [task];
              mc_database_queue := mc_database_queue m ++ queued L_database task t;
              mc_subscriptions_queue := mc_subscriptions_queue m ++ queued L_subscriptions task t |}
  | LE_run t =>
      match mc_tasks m !! t with Some task => task_step m t task | None => None end
  | LE_receive_change c =>
      if has_message (change_channels chans) (mc_change_received m) c
      then Some (with_received m (receive_from (mc_change_received m) c) (mc_query_received m)) else None
  | LE_receive_query c =>
      if has_message (query_channels chans) (mc_query_received m) c
      then Some (with_received m (mc_change_received m) (receive_from (mc_query_received m) c)) else None
  | LE_drop_change c =>
      Some (with_channels m {| change_channels := drop_receiver (change_channels chans) c;
                               query_channels := query_channels chans |})
  | LE_drop_query c =>
      Some (with_channels m {| change_channels := change_channels chans;
                               query_channels := drop_receiver (query_channels chans) c |})
  | LE_cancel t =>
      match mc_tasks m !! t with
      | Some (T_end _) | None => None
      | Some _ => Some (become m (mc_broker m) t (T_end TR_cancelled))
      end
  end.

(** A sequence of events, each of which can happen. *)
Fixpoint lock_run (m : Machine) (events : list LockEvent) : option Machine :=
  match events with
  | [] => Some m
  | event :: events =>
      match lock_step m event with Some m => lock_run m events | None => None end
  end.
End Locks.
