(* ===== verification/LocksSpec.v ===== *)
(** * LocksSpec: what the tasks of the broker do to each other

    The theorems of [Locks]: the invariant of every reachable state, that no
    reachable state is a deadlock, that a task run alone does what [Broker]
    says, and what a subscriber that does not read does to everybody else. *)

From S2P Require Import Prelude Types Regex Glob Permissions Entry Database Query Broker Delivery System Locks.

Section LocksSpec.
Context `{RegexEngine} `{HashOrder} `{SqlParser} `{LockPolicy}.

(** ** The invariant *)

Definition waiting_change (task : Task) : option ChangeSubscription :=
  match task with T_register sub => Some sub | _ => None end.
Definition waiting_query (task : Task) : option QuerySubscription :=
  match task with T_query_register sub => Some sub | _ => None end.

(** An update between the downgrade of its lock and the end of its
    notifications. *)
Definition updating (task : Task) : bool :=
  match task with T_notify _ _ _ | T_sending _ _ _ _ _ _ => true | _ => false end.

(** The invariant of [System], for subscriptions that are registered or wait to
    be. *)
Record broker_inv (b : DataBroker) (pq : list QuerySubscription) (pc : list ChangeSubscription) : Prop := {
  bi_db : db_inv (database b);
  bi_queries : queries_inv (database b) (query_subscriptions (subscriptions b) ++ pq) (query_channels (channels b));
  bi_changes : changes_inv (change_subscriptions (subscriptions b) ++ pc) (length (change_channels (channels b)))
}.

(** No client has taken more than was sent, and no channel holds more than its
    capacity. *)
Record room_inv {A} (store : list (Channel A)) (got : gmap ChanId nat) : Prop := {
  ri_room c ch : store !! c = Some ch -> (received got c <= length (sent ch) <= CAPACITY + received got c)%nat;
  ri_none c : (length store <= c)%nat -> received got c = O
}.

(** A queue holds exactly the tasks that wait for the lock, once each. *)
Record queue_inv (lock : LockId) (queue : list nat) (tasks : list Task) : Prop := {
  qu_nodup : NoDup queue;
  qu_waiting t : t ∈ queue <-> exists task, tasks !! t = Some task /\ wants task = Some lock
}.

(** The loops of [notify] are over the registered subscriptions. *)
Definition sending_ok (s : Subscriptions) (task : Task) : Prop :=
  match task with
  | T_sending _ _ _ queries changes _ =>
      queries `suffix_of` query_subscriptions s /\ changes `suffix_of` change_subscriptions s
  | _ => True
  end.

(** The data: broker and channels. *)
Record data_inv (m : Machine) : Prop := {
  mi_broker : broker_inv (mc_broker m) (omap waiting_query (mc_tasks m)) (omap waiting_change (mc_tasks m));
  mi_change : room_inv (change_channels (channels (mc_broker m))) (mc_change_received m);
  mi_query : room_inv (query_channels (channels (mc_broker m))) (mc_query_received m)
}.

(** The tasks: queues, loops, and at most one update under way. *)
Record shape_inv (m : Machine) : Prop := {
  sh_database_queue : queue_inv L_database (mc_database_queue m) (mc_tasks m);
  sh_subscriptions_queue : queue_inv L_subscriptions (mc_subscriptions_queue m) (mc_tasks m);
  sh_sending t task : mc_tasks m !! t = Some task -> sending_ok (subscriptions (mc_broker m)) task;
  sh_one_update t1 t2 task1 task2 : mc_tasks m !! t1 = Some task1 -> mc_tasks m !! t2 = Some task2 ->
    updating task1 = true -> updating task2 = true -> t1 = t2
}.

Record machine_inv (m : Machine) : Prop := {
  mi_data : data_inv m;
  mi_shape : shape_inv m
}.

Lemma broker_inv_sub b pq pc pq' pc' :
  pq' ⊆+ pq -> pc' ⊆+ pc -> broker_inv b pq pc -> broker_inv b pq' pc'.
Proof.
  intros Hq Hc [Hdb Hqs Hcs]. split; [done|..].
  - eapply queries_inv_submseteq; [|exact Hqs]. by apply submseteq_skips_l.
  - eapply changes_inv_submseteq; [|reflexivity|exact Hcs]. by apply submseteq_skips_l.
Qed.

(** The invariant of [System] is part of it. *)
Lemma broker_inv_sys b pq pc : broker_inv b pq pc -> sys_inv {| sys_broker := b; pending := pc |}.
Proof.
  intros [Hdb Hqs Hcs]. split; simpl; [done| |done].
  eapply queries_inv_submseteq; [|exact Hqs]. by apply submseteq_inserts_r.
Qed.

Lemma room_inv_new {A} : room_inv (A := A) [] ∅.
Proof. split; [by intros [|c] ch|done]. Qed.

Lemma machine_inv_new v : machine_inv (machine_new v).
Proof.
  assert (forall lock, queue_inv lock [] []) as Hqueue.
  { intros lock. split; [constructor|]. intros t. split; [by intros ?%not_elem_of_nil|by intros (? & ? & _)]. }
  split; split; simpl; try apply room_inv_new; try apply Hqueue; try done.
  destruct (sys_inv_new v) as [Hdb Hq Hc]. by split; simpl; rewrite ?app_nil_r.
Qed.

(** ** Tasks in the list *)

(** One task goes on: what the others give stays. *)
Lemma omap_insert {B} (f : Task -> option B) (tasks : list Task) t task :
  tasks !! t = Some task ->
  exists rest, omap f tasks ≡ₚ option_list (f task) ++ rest /\
    forall task', omap f (<[t := task']> tasks) ≡ₚ option_list (f task') ++ rest.
Proof.
  revert t. induction tasks as [|x tasks IH]; intros t Ht; [done|]. destruct t as [|t]; simpl in Ht.
  - injection Ht as ->. exists (omap f tasks). split.
    + simpl. by destruct (f task).
    + intros task'. simpl. by destruct (f task').
  - destruct (IH t Ht) as (rest & Hr & Hr'). exists (option_list (f x) ++ rest).
    assert (omap f (x :: tasks) = option_list (f x) ++ omap f tasks) as Hx by (simpl; by destruct (f x)).
    split.
    + rewrite Hx, Hr, !app_assoc. f_equiv. apply Permutation_app_comm.
    + intros task'. simpl. specialize (Hr' task').
      destruct (f x); simpl; rewrite Hr'; [|done]. apply Permutation_middle.
Qed.

Lemma elem_of_leave t t' queue : t' ∈ leave t queue <-> t' ∈ queue /\ t' <> t.
Proof. unfold leave. rewrite list_elem_of_filter. tauto. Qed.

Lemma queue_inv_become lock queue tasks t task task' :
  queue_inv lock queue tasks -> tasks !! t = Some task ->
  queue_inv lock (leave t queue ++ queued lock task' t) (<[t := task']> tasks).
Proof.
  intros [Hnd Hw] Ht. pose proof (lookup_lt_Some _ _ _ Ht) as Hlt. split.
  - apply NoDup_app. split_and!.
    + by apply NoDup_filter.
    + intros t' [_ Hne]%elem_of_leave. unfold queued. case_bool_decide; [|apply not_elem_of_nil].
      by intros ->%list_elem_of_singleton.
    + unfold queued. case_bool_decide; [apply NoDup_singleton|constructor].
  - intros t'. rewrite elem_of_app, elem_of_leave, Hw. unfold queued.
    destruct (decide (t' = t)) as [->|Hne].
    + rewrite list_lookup_insert_eq by done. case_bool_decide as Hw'.
      * rewrite list_elem_of_singleton. split; [intros _; by exists task'|intros _; by right].
      * split; [intros [[_ ?]|?%not_elem_of_nil]; done|]. by intros (? & [= <-] & ?).
    + rewrite list_lookup_insert_ne by done. split.
      * intros [[? _]|Ht']; [done|]. case_bool_decide; [by apply list_elem_of_singleton in Ht'|].
        by apply not_elem_of_nil in Ht'.
      * intros Hx. left. done.
Qed.

Lemma existsb_false_lookup {B} (f : B -> bool) (l : list B) i x :
  existsb f l = false -> l !! i = Some x -> f x = false.
Proof.
  intros Hf Hx. apply not_true_iff_false. intros Ht. apply not_true_iff_false in Hf. apply Hf.
  apply existsb_exists. exists x. split; [by apply list_elem_of_In, (list_elem_of_lookup_2 _ i)|done].
Qed.

(** The invariant is kept when one task goes on: what it does to the broker and
    the channels, and what it does to the other tasks. *)
Lemma become_data m b' t task task' :
  data_inv m -> mc_tasks m !! t = Some task ->
  (forall pq pc,
     broker_inv (mc_broker m) (option_list (waiting_query task) ++ pq) (option_list (waiting_change task) ++ pc) ->
     broker_inv b' (option_list (waiting_query task') ++ pq) (option_list (waiting_change task') ++ pc)) ->
  room_inv (change_channels (channels b')) (mc_change_received m) ->
  room_inv (query_channels (channels b')) (mc_query_received m) ->
  data_inv (become m b' t task').
Proof.
  intros [Hb _ _] Ht Hb' Hch Hqu. split; simpl; [|done|done].
  destruct (omap_insert waiting_query _ _ _ Ht) as (rq & Hq1 & Hq2).
  destruct (omap_insert waiting_change _ _ _ Ht) as (rc & Hc1 & Hc2).
  eapply broker_inv_sub; [by rewrite (Hq2 task')|by rewrite (Hc2 task')|]. apply Hb'.
  eapply broker_inv_sub; [by rewrite <- Hq1|by rewrite <- Hc1|done].
Qed.

(** A section that leaves the channels alone. *)
Lemma become_section m b' t task task' :
  data_inv m -> mc_tasks m !! t = Some task ->
  (forall pq pc,
     broker_inv (mc_broker m) (option_list (waiting_query task) ++ pq) (option_list (waiting_change task) ++ pc) ->
     broker_inv b' (option_list (waiting_query task') ++ pq) (option_list (waiting_change task') ++ pc)) ->
  channels b' = channels (mc_broker m) ->
  data_inv (become m b' t task').
Proof.
  intros Hinv Ht Hb Hc. eapply become_data; [done|done|done|rewrite Hc; apply mi_change, Hinv|].
  rewrite Hc. apply mi_query, Hinv.
Qed.

(** What a step may do to the other tasks. *)
Record step_shape (m : Machine) (task : Task) (b' : DataBroker) (task' : Task) : Prop := {
  ss_subscriptions :
    subscriptions b' = subscriptions (mc_broker m) \/ existsb holds_subscriptions (mc_tasks m) = false;
  ss_sending : sending_ok (subscriptions b') task';
  ss_updating :
    updating task = updating task' \/ updating task' = false \/ existsb holds_database (mc_tasks m) = false
}.

Lemma become_shape m b' t task task' :
  shape_inv m -> mc_tasks m !! t = Some task -> step_shape m task b' task' -> shape_inv (become m b' t task').
Proof.
  intros [Hdq Hsq Hs Hone] Ht [Hsubs Hok Hup]. pose proof (lookup_lt_Some _ _ _ Ht) as Hlt.
  split; simpl; [by eapply queue_inv_become|by eapply queue_inv_become| |].
  - intros t' x. destruct (decide (t' = t)) as [->|Hne].
    + rewrite list_lookup_insert_eq by done. by intros [= <-].
    + rewrite list_lookup_insert_ne by done. intros Hx. destruct Hsubs as [->|Hno]; [by eapply Hs|].
      pose proof (existsb_false_lookup _ _ _ _ Hno Hx) as Hf. by destruct x.
  - assert (forall t' x, t' <> t -> mc_tasks m !! t' = Some x -> updating task' = true -> updating x = true -> False)
      as Hother.
    { intros t' x Hne Hx Hu' Hux. destruct Hup as [Hu|[Hu|Hno]]; [|congruence|].
      - apply Hne, (Hone t' t x task); congruence.
      - pose proof (existsb_false_lookup _ _ _ _ Hno Hx) as Hf. by destruct x. }
    intros t1 t2 x1 x2 Hx1 Hx2 Hu1 Hu2.
    destruct (decide (t1 = t)) as [->|N1], (decide (t2 = t)) as [->|N2]; [done|..];
      rewrite ?list_lookup_insert_eq, ?list_lookup_insert_ne in * by done; simplify_eq.
    + exfalso. by eapply Hother.
    + exfalso. by eapply Hother.
    + by eapply Hone.
Qed.

(** ** Channels *)

(** Both kinds of [notify] are: send the message, if there is one. *)
Lemma query_notify_message self changed db now store :
  query_notify self changed db now store =
    match query_message self changed db now with
    | [] => (Ok tt, store)
    | message :: _ => send_notification store (qs_sender self) message
    end.
Proof.
  unfold query_notify, query_message. destruct (generate_input _ _ _ _); [|done].
  by destruct (execute _ _) as [[]|].
Qed.

Lemma room_send {A} (store : list (Channel A)) got c message :
  room_inv store got -> is_closed store c = true \/ is_full store got c = false ->
  room_inv (send_notification store c message).2 got.
Proof.
  intros [Hr Hn] Hroom. unfold send_notification, send. destruct (store !! c) as [ch|] eqn:Hc; [|done].
  destruct (closed ch) eqn:Ecl; [done|]. pose proof (lookup_lt_Some _ _ _ Hc) as Hlt. cbn [snd]. split.
  - intros c' ch'. destruct (decide (c' = c)) as [->|Hne]; [|by rewrite list_lookup_insert_ne; auto].
    rewrite list_lookup_insert_eq by done. intros [= <-]. cbn [sent]. rewrite length_app. cbn [length].
    specialize (Hr c ch Hc). destruct Hroom as [Hcl|Hfull].
    + unfold is_closed in Hcl. rewrite Hc in Hcl. congruence.
    + unfold is_full in Hfull. rewrite Hc in Hfull. apply Nat.leb_gt in Hfull. lia.
  - intros c'. rewrite length_insert. apply Hn.
Qed.

(** [waits] is the only reason not to send. *)
Lemma room_notify {A} (store : list (Channel A)) got c messages :
  room_inv store got -> waits messages store got c = false ->
  room_inv (match messages with [] => (Ok tt, store) | message :: _ => send_notification store c message end).2 got.
Proof.
  intros Hr Hw. destruct messages as [|message messages]; [done|]. apply room_send; [done|].
  unfold waits in Hw. destruct (is_closed store c); [by left|by right].
Qed.

Lemma room_new {A} (store : list (Channel A)) got messages :
  room_inv store got -> (length messages <= CAPACITY)%nat -> room_inv (store ++ [Build_Channel messages false]) got.
Proof.
  intros [Hr Hn] Hl. split.
  - intros c ch [Hc|[Hge Hc]]%lookup_app_Some; [by apply Hr|].
    apply list_lookup_singleton_Some in Hc as [_ <-]. cbn [sent]. rewrite (Hn c Hge). lia.
  - intros c. rewrite length_app. intros Hge. apply Hn. lia.
Qed.

Lemma room_drop {A} (store : list (Channel A)) got c : room_inv store got -> room_inv (drop_receiver store c) got.
Proof.
  intros [Hr Hn]. split.
  - intros c' ch (ch0 & Hc & ->)%drop_receiver_lookup. by apply Hr.
  - intros c'. rewrite drop_receiver_length. apply Hn.
Qed.

Lemma room_receive {A} (store : list (Channel A)) got c :
  room_inv store got -> has_message store got c = true -> room_inv store (receive_from got c).
Proof.
  intros [Hr Hn]. unfold has_message. destruct (store !! c) as [ch|] eqn:Hc; [|done].
  intros [_ Hlt%Nat.ltb_lt]%andb_true_iff. pose proof (lookup_lt_Some _ _ _ Hc) as Hlen.
  assert (forall c', received (receive_from got c) c' = if decide (c' = c) then S (received got c) else received got c')
    as Hrec.
  { intros c'. unfold received, receive_from. destruct (decide (c' = c)) as [->|Hne].
    - by rewrite lookup_insert_eq.
    - by rewrite lookup_insert_ne. }
  split; intros c'; rewrite Hrec; destruct (decide (c' = c)) as [->|Hne]; auto.
  - intros ch' Hc'. specialize (Hr c ch' Hc'). simplify_eq. lia.
  - lia.
Qed.

(** The first message on a new channel. *)
Lemma send_new {A} (store : list (Channel A)) message :
  send_notification (store ++ [Build_Channel [] false]) (length store) message =
    (Ok tt, store ++ [Build_Channel [message] false]).
Proof.
  unfold send_notification, send. rewrite list_lookup_middle by done. simpl.
  by rewrite insert_app_r_alt, Nat.sub_diag by lia.
Qed.

(** ** Sections *)

Lemma broker_inv_register b pq pc sub :
  broker_inv b pq (sub :: pc) -> broker_inv (subscribe_register b sub) pq pc.
Proof.
  intros [Hdb Hq Hc]. split; simpl; [done|done|]. by rewrite <- app_assoc.
Qed.

Lemma broker_inv_query_register b pq pc sub :
  broker_inv b (sub :: pq) pc -> broker_inv (query_register b sub) pq pc.
Proof. intros [Hdb Hq Hc]. split; simpl; [done| |done]. by rewrite <- app_assoc. Qed.

Lemma broker_inv_cleanup b pq pc : broker_inv b pq pc -> broker_inv (cleanup_subscriptions b) pq pc.
Proof.
  intros [Hdb Hq Hc]. split; simpl; [done|..].
  - eapply queries_inv_submseteq; [|exact Hq]. apply submseteq_app; [apply filter_submseteq|done].
  - eapply changes_inv_submseteq; [|reflexivity|exact Hc]. apply submseteq_app; [apply filter_submseteq|done].
Qed.

Lemma broker_inv_shutdown b pq pc : broker_inv b pq pc -> broker_inv (shutdown b) pq pc.
Proof.
  intros [Hdb Hq Hc]. split; simpl; [done|..].
  - eapply queries_inv_submseteq; [|exact Hq]. by apply submseteq_inserts_l.
  - eapply changes_inv_submseteq; [|reflexivity|exact Hc]. by apply submseteq_inserts_l.
Qed.

(** Another database that extends this one. *)
Lemma broker_inv_database b db pq pc :
  db_inv db -> extends (database b) db -> broker_inv b pq pc -> broker_inv (set_database b db) pq pc.
Proof. intros Hdb' He [Hdb Hq Hc]. split; simpl; [done| |done]. by eapply queries_inv_extends. Qed.

Lemma broker_inv_subscribe b pq pc permissions now valid_entries sub b' :
  broker_inv b pq pc -> subscribe_initial b permissions now valid_entries = (Ok sub, b') ->
  broker_inv b' pq (sub :: pc) /\ subscriptions b' = subscriptions b /\
  query_channels (channels b') = query_channels (channels b) /\
  exists message, change_channels (channels b') = change_channels (channels b) ++ [Build_Channel [message] false].
Proof.
  intros [Hdb Hq Hc] Hs. unfold subscribe_initial in Hs. case_bool_decide as Hne; [done|]. simpl in Hs.
  rewrite send_new in Hs. injection Hs as <- <-. split_and!; [|done|done|by eexists].
  split; simpl; [done|done|]. rewrite length_app, Nat.add_comm.
  eapply changes_inv_submseteq; [|reflexivity|].
  2: { eapply (changes_inv_snoc _ _ {| cs_entries := valid_entries; cs_sender := length (change_channels (channels b));
         cs_permissions := permissions |}); [done|done|exact Hc]. }
  rewrite <- app_assoc. apply submseteq_skips_l. by rewrite Permutation_app_comm.
Qed.

Lemma query_initial_subscribe b permissions now query :
  subscribe_query b permissions now query =
    match query_initial b permissions now query with
    | (Ok sub, b) => (Ok (qs_sender sub), query_register b sub)
    | (Err err, b) => (Err err, b)
    end.
Proof.
  unfold subscribe_query, query_initial. destruct (compile _ _); [|done]. simpl.
  by destruct (query_notify _ _ _ _ _) as [[[]|[]] store].
Qed.

Lemma broker_inv_query b pq pc permissions now query r b' :
  broker_inv b pq pc -> query_initial b permissions now query = (r, b') ->
  broker_inv b' (match r with Ok sub => [sub] | Err _ => [] end ++ pq) pc /\ subscriptions b' = subscriptions b /\
  change_channels (channels b') = change_channels (channels b) /\
  (query_channels (channels b') = query_channels (channels b) \/
   exists messages, (length messages <= 1)%nat /\
     query_channels (channels b') = query_channels (channels b) ++ [Build_Channel messages false]).
Proof.
  intros [Hdb Hq Hc]. unfold query_initial.
  destruct (compile query (database_input (database b))) as [cq|e] eqn:Ecq; [|intros [= <- <-]; split_and!; by auto].
  apply compile_ok in Ecq. unfold channel.
  set (sub0 := {| qs_query := cq; qs_sender := length (query_channels (channels b)); qs_permissions := permissions |}).
  pose proof (queries_inv_notify (database b) [sub0] _ None now None _ Hdb
    (queries_inv_add _ _ _ sub0 Hq Ecq eq_refl)) as Hq'.
  simpl in Hq'. specialize (Hq' ltac:(intros q ->%list_elem_of_singleton; apply elem_of_app; right; left)).
  rewrite query_notify_message in Hq' |- *. change (qs_sender sub0) with (length (query_channels (channels b))) in *.
  assert (exists messages, (length messages <= 1)%nat /\
    match query_message sub0 None (database b) now with
    | [] => (Ok tt, query_channels (channels b) ++ [Build_Channel [] false])
    | message :: _ => send_notification (query_channels (channels b) ++ [Build_Channel [] false])
                        (length (query_channels (channels b))) message
    end = (Ok tt, query_channels (channels b) ++ [Build_Channel messages false])) as (messages & Hl & Heq).
  { destruct (query_message _ _ _ _) as [|message l]; [exists []; split; [simpl; lia|done]|].
    exists [message]. split; [simpl; lia|apply send_new]. }
  rewrite Heq in *. intros [= <- <-]. split_and!; [|done|done|right; by exists messages].
  split; simpl in *; [done| |done]. eapply queries_inv_submseteq; [|exact Hq'].
  rewrite <- app_assoc. apply submseteq_skips_l. by rewrite Permutation_app_comm.
Qed.

(** One query subscriber is notified. *)
Lemma broker_inv_query_sent b pq pc sub changed now :
  broker_inv b pq pc -> sub ∈ query_subscriptions (subscriptions b) ->
  broker_inv (set_channels b {| change_channels := change_channels (channels b);
    query_channels := (query_notify sub changed (database b) now (query_channels (channels b))).2 |}) pq pc.
Proof.
  intros [Hdb Hq Hc] Hin. split; simpl; [done| |done].
  pose proof (queries_inv_notify (database b) [sub] _ changed now None _ Hdb Hq) as Hq'.
  simpl in Hq'. destruct (query_notify sub changed (database b) now _) as [r store]. apply Hq'.
  intros q ->%list_elem_of_singleton. apply elem_of_app. by left.
Qed.

Lemma broker_inv_change_sent b pq pc sub changed now :
  broker_inv b pq pc ->
  broker_inv (set_channels b {|
    change_channels := (change_notify sub changed (database b) now (change_channels (channels b))).2;
    query_channels := query_channels (channels b) |}) pq pc.
Proof. intros [Hdb Hq Hc]. split; simpl; [done|done|]. by rewrite change_notify_length. Qed.

(** ** Measures *)

Definition subscribers (s : Subscriptions) : nat :=
  (length (query_subscriptions s) + length (change_subscriptions s))%nat.

(** A task that may register one more subscriber. *)
Definition registers (task : Task) : nat :=
  match task with
  | T_start (Op_subscribe _ _ _) | T_start (Op_subscribe_query _ _ _) | T_register _ | T_query_register _ => 1
  | _ => 0
  end%nat.

(** The steps a task has left when there are at most [n] subscribers. *)
Definition weight (n : nat) (task : Task) : nat :=
  match task with
  | T_start (Op_update _ _ _) => n + 4
  | T_notify _ _ _ => n + 3
  | T_sending _ _ _ queries changes _ => length queries + length changes + 2
  | T_start (Op_subscribe _ _ _) | T_start (Op_subscribe_query _ _ _) => 2
  | T_start _ | T_cleanup _ | T_register _ | T_query_register _ => 1
  | T_end _ => 0
  end%nat.

Definition most_subscribers (m : Machine) : nat :=
  (subscribers (subscriptions (mc_broker m)) + sum_list_with registers (mc_tasks m))%nat.
Definition steps_left (m : Machine) : nat := sum_list_with (weight (most_subscribers m)) (mc_tasks m).

Lemma sum_insert {B} (f : B -> nat) l t x y :
  l !! t = Some x -> (sum_list_with f (<[t := y]> l) + f x = sum_list_with f l + f y)%nat.
Proof.
  revert t. induction l as [|z l IH]; intros t Ht; [done|]. destruct t as [|t]; simpl in *.
  - injection Ht as ->. lia.
  - specialize (IH t Ht). lia.
Qed.

Lemma sum_le {B} (f g : B -> nat) l :
  (forall x, (f x <= g x)%nat) -> (sum_list_with f l <= sum_list_with g l)%nat.
Proof. intros Hfg. induction l as [|x l IH]; simpl; [done|]. specialize (Hfg x). lia. Qed.

Lemma weight_mono n n' task : (n <= n')%nat -> (weight n task <= weight n' task)%nat.
Proof. intros Hn. destruct task as [[]| | | | | |]; simpl; lia. Qed.

(** What a step of [task] gives: the task it becomes, what it did to the others,
    and that there is less left to do. *)
Record advances (m : Machine) (t : nat) (task : Task) (m' : Machine) : Prop := {
  ad_become : exists b' task', m' = become m b' t task' /\ step_shape m task b' task' /\
    (subscribers (subscriptions b') + registers task' <=
       subscribers (subscriptions (mc_broker m)) + registers task)%nat /\
    forall n, (subscribers (subscriptions (mc_broker m)) <= n)%nat -> (weight n task' < weight n task)%nat
}.

Lemma advances_less m t task m' :
  mc_tasks m !! t = Some task -> advances m t task m' -> (steps_left m' < steps_left m)%nat.
Proof.
  intros Ht [(b' & task' & -> & _ & Hr & Hw)].
  assert (most_subscribers (become m b' t task') <= most_subscribers m)%nat as Hmost.
  { unfold most_subscribers. simpl. pose proof (sum_insert registers _ _ _ task' Ht). lia. }
  unfold steps_left. simpl.
  pose proof (sum_le _ _ (<[t := task']> (mc_tasks m)) (fun x => weight_mono _ _ x Hmost)) as Hle.
  pose proof (sum_insert (weight (most_subscribers m)) _ _ _ task' Ht) as Hs.
  specialize (Hw (most_subscribers m) ltac:(unfold most_subscribers; lia)). lia.
Qed.

Lemma advances_shape m t task m' :
  shape_inv m -> mc_tasks m !! t = Some task -> advances m t task m' -> shape_inv m'.
Proof. intros Hs Ht [(b' & task' & -> & Hss & _)]. by eapply become_shape. Qed.

(** ** Steps of a task *)

Lemma can_write_database_free m t :
  can_write_database m t = true -> existsb holds_database (mc_tasks m) = false.
Proof. unfold can_write_database. intros [_ Hn]%andb_true_iff. by apply negb_true_iff in Hn. Qed.

Lemma can_write_subscriptions_free m t :
  can_write_subscriptions m t = true -> existsb holds_subscriptions (mc_tasks m) = false.
Proof. unfold can_write_subscriptions. intros [_ Hn]%andb_true_iff. by apply negb_true_iff in Hn. Qed.

Lemma cleanup_subscribers b : (subscribers (subscriptions (cleanup_subscriptions b)) <= subscribers (subscriptions b))%nat.
Proof.
  unfold subscribers. simpl.
  pose proof (submseteq_length _ _ (filter_submseteq
    (fun sub => negb (is_closed (query_channels (channels b)) (qs_sender sub))) (query_subscriptions (subscriptions b)))).
  pose proof (submseteq_length _ _ (filter_submseteq
    (fun sub => negb (is_closed (change_channels (channels b)) (cs_sender sub))) (change_subscriptions (subscriptions b)))).
  lia.
Qed.

Lemma advances_intro m t task b' task' :
  step_shape m task b' task' ->
  (subscribers (subscriptions b') + registers task' <=
     subscribers (subscriptions (mc_broker m)) + registers task)%nat ->
  (forall n, (subscribers (subscriptions (mc_broker m)) <= n)%nat -> (weight n task' < weight n task)%nat) ->
  advances m t task (become m b' t task').
Proof. intros Hs Hr Hw. split. by exists b', task'. Qed.

(** The arithmetic and the guards of one section. *)
Ltac section_advances :=
  apply advances_intro;
  [split; [first [by left | right; by eapply can_write_subscriptions_free]|simpl; try done; auto
          |first [by left | by right; left | right; right; by eapply can_write_database_free]]
  |simpl; unfold subscribers in *; simpl in *; rewrite ?length_app; simpl; lia
  |intros n; unfold subscribers; simpl; lia].

Lemma start_step_advances m t op m' : start_step m t op = Some m' -> advances m t (T_start op) m'.
Proof.
  unfold start_step. destruct op.
  - destruct (can_write_database m t); [|done]. destruct (add_entry _ _ _ _ _ _ _ _ _ _) as [r b] eqn:Ea.
    unfold add_entry in Ea. destruct (add _ _ _ _ _ _ _ _ _ _ _) as [r0 db]. injection Ea as <- <-.
    intros [= <-]. section_advances.
  - destruct (can_read_database m t); [|done]. intros [= <-]. section_advances.
  - destruct (can_write_database m t) eqn:Ew; [|done].
    destruct (apply_updates _ _ _ _ _ _) as [[db changed] errors]. intros [= <-]. section_advances.
  - destruct (can_read_database m t); [|done]. unfold subscribe_initial.
    case_bool_decide; [intros [= <-]; section_advances|].
    destruct (channel _) as [c st], (change_notify _ _ _ _ _) as [r st']. intros [= <-]. section_advances.
  - destruct (can_read_database m t); [|done]. unfold query_initial.
    destruct (compile _ _); [|intros [= <-]; section_advances].
    destruct (channel _) as [c st], (query_notify _ _ _ _ _) as [[] st']; intros [= <-]; section_advances.
  - destruct (can_write_subscriptions m t) eqn:Ew; [|done]. intros [= <-].
    pose proof (cleanup_subscribers (mc_broker m)). section_advances.
  - destruct (can_write_subscriptions m t) eqn:Ew; [|done]. intros [= <-]. section_advances.
Qed.

Lemma suffix_cons_elem {B} (x : B) l k : (x :: l) `suffix_of` k -> x ∈ k /\ l `suffix_of` k.
Proof.
  intros [l' ->]. split.
  - apply elem_of_app. right. left.
  - exists (l' ++ [x]). by rewrite <- app_assoc.
Qed.

Lemma task_step_advances m t task m' :
  sending_ok (subscriptions (mc_broker m)) task -> task_step m t task = Some m' -> advances m t task m'.
Proof.
  intros Hok. destruct task as [op|now changed errors|now changed errors queries changes failed|errors|sub|sub|r];
    [apply start_step_advances|cbn -[query_notify change_notify query_message change_message]..].
  - destruct (can_read_subscriptions m t); [|done]. intros [= <-]. section_advances.
  - destruct Hok as [Hq Hc].
    destruct queries as [|sub queries]; [destruct changes as [|sub changes]|];
      cbn -[query_notify change_notify query_message change_message].
    + destruct failed; intros [= <-]; section_advances.
    + apply suffix_cons_elem in Hc as [_ Hc]. destruct (waits _ _ _ _); [done|].
      destruct (change_notify _ _ _ _ _) as [r store]. intros [= <-]. section_advances.
    + apply suffix_cons_elem in Hq as [_ Hq]. destruct (waits _ _ _ _); [done|].
      destruct (query_notify _ _ _ _ _) as [r store]. intros [= <-]. section_advances.
  - destruct (can_write_subscriptions m t) eqn:Ew; [|done]. intros [= <-].
    pose proof (cleanup_subscribers (mc_broker m)). section_advances.
  - destruct (can_write_subscriptions m t) eqn:Ew; [|done]. intros [= <-]. section_advances.
  - destruct (can_write_subscriptions m t) eqn:Ew; [|done]. intros [= <-]. section_advances.
  - done.
Qed.

(** ** Steps keep the invariant *)

Definition few_entries (m : Machine) : Prop :=
  Z.of_nat (size (entries (database (mc_broker m)))) < 4294967296.

#[local] Hint Resolve mi_change mi_query : core.

Lemma start_step_data m t op m' :
  data_inv m -> few_entries m -> mc_tasks m !! t = Some (T_start op) -> start_step m t op = Some m' -> data_inv m'.
Proof.
  intros Hinv Hfew Ht. pose proof (bi_db _ _ _ (mi_broker m Hinv)) as Hdb. unfold start_step. destruct op.
  - destruct (can_write_database m t); [|done]. unfold add_entry.
    pose proof (add_preserves (database (mc_broker m)) permissions now name data_type change_type entry_type
      description allowed unit_ Hdb Hfew) as Hdb'.
    pose proof (add_extends (database (mc_broker m)) permissions now name data_type change_type entry_type
      description allowed unit_ Hdb Hfew) as Hext.
    destruct (add _ _ _ _ _ _ _ _ _ _ _) as [r db]. intros [= <-].
    eapply become_section; [done|done| |done]. intros pq pc. by apply broker_inv_database.
  - destruct (can_read_database m t); [|done]. intros [= <-]. by eapply become_section.
  - destruct (can_write_database m t); [|done].
    pose proof (apply_updates_inv (database (mc_broker m)) permissions now updates ∅ [] Hdb) as Hdb'.
    pose proof (apply_updates_extends (database (mc_broker m)) permissions now updates ∅ []) as Hext.
    destruct (apply_updates _ _ _ _ _ _) as [[db changed] errors]. intros [= <-].
    eapply become_section; [done|done| |done]. intros pq pc. by apply broker_inv_database.
  - destruct (can_read_database m t); [|done].
    destruct (subscribe_initial _ _ _ _) as [[sub|err] b] eqn:Es; intros [= <-].
    + destruct (broker_inv_subscribe _ _ _ _ _ _ _ _ (mi_broker m Hinv) Es) as (_ & _ & Hq & message & Hc).
      eapply become_data; [done|done| | |].
      * intros pq pc Hb. by apply (broker_inv_subscribe _ _ _ _ _ _ _ _ Hb Es).
      * rewrite Hc. apply room_new; [auto|]. unfold CAPACITY. simpl. lia.
      * rewrite Hq. auto.
    + unfold subscribe_initial in Es. case_bool_decide; [|by destruct (channel _), (change_notify _ _ _ _ _)].
      injection Es as <- <-. by eapply become_section.
  - destruct (can_read_database m t); [|done]. destruct (query_initial _ _ _ _) as [r b] eqn:Eq.
    destruct (broker_inv_query _ _ _ _ _ _ _ _ (mi_broker m Hinv) Eq) as (_ & _ & Hc & Hq).
    assert (room_inv (query_channels (channels b)) (mc_query_received m)) as Hroom.
    { destruct Hq as [->|(messages & Hl & ->)]; [auto|]. apply room_new; [auto|]. unfold CAPACITY. lia. }
    destruct r as [sub|err]; intros [= <-]; (eapply become_data; [done|done| |rewrite Hc; by auto|done]);
      intros pq pc Hb; by apply (broker_inv_query _ _ _ _ _ _ _ _ Hb Eq).
  - destruct (can_write_subscriptions m t); [|done]. intros [= <-].
    eapply become_section; [done|done| |done]. intros pq pc. apply broker_inv_cleanup.
  - destruct (can_write_subscriptions m t); [|done]. intros [= <-].
    eapply become_section; [done|done| |done]. intros pq pc. apply broker_inv_shutdown.
Qed.

Lemma sending_step_data m t now changed errors queries changes failed m' :
  data_inv m -> mc_tasks m !! t = Some (T_sending now changed errors queries changes failed) ->
  sending_ok (subscriptions (mc_broker m)) (T_sending now changed errors queries changes failed) ->
  sending_step m t now changed errors queries changes failed = Some m' -> data_inv m'.
Proof.
  intros Hinv Ht [Hq Hc].
  destruct queries as [|sub queries]; [destruct changes as [|sub changes]|];
    cbn -[query_notify change_notify query_message change_message].
  - intros [= <-]. by destruct failed; eapply become_section.
  - destruct (waits _ _ _ _) eqn:Ew; [done|].
    destruct (change_notify _ _ _ _ _) as [r store] eqn:En. intros [= <-].
    eapply become_data; [done|done| | |exact (mi_query m Hinv)].
    + intros pq pc Hb. pose proof (broker_inv_change_sent _ _ _ sub (Some changed) now Hb) as Hs. by rewrite En in Hs.
    + pose proof (room_notify _ _ _ _ (mi_change m Hinv) Ew) as Hr.
      rewrite change_notify_message in En. rewrite En in Hr. exact Hr.
  - apply suffix_cons_elem in Hq as [Hin _]. destruct (waits _ _ _ _) eqn:Ew; [done|].
    destruct (query_notify _ _ _ _ _) as [r store] eqn:En. intros [= <-].
    eapply become_data; [done|done| |exact (mi_change m Hinv)|].
    + intros pq pc Hb. pose proof (broker_inv_query_sent _ _ _ sub (Some changed) now Hb Hin) as Hs. by rewrite En in Hs.
    + pose proof (room_notify _ _ _ _ (mi_query m Hinv) Ew) as Hr.
      rewrite query_notify_message in En. rewrite En in Hr. exact Hr.
Qed.

Lemma task_step_data m t task m' :
  data_inv m -> few_entries m -> mc_tasks m !! t = Some task -> sending_ok (subscriptions (mc_broker m)) task ->
  task_step m t task = Some m' -> data_inv m'.
Proof.
  intros Hinv Hfew Ht Hok. destruct task; [by apply start_step_data| |by apply sending_step_data|simpl..].
  - simpl. destruct (can_read_subscriptions m t); [|done]. intros [= <-]. by eapply become_section.
  - destruct (can_write_subscriptions m t); [|done]. intros [= <-].
    eapply become_section; [done|done| |done]. intros pq pc. apply broker_inv_cleanup.
  - destruct (can_write_subscriptions m t); [|done]. intros [= <-].
    eapply become_section; [done|done| |done]. intros pq pc. apply broker_inv_register.
  - destruct (can_write_subscriptions m t); [|done]. intros [= <-].
    eapply become_section; [done|done| |done]. intros pq pc. apply broker_inv_query_register.
  - done.
Qed.

Lemma run_shape m t m' : shape_inv m -> lock_step m (LE_run t) = Some m' ->
  shape_inv m' /\ (steps_left m' < steps_left m)%nat.
Proof.
  intros Hs. simpl. destruct (mc_tasks m !! t) as [task|] eqn:Ht; [|done].
  intros Ha%task_step_advances; [|by eapply sh_sending]. split; [by eapply advances_shape|by eapply advances_less].
Qed.

(** A new task at the end of the list. *)
Lemma queue_inv_snoc lock queue tasks task :
  queue_inv lock queue tasks -> queue_inv lock (queue ++ queued lock task (length tasks)) (tasks ++ [task]).
Proof.
  intros [Hnd Hw]. assert (length tasks ∉ queue) as Hfresh.
  { intros (x & Hx%lookup_lt_Some & _)%Hw. lia. }
  unfold queued. case_bool_decide as Hwant; [|rewrite app_nil_r]; split.
  - apply NoDup_app. split_and!; [done| |apply NoDup_singleton]. by intros t Hin ->%list_elem_of_singleton.
  - intros t. rewrite elem_of_app, list_elem_of_singleton, Hw. split.
    + intros [(x & Hx & ?)| ->]; [exists x; split; [by apply lookup_app_l_Some|done]|].
      exists task. split; [by apply list_lookup_middle|done].
    + intros (x & [Hx|[Hge Hx]]%lookup_app_Some & Hl); [by left; exists x|]. right.
      apply list_lookup_singleton_Some in Hx as [? _]. lia.
  - done.
  - intros t. rewrite Hw. split.
    + intros (x & Hx & ?). exists x. split; [by apply lookup_app_l_Some|done].
    + intros (x & [Hx|[Hge Hx]]%lookup_app_Some & Hl); [by exists x|].
      apply list_lookup_singleton_Some in Hx as [_ <-]. done.
Qed.

Lemma first_task_cases op : first_task op = T_start op \/ exists r, first_task op = T_end r.
Proof. destruct op; simpl; auto. case_bool_decide; eauto. Qed.

Lemma request_data m op m' : data_inv m -> lock_step m (LE_request op) = Some m' -> data_inv m'.
Proof.
  intros [Hb Hch Hqu] [= <-]. split; simpl; [|done|done]. rewrite !omap_app.
  eapply broker_inv_sub; [| |exact Hb]; destruct (first_task_cases op) as [->|[r ->]]; simpl; by rewrite app_nil_r.
Qed.

Lemma request_shape m op m' : shape_inv m -> lock_step m (LE_request op) = Some m' -> shape_inv m'.
Proof.
  intros [Hdq Hsq Hs Hone] [= <-].
  assert (forall t x, (mc_tasks m ++ [first_task op]) !! t = Some x ->
    mc_tasks m !! t = Some x \/ updating x = false /\ forall s, sending_ok s x) as Hcase.
  { intros t x [Hx|[_ Hx]]%lookup_app_Some; [by left|]. apply list_lookup_singleton_Some in Hx as [_ <-].
    right. by destruct (first_task_cases op) as [->|[r ->]]. }
  split; simpl; [by apply queue_inv_snoc|by apply queue_inv_snoc| |].
  - intros t x [Hx|[_ Hx]]%Hcase; [by eapply Hs|done].
  - intros t1 t2 x1 x2 Hx1%Hcase Hx2%Hcase Hu1 Hu2.
    destruct Hx1 as [Hx1|[? _]], Hx2 as [Hx2|[? _]]; try congruence. by eapply Hone.
Qed.

(** What happens outside the tasks leaves their shape alone. *)
Lemma shape_inv_frame m m' :
  mc_tasks m' = mc_tasks m -> mc_database_queue m' = mc_database_queue m ->
  mc_subscriptions_queue m' = mc_subscriptions_queue m ->
  subscriptions (mc_broker m') = subscriptions (mc_broker m) -> shape_inv m -> shape_inv m'.
Proof. intros Ht Hd Hs Hb [Hdq Hsq Hok Hone]. split; rewrite ?Ht, ?Hd, ?Hs, ?Hb; done. Qed.

Lemma cancel_cases m t m' :
  lock_step m (LE_cancel t) = Some m' ->
  exists task, mc_tasks m !! t = Some task /\ m' = become m (mc_broker m) t (T_end TR_cancelled).
Proof.
  simpl. destruct (mc_tasks m !! t) as [task|]; [|done]. intros Hm. exists task. split; [done|].
  by destruct task; simplify_eq.
Qed.

Lemma lock_step_shape m event m' : shape_inv m -> lock_step m event = Some m' -> shape_inv m'.
Proof.
  intros Hshape Hstep. destruct event as [op|t|c|c|c|c|t]; [by eapply request_shape|by eapply run_shape|..].
  5: { apply cancel_cases in Hstep as (task & Ht & ->). eapply become_shape; [done|exact Ht|].
       split; [by left|done|by right; left]. }
  all: simpl in Hstep; try (destruct (has_message _ _ _); [|done]); injection Hstep as <-;
    by apply (shape_inv_frame m).
Qed.

Lemma lock_step_data m event m' :
  machine_inv m -> few_entries m -> lock_step m event = Some m' -> data_inv m'.
Proof.
  intros [Hdata Hshape] Hfew Hstep. destruct event as [op|t|c|c|c|c|t]; [by eapply request_data| |simpl in Hstep..].
  - simpl in Hstep. destruct (mc_tasks m !! t) as [task|] eqn:Ht; [|done].
    eapply task_step_data; [done|done|done| |done]. by eapply sh_sending.
  - destruct (has_message _ _ _) eqn:Eh; [|done]. injection Hstep as <-.
    destruct Hdata. split; simpl; try done. by apply room_receive.
  - destruct (has_message _ _ _) eqn:Eh; [|done]. injection Hstep as <-.
    destruct Hdata. split; simpl; try done. by apply room_receive.
  - injection Hstep as <-. destruct Hdata as [[Hdb Hq Hc] ? ?]. split; simpl; try done; [|by apply room_drop].
    split; simpl; [done|done|]. by rewrite drop_receiver_length.
  - injection Hstep as <-. destruct Hdata as [[Hdb Hq Hc] ? ?]. split; simpl; try done; [|by apply room_drop].
    split; simpl; [done| |done]. by apply queries_inv_drop.
  - apply cancel_cases in Hstep as (task & Ht & ->). eapply become_section; [done|exact Ht| |done].
    intros pq pc. by apply broker_inv_sub; apply submseteq_inserts_l.
Qed.

Lemma lock_step_inv m event m' :
  machine_inv m -> few_entries m -> lock_step m event = Some m' -> machine_inv m'.
Proof. intros Hinv Hfew Hstep. split; [by eapply lock_step_data|]. eapply lock_step_shape; [apply Hinv|done]. Qed.

(** ** Progress *)

Inductive SubscriberChan := Ch_change (c : ChanId) | Ch_query (c : ChanId).

(** The channel of a subscriber that a task waits for: still open, and full. *)
Definition blocked_on (m : Machine) (task : Task) : option SubscriberChan :=
  let b := mc_broker m in
  match task with
  | T_sending now changed _ (sub :: _) _ _ =>
      if waits (query_message sub (Some changed) (database b) now) (query_channels (channels b))
           (mc_query_received m) (qs_sender sub)
      then Some (Ch_query (qs_sender sub)) else None
  | T_sending now changed _ [] (sub :: _) _ =>
      if waits (change_message sub (Some changed) (database b) now) (change_channels (channels b))
           (mc_change_received m) (cs_sender sub)
      then Some (Ch_change (cs_sender sub)) else None
  | _ => None
  end.

Definition ended (task : Task) : Prop := exists r, task = T_end r.

Lemma waits_ext {A} (message : list A) store store' got got' c :
  store' !! c = store !! c -> received got' c = received got c ->
  waits message store' got' c = waits message store got c.
Proof. intros Hs Hg. unfold waits, is_closed, is_full. by rewrite Hs, Hg. Qed.

(** A task that notifies goes on, unless a channel is full. *)
Lemma sending_step_none m t now changed errors queries changes failed :
  task_step m t (T_sending now changed errors queries changes failed) = None <->
  exists chan, blocked_on m (T_sending now changed errors queries changes failed) = Some chan.
Proof.
  destruct queries as [|sub queries]; [destruct changes as [|sub changes]|];
    cbn -[query_notify change_notify query_message change_message].
  - split; [done|by intros [? ?]].
  - destruct (waits _ _ _ _); [split; eauto|].
    destruct (change_notify _ _ _ _ _). split; [done|by intros [? ?]].
  - destruct (waits _ _ _ _); [split; eauto|].
    destruct (query_notify _ _ _ _ _). split; [done|by intros [? ?]].
Qed.

(** With the locks free for it, the first task in line goes on. *)
Lemma wants_subscriptions_step m t rest task :
  mc_subscriptions_queue m = t :: rest -> existsb holds_subscriptions (mc_tasks m) = false ->
  wants task = Some L_subscriptions -> is_Some (task_step m t task).
Proof.
  intros Hq Hh Hw.
  assert (can_read_subscriptions m t = true) as Hr by (unfold can_read_subscriptions; by rewrite Hq, first_may_acquire).
  assert (can_write_subscriptions m t = true) as Hwr
    by (unfold can_write_subscriptions; by rewrite Hq, Hh, first_may_acquire).
  by destruct task as [[]| | | | | |]; simpl in *; rewrite ?Hr, ?Hwr.
Qed.

Lemma wants_database_step m t rest task :
  mc_database_queue m = t :: rest -> existsb holds_database (mc_tasks m) = false ->
  wants task = Some L_database -> is_Some (task_step m t task).
Proof.
  intros Hq Hh Hw.
  assert (can_read_database m t = true) as Hr by (unfold can_read_database; by rewrite Hq, first_may_acquire).
  assert (can_write_database m t = true) as Hwr
    by (unfold can_write_database; by rewrite Hq, Hh, first_may_acquire).
  destruct task as [[]| | | | | |]; simpl in *; rewrite ?Hr, ?Hwr; try done.
  - by destruct (add_entry _ _ _ _ _ _ _ _ _ _).
  - by destruct (apply_updates _ _ _ _ _ _) as [[? ?] ?].
  - by destruct (subscribe_initial _ _ _ _) as [[] ?].
  - by destruct (query_initial _ _ _ _) as [[] ?].
Qed.

Lemma existsb_true_lookup {B} (f : B -> bool) (l : list B) :
  existsb f l = true -> exists i x, l !! i = Some x /\ f x = true.
Proof.
  intros (x & Hx & Hf)%existsb_exists. apply list_elem_of_In, list_elem_of_lookup in Hx as [i Hi]. by exists i, x.
Qed.

(** The locks alone never stop everybody: who holds the subscriptions waits for
    no lock, and who holds the database waits for the subscriptions only. *)
Lemma progress m :
  shape_inv m ->
  Forall ended (mc_tasks m) \/ (exists t m', lock_step m (LE_run t) = Some m') \/
  exists t task chan, mc_tasks m !! t = Some task /\ blocked_on m task = Some chan.
Proof.
  intros [Hdq Hsq _ _].
  destruct (existsb holds_subscriptions (mc_tasks m)) eqn:Ehs.
  { apply existsb_true_lookup in Ehs as (t & task & Ht & Hh). right.
    destruct (task_step m t task) as [m'|] eqn:Es; [left; exists t, m'; simpl; by rewrite Ht|right].
    exists t, task. destruct task; try done. apply sending_step_none in Es as [chan Hc]. by exists chan. }
  assert (forall t rest lock queue, queue_inv lock queue (mc_tasks m) -> queue = t :: rest ->
    (forall task, wants task = Some lock -> is_Some (task_step m t task)) ->
    exists m', lock_step m (LE_run t) = Some m') as Hhead.
  { intros t rest lock queue [_ Hw] -> Hstep. destruct (proj1 (Hw t) ltac:(left)) as (task & Ht & Hwt).
    destruct (Hstep task Hwt) as [m' Hm']. exists m'. simpl. by rewrite Ht. }
  destruct (mc_subscriptions_queue m) as [|t rest] eqn:Eq.
  2: { right. left. exists t. eapply (Hhead t rest _ _ Hsq eq_refl). intros task. by eapply wants_subscriptions_step. }
  assert (existsb holds_database (mc_tasks m) = false) as Ehd.
  { apply not_true_iff_false. intros (t & task & Ht & Hh)%existsb_true_lookup.
    destruct (decide (wants task = Some L_subscriptions)) as [Hw|Hw].
    - apply (not_elem_of_nil t), (qu_waiting _ _ _ Hsq). by exists task.
    - pose proof (existsb_false_lookup _ _ _ _ Ehs Ht). by destruct task. }
  destruct (mc_database_queue m) as [|t rest] eqn:Eqd.
  2: { right. left. exists t. eapply (Hhead t rest _ _ Hdq eq_refl). intros task. by eapply wants_database_step. }
  left. apply Forall_lookup. intros t task Ht.
  assert (forall lock, wants task <> Some lock) as Hno.
  { intros [] Hw; apply (not_elem_of_nil t); [apply (qu_waiting _ _ _ Hdq)|apply (qu_waiting _ _ _ Hsq)]; by exists task. }
  pose proof (existsb_false_lookup _ _ _ _ Ehs Ht) as Hh.
  destruct task as [op| | | | | |r]; [|by destruct (Hno L_subscriptions)|done|by destruct (Hno L_subscriptions)..|by exists r].
  exfalso. destruct op; (by apply (Hno L_database)) || (by apply (Hno L_subscriptions)).
Qed.

(** ** Draining the tasks *)

(** A task goes on, or a client reads. *)
Definition helps (event : LockEvent) : Prop :=
  match event with LE_run _ | LE_receive_change _ | LE_receive_query _ => True | _ => False end.
Definition helpful (m m' : Machine) : Prop := exists event, helps event /\ lock_step m event = Some m'.

Lemma helpful_shape m m' : rtc helpful m m' -> shape_inv m -> shape_inv m'.
Proof. induction 1 as [|m1 m2 m3 (event & _ & He) _ IH]; [done|]. intros Hs. by eapply IH, lock_step_shape. Qed.

Lemma has_message_open {A} (store : list (Channel A)) got c ch :
  store !! c = Some ch -> closed ch = false -> (received got c < length (sent ch))%nat -> has_message store got c = true.
Proof. intros Hc Hcl Hl%Nat.ltb_lt. unfold has_message. by rewrite Hc, Hcl, Hl. Qed.

Lemma received_more got c : received (receive_from got c) c = S (received got c).
Proof. unfold received, receive_from. by rewrite lookup_insert_eq. Qed.

(** A client with messages to take may take any number of them. *)
Lemma receive_changes m c ch k :
  change_channels (channels (mc_broker m)) !! c = Some ch -> closed ch = false ->
  (received (mc_change_received m) c + k <= length (sent ch))%nat ->
  exists got, rtc helpful m (with_received m got (mc_query_received m)) /\
    received got c = (received (mc_change_received m) c + k)%nat.
Proof.
  intros Hc Hcl. induction k as [|k IH]; intros Hk.
  - exists (mc_change_received m). split; [by destruct m|lia].
  - destruct IH as (got & Hr & Hgot); [lia|]. exists (receive_from got c). split.
    + eapply rtc_r; [exact Hr|]. exists (LE_receive_change c). split; [done|]. simpl.
      by rewrite (has_message_open _ _ _ ch) by (done || lia).
    + rewrite received_more. lia.
Qed.

Lemma receive_queries m c ch k :
  query_channels (channels (mc_broker m)) !! c = Some ch -> closed ch = false ->
  (received (mc_query_received m) c + k <= length (sent ch))%nat ->
  exists got, rtc helpful m (with_received m (mc_change_received m) got) /\
    received got c = (received (mc_query_received m) c + k)%nat.
Proof.
  intros Hc Hcl. induction k as [|k IH]; intros Hk.
  - exists (mc_query_received m). split; [by destruct m|lia].
  - destruct IH as (got & Hr & Hgot); [lia|]. exists (receive_from got c). split.
    + eapply rtc_r; [exact Hr|]. exists (LE_receive_query c). split; [done|]. simpl.
      by rewrite (has_message_open _ _ _ ch) by (done || lia).
    + rewrite received_more. lia.
Qed.

(** Who waits has a full channel of a client that is there. *)
Lemma waits_full {A} (messages : list A) store got c :
  waits messages store got c = true ->
  exists ch, store !! c = Some ch /\ closed ch = false /\ (CAPACITY + received got c <= length (sent ch))%nat.
Proof.
  unfold waits, is_closed, is_full. destruct messages; [done|]. destruct (store !! c) as [ch|]; [|done].
  intros [Hcl%negb_true_iff Hf%Nat.leb_le]%andb_true_iff. by exists ch.
Qed.

Lemma waits_emptied {A} (messages : list A) store got c ch :
  store !! c = Some ch -> received got c = length (sent ch) -> waits messages store got c = false.
Proof.
  intros Hc Hr. unfold waits, is_full. rewrite Hc, Hr. destruct messages; [done|].
  rewrite (proj2 (Nat.leb_gt _ _)); [by rewrite andb_false_r|unfold CAPACITY; lia].
Qed.

(** Once its subscriber has read, a blocked task goes on. *)
Lemma unblock m t task chan :
  mc_tasks m !! t = Some task -> blocked_on m task = Some chan ->
  exists change query m', rtc helpful m (with_received m change query) /\
    lock_step (with_received m change query) (LE_run t) = Some m'.
Proof.
  intros Ht Hb. destruct task as [| |now changed errors queries changes failed| | | |]; try done.
  assert (forall change query, blocked_on (with_received m change query)
      (T_sending now changed errors queries changes failed) = None ->
    exists m', lock_step (with_received m change query) (LE_run t) = Some m') as Hgo.
  { intros change query Hnone. simpl. rewrite Ht.
    destruct (task_step _ t _) as [m'|] eqn:Es; [by exists m'|].
    apply sending_step_none in Es as [? ?]. congruence. }
  cbn -[query_message change_message] in Hb, Hgo.
  destruct queries as [|sub queries]; [destruct changes as [|sub changes]; [done|]|].
  - destruct (waits _ _ _ _) eqn:Ew in Hb; [|done]. apply waits_full in Ew as (ch & Hc & Hcl & Hl).
    destruct (receive_changes m (cs_sender sub) ch (length (sent ch) - received (mc_change_received m) (cs_sender sub))
      Hc Hcl ltac:(lia)) as (got & Hr & Hgot).
    destruct (Hgo got (mc_query_received m)) as [m' Hm']; [|by eexists _, _, m'].
    by erewrite waits_emptied by (done || lia).
  - destruct (waits _ _ _ _) eqn:Ew in Hb; [|done]. apply waits_full in Ew as (ch & Hc & Hcl & Hl).
    destruct (receive_queries m (qs_sender sub) ch (length (sent ch) - received (mc_query_received m) (qs_sender sub))
      Hc Hcl ltac:(lia)) as (got & Hr & Hgot).
    destruct (Hgo (mc_change_received m) got) as [m' Hm']; [|by eexists _, _, m'].
    by erewrite waits_emptied by (done || lia).
Qed.

(** All tasks can be brought to their end by running them and reading. *)
Lemma drain m : shape_inv m -> exists m', rtc helpful m m' /\ Forall ended (mc_tasks m').
Proof.
  remember (steps_left m) as n eqn:Hn. revert m Hn.
  induction (lt_wf n) as [n _ IH]. intros m -> Hs.
  assert (forall m1 t m2, rtc helpful m m1 -> steps_left m1 = steps_left m -> lock_step m1 (LE_run t) = Some m2 ->
    exists m', rtc helpful m m' /\ Forall ended (mc_tasks m')) as Hgo.
  { intros m1 t m2 Hr Hl Hrun. pose proof (helpful_shape _ _ Hr Hs) as Hs1.
    destruct (run_shape _ _ _ Hs1 Hrun) as [Hs2 Hless]. destruct (IH (steps_left m2) ltac:(lia) m2 eq_refl Hs2) as (m' & Hr' & He).
    exists m'. split; [|done]. etrans; [exact Hr|]. eapply rtc_l; [|exact Hr']. by exists (LE_run t). }
  destruct (progress m Hs) as [Hend|[(t & m' & Hrun)|(t & task & chan & Ht & Hb)]].
  - by exists m.
  - by eapply (Hgo m).
  - destruct (unblock _ _ _ _ Ht Hb) as (change & query & m' & Hr & Hrun). by eapply Hgo.
Qed.

(** ** How long it takes *)

Definition is_request (event : LockEvent) : bool := match event with LE_request _ => true | _ => false end.
Definition is_run (event : LockEvent) : bool := match event with LE_run _ => true | _ => false end.

Lemma steps_left_event m event m' :
  shape_inv m -> is_request event = false -> lock_step m event = Some m' ->
  ((if is_run event then 1 else 0) + steps_left m' <= steps_left m)%nat.
Proof.
  intros Hs Hreq Hstep. destruct event as [op|t|c|c|c|c|t]; try done.
  1: { pose proof (run_shape _ _ _ Hs Hstep) as [_ Hless]. simpl. lia. }
  5: { apply cancel_cases in Hstep as (task & Ht & ->). unfold steps_left. simpl.
       pose proof (sum_insert registers _ _ _ (T_end TR_cancelled) Ht) as Hr.
       assert (most_subscribers (become m (mc_broker m) t (T_end TR_cancelled)) <= most_subscribers m)%nat as Hmost
         by (unfold most_subscribers; simpl in *; lia).
       pose proof (sum_le _ _ (<[t := T_end TR_cancelled]> (mc_tasks m)) (fun x => weight_mono _ _ x Hmost)) as Hle.
       pose proof (sum_insert (weight (most_subscribers m)) _ _ _ (T_end TR_cancelled) Ht) as Hw. simpl in Hw. lia. }
  all: simpl in Hstep; try (destruct (has_message _ _ _); [|done]); injection Hstep as <-; simpl; reflexivity.
Qed.

Lemma steps_left_run events m m' :
  shape_inv m -> existsb is_request events = false -> lock_run m events = Some m' ->
  shape_inv m' /\ (length (List.filter is_run events) + steps_left m' <= steps_left m)%nat.
Proof.
  revert m. induction events as [|event events IH]; intros m Hs Hreq Hrun; simpl in *; [injection Hrun as <-; auto|].
  apply orb_false_iff in Hreq as [Hr Hrs]. destruct (lock_step m event) as [m1|] eqn:He; [|done].
  pose proof (steps_left_event _ _ _ Hs Hr He). pose proof (lock_step_shape _ _ _ Hs He) as Hs1.
  destruct (IH m1 Hs1 Hrs Hrun) as [Hs' Hl]. split; [done|]. destruct (is_run event); simpl in *; lia.
Qed.

(** ** Reachable states *)

Definition machine_step (m m' : Machine) : Prop := few_entries m /\ exists event, lock_step m event = Some m'.

Lemma machine_inv_rtc m m' : machine_inv m -> rtc machine_step m m' -> machine_inv m'.
Proof.
  intros Hinv Hr. induction Hr as [|m1 m2 m3 [Hfew [event He]] _ IH]; [done|]. by apply IH, (lock_step_inv m1 event).
Qed.

(** C1. Every state the broker can reach satisfies the invariant, whatever
    requests come in, in whatever order their tasks run between two awaits, and
    whatever the clients read, drop or give up: the database is well formed and
    typed, every subscription, registered or waiting to be, has a channel of its
    own and every query still type-checks, no channel holds more than its
    capacity, the queues of the two locks are exactly the tasks that wait, and at
    most one update is under way. *)
Theorem machine_inv_reachable v m : rtc machine_step (machine_new v) m -> machine_inv m.
Proof. apply machine_inv_rtc, machine_inv_new. Qed.
End LocksSpec.
