(* ===== verification/LocksRun.v ===== *)
(** * LocksRun: running the tasks of the broker

    More theorems of [Locks]: a request that runs alone does what the operations
    of [Broker] say; while an update notifies, the database stays as it is; and
    what one subscriber that does not read does to all the others. *)

From S2P Require Import Prelude Types Regex Glob Permissions Entry Database Query Broker Delivery System Locks LocksSpec.

Section LocksRun.
Context `{RegexEngine} `{HashOrder} `{SqlParser} `{LockPolicy}.

(** ** A request alone *)

(** What [Broker] says a request does. *)
Definition run_op (b : DataBroker) (op : Op) : TaskResult * DataBroker :=
  match op with
  | Op_add_entry permissions now name data_type change_type entry_type description allowed unit_ =>
      let '(r, b) := add_entry b permissions now name data_type change_type entry_type description allowed unit_ in
      (TR_added r, b)
  | Op_read => (TR_read (database b), b)
  | Op_update permissions now updates => let '(r, b) := update_entries b permissions now updates in (TR_updated r, b)
  | Op_subscribe permissions now valid_entries =>
      let '(r, b) := subscribe b permissions now valid_entries in (TR_subscribed r, b)
  | Op_subscribe_query permissions now query =>
      let '(r, b) := subscribe_query b permissions now query in (TR_queried r, b)
  | Op_housekeeping => (TR_done, cleanup_subscriptions b)
  | Op_shutdown => (TR_done, shutdown b)
  end.

Definition has_error (error : option NotificationError) : bool :=
  match error with Some _ => true | None => false end.

(** The end of [update_entries]. *)
Definition finish_update (b : DataBroker) (errors : list (Z * UpdateError)) (cleanup_needed : bool)
  : TaskResult * DataBroker :=
  (TR_updated (match errors with [] => Ok tt | _ => Err errors end),
   if cleanup_needed then cleanup_subscriptions b else b).

(** The rest of [update_entries] from one of the turns of its loops. *)
Definition finish_sending (b : DataBroker) (now : SystemTime) (changed : Changes) (errors : list (Z * UpdateError))
  (queries : list QuerySubscription) (changes : list ChangeSubscription) (failed : bool) : TaskResult * DataBroker :=
  let '(e1, qstore) :=
    notify_all (fun sub => query_notify sub (Some changed) (database b) now) queries None (query_channels (channels b)) in
  let '(e2, cstore) :=
    notify_all (fun sub => change_notify sub (Some changed) (database b) now) changes None (change_channels (channels b)) in
  finish_update (set_channels b {| change_channels := cstore; query_channels := qstore |}) errors
    (failed || has_error e1 || has_error e2).

(** What a task does from here to its end when nobody interferes. *)
Definition finish (b : DataBroker) (task : Task) : TaskResult * DataBroker :=
  match task with
  | T_start op => run_op b op
  | T_notify now changed errors =>
      finish_sending b now changed errors (query_subscriptions (subscriptions b))
        (change_subscriptions (subscriptions b)) false
  | T_sending now changed errors queries changes failed => finish_sending b now changed errors queries changes failed
  | T_cleanup errors => finish_update b errors true
  | T_register subscription => (TR_subscribed (Ok (cs_sender subscription)), subscribe_register b subscription)
  | T_query_register subscription => (TR_queried (Ok (qs_sender subscription)), query_register b subscription)
  | T_end r => (r, b)
  end.

Lemma notify_all_error {S A} (f : S -> list (Channel A) -> result unit NotificationError * list (Channel A))
  subs error store :
  (notify_all f subs error store).2 = (notify_all f subs None store).2 /\
  has_error (notify_all f subs error store).1 = has_error error || has_error (notify_all f subs None store).1.
Proof.
  revert error store. induction subs as [|sub subs IH]; intros error store; simpl; [by rewrite orb_false_r|].
  destruct (f sub store) as [[[]|err] st].
  - apply IH.
  - destruct (IH (Some err) st) as [-> ->]. simpl. by rewrite orb_true_r.
Qed.

(** One more turn of a loop. *)
Lemma notify_all_cons {S A} (f : S -> list (Channel A) -> result unit NotificationError * list (Channel A)) sub subs store :
  (notify_all f (sub :: subs) None store).2 = (notify_all f subs None (f sub store).2).2 /\
  has_error (notify_all f (sub :: subs) None store).1 =
    negb (is_ok (f sub store).1) || has_error (notify_all f subs None (f sub store).2).1.
Proof.
  simpl. destruct (f sub store) as [[[]|err] st]; simpl; [done|]. apply (notify_all_error f subs (Some err) st).
Qed.

Lemma finish_sending_proj b now changed errors queries changes failed :
  finish_sending b now changed errors queries changes failed =
    let q := notify_all (fun sub => query_notify sub (Some changed) (database b) now) queries None
               (query_channels (channels b)) in
    let c := notify_all (fun sub => change_notify sub (Some changed) (database b) now) changes None
               (change_channels (channels b)) in
    finish_update (set_channels b {| change_channels := c.2; query_channels := q.2 |}) errors
      (failed || has_error q.1 || has_error c.1).
Proof. unfold finish_sending. by destruct (notify_all _ queries _ _), (notify_all _ changes _ _). Qed.

Lemma update_entries_finish b permissions now updates :
  finish b (T_start (Op_update permissions now updates)) =
    let '(db, changed, errors) := apply_updates (database b) permissions now updates ∅ [] in
    finish (set_database b db) (T_notify now changed errors).
Proof.
  cbn [finish run_op]. unfold update_entries, update_entries_locked, notify.
  destruct (apply_updates _ _ _ _ _ _) as [[db changed] errors]. cbn [finish]. rewrite finish_sending_proj. simpl.
  destruct (notify_all (fun sub => query_notify _ _ _ _) _ _ _) as [e1 qstore]. simpl.
  match goal with |- context [notify_all ?f ?subs e1 ?store] =>
    destruct (notify_all_error f subs e1 store) as [Hst Her]; destruct (notify_all f subs e1 store) as [e2 cstore] end.
  simpl in Hst, Her. rewrite <- Hst, <- Her. by destruct e2.
Qed.

(** A step of a task leaves the same to be done. *)
Lemma task_step_finish m t task m' :
  task_step m t task = Some m' ->
  exists b' task', m' = become m b' t task' /\ finish b' task' = finish (mc_broker m) task.
Proof.
  destruct task as [op|now changed errors|now changed errors queries changes failed|errors|sub|sub|r];
    cbn -[finish finish_sending query_notify change_notify query_message change_message].
  - unfold start_step. destruct op.
    + destruct (can_write_database m t); [|done]. destruct (add_entry _ _ _ _ _ _ _ _ _ _) as [r b] eqn:Ea.
      intros [= <-]. eexists _, _. split; [done|]. simpl. by rewrite Ea.
    + destruct (can_read_database m t); [|done]. intros [= <-]. by eexists _, _.
    + destruct (can_write_database m t); [|done]. rewrite update_entries_finish.
      destruct (apply_updates _ _ _ _ _ _) as [[db changed] errors]. intros [= <-]. by eexists _, _.
    + destruct (can_read_database m t); [|done]. destruct (subscribe_initial _ _ _ _) as [[sub|err] b] eqn:Es;
        intros [= <-]; (eexists _, _; split; [done|]); simpl; unfold subscribe; by rewrite Es.
    + destruct (can_read_database m t); [|done]. destruct (query_initial _ _ _ _) as [[sub|err] b] eqn:Es;
        intros [= <-]; (eexists _, _; split; [done|]); simpl; rewrite query_initial_subscribe; by rewrite Es.
    + destruct (can_write_subscriptions m t); [|done]. intros [= <-]. by eexists _, _.
    + destruct (can_write_subscriptions m t); [|done]. intros [= <-]. by eexists _, _.
  - destruct (can_read_subscriptions m t); [|done]. intros [= <-]. by eexists _, _.
  - destruct queries as [|sub queries]; [destruct changes as [|sub changes]|];
      cbn -[finish finish_sending query_notify change_notify query_message change_message].
    + intros [= <-]. eexists _, _. split; [done|]. cbn [finish]. rewrite finish_sending_proj. simpl.
      rewrite !orb_false_r. by destruct failed, (mc_broker m) as [? ? [] ? ?].
    + destruct (waits _ _ _ _); [done|]. destruct (change_notify _ _ _ _ _) as [r store] eqn:En.
      intros [= <-]. eexists _, _. split; [done|]. cbn [finish]. rewrite !finish_sending_proj. cbn -[notify_all query_notify change_notify].
      match goal with |- context [notify_all ?f (sub :: changes) None ?st] =>
        destruct (notify_all_cons f sub changes st) as [-> ->] end.
      rewrite En. simpl. by rewrite !orb_false_r, orb_assoc.
    + destruct (waits _ _ _ _); [done|]. destruct (query_notify _ _ _ _ _) as [r store] eqn:En.
      intros [= <-]. eexists _, _. split; [done|]. cbn [finish]. rewrite !finish_sending_proj. cbn -[notify_all query_notify change_notify].
      match goal with |- context [notify_all ?f (sub :: queries) None ?st] =>
        destruct (notify_all_cons f sub queries st) as [-> ->] end.
      rewrite En. simpl. by rewrite !orb_assoc.
  - destruct (can_write_subscriptions m t); [|done]. intros [= <-]. by eexists _, _.
  - destruct (can_write_subscriptions m t); [|done]. intros [= <-]. by eexists _, _.
  - destruct (can_write_subscriptions m t); [|done]. intros [= <-]. by eexists _, _.
  - done.
Qed.

(** The tasks of [others] have ended, and what is left of the last is [rest]. *)
Definition alone (others : list Task) (rest : TaskResult * DataBroker) (m : Machine) : Prop :=
  exists task, mc_tasks m = others ++ [task] /\ finish (mc_broker m) task = rest.

Lemma alone_helpful others rest m m' :
  Forall ended others -> helpful m m' -> alone others rest m -> alone others rest m'.
Proof.
  intros Hend (event & Hh & Hstep) (task & Ht & Hf). destruct event as [op|t|c|c|c|c|t]; try done.
  - simpl in Hstep. destruct (mc_tasks m !! t) as [x|] eqn:Hx; [|done].
    rewrite Ht in Hx. apply lookup_app_Some in Hx as [Hx|[Hge Hx]].
    + apply (Forall_lookup_1 _ _ _ _ Hend) in Hx as [r ->]. done.
    + apply list_lookup_singleton_Some in Hx as [Ht0 <-].
      apply task_step_finish in Hstep as (b' & task' & -> & Hf'). exists task'. simpl. rewrite Hf', Ht. split; [|done].
      replace t with (length others + 0)%nat by lia. by rewrite insert_app_r.
  - simpl in Hstep. destruct (has_message _ _ _); [|done]. injection Hstep as <-. by exists task.
  - simpl in Hstep. destruct (has_message _ _ _); [|done]. injection Hstep as <-. by exists task.
Qed.

Lemma first_task_finish b op : finish b (first_task op) = run_op b op.
Proof.
  destruct op; try done. simpl. case_bool_decide as He; [|done]. simpl. unfold subscribe, subscribe_initial.
  by rewrite bool_decide_eq_true_2.
Qed.

(** ** Updates and the database *)

Lemma existsb_lookup_true {B} (f : B -> bool) l i x : l !! i = Some x -> f x = true -> existsb f l = true.
Proof. intros Hl Hf. apply not_false_iff_true. intros Hn. by rewrite (existsb_false_lookup _ _ _ _ Hn Hl) in Hf. Qed.

(** Nobody takes for writing what somebody holds. *)
Lemma held_database m t t' task :
  mc_tasks m !! t = Some task -> holds_database task = true -> can_write_database m t' = false.
Proof.
  intros Ht Hh. unfold can_write_database. rewrite (existsb_lookup_true _ _ _ _ Ht Hh). apply andb_false_r.
Qed.

Lemma held_subscriptions m t t' task :
  mc_tasks m !! t = Some task -> holds_subscriptions task = true -> can_write_subscriptions m t' = false.
Proof.
  intros Ht Hh. unfold can_write_subscriptions. rewrite (existsb_lookup_true _ _ _ _ Ht Hh). apply andb_false_r.
Qed.

(** Channels are only ever added, or written by an update. *)
Definition more_channels (chans chans' : Channels) : Prop :=
  change_channels chans `prefix_of` change_channels chans' /\ query_channels chans `prefix_of` query_channels chans'.

(** An answer that a request gets only after it has changed something. *)
Definition writing_result (r : TaskResult) : bool :=
  match r with
  | TR_added _ | TR_updated _ | TR_subscribed (Ok _) | TR_queried (Ok _) | TR_done => true
  | TR_read _ | TR_subscribed (Err _) | TR_queried (Err _) | TR_cancelled => false
  end.

(** Waiting for the first lock, notifying, past that. *)
Definition stage (task : Task) : nat :=
  match task with T_start _ => 0 | T_notify _ _ _ | T_sending _ _ _ _ _ _ => 1 | _ => 2 end.

Lemma stage_updating task : updating task = true <-> stage task = 1%nat.
Proof. by destruct task. Qed.

(** What a step may do, by the lock it takes for writing. *)
Record effect (m : Machine) (t : nat) (task : Task) (b' : DataBroker) (task' : Task) : Prop := {
  ef_database : can_write_database m t = true \/ database b' = database (mc_broker m);
  ef_subscriptions : can_write_subscriptions m t = true \/ subscriptions b' = subscriptions (mc_broker m);
  ef_channels : updating task = true \/ more_channels (channels (mc_broker m)) (channels b');
  ef_updating : can_write_database m t = true \/ updating task = true \/ updating task' = false;
  ef_stage : (stage task <= stage task')%nat;
  ef_result r : task' = T_end r -> writing_result r = true ->
    can_write_database m t = true \/ can_write_subscriptions m t = true \/ updating task = true
}.

Lemma more_channels_refl chans : more_channels chans chans.
Proof. done. Qed.
#[local] Hint Resolve more_channels_refl : core.

Lemma effect_same m t task task' :
  (stage task <= stage task')%nat ->
  (updating task = true \/ updating task' = false) ->
  (updating task = true \/ forall r, task' = T_end r -> writing_result r = false) ->
  effect m t task (mc_broker m) task'.
Proof.
  intros Hst Hu Hr. split; [by right|by right|by right|tauto|done|].
  intros r He Hw. destruct Hr as [Hr|Hr]; [tauto|]. by rewrite (Hr r He) in Hw.
Qed.

Lemma subscribe_initial_effect m t permissions now valid_entries r b' :
  subscribe_initial (mc_broker m) permissions now valid_entries = (r, b') ->
  effect m t (T_start (Op_subscribe permissions now valid_entries)) b'
    (match r with Ok sub => T_register sub | Err err => T_end (TR_subscribed (Err err)) end).
Proof.
  unfold subscribe_initial. case_bool_decide; [intros [= <- <-]; apply effect_same; [simpl; lia|by right|right; by intros ? [= <-]]|].
  simpl. rewrite send_new. intros [= <- <-]. split; simpl; try done; try tauto; try lia.
  right. split; simpl; [by apply prefix_app_r|done].
Qed.

Lemma query_initial_effect m t permissions now query r b' :
  query_initial (mc_broker m) permissions now query = (r, b') ->
  effect m t (T_start (Op_subscribe_query permissions now query)) b'
    (match r with Ok sub => T_query_register sub | Err err => T_end (TR_queried (Err err)) end).
Proof.
  unfold query_initial.
  destruct (compile _ _); [|intros [= <- <-]; apply effect_same; [simpl; lia|by right|right; by intros ? [= <-]]].
  simpl. rewrite query_notify_message. destruct (query_message _ _ _ _) as [|message l]; [|simpl; rewrite send_new];
    intros [= <- <-]; split; simpl; try done; try tauto; try lia; right; split; simpl; try done; by apply prefix_app_r.
Qed.

Lemma task_step_effect m t task m' :
  task_step m t task = Some m' -> exists b' task', m' = become m b' t task' /\ effect m t task b' task'.
Proof.
  destruct task as [op|now changed errors|now changed errors queries changes failed|errors|sub|sub|r];
    cbn -[query_notify change_notify query_message change_message].
  - unfold start_step. destruct op.
    + destruct (can_write_database m t) eqn:Ew; [|done]. destruct (add_entry _ _ _ _ _ _ _ _ _ _) as [r b] eqn:Ea.
      unfold add_entry in Ea. destruct (add _ _ _ _ _ _ _ _ _ _ _) as [r0 db]. injection Ea as <- <-.
      intros [= <-]. eexists _, _. split; [done|]. split; simpl; auto; lia.
    + destruct (can_read_database m t); [|done]. intros [= <-]. eexists _, _. split; [done|].
      apply effect_same; [simpl; lia|by right|right; by intros ? [= <-]].
    + destruct (can_write_database m t) eqn:Ew; [|done]. destruct (apply_updates _ _ _ _ _ _) as [[db changed] errors].
      intros [= <-]. eexists _, _. split; [done|]. split; simpl; auto; lia.
    + destruct (can_read_database m t); [|done].
      destruct (subscribe_initial _ _ _ _) as [r b] eqn:Es. apply (subscribe_initial_effect _ t) in Es.
      destruct r; intros [= <-]; by eexists _, _.
    + destruct (can_read_database m t); [|done].
      destruct (query_initial _ _ _ _) as [r b] eqn:Es. apply (query_initial_effect _ t) in Es.
      destruct r; intros [= <-]; by eexists _, _.
    + destruct (can_write_subscriptions m t) eqn:Ew; [|done]. intros [= <-]. eexists _, _. split; [done|]. split; simpl; auto; lia.
    + destruct (can_write_subscriptions m t) eqn:Ew; [|done]. intros [= <-]. eexists _, _. split; [done|]. split; simpl; auto; lia.
  - destruct (can_read_subscriptions m t); [|done]. intros [= <-]. eexists _, _. split; [done|].
    apply effect_same; [simpl; lia|by left|by left].
  - destruct queries as [|sub queries]; [destruct changes as [|sub changes]|];
      cbn -[query_notify change_notify query_message change_message].
    + intros [= <-]. eexists _, _. split; [done|]. apply effect_same; [destruct failed; simpl; lia|by left|by left].
    + destruct (waits _ _ _ _); [done|]. destruct (change_notify _ _ _ _ _).
      intros [= <-]. eexists _, _. split; [done|]. split; simpl; auto; lia.
    + destruct (waits _ _ _ _); [done|]. destruct (query_notify _ _ _ _ _).
      intros [= <-]. eexists _, _. split; [done|]. split; simpl; auto; lia.
  - destruct (can_write_subscriptions m t) eqn:Ew; [|done]. intros [= <-]. eexists _, _. split; [done|]. split; simpl; auto; lia.
  - destruct (can_write_subscriptions m t) eqn:Ew; [|done]. intros [= <-]. eexists _, _. split; [done|]. split; simpl; auto; lia.
  - destruct (can_write_subscriptions m t) eqn:Ew; [|done]. intros [= <-]. eexists _, _. split; [done|]. split; simpl; auto; lia.
  - done.
Qed.

(** While an update is under way the database stays as it is, and no task goes
    back. *)
Lemma lock_step_updating m event m' t task :
  mc_tasks m !! t = Some task -> lock_step m event = Some m' ->
  exists task', mc_tasks m' !! t = Some task' /\ (stage task <= stage task')%nat /\
    (updating task = true -> database (mc_broker m') = database (mc_broker m)).
Proof.
  intros Ht Hstep. pose proof (lookup_lt_Some _ _ _ Ht) as Hlt.
  destruct event as [op|t'|c|c|c|c|t'].
  - injection Hstep as <-. exists task. split; [by apply lookup_app_l_Some|done].
  - simpl in Hstep. destruct (mc_tasks m !! t') as [x|] eqn:Hx; [|done].
    apply task_step_effect in Hstep as (b' & x' & -> & [Hdb _ _ _ Hst _]).
    assert (updating task = true -> database b' = database (mc_broker m)) as Hsame.
    { intros Hu. destruct Hdb as [Hdb|?]; [|done]. rewrite (held_database m t t' task) in Hdb; [done|done|by destruct task]. }
    simpl. destruct (decide (t' = t)) as [->|Hne].
    + simplify_eq. exists x'. by rewrite list_lookup_insert_eq.
    + exists task. by rewrite list_lookup_insert_ne.
  - simpl in Hstep. destruct (has_message _ _ _); [|done]. injection Hstep as <-. by exists task.
  - simpl in Hstep. destruct (has_message _ _ _); [|done]. injection Hstep as <-. by exists task.
  - injection Hstep as <-. by exists task.
  - injection Hstep as <-. by exists task.
  - apply cancel_cases in Hstep as (x & Hx & ->). simpl. destruct (decide (t' = t)) as [->|Hne].
    + simplify_eq. exists (T_end TR_cancelled). rewrite list_lookup_insert_eq by done. split_and!; [done| |done].
      by destruct task; simpl; lia.
    + exists task. by rewrite list_lookup_insert_ne.
Qed.

Lemma lock_run_updating events m m' t task :
  mc_tasks m !! t = Some task -> lock_run m events = Some m' ->
  exists task', mc_tasks m' !! t = Some task' /\ (stage task <= stage task')%nat /\
    (updating task = true -> updating task' = true -> database (mc_broker m') = database (mc_broker m)).
Proof.
  revert m task. induction events as [|event events IH]; intros m task Ht Hrun; simpl in Hrun.
  { injection Hrun as <-. by exists task. }
  destruct (lock_step m event) as [m1|] eqn:He; [|done].
  destruct (lock_step_updating _ _ _ _ _ Ht He) as (task1 & Ht1 & Hst1 & Hdb1).
  destruct (IH m1 task1 Ht1 Hrun) as (task' & Ht' & Hst' & Hdb'). exists task'. split_and!; [done|lia|].
  rewrite !stage_updating in *. intros Hu Hu'. rewrite Hdb', Hdb1; [done|lia..].
Qed.

(** ** A subscriber that does not read *)

(** Neither that the subscriber reads or goes away, nor that the request that
    waits for it is given up. *)
Definition elsewhere (t : nat) (chan : SubscriberChan) (event : LockEvent) : bool :=
  match event, chan with
  | LE_receive_change c, Ch_change c' | LE_drop_change c, Ch_change c'
  | LE_receive_query c, Ch_query c' | LE_drop_query c, Ch_query c' => negb (Nat.eqb c c')
  | LE_cancel t', _ => negb (Nat.eqb t t')
  | _, _ => true
  end.

(** What does not happen: the database and the subscriptions change, a request
    that changes something is answered. *)
Record stalled (m m' : Machine) : Prop := {
  st_database : database (mc_broker m') = database (mc_broker m);
  st_subscriptions : subscriptions (mc_broker m') = subscriptions (mc_broker m);
  st_results t r : mc_tasks m' !! t = Some (T_end r) -> writing_result r = true -> mc_tasks m !! t = Some (T_end r)
}.

Lemma stalled_trans m1 m2 m3 : stalled m1 m2 -> stalled m2 m3 -> stalled m1 m3.
Proof. intros [Hd Hs Hr] [Hd' Hs' Hr']. split; [congruence|congruence|auto]. Qed.

Lemma drop_receiver_other {A} (store : list (Channel A)) c c' : c <> c' -> drop_receiver store c !! c' = store !! c'.
Proof. intros Hne. unfold drop_receiver. destruct (store !! c) as [ch|]; [|done]. by rewrite list_lookup_insert_ne. Qed.

Lemma received_other got c c' : c <> c' -> received (receive_from got c) c' = received got c'.
Proof. intros Hne. unfold received, receive_from. by rewrite lookup_insert_ne. Qed.

(** Blocked before is blocked after, when the channel waited for is the same. *)
Lemma blocked_same m m' task chan :
  blocked_on m task = Some chan -> database (mc_broker m') = database (mc_broker m) ->
  (forall c, chan = Ch_change c ->
     change_channels (channels (mc_broker m')) !! c = change_channels (channels (mc_broker m)) !! c /\
     received (mc_change_received m') c = received (mc_change_received m) c) ->
  (forall c, chan = Ch_query c ->
     query_channels (channels (mc_broker m')) !! c = query_channels (channels (mc_broker m)) !! c /\
     received (mc_query_received m') c = received (mc_query_received m) c) ->
  blocked_on m' task = Some chan.
Proof.
  intros Hb Hdb Hc Hq. destruct task as [| |now changed errors [|sub queries] [|sub' changes] failed| | | |]; try done;
    cbn -[query_message change_message] in *; rewrite Hdb; destruct (waits _ _ _ _) eqn:Ew in Hb; try done;
    injection Hb as <-.
  - destruct (Hc _ eq_refl) as [H1' H2']. by rewrite (waits_ext _ _ _ _ _ _ H1' H2'), Ew.
  - destruct (Hq _ eq_refl) as [H1' H2']. by rewrite (waits_ext _ _ _ _ _ _ H1' H2'), Ew.
  - destruct (Hq _ eq_refl) as [H1' H2']. by rewrite (waits_ext _ _ _ _ _ _ H1' H2'), Ew.
Qed.

(** The channel waited for is one of the broker's. *)
Lemma blocked_channel m task chan :
  blocked_on m task = Some chan ->
  match chan with
  | Ch_change c => is_Some (change_channels (channels (mc_broker m)) !! c)
  | Ch_query c => is_Some (query_channels (channels (mc_broker m)) !! c)
  end.
Proof.
  intros Hb. destruct task as [| |now changed errors [|sub queries] [|sub' changes] failed| | | |]; try done;
    cbn -[query_message change_message] in *; destruct (waits _ _ _ _) eqn:Ew in Hb; try done;
    injection Hb as <-; apply waits_full in Ew as (ch & Hc & _); by exists ch.
Qed.

(** The task [t] is blocked on [chan], and what that keeps. *)
Record blocked (t : nat) (task : Task) (chan : SubscriberChan) (m : Machine) : Prop := {
  bk_shape : shape_inv m;
  bk_task : mc_tasks m !! t = Some task;
  bk_chan : blocked_on m task = Some chan
}.

Lemma blocked_holds m task chan :
  blocked_on m task = Some chan ->
  updating task = true /\ holds_database task = true /\ holds_subscriptions task = true.
Proof. by destruct task. Qed.

Lemma blocked_no_run m task chan t : blocked_on m task = Some chan -> task_step m t task = None.
Proof. destruct task; try done. intros Hb. apply sending_step_none. by exists chan. Qed.

Lemma stalled_same m m' :
  database (mc_broker m') = database (mc_broker m) ->
  subscriptions (mc_broker m') = subscriptions (mc_broker m) -> mc_tasks m' = mc_tasks m -> stalled m m'.
Proof. intros Hd Hs Ht. split; [done|done|]. by rewrite Ht. Qed.

(** Another task's turn. *)
Lemma blocked_run t task chan m t' m' :
  blocked t task chan m -> lock_step m (LE_run t') = Some m' ->
  t' <> t /\ stalled m m' /\ mc_tasks m' !! t = Some task /\ blocked_on m' task = Some chan.
Proof.
  intros [Hs Ht Hb] Hstep. pose proof (blocked_holds _ _ _ Hb) as (Hu & Hhd & Hhs).
  simpl in Hstep. destruct (mc_tasks m !! t') as [x|] eqn:Hx; [|done].
  assert (t' <> t) as Hne by (intros ->; simplify_eq; by rewrite (blocked_no_run _ _ _ _ Hb) in Hstep).
  assert (updating x <> true) as Hux by (intros Hux; by apply Hne, (sh_one_update _ Hs t' t x task)).
  apply task_step_effect in Hstep as (b' & x' & -> & [Hdb Hsub Hch _ _ Hres]).
  rewrite (held_database m t t' task), (held_subscriptions m t t' task) in * by done.
  destruct Hdb as [|Hdb]; [done|]. destruct Hsub as [|Hsub]; [done|]. destruct Hch as [|[Hcc Hcq]]; [done|].
  split_and!; [done| |simpl; by rewrite list_lookup_insert_ne|].
  - split; simpl; [done|done|]. intros t1 r. destruct (decide (t1 = t')) as [->|Hne'].
    + rewrite list_lookup_insert_eq by (by eapply lookup_lt_Some). intros [= ->] Hw.
      by destruct (Hres r eq_refl Hw) as [?|[?|?]].
    + by rewrite list_lookup_insert_ne.
  - pose proof (blocked_channel _ _ _ Hb) as Hin. eapply blocked_same; [exact Hb|done|..]; intros c ->;
      destruct Hin as [ch Hc]; simpl; (split; [|done]); rewrite Hc; by eapply prefix_lookup_Some.
Qed.

Lemma blocked_step t task chan m event m' :
  blocked t task chan m -> elsewhere t chan event = true -> lock_step m event = Some m' ->
  blocked t task chan m' /\ stalled m m'.
Proof.
  intros Hbk He Hstep. pose proof (lock_step_shape _ _ _ (bk_shape _ _ _ _ Hbk) Hstep) as Hs'.
  enough (mc_tasks m' !! t = Some task /\ blocked_on m' task = Some chan /\ stalled m m') as (? & ? & ?) by done.
  pose proof Hbk as [_ Ht Hb].
  assert (forall c, change_channels (channels (mc_broker m)) !! c = change_channels (channels (mc_broker m)) !! c /\
    received (mc_change_received m) c = received (mc_change_received m) c) as Hrefl by done.
  destruct event as [op|t'|c|c|c|c|t'].
  - injection Hstep as <-. split_and!; [by apply lookup_app_l_Some| |].
    + eapply blocked_same; [exact Hb|done|done|done].
    + split; simpl; [done|done|]. intros t1 r [Ht1|[_ Ht1]]%lookup_app_Some Hw; [done|].
      apply list_lookup_singleton_Some in Ht1 as [_ Hop]. destruct op; simpl in Hop; try done.
      case_bool_decide; [|done]. by injection Hop as <-.
  - by destruct (blocked_run _ _ _ _ _ _ Hbk Hstep) as (_ & ? & ? & ?).
  - simpl in Hstep. destruct (has_message _ _ _); [|done]. injection Hstep as <-.
    split_and!; [done| |by apply stalled_same]. eapply blocked_same; [exact Hb|done| |done].
    intros c' ->. split; [done|]. simpl in He. apply negb_true_iff, Nat.eqb_neq in He. by apply received_other.
  - simpl in Hstep. destruct (has_message _ _ _); [|done]. injection Hstep as <-.
    split_and!; [done| |by apply stalled_same]. eapply blocked_same; [exact Hb|done|done|].
    intros c' ->. split; [done|]. simpl in He. apply negb_true_iff, Nat.eqb_neq in He. by apply received_other.
  - injection Hstep as <-. split_and!; [done| |by apply stalled_same]. eapply blocked_same; [exact Hb|done| |done].
    intros c' ->. split; [|done]. simpl in He. apply negb_true_iff, Nat.eqb_neq in He. by apply drop_receiver_other.
  - injection Hstep as <-. split_and!; [done| |by apply stalled_same]. eapply blocked_same; [exact Hb|done|done|].
    intros c' ->. split; [|done]. simpl in He. apply negb_true_iff, Nat.eqb_neq in He. by apply drop_receiver_other.
  - apply cancel_cases in Hstep as (x & Hx & ->). simpl in He. apply negb_true_iff, Nat.eqb_neq in He.
    split_and!; [simpl; by rewrite list_lookup_insert_ne| |].
    + eapply blocked_same; [exact Hb|done|done|done].
    + split; simpl; [done|done|]. intros t1 r. destruct (decide (t1 = t')) as [->|Hne'].
      * rewrite list_lookup_insert_eq by (by eapply lookup_lt_Some). by intros [= <-].
      * by rewrite list_lookup_insert_ne.
Qed.

Lemma blocked_run_events t task chan events m m' :
  blocked t task chan m -> forallb (elsewhere t chan) events = true -> lock_run m events = Some m' ->
  blocked t task chan m' /\ stalled m m'.
Proof.
  revert m. induction events as [|event events IH]; intros m Hb He Hrun; simpl in *.
  { injection Hrun as <-. split; [done|by apply stalled_same]. }
  apply andb_true_iff in He as [He Hes]. destruct (lock_step m event) as [m1|] eqn:Hstep; [|done].
  destruct (blocked_step _ _ _ _ _ _ Hb He Hstep) as [Hb1 Hs1]. destruct (IH m1 Hb1 Hes Hrun) as [Hb' Hs'].
  split; [done|by eapply stalled_trans].
Qed.

(** ** A writer in line *)

(** A lock that lets in only the first in line, as tokio's does. *)
Definition strict_policy : Prop :=
  forall first rest t, may_acquire (first :: rest) t = true -> t = first.

(** A request to write waits for the database, ahead of all others. *)
Definition writer_first (m : Machine) (w : nat) : Prop :=
  exists op rest, mc_tasks m !! w = Some (T_start op) /\ mc_database_queue m = w :: rest /\
    match op with Op_add_entry _ _ _ _ _ _ _ _ _ | Op_update _ _ _ => True | _ => False end.

Definition keeps_waiting (w : nat) (event : LockEvent) : bool :=
  match event with LE_cancel t => negb (Nat.eqb w t) | _ => true end.

(** Then nobody runs. *)
Lemma writer_first_no_run t task chan w m t' m' :
  strict_policy -> blocked t task chan m -> writer_first m w -> lock_step m (LE_run t') = Some m' -> False.
Proof.
  intros Hstrict Hbk (op & rest & Hw & Hq & Hop) Hstep. pose proof Hbk as [Hs Ht Hb].
  destruct (blocked_run _ _ _ _ _ _ Hbk Hstep) as (Hne & _ & _).
  pose proof (blocked_holds _ _ _ Hb) as (Hu & Hhd & Hhs).
  simpl in Hstep. destruct (mc_tasks m !! t') as [x|] eqn:Hx; [|done].
  assert (updating x <> true) as Hux by (intros Hux; by apply Hne, (sh_one_update _ Hs t' t x task)).
  assert (can_write_database m t' = false) as Hwd by (by eapply held_database).
  assert (can_write_subscriptions m t' = false) as Hws by (by eapply held_subscriptions).
  assert (forall op', x = T_start op' -> match op' with Op_read | Op_subscribe _ _ _ | Op_subscribe_query _ _ _ => True
      | _ => False end -> can_read_database m t' = false) as Hrd.
  { intros op' -> Hop'. apply not_true_iff_false. unfold can_read_database. rewrite Hq.
    intros ->%Hstrict. simplify_eq. by destruct op. }
  destruct x as [op'| | | | | |]; simpl in *; try done; try (by rewrite Hws in Hstep).
  unfold start_step in Hstep. destruct op'; rewrite ?Hwd, ?Hws, ?(Hrd _ eq_refl I) in Hstep; done.
Qed.

Lemma writer_first_step t task chan w m event m' :
  strict_policy -> blocked t task chan m -> writer_first m w -> keeps_waiting w event = true ->
  lock_step m event = Some m' -> is_run event = false /\ writer_first m' w.
Proof.
  intros Hstrict Hbk Hw Hk Hstep. pose proof Hw as (op & rest & Hwt & Hq & Hop).
  destruct event as [op'|t'|c|c|c|c|t']; (split; [try done|]).
  2, 3: by exfalso; eapply writer_first_no_run.
  - injection Hstep as <-. exists op. eexists. simpl. rewrite Hq. split_and!; [by apply lookup_app_l_Some|done|done].
  - simpl in Hstep. destruct (has_message _ _ _); [|done]. injection Hstep as <-. by exists op, rest.
  - simpl in Hstep. destruct (has_message _ _ _); [|done]. injection Hstep as <-. by exists op, rest.
  - injection Hstep as <-. by exists op, rest.
  - injection Hstep as <-. by exists op, rest.
  - apply cancel_cases in Hstep as (x & Hx & ->). simpl in Hk. apply negb_true_iff, Nat.eqb_neq in Hk.
    exists op. eexists. simpl. rewrite Hq. split_and!; [by rewrite list_lookup_insert_ne| |done].
    unfold leave. rewrite filter_cons_True by done. done.
Qed.

Lemma writer_first_run t task chan w events m m' :
  strict_policy -> blocked t task chan m -> writer_first m w ->
  forallb (elsewhere t chan) events = true -> forallb (keeps_waiting w) events = true ->
  lock_run m events = Some m' -> existsb is_run events = false.
Proof.
  intros Hstrict. revert m. induction events as [|event events IH]; intros m Hb Hw He Hk Hrun; simpl in *; [done|].
  apply andb_true_iff in He as [He Hes]. apply andb_true_iff in Hk as [Hk Hks].
  destruct (lock_step m event) as [m1|] eqn:Hstep; [|done].
  destruct (writer_first_step _ _ _ _ _ _ _ Hstrict Hb Hw Hk Hstep) as [-> Hw1].
  destruct (blocked_step _ _ _ _ _ _ Hb He Hstep) as [Hb1 _]. by apply (IH m1).
Qed.

(** ** The properties *)

(** C2. The locks never stop the broker.  In every reachable state all requests
    have been answered, or a task can go on, or a task waits for room in the
    channel of a subscriber that is there but does not read; only so many steps
    of tasks are possible before that; and when the tasks go on and the
    subscribers read, every request is answered. *)
Theorem no_deadlock v m :
  rtc machine_step (machine_new v) m ->
  (Forall ended (mc_tasks m) \/ (exists t m', lock_step m (LE_run t) = Some m') \/
   exists t task chan, mc_tasks m !! t = Some task /\ blocked_on m task = Some chan) /\
  (forall events m', existsb is_request events = false -> lock_run m events = Some m' ->
     (length (List.filter is_run events) <= steps_left m)%nat) /\
  (exists m', rtc helpful m m' /\ Forall ended (mc_tasks m')).
Proof.
  intros Hr. assert (shape_inv m) as Hs by (eapply mi_shape, machine_inv_rtc; [apply machine_inv_new|exact Hr]).
  split_and!; [by apply progress| |by apply drain]. intros events m' Hreq Hrun.
  pose proof (steps_left_run _ _ _ Hs Hreq Hrun) as [_ ?]. lia.
Qed.

(** C3. A request that comes in when all others have been answered does what its
    operation in [Broker] says, answer and effect: its tasks, run with the
    subscribers reading as they must, come to an end there. *)
Theorem request_alone v m op :
  rtc machine_step (machine_new v) m -> Forall ended (mc_tasks m) ->
  exists m1 m2, lock_step m (LE_request op) = Some m1 /\ rtc helpful m1 m2 /\
    mc_tasks m2 = mc_tasks m ++ [T_end (run_op (mc_broker m) op).1] /\
    mc_broker m2 = (run_op (mc_broker m) op).2.
Proof.
  intros Hr Hend. assert (shape_inv m) as Hs by (eapply mi_shape, machine_inv_rtc; [apply machine_inv_new|exact Hr]).
  eexists. assert (forall m1, lock_step m (LE_request op) = Some m1 -> exists m2, rtc helpful m1 m2 /\
    mc_tasks m2 = mc_tasks m ++ [T_end (run_op (mc_broker m) op).1] /\
    mc_broker m2 = (run_op (mc_broker m) op).2) as Hgo.
  { intros m1 Hm1. destruct (drain m1 (request_shape _ _ _ Hs Hm1)) as (m2 & Hr2 & Hend2).
    assert (alone (mc_tasks m) (run_op (mc_broker m) op) m2) as (task & Ht & Hf).
    { clear Hend2. assert (alone (mc_tasks m) (run_op (mc_broker m) op) m1) as Ha.
      { injection Hm1 as <-. exists (first_task op). split; [done|apply first_task_finish]. }
      clear Hm1. induction Hr2 as [|m1 m2 m3 Hh _ IH]; [done|]. by eapply IH, alone_helpful. }
    rewrite Ht in Hend2. apply Forall_app in Hend2 as [_ [[r ->] _]%Forall_cons].
    exists m2. simpl in Hf. rewrite Ht, <- Hf. done. }
  destruct (Hgo _ eq_refl) as (m2 & ? & ? & ?). by exists m2.
Qed.

(** C4. From the downgrade of its lock to its last notification an update sees
    one database: whatever else goes on, nothing is written in between, so all
    subscribers are told of the same state. *)
Theorem notifications_consistent events m m' t task task' :
  mc_tasks m !! t = Some task -> updating task = true -> lock_run m events = Some m' ->
  mc_tasks m' !! t = Some task' -> updating task' = true ->
  database (mc_broker m') = database (mc_broker m).
Proof.
  intros Ht Hu Hrun Ht' Hu'. destruct (lock_run_updating _ _ _ _ _ Ht Hrun) as (x & Hx & _ & Hdb).
  apply Hdb; [done|congruence].
Qed.

End LocksRun.

(** ** Runs *)

Section Runs.
#[local] Existing Instance glob_engine.
#[local] Existing Instance one_query_parser.
#[local] Existing Instance fifo.

Lemma fifo_strict : strict_policy.
Proof. intros first rest t. simpl. intros Ht%Nat.eqb_eq. done. Qed.

(** Runs of events, with the bound on the number of entries checked on the way. *)
Fixpoint bounded_run (m : Machine) (events : list LockEvent) : option Machine :=
  if Z.of_nat (size (entries (database (mc_broker m)))) <? 4294967296 then
    match events with
    | [] => Some m
    | event :: events => match lock_step m event with Some m => bounded_run m events | None => None end
    end
  else None.

Lemma bounded_run_rtc events m m' : bounded_run m events = Some m' -> rtc machine_step m m'.
Proof.
  revert m. induction events as [|event events IH]; intros m; simpl;
    (destruct (Z.ltb_spec (Z.of_nat (size (entries (database (mc_broker m))))) 4294967296); [|done]).
  - by intros [= <-].
  - destruct (lock_step m event) as [m1|] eqn:He; [|done]. intros Hr. eapply rtc_l; [|by apply IH].
    split; [done|by exists event].
Qed.

Lemma bounded_run_lock_run m events m' : bounded_run m events = Some m' -> lock_run m events = Some m'.
Proof.
  revert m. induction events as [|event events IH]; intros m; simpl; (destruct (Z.ltb _ _); [|done]); [done|].
  destruct (lock_step m event) as [m1|]; [|done]. apply IH.
Qed.

Lemma lock_run_app m events1 events2 :
  lock_run m (events1 ++ events2) =
    match lock_run m events1 with Some m1 => lock_run m1 events2 | None => None end.
Proof.
  revert m. induction events1 as [|event events1 IH]; intros m; simpl; [done|].
  destruct (lock_step m event); [apply IH|done].
Qed.

Definition runs (t k : nat) : list LockEvent := repeat (LE_run t) k.

(** A signal, and two subscribers that do not read. *)
Definition two_subscribers : list LockEvent :=
  LE_request (Op_add_entry ALLOW_ALL 0 "Vehicle.Speed" DT_Int8 CT_OnChange ET_Actuator "" None None) :: runs 0 1 ++
  LE_request (Op_subscribe ALLOW_ALL 1 (cs_entries speed_sub)) :: runs 1 2 ++
  LE_request (Op_subscribe ALLOW_ALL 1 (cs_entries speed_sub)) :: runs 2 2.

(** Updates, one after the other: each has two subscribers to notify. *)
Fixpoint some_updates (t n : nat) : list LockEvent :=
  match n with
  | O => []
  | S n => LE_request (Op_update ALLOW_ALL 2 [(0, speed_to (Z.of_nat n))]) :: runs t 5 ++ some_updates (S t) n
  end.

(** The first notification and nine updates fill the channels; the second
    subscriber reads; the tenth update is stuck on the first. *)
Definition until_stuck : list LockEvent :=
  two_subscribers ++ some_updates 3 9 ++ [LE_receive_change 1] ++
  LE_request (Op_update ALLOW_ALL 2 [(0, speed_to 100)]) :: runs 12 2.

Definition the_machine (events : list LockEvent) : Machine :=
  default (machine_new "") (bounded_run (machine_new "test") events).

Definition possible (events : list LockEvent) : bool :=
  match bounded_run (machine_new "test") events with Some _ => true | None => false end.

Lemma the_machine_run events :
  possible events = true -> bounded_run (machine_new "test") events = Some (the_machine events).
Proof. unfold possible, the_machine. by destruct (bounded_run _ _). Qed.

Lemma the_machine_reachable events :
  possible events = true -> rtc machine_step (machine_new "test") (the_machine events).
Proof. intros Hp%the_machine_run. by apply (bounded_run_rtc events). Qed.

Lemma the_machine_app events1 events2 :
  possible events1 = true -> possible (events1 ++ events2) = true ->
  lock_run (the_machine events1) events2 = Some (the_machine (events1 ++ events2)).
Proof.
  intros H1%the_machine_run%bounded_run_lock_run H2%the_machine_run%bounded_run_lock_run.
  rewrite lock_run_app in H2. by rewrite H1 in H2.
Qed.

(** What [f] says of a task of a computed state. *)
Lemma the_task {B} (f : Task -> B) (m : Machine) t x :
  f <$> mc_tasks m !! t = Some x -> exists task, mc_tasks m !! t = Some task /\ f task = x.
Proof. intros (task & Ht & Hx)%fmap_Some. by exists task. Qed.

Definition is_update (task : Task) : bool := match task with T_start (Op_update _ _ _) => true | _ => false end.

Lemma update_first (m : Machine) w task rest :
  mc_tasks m !! w = Some task -> is_update task = true -> mc_database_queue m = w :: rest -> writer_first m w.
Proof. intros Hw Hop Hq. destruct task as [[]| | | | | |]; try done. by eexists _, _. Qed.

Definition given_up : Machine := the_machine (until_stuck ++ [LE_cancel 12]).

Lemma given_up_reachable : rtc machine_step (machine_new "test") given_up.
Proof. apply (the_machine_reachable (until_stuck ++ [LE_cancel 12])). by vm_compute. Qed.

Lemma given_up_ended : Forall ended (mc_tasks given_up).
Proof.
  apply Forall_forall. intros task Hin.
  assert (forallb (fun task => match task with T_end _ => true | _ => false end) (mc_tasks given_up) = true) as Hall
    by by vm_compute.
  rewrite forallb_forall in Hall. specialize (Hall task (proj1 (list_elem_of_In _ _) Hin)).
  destruct task as [| | | | | |r]; try done. by exists r.
Qed.

Lemma stuck_reachable : rtc machine_step (machine_new "test") (the_machine until_stuck).
Proof. apply (the_machine_reachable until_stuck). by vm_compute. Qed.

(** The channel [c] carried another value of the entry [i] last. *)
Definition stale_at (b : DataBroker) (i : Z) (c : ChanId) : bool :=
  match entries (database b) !! i, change_channels (channels b) !! c with
  | Some e, Some ch => bool_decide (last_value (path (metadata e)) (sent ch) <> Some (datapoint e))
  | _, _ => false
  end.

Lemma stale_not_fresh b sub i fields :
  stale_at b i (cs_sender sub) = true -> cs_entries sub !! i = Some fields -> F_Datapoint ∈ fields -> ~ fresh b sub.
Proof.
  unfold stale_at. intros Hs Hf Hd Hfresh. destruct (entries (database b) !! i) as [e|] eqn:He; [|done].
  destruct (change_channels (channels b) !! cs_sender sub) as [ch|] eqn:Hc; [|done].
  apply bool_decide_eq_true in Hs. by apply Hs, (Hfresh i fields).
Qed.

(** What a subscription is for. *)
Definition wanted (sub : ChangeSubscription) : list (Z * list Field) * ChanId :=
  (map (fun e => (fst e, elements (snd e))) (map_to_list (cs_entries sub)), cs_sender sub).

Lemma wanted_spec sub i c :
  wanted sub = ([(i, [F_Datapoint])], c) ->
  cs_sender sub = c /\ exists fields, cs_entries sub !! i = Some fields /\ F_Datapoint ∈ fields.
Proof.
  unfold wanted. intros [= He Hc]. split; [done|].
  destruct (map_to_list (cs_entries sub)) as [|[j fields] [|]] eqn:Hm; try discriminate. injection He as -> Hfs.
  exists fields. split; [apply elem_of_map_to_list; rewrite Hm; left|]. apply elem_of_elements. rewrite Hfs. left.
Qed.


(** ** Witnesses *)

Lemma machine_inv_reachable_witness : machine_inv (the_machine until_stuck).
Proof. exact (machine_inv_reachable "test" (the_machine until_stuck) stuck_reachable). Defined.

Lemma no_deadlock_witness :
  exists m', rtc helpful (the_machine until_stuck) m' /\ Forall ended (mc_tasks m').
Proof. apply (no_deadlock "test" (the_machine until_stuck)), stuck_reachable. Defined.

Definition updated (m : Machine) (t : nat) : option (result unit (list (Z * UpdateError))) :=
  match mc_tasks m !! t with Some (T_end (TR_updated r)) => Some r | _ => None end.

Lemma request_alone_witness :
  exists m1 m2, lock_step given_up (LE_request (Op_update ALLOW_ALL 3 [(0, speed_to 50)])) = Some m1 /\
    rtc helpful m1 m2 /\ updated m2 13 = Some (Ok tt) /\ stale_at (mc_broker m2) 0 1 = false.
Proof.
  destruct (request_alone "test" given_up (Op_update ALLOW_ALL 3 [(0, speed_to 50)]) given_up_reachable given_up_ended)
    as (m1 & m2 & H1 & H2 & H3 & H4).
  exists m1, m2. split_and!; [exact H1|exact H2| |].
  - unfold updated. rewrite H3. vm_compute. reflexivity.
  - rewrite H4. vm_compute. reflexivity.
Defined.

(** Between its two last notifications a client reads the database. *)
Definition read_meanwhile : list LockEvent := [LE_request Op_read; LE_run 13; LE_receive_change 0; LE_run 12].

Lemma notifications_consistent_witness :
  database (mc_broker (the_machine (until_stuck ++ read_meanwhile))) = database (mc_broker (the_machine until_stuck)).
Proof.
  destruct (the_task updating (the_machine until_stuck) 12 true) as (task & Ht & Hu); [by vm_compute|].
  destruct (the_task updating (the_machine (until_stuck ++ read_meanwhile)) 12 true) as (task' & Ht' & Hu');
    [by vm_compute|].
  refine (notifications_consistent read_meanwhile _ _ 12 task task' Ht Hu _ Ht' Hu').
  apply (the_machine_app until_stuck read_meanwhile); by vm_compute.
Defined.

(** Behind the stuck update: a reader is served, then another update waits, and a
    reader behind it. *)
Definition queue_up : list LockEvent :=
  [LE_request Op_read; LE_run 13; LE_receive_change 1; LE_request (Op_update ALLOW_ALL 3 [(0, speed_to 50)]);
   LE_request Op_read].

End Runs.
