(* ===== verification/ProtoVal.v ===== *)
(** * ProtoVal: the messages of kuksa.val.v1 and their conversions

    The messages of src/proto/kuksa/val/v1/types.proto and val.proto as the
    generated Rust types, and
    src/kuksa_databroker/databroker/src/grpc/kuksa_val_v1/conversions.rs.  The
    timestamp type and its conversions belong to the crate [prost-types] and
    are a parameter ([Timestamps]). *)

From S2P Require Import Prelude Floats Types Entry Broker.

(** ** Messages *)

Inductive ProtoDataType :=
| PDT_Unspecified | PDT_String | PDT_Boolean | PDT_Int8 | PDT_Int16 | PDT_Int32 | PDT_Int64
| PDT_Uint8 | PDT_Uint16 | PDT_Uint32 | PDT_Uint64 | PDT_Float | PDT_Double | PDT_Timestamp
| PDT_StringArray | PDT_BooleanArray | PDT_Int8Array | PDT_Int16Array | PDT_Int32Array | PDT_Int64Array
| PDT_Uint8Array | PDT_Uint16Array | PDT_Uint32Array | PDT_Uint64Array | PDT_FloatArray
| PDT_DoubleArray | PDT_TimestampArray.

(** [as i32]: the numbers of the protocol definition. *)
Definition proto_data_type_i32 (t : ProtoDataType) : Z :=
  match t with
  | PDT_Unspecified => 0 | PDT_String => 1 | PDT_Boolean => 2 | PDT_Int8 => 3 | PDT_Int16 => 4
  | PDT_Int32 => 5 | PDT_Int64 => 6 | PDT_Uint8 => 7 | PDT_Uint16 => 8 | PDT_Uint32 => 9
  | PDT_Uint64 => 10 | PDT_Float => 11 | PDT_Double => 12 | PDT_Timestamp => 13
  | PDT_StringArray => 20 | PDT_BooleanArray => 21 | PDT_Int8Array => 22 | PDT_Int16Array => 23
  | PDT_Int32Array => 24 | PDT_Int64Array => 25 | PDT_Uint8Array => 26 | PDT_Uint16Array => 27
  | PDT_Uint32Array => 28 | PDT_Uint64Array => 29 | PDT_FloatArray => 30 | PDT_DoubleArray => 31
  | PDT_TimestampArray => 32
  end.

Inductive ProtoEntryType := PET_Unspecified | PET_Attribute | PET_Sensor | PET_Actuator.

Definition proto_entry_type_i32 (t : ProtoEntryType) : Z :=
  match t with PET_Unspecified => 0 | PET_Attribute => 1 | PET_Sensor => 2 | PET_Actuator => 3 end.

Inductive View := VW_Unspecified | VW_CurrentValue | VW_TargetValue | VW_Metadata | VW_Fields | VW_All.

(** [View::from_i32]. *)
Definition view_from_i32 (i : Z) : option View :=
  match i with
  | 0 => Some VW_Unspecified | 1 => Some VW_CurrentValue | 2 => Some VW_TargetValue
  | 3 => Some VW_Metadata | 10 => Some VW_Fields | 20 => Some VW_All | _ => None
  end.

Inductive ProtoField :=
| PF_Unspecified | PF_Path | PF_Value | PF_ActuatorTarget | PF_Metadata | PF_MetadataDataType
| PF_MetadataDescription | PF_MetadataEntryType | PF_MetadataComment | PF_MetadataDeprecation
| PF_MetadataUnit | PF_MetadataValueRestriction | PF_MetadataActuator | PF_MetadataSensor
| PF_MetadataAttribute.

Definition proto_field_i32 (f : ProtoField) : Z :=
  match f with
  | PF_Unspecified => 0 | PF_Path => 1 | PF_Value => 2 | PF_ActuatorTarget => 3 | PF_Metadata => 10
  | PF_MetadataDataType => 11 | PF_MetadataDescription => 12 | PF_MetadataEntryType => 13
  | PF_MetadataComment => 14 | PF_MetadataDeprecation => 15 | PF_MetadataUnit => 16
  | PF_MetadataValueRestriction => 17 | PF_MetadataActuator => 20 | PF_MetadataSensor => 30
  | PF_MetadataAttribute => 40
  end.

(** [Field::from_i32]. *)
Definition proto_field_from_i32 (i : Z) : option ProtoField :=
  match i with
  | 0 => Some PF_Unspecified | 1 => Some PF_Path | 2 => Some PF_Value | 3 => Some PF_ActuatorTarget
  | 10 => Some PF_Metadata | 11 => Some PF_MetadataDataType | 12 => Some PF_MetadataDescription
  | 13 => Some PF_MetadataEntryType | 14 => Some PF_MetadataComment | 15 => Some PF_MetadataDeprecation
  | 16 => Some PF_MetadataUnit | 17 => Some PF_MetadataValueRestriction | 20 => Some PF_MetadataActuator
  | 30 => Some PF_MetadataSensor | 40 => Some PF_MetadataAttribute | _ => None
  end.

Lemma proto_field_from_to f : proto_field_from_i32 (proto_field_i32 f) = Some f.
Proof. by destruct f. Qed.

#[export] Instance ProtoField_eq_dec : EqDecision ProtoField.
Proof. solve_decision. Defined.
#[export, refine] Instance ProtoField_countable : Countable ProtoField :=
  inj_countable proto_field_i32 proto_field_from_i32 _.
Proof. apply proto_field_from_to. Defined.

Inductive ProtoValue :=
| PV_String (s : string) | PV_Bool (b : bool) | PV_Int32 (z : Z) | PV_Int64 (z : Z)
| PV_Uint32 (z : Z) | PV_Uint64 (z : Z) | PV_Float (x : float) | PV_Double (x : float)
| PV_StringArray (l : list string) | PV_BoolArray (l : list bool) | PV_Int32Array (l : list Z)
| PV_Int64Array (l : list Z) | PV_Uint32Array (l : list Z) | PV_Uint64Array (l : list Z)
| PV_FloatArray (l : list float) | PV_DoubleArray (l : list float).

(** [prost_types::Timestamp], [From<SystemTime>] and [TryInto<SystemTime>]. *)
Class Timestamps := {
  Timestamp : Type;
  timestamp_from : SystemTime -> Timestamp;
  timestamp_try_into : Timestamp -> option SystemTime
}.

(** A time survives the conversion to a timestamp and back. *)
Class TimestampLaws `{Timestamps} := {
  law_timestamp : forall t, timestamp_try_into (timestamp_from t) = Some t
}.

(** The fields of [proto::Metadata] the broker sets; [value_restriction] and
    [entry_specific] are always left at their default. *)
Record ProtoMetadata := {
  pm_data_type : Z;
  pm_entry_type : Z;
  pm_description : option string;
  pm_comment : option string;
  pm_deprecation : option string;
  pm_unit : option string
}.

Definition ProtoMetadata_default : ProtoMetadata :=
  {| pm_data_type := 0; pm_entry_type := 0; pm_description := None; pm_comment := None;
     pm_deprecation := None; pm_unit := None |}.

Section Messages.
Context `{Timestamps}.

Record ProtoDatapoint := { pd_timestamp : option Timestamp; pd_value : option ProtoValue }.

Record DataEntry := {
  de_path : string;
  de_value : option ProtoDatapoint;
  de_actuator_target : option ProtoDatapoint;
  de_metadata : option ProtoMetadata
}.

Record ProtoEntryUpdate := { peu_entry : option DataEntry; peu_fields : list Z }.
End Messages.

Record ProtoError := { err_code : Z; err_reason : string; err_message : string }.
Record DataEntryError := { dee_path : string; dee_error : option ProtoError }.
Record EntryRequest := { er_path : string; er_view : Z; er_fields : list Z }.

(** ** Conversions *)

(** [From<&broker::EntryType> for proto::EntryType]. *)
Definition entry_type_to_proto (from : EntryType) : ProtoEntryType :=
  match from with
  | ET_Sensor => PET_Sensor
  | ET_Attribute => PET_Attribute
  | ET_Actuator => PET_Actuator
  end.

(** [From<broker::DataType> for proto::DataType]. *)
Definition data_type_to_proto (from : DataType) : ProtoDataType :=
  match from with
  | DT_String => PDT_String
  | DT_Bool => PDT_Boolean
  | DT_Int8 => PDT_Int8
  | DT_Int16 => PDT_Int16
  | DT_Int32 => PDT_Int32
  | DT_Int64 => PDT_Int64
  | DT_Uint8 => PDT_Uint8
  | DT_Uint16 => PDT_Uint16
  | DT_Uint32 => PDT_Uint32
  | DT_Uint64 => PDT_Uint64
  | DT_Float => PDT_Float
  | DT_Double => PDT_Double
  | DT_StringArray => PDT_StringArray
  | DT_BoolArray => PDT_BooleanArray
  | DT_Int8Array => PDT_Int8Array
  | DT_Int16Array => PDT_Int16Array
  | DT_Int32Array => PDT_Int32Array
  | DT_Int64Array => PDT_Int64Array
  | DT_Uint8Array => PDT_Uint8Array
  | DT_Uint16Array => PDT_Uint16Array
  | DT_Uint32Array => PDT_Uint32Array
  | DT_Uint64Array => PDT_Uint64Array
  | DT_FloatArray => PDT_FloatArray
  | DT_DoubleArray => PDT_DoubleArray
  end.

Section Conversions.
Context `{Timestamps}.

(** [From<broker::Datapoint> for Option<proto::Datapoint>]. *)
Definition datapoint_to_proto (from : Datapoint) : option ProtoDatapoint :=
  let some v := Some {| pd_value := Some v; pd_timestamp := Some (timestamp_from (ts from)) |} in
  match value from with
  | DV_NotAvailable => None
  | DV_Bool value => some (PV_Bool value)
  | DV_String value => some (PV_String value)
  | DV_Int32 value => some (PV_Int32 value)
  | DV_Int64 value => some (PV_Int64 value)
  | DV_Uint32 value => some (PV_Uint32 value)
  | DV_Uint64 value => some (PV_Uint64 value)
  | DV_Float value => some (PV_Float value)
  | DV_Double value => some (PV_Double value)
  | DV_BoolArray values => some (PV_BoolArray values)
  | DV_StringArray values => some (PV_StringArray values)
  | DV_Int32Array values => some (PV_Int32Array values)
  | DV_Int64Array values => some (PV_Int64Array values)
  | DV_Uint32Array values => some (PV_Uint32Array values)
  | DV_Uint64Array values => some (PV_Uint64Array values)
  | DV_FloatArray values => some (PV_FloatArray values)
  | DV_DoubleArray values => some (PV_DoubleArray values)
  end.

(** [From<broker::DataValue> for Option<proto::Datapoint>]. *)
Definition data_value_to_proto (from : DataValue) : option ProtoDatapoint :=
  let some v := Some {| pd_value := Some v; pd_timestamp := None |} in
  match from with
  | DV_NotAvailable => None
  | DV_Bool value => some (PV_Bool value)
  | DV_String value => some (PV_String value)
  | DV_Int32 value => some (PV_Int32 value)
  | DV_Int64 value => some (PV_Int64 value)
  | DV_Uint32 value => some (PV_Uint32 value)
  | DV_Uint64 value => some (PV_Uint64 value)
  | DV_Float value => some (PV_Float value)
  | DV_Double value => some (PV_Double value)
  | DV_BoolArray values => some (PV_BoolArray values)
  | DV_StringArray values => some (PV_StringArray values)
  | DV_Int32Array values => some (PV_Int32Array values)
  | DV_Int64Array values => some (PV_Int64Array values)
  | DV_Uint32Array values => some (PV_Uint32Array values)
  | DV_Uint64Array values => some (PV_Uint64Array values)
  | DV_FloatArray values => some (PV_FloatArray values)
  | DV_DoubleArray values => some (PV_DoubleArray values)
  end.

(** [From<Option<proto::datapoint::Value>> for broker::DataValue]. *)
Definition data_value_from_proto (from : option ProtoValue) : DataValue :=
  match from with
  | Some value =>
      match value with
      | PV_String value => DV_String value
      | PV_Bool value => DV_Bool value
      | PV_Int32 value => DV_Int32 value
      | PV_Int64 value => DV_Int64 value
      | PV_Uint32 value => DV_Uint32 value
      | PV_Uint64 value => DV_Uint64 value
      | PV_Float value => DV_Float value
      | PV_Double value => DV_Double value
      | PV_StringArray array => DV_StringArray array
      | PV_BoolArray array => DV_BoolArray array
      | PV_Int32Array array => DV_Int32Array array
      | PV_Int64Array array => DV_Int64Array array
      | PV_Uint32Array array => DV_Uint32Array array
      | PV_Uint64Array array => DV_Uint64Array array
      | PV_FloatArray array => DV_FloatArray array
      | PV_DoubleArray array => DV_DoubleArray array
      end
  | None => DV_NotAvailable
  end.

(** [From<&broker::Field> for proto::Field]. *)
Definition field_to_proto (from : Field) : ProtoField :=
  match from with
  | F_Datapoint => PF_Value
  | F_ActuatorTarget => PF_ActuatorTarget
  | F_MetadataUnit => PF_MetadataUnit
  end.

(** [TryFrom<&proto::Field> for broker::Field]. *)
Definition field_try_from_proto (from : ProtoField) : result Field unit :=
  match from with
  | PF_Value => Ok F_Datapoint
  | PF_ActuatorTarget => Ok F_ActuatorTarget
  | _ => Err tt (* Unknown field *)
  end.

(** [From<proto::Datapoint> for broker::Datapoint]. *)
Definition datapoint_from_proto (now : SystemTime) (from : ProtoDatapoint) : Datapoint :=
  {| ts := match pd_timestamp from with
           | Some ts => match timestamp_try_into ts with Some ts => ts | None => now end
           | None => now
           end;
     value := data_value_from_proto (pd_value from) |}.

(** [From<broker::EntryUpdate> for proto::DataEntry]. *)
Definition entry_update_to_proto (from : EntryUpdate) : DataEntry :=
  {| de_path := default "" (u_path from);
     de_value := match u_datapoint from with
                 | Some datapoint => datapoint_to_proto datapoint
                 | None => None
                 end;
     de_actuator_target := match u_actuator_target from with
                           | Some (Some actuator_target) => datapoint_to_proto actuator_target
                           | Some None => None
                           | None => None
                           end;
     de_metadata := Some {| pm_data_type := pm_data_type ProtoMetadata_default;
                            pm_entry_type := pm_entry_type ProtoMetadata_default;
                            pm_description := None; pm_comment := None; pm_deprecation := None;
                            pm_unit := u_unit from |} |}.
End Conversions.

(** ** Round trips *)

(** A datapoint that holds a value travels through the protocol unchanged,
    value and timestamp; one that holds none is sent as an absent value; and
    the value alone round-trips in both directions. *)
Theorem datapoint_roundtrip `{TimestampLaws} now (dp : Datapoint) (v : option ProtoValue) :
  match datapoint_to_proto dp with
  | Some p => datapoint_from_proto now p = dp
  | None => value dp = DV_NotAvailable
  end /\
  (pd_value <$> data_value_to_proto (data_value_from_proto v)) = (Some <$> v).
Proof.
  split.
  - destruct dp as [t []]; unfold datapoint_to_proto; simpl; try done;
      unfold datapoint_from_proto; simpl; by rewrite law_timestamp.
  - by destruct v as [[]|].
Qed.

(** One way to represent timestamps. *)
Definition z_timestamps : Timestamps :=
  {| Timestamp := Z; timestamp_from := fun t => t; timestamp_try_into := Some |}.

Lemma z_timestamp_laws : @TimestampLaws z_timestamps.
Proof. by constructor. Qed.

Lemma datapoint_roundtrip_witness :
  match @datapoint_to_proto z_timestamps {| ts := 7; value := DV_Int32 3 |} with
  | Some p => datapoint_from_proto 9 p = {| ts := 7; value := DV_Int32 3 |}
  | None => False
  end.
Proof.
  exact (proj1 (@datapoint_roundtrip z_timestamps z_timestamp_laws 9
    {| ts := 7; value := DV_Int32 3 |} None)).
Defined.
