(* ===== verification/KuksaVal.v ===== *)
(** * KuksaVal: the kuksa.val.v1 service

    src/kuksa_databroker/databroker/src/grpc/kuksa_val_v1/val.rs: the handlers
    [get], [set], [subscribe] and [get_server_info] of the service, with their
    helpers.  A request carries the permissions the interceptor inserted, if
    any.  The handlers call the broker through [AuthorizedAccess]; the clock is
    read once per call. *)

From S2P Require Import Prelude Types Regex Glob Permissions Entry Database Query Broker ProtoVal.

(** [HashSet::from_iter(fields.iter().filter_map(from_i32))]: unknown fields
    are ignored. *)
Definition known_fields (fields : list Z) : gset ProtoField :=
  list_to_set (omap proto_field_from_i32 fields).

(** [combine_view_and_fields]. *)
Definition combine_view_and_fields (view : View) (fields : gset ProtoField) : gset ProtoField :=
  match view with
  | VW_Unspecified =>
      (* If no fields are specified, View::Unspecified will
         default to the equivalent of View::CurrentValue *)
      if bool_decide (fields = ∅) then {[ PF_Path; PF_Value ]} else fields
  | VW_CurrentValue => {[ PF_Path; PF_Value ]} ∪ fields
  | VW_TargetValue => {[ PF_Path; PF_ActuatorTarget ]} ∪ fields
  | VW_Metadata => {[ PF_Path; PF_Metadata ]} ∪ fields
  | VW_Fields => fields
  | VW_All => {[ PF_Path; PF_Value; PF_ActuatorTarget; PF_Metadata ]} ∪ fields
  end.

Definition not_found_error (message : string) : ProtoError :=
  {| err_code := 404; err_reason := "not_found"; err_message := message |}.

Section KuksaVal.
Context `{RegexEngine} `{HashOrder} `{SqlParser} `{Timestamps}.

(** [proto_entry_from_entry_and_fields]. *)
Definition proto_entry_from_entry_and_fields (entry : EntryReadAccess) (fields : gset ProtoField)
  : DataEntry :=
  let has f := bool_decide (f ∈ fields) in
  let value :=
    if has PF_Value then
      match era_datapoint entry with
      | Ok value => datapoint_to_proto value
      | Err _ => None
      end
    else None in
  let actuator_target :=
    if has PF_ActuatorTarget then
      match era_actuator_target entry with
      | Ok (Some value) => datapoint_to_proto value
      | Ok None => None
      | Err _ => None
      end
    else None in
  let all := has PF_Metadata in
  let m := era_metadata entry in
  let metadata_is_set :=
    all || has PF_MetadataDataType || has PF_MetadataDescription || has PF_MetadataEntryType
    || has PF_MetadataComment || has PF_MetadataDeprecation || has PF_MetadataUnit
    || has PF_MetadataValueRestriction || has PF_MetadataActuator || has PF_MetadataSensor
    || has PF_MetadataAttribute in
  let metadata :=
    {| pm_data_type := if all || has PF_MetadataDataType
                       then proto_data_type_i32 (data_type_to_proto (data_type m)) else 0;
       pm_entry_type := if all || has PF_MetadataEntryType
                        then proto_entry_type_i32 (entry_type_to_proto (entry_type m)) else 0;
       pm_description := if all || has PF_MetadataDescription then Some (description m) else None;
       pm_comment := None;
       pm_deprecation := None;
       pm_unit := if all || has PF_MetadataUnit then unit_ m else None |} in
  {| de_path := path m;
     de_value := value;
     de_actuator_target := actuator_target;
     de_metadata := if metadata_is_set then Some metadata else None |}.

(** ** get *)

Record GetResponse := {
  get_entries : list DataEntry;
  get_errors : list DataEntryError;
  get_error : option ProtoError
}.

(** An element of [valid_requests]: regex, fields, original path, whether an
    entry matched, and a permission error. *)
Record ValidRequest := {
  vr_regex : Regex;
  vr_fields : gset ProtoField;
  vr_path : string;
  vr_is_match : bool;
  vr_error : option ReadError
}.

(** The loop that fills [valid_requests] and the first [errors]. *)
Fixpoint fill_valid_requests (requested : list EntryRequest) (errors : list DataEntryError)
  (valid : list ValidRequest) : result (list DataEntryError * list ValidRequest) Status :=
  match requested with
  | [] => Ok (errors, valid)
  | request :: requested =>
      if contains "*" (er_path request) && negb (is_valid_pattern (er_path request)) then
        fill_valid_requests requested
          (errors ++ [{| dee_path := er_path request;
                         dee_error := Some {| err_code := 400; err_reason := "bad_request";
                                              err_message := "Bad Wildcard Pattern Request" |} |}])
          valid
      else
        match view_from_i32 (er_view request) with
        | None => Err {| status_code := SC_InvalidArgument;
                         status_message := "Invalid View (id: " +:+ pretty (er_view request) |}
        | Some view =>
            let view_fields := combine_view_and_fields view (known_fields (er_fields request)) in
            match to_regex (er_path request) with
            | Ok value =>
                fill_valid_requests requested errors
                  (valid ++ [{| vr_regex := value; vr_fields := view_fields; vr_path := er_path request;
                                vr_is_match := false; vr_error := None |}])
            | Err _ =>
                fill_valid_requests requested
                  (errors ++ [{| dee_path := er_path request;
                                 dee_error := Some {| err_code := 400; err_reason := "bad regex";
                                   err_message := "Regex can't be created for provided path" |} |}])
                  valid
            end
        end
  end.

(** The body of the inner loop: one entry against one request. *)
Definition match_request (entry : EntryReadAccess) (r : ValidRequest) (result_fields : gset ProtoField)
  : ValidRequest * gset ProtoField :=
  if regex_is_match (vr_regex r) (path (era_metadata entry)) then
    let result_fields :=
      if bool_decide (PF_Metadata ∈ vr_fields r) then result_fields ∪ vr_fields r else result_fields in
    let '(op_error, result_fields) :=
      if bool_decide (PF_ActuatorTarget ∈ vr_fields r) || bool_decide (PF_Value ∈ vr_fields r) then
        match era_datapoint entry with
        | Ok _ => (vr_error r, result_fields ∪ vr_fields r)
        | Err error => (Some error, result_fields)
        end
      else (vr_error r, result_fields) in
    ({| vr_regex := vr_regex r; vr_fields := vr_fields r; vr_path := vr_path r;
        vr_is_match := true; vr_error := op_error |}, result_fields)
  else (r, result_fields).

Fixpoint match_requests (entry : EntryReadAccess) (valid : list ValidRequest)
  (result_fields : gset ProtoField) : list ValidRequest * gset ProtoField :=
  match valid with
  | [] => ([], result_fields)
  | r :: valid =>
      let '(r, result_fields) := match_request entry r result_fields in
      let '(valid, result_fields) := match_requests entry valid result_fields in
      (r :: valid, result_fields)
  end.

(** The closure given to [for_each_entry]. *)
Definition get_visit (state : list ValidRequest * list DataEntry) (entry : EntryReadAccess)
  : list ValidRequest * list DataEntry :=
  let '(valid, entries) := state in
  let '(valid, result_fields) := match_requests entry valid ∅ in
  (valid,
   if negb (bool_decide (result_fields = ∅))
   then entries ++ [proto_entry_from_entry_and_fields entry result_fields]
   else entries).

(** The loop over [valid_requests] that reports unmatched and forbidden ones. *)
Fixpoint report_requests (valid : list ValidRequest) (entries : list DataEntry)
  (errors : list DataEntryError) : list DataEntry * list DataEntryError :=
  match valid with
  | [] => (entries, errors)
  | r :: valid =>
      if negb (vr_is_match r) then
        report_requests valid entries
          (errors ++ [{| dee_path := vr_path r;
             dee_error := Some (not_found_error "No entries found for the provided path") |}])
      else
        match vr_error r with
        | Some _ =>
            (* clear the entries vector since we only want to return errors
               and not partial success *)
            report_requests valid []
              (errors ++ [{| dee_path := vr_path r;
                 dee_error := Some {| err_code := 403; err_reason := "forbidden";
                   err_message := "Permission denied for some entries" |} |}])
        | None => report_requests valid entries errors
        end
  end.

(** [Val::get]. *)
Definition get (b : DataBroker) (permissions : option Permissions) (now : SystemTime)
  (requested : list EntryRequest) : result GetResponse Status :=
  match permissions with
  | None => Err {| status_code := SC_Unauthenticated; status_message := "Unauthenticated" |}
  | Some permissions =>
      match requested with
      | [] => Err {| status_code := SC_InvalidArgument; status_message := "No datapoints requested" |}
      | _ =>
          let? (errors, valid) := fill_valid_requests requested [] [] in
          let '(valid, entries) :=
            match valid with
            | [] => (valid, [])
            | _ => for_each_entry b permissions now get_visit (valid, [])
            end in
          let '(entries, errors) := report_requests valid entries errors in
          Ok {| get_entries := entries; get_errors := errors;
                get_error := match errors with first :: _ => dee_error first | [] => None end |}
      end
  end.

(** ** set *)

(** [EntryUpdate::from_proto_entry_and_fields]. *)
Definition from_proto_entry_and_fields (now : SystemTime) (entry : DataEntry) (fields : gset ProtoField)
  : EntryUpdate :=
  {| u_path := None;
     u_datapoint := if bool_decide (PF_Value ∈ fields)
                    then datapoint_from_proto now <$> de_value entry else None;
     u_actuator_target :=
       if bool_decide (PF_ActuatorTarget ∈ fields) then
         match de_actuator_target entry with
         | Some datapoint => Some (Some (datapoint_from_proto now datapoint))
         | None => Some None
         end
       else None;
     u_entry_type := None; u_data_type := None; u_description := None; u_allowed := None;
     u_unit := None |}.

(** The loop that collects the updates; leaving it early is a status. *)
Fixpoint collect_updates (b : DataBroker) (now : SystemTime) (requests : list ProtoEntryUpdate)
  (updates : list (Z * EntryUpdate)) (errors : list DataEntryError)
  : result (list (Z * EntryUpdate) * list DataEntryError) Status :=
  match requests with
  | [] => Ok (updates, errors)
  | request :: requests =>
      match peu_entry request with
      | Some entry =>
          match access_get_id_by_path b (de_path entry) with
          | Some i =>
              let fields := known_fields (peu_fields request) in
              let non_actuator :=
                match de_actuator_target entry, access_get_metadata b i with
                | Some _, Some metadata => negb (bool_decide (entry_type metadata = ET_Actuator))
                | _, _ => false
                end in
              if non_actuator then
                Err {| status_code := SC_InvalidArgument;
                       status_message := "Tried to set a target value for a non-actuator. Non-actuators have no target value." |}
              else
                collect_updates b now requests
                  (updates ++ [(i, from_proto_entry_and_fields now entry fields)]) errors
          | None =>
              collect_updates b now requests updates
                (errors ++ [{| dee_path := de_path entry;
                   dee_error := Some (not_found_error (de_path entry +:+ " not found")) |}])
          end
      | None => Err {| status_code := SC_InvalidArgument; status_message := "Path is required" |}
      end
  end.

(** The error reported for a failed update. *)
Definition update_error_to_proto (p : string) (error : UpdateError) : DataEntryError :=
  {| dee_path := p;
     dee_error := Some
       match error with
       | UE_NotFound =>
           {| err_code := 404; err_reason := "not found";
              err_message := "no datapoint registered for path " +:+ p |}
       | UE_WrongType =>
           {| err_code := 400; err_reason := "type mismatch";
              err_message := "cannot set existing datapoint to value of different type" |}
       | UE_UnsupportedType =>
           {| err_code := 400; err_reason := "unsupported type";
              err_message := "cannot set datapoint to value of unsupported type" |}
       | UE_OutOfBounds =>
           {| err_code := 400; err_reason := "value out of bounds";
              err_message := "given value exceeds type's boundaries" |}
       | UE_PermissionDenied =>
           {| err_code := 403; err_reason := "forbidden";
              err_message := "Access was denied for " +:+ p |}
       | UE_PermissionExpired =>
           {| err_code := 401; err_reason := "unauthorized"; err_message := "Unauthorized" |}
       end |}.

Record SetResponse := { set_error : option ProtoError; set_errors : list DataEntryError }.

(** [Val::set]. *)
Definition set (b : DataBroker) (permissions : option Permissions) (now : SystemTime)
  (requests : list ProtoEntryUpdate) : result SetResponse Status * DataBroker :=
  match permissions with
  | None => (Err {| status_code := SC_Unauthenticated; status_message := "Unauthenticated" |}, b)
  | Some permissions =>
      match collect_updates b now requests [] [] with
      | Err status => (Err status, b)
      | Ok (updates, errors) =>
          let '(r, b) := update_entries b permissions now updates in
          let errors :=
            match r with
            | Ok _ => errors
            | Err err =>
                errors ++ omap (fun '(i, error) =>
                  match access_get_metadata b i with
                  | Some metadata => Some (update_error_to_proto (path metadata) error)
                  | None => None
                  end) err
            end in
          (Ok {| set_error := None; set_errors := errors |}, b)
      end
  end.

(** ** subscribe *)

(** The broker fields of one subscription entry. *)
Definition subscribe_fields (fields : list Z) : gset Field :=
  list_to_set (omap (fun i => match proto_field_from_i32 i with
                              | Some PF_Value => Some F_Datapoint
                              | Some PF_ActuatorTarget => Some F_ActuatorTarget
                              | Some PF_MetadataUnit => Some F_MetadataUnit
                              | _ => None
                              end) fields).

(** The loop over [request.entries]; a later entry replaces an earlier one
    with the same path. *)
Definition subscribe_requests (entries : list EntryRequest) : gmap string (Regex * gset Field) :=
  fold_left (fun valid entry =>
    if contains "*" (er_path entry) && negb (is_valid_pattern (er_path entry)) then valid
    else match to_regex (er_path entry) with
         | Ok regex => <[er_path entry := (regex, subscribe_fields (er_fields entry))]> valid
         | Err _ => valid
         end) entries ∅.

(** The closure given to [for_each_entry]: the entries found, whether one was
    found and whether one may not be read. *)
Definition subscribe_visit (regex : Regex) (fields : gset Field)
  (state : gmap Z (gset Field) * bool * bool) (entry : EntryReadAccess)
  : gmap Z (gset Field) * bool * bool :=
  let '(entries, found, permission_error) := state in
  if regex_is_match regex (path (era_metadata entry)) then
    let i := id (era_metadata entry) in
    let entries :=
      match entries !! i with
      | Some existing => <[i := existing ∪ fields]> entries
      | None => <[i := fields]> entries
      end in
    (entries, true, permission_error || negb (is_ok (era_datapoint entry)))
  else (entries, found, permission_error).

(** The loop over [valid_requests]. *)
Fixpoint subscribe_collect (b : DataBroker) (permissions : Permissions) (now : SystemTime)
  (valid : list (string * (Regex * gset Field))) (entries : gmap Z (gset Field))
  : result (gmap Z (gset Field)) Status :=
  match valid with
  | [] => Ok entries
  | (p, (regex, fields)) :: valid =>
      let '(entries, found, permission_error) :=
        for_each_entry b permissions now (subscribe_visit regex fields) (entries, false, false) in
      if negb found then
        Err {| status_code := SC_NotFound;
               status_message := "No entries found for the provided. Path: " +:+ p |}
      else if permission_error then
        Err {| status_code := SC_PermissionDenied;
               status_message := "Permission denied for some entries. Path: " +:+ p |}
      else subscribe_collect b permissions now valid entries
  end.

(** [Val::subscribe]; the stream is given by its channel. *)
Definition val_subscribe (b : DataBroker) (permissions : option Permissions) (now : SystemTime)
  (requested : list EntryRequest) : result ChanId Status * DataBroker :=
  match permissions with
  | None => (Err {| status_code := SC_Unauthenticated; status_message := "Unauthenticated" |}, b)
  | Some permissions =>
      match requested with
      | [] => (Err {| status_code := SC_InvalidArgument;
                      status_message := "Subscription request must contain at least one entry." |}, b)
      | _ =>
          match subscribe_collect b permissions now
                  (hash_order (map_to_list (subscribe_requests requested))) ∅ with
          | Err status => (Err status, b)
          | Ok entries =>
              match subscribe b permissions now entries with
              | (Ok stream, b) => (Ok stream, b)
              | (Err SE_NotFound, b) =>
                  (Err {| status_code := SC_NotFound; status_message := "Path not found" |}, b)
              | (Err SE_InvalidInput, b) =>
                  (Err {| status_code := SC_InvalidArgument; status_message := "Invalid Argument" |}, b)
              | (Err SE_InternalError, b) =>
                  (Err {| status_code := SC_Internal; status_message := "Internal Error" |}, b)
              end
          end
      end
  end.

(** [convert_to_proto_stream], on one item. *)
Definition convert_item (item : EntryUpdates) : list ProtoEntryUpdate :=
  map (fun update =>
    {| peu_entry := Some (entry_update_to_proto (cn_update update));
       peu_fields := map (fun field => proto_field_i32 (field_to_proto field))
                         (hash_order (elements (cn_fields update))) |}) (updates item).

(** [Val::get_server_info]. *)
Definition get_server_info (b : DataBroker) : string * string := ("databroker", version b).
End KuksaVal.
