(* ===== verification/KuksaValSpec.v ===== *)
(** * KuksaValSpec: what the kuksa.val.v1 service promises

    Declarative specifications of the handlers of [KuksaVal] and the theorems
    that the handlers implement them: [get] as a comprehension over the
    database, what [set] may change, what [subscribe] subscribes to. *)

From S2P Require Import Prelude Types Regex Glob Permissions Entry Database Query Broker Delivery.
From S2P Require Import ProtoVal KuksaVal.

Section GetSpec.
Context `{RegexEngine} `{HashOrder} `{SqlParser} `{Timestamps}.

(** ** get, declaratively *)

(** The request's path covers the entry. *)
Definition covers (r : ValidRequest) (a : EntryReadAccess) : bool :=
  regex_is_match (vr_regex r) (path (era_metadata a)).

(** The request asks for the value or the target. *)
Definition wants_value (r : ValidRequest) : bool :=
  bool_decide (PF_ActuatorTarget ∈ vr_fields r) || bool_decide (PF_Value ∈ vr_fields r).

(** The request asks for a value or target of the entry that may not be read. *)
Definition forbidden (r : ValidRequest) (a : EntryReadAccess) : bool :=
  covers r a && wants_value r && negb (is_ok (era_datapoint a)).

(** The fields of the entry the request gets. *)
Definition granted_fields (a : EntryReadAccess) (r : ValidRequest) : gset ProtoField :=
  if covers r a && (bool_decide (PF_Metadata ∈ vr_fields r) || wants_value r && is_ok (era_datapoint a))
  then vr_fields r else ∅.

Definition all_granted (valid : list ValidRequest) (a : EntryReadAccess) : gset ProtoField :=
  ⋃ (granted_fields a <$> valid).

(** The answer for one entry. *)
Definition answer (valid : list ValidRequest) (a : EntryReadAccess) : option DataEntry :=
  let fields := all_granted valid a in
  if bool_decide (fields = ∅) then None else Some (proto_entry_from_entry_and_fields a fields).

(** The error reported for a request, given the entries of the database. *)
Definition request_error (l : list EntryReadAccess) (r : ValidRequest) : option DataEntryError :=
  if negb (existsb (covers r) l) then
    Some {| dee_path := vr_path r;
            dee_error := Some (not_found_error "No entries found for the provided path") |}
  else if existsb (forbidden r) l then
    Some {| dee_path := vr_path r;
            dee_error := Some {| err_code := 403; err_reason := "forbidden";
                                 err_message := "Permission denied for some entries" |} |}
  else None.

(** ** The loops *)

(** A request after it has met the entry [a]. *)
Definition mark (a : EntryReadAccess) (r : ValidRequest) : ValidRequest :=
  fst (match_request a r ∅).

Lemma match_request_spec a r rf :
  match_request a r rf = (mark a r, rf ∪ granted_fields a r).
Proof.
  unfold mark, match_request, granted_fields, covers, wants_value.
  destruct (regex_is_match _ _); simpl; [|by rewrite union_empty_r_L].
  destruct (bool_decide (PF_Metadata ∈ vr_fields r)), (bool_decide (PF_ActuatorTarget ∈ vr_fields r)),
    (bool_decide (PF_Value ∈ vr_fields r)), (era_datapoint a); simpl;
    rewrite ?union_empty_r_L, <- ?(assoc_L (∪)), ?union_idemp_L; done.
Qed.

Lemma match_requests_spec a valid rf :
  match_requests a valid rf = (map (mark a) valid, rf ∪ all_granted valid a).
Proof.
  revert rf. induction valid as [|r valid IH]; intros rf; cbn [match_requests map].
  - change (all_granted [] a) with (∅ : gset ProtoField). by rewrite union_empty_r_L.
  - rewrite match_request_spec, IH.
    change (all_granted (r :: valid) a) with (granted_fields a r ∪ all_granted valid a).
    by rewrite (assoc_L (∪)).
Qed.

Lemma mark_fields a r :
  vr_regex (mark a r) = vr_regex r /\ vr_fields (mark a r) = vr_fields r /\ vr_path (mark a r) = vr_path r /\
  vr_is_match (mark a r) = vr_is_match r || covers r a /\
  is_some (vr_error (mark a r)) = is_some (vr_error r) || forbidden r a.
Proof.
  unfold mark, match_request, forbidden, covers, wants_value.
  destruct (regex_is_match _ _); simpl; rewrite ?orb_false_r, ?orb_true_r; [|done].
  destruct (bool_decide (PF_ActuatorTarget ∈ vr_fields r)), (bool_decide (PF_Value ∈ vr_fields r)),
    (era_datapoint a); simpl; rewrite ?orb_false_r, ?orb_true_r; done.
Qed.

Lemma answer_mark a b valid : answer (map (mark a) valid) b = answer valid b.
Proof.
  assert (all_granted (map (mark a) valid) b = all_granted valid b) as E; [|unfold answer; by rewrite E].
  unfold all_granted. f_equal. rewrite <- list_fmap_compose. apply list_fmap_ext. intros _ r _. simpl.
  unfold granted_fields, covers, wants_value. by destruct (mark_fields a r) as (-> & -> & _).
Qed.

(** Every request has met every entry of [l]. *)
Definition marked (l : list EntryReadAccess) (r : ValidRequest) : ValidRequest :=
  fold_left (fun r a => mark a r) l r.

Lemma marked_fields l r :
  vr_path (marked l r) = vr_path r /\
  vr_is_match (marked l r) = vr_is_match r || existsb (covers r) l /\
  is_some (vr_error (marked l r)) = is_some (vr_error r) || existsb (forbidden r) l.
Proof.
  revert r. induction l as [|a l IH]; intros r; simpl; [by rewrite !orb_false_r|].
  destruct (IH (mark a r)) as (-> & -> & ->). destruct (mark_fields a r) as (Hrx & Hf & -> & -> & ->).
  rewrite !orb_assoc. split_and!; [done|..]; do 2 f_equal.
  - unfold covers. by rewrite Hrx.
  - unfold forbidden, covers, wants_value. by rewrite Hrx, Hf.
Qed.

Lemma get_visit_fold l valid entries :
  fold_left get_visit l (valid, entries) = (map (marked l) valid, entries ++ omap (answer valid) l).
Proof.
  revert valid entries. induction l as [|a l IH]; intros valid entries; simpl.
  - by rewrite map_id, app_nil_r.
  - rewrite match_requests_spec, union_empty_l_L, IH, map_map. f_equal.
    rewrite (list_omap_ext_in (answer (map (mark a) valid)) (answer valid)) by (intros; apply answer_mark).
    unfold answer at 2. destruct (bool_decide _); simpl; [done|]. by rewrite <- app_assoc.
Qed.

Lemma report_requests_spec l valid entries errors :
  (forall r, r ∈ valid -> vr_is_match r = false /\ vr_error r = None) ->
  report_requests (map (marked l) valid) entries errors =
    (if existsb (fun r => existsb (forbidden r) l) valid then [] else entries,
     errors ++ omap (request_error l) valid).
Proof.
  revert entries errors. induction valid as [|r valid IH]; intros entries errors Hr; simpl.
  - by rewrite app_nil_r.
  - destruct (Hr r) as [Hm He]; [left|]. destruct (marked_fields l r) as (Hp & Hmm & Hee).
    rewrite Hm in Hmm. rewrite He in Hee. simpl in Hmm, Hee.
    assert (forall r', r' ∈ valid -> vr_is_match r' = false /\ vr_error r' = None) as Hr'
      by (intros r' Hin; apply Hr; by right).
    assert (existsb (covers r) l = false -> existsb (forbidden r) l = false) as Hcf.
    { intros Hc. apply not_true_iff_false. intros Hf. apply existsb_exists in Hf as (a & Ha & Hf).
      apply not_true_iff_false in Hc. apply Hc. apply existsb_exists. exists a. split; [done|].
      unfold forbidden in Hf. bool_hyps. by destruct (covers r a). }
    rewrite Hmm, Hp. unfold request_error.
    destruct (existsb (covers r) l) eqn:Ec; simpl.
    + destruct (vr_error (marked l r)); simpl in Hee; rewrite <- Hee; simpl; rewrite IH by done; [|done].
      rewrite <- app_assoc. by destruct (existsb _ valid).
    + rewrite (Hcf eq_refl), IH by done. by rewrite <- app_assoc.
Qed.

Lemma fill_valid_fresh requested errors valid errors' valid' :
  fill_valid_requests requested errors valid = Ok (errors', valid') ->
  (forall r, r ∈ valid -> vr_is_match r = false /\ vr_error r = None) ->
  forall r, r ∈ valid' -> vr_is_match r = false /\ vr_error r = None.
Proof.
  revert errors valid. induction requested as [|q requested IH]; intros errors valid Hf Hv; simpl in Hf.
  - by simplify_eq.
  - crush_match_in Hf; try (by eapply IH).
    eapply IH; [exact Hf|]. intros r [?| ->%list_elem_of_singleton]%elem_of_app; auto.
Qed.

Lemma get_comprehension b permissions now requested errors valid :
  requested <> [] -> fill_valid_requests requested [] [] = Ok (errors, valid) ->
  let l := iter_entries (database b) permissions now in
  get b (Some permissions) now requested =
    Ok {| get_entries := if existsb (fun r => existsb (forbidden r) l) valid then []
                         else omap (answer valid) l;
          get_errors := errors ++ omap (request_error l) valid;
          get_error := match errors ++ omap (request_error l) valid with
                       | first :: _ => dee_error first | [] => None end |}.
Proof.
  intros Hne Hfill l. unfold get. destruct requested as [|q qs]; [done|]. rewrite Hfill.
  pose proof (fill_valid_fresh _ _ _ _ _ Hfill ltac:(by intros r ?%not_elem_of_nil)) as Hfresh.
  assert (match valid with
          | [] => (valid, [])
          | _ => for_each_entry b permissions now get_visit (valid, [])
          end = (map (marked l) valid, omap (answer valid) l)) as ->.
  { destruct valid as [|r valid]; [|apply get_visit_fold].
    f_equal. unfold answer, all_granted. simpl. clear. induction l as [|a l IH]; [done|]. csimpl.
    by rewrite <- IH. }
  by rewrite report_requests_spec.
Qed.

(** C22. [get] computes a comprehension over the database: every entry of the
    database, in the order of iteration, contributes exactly the fields granted
    to the requests whose path covers it; a request that covers nothing is a
    404, one that asks for a value or target of an entry its token may not read
    is a 403, and a single 403 withholds all entries.  The request's other
    errors come first, and the first error is repeated as the global one. *)
Theorem get_spec b permissions now requested errors valid :
  requested <> [] -> fill_valid_requests requested [] [] = Ok (errors, valid) ->
  let l := iter_entries (database b) permissions now in
  get b (Some permissions) now requested =
    Ok {| get_entries := if existsb (fun r => existsb (forbidden r) l) valid then []
                         else omap (answer valid) l;
          get_errors := errors ++ omap (request_error l) valid;
          get_error := match errors ++ omap (request_error l) valid with
                       | first :: _ => dee_error first | [] => None end |}.
Proof. apply get_comprehension. Qed.

(** The value and the target in the answer for an entry. *)
Lemma proto_entry_values e permissions now fields :
  let de := proto_entry_from_entry_and_fields (EntryReadAccess_new e permissions now) fields in
  de_path de = path (metadata e) /\
  (forall pd, de_value de = Some pd ->
     datapoint_to_proto (datapoint e) = Some pd /\ can_read permissions now (path (metadata e)) = Ok tt) /\
  (forall pd, de_actuator_target de = Some pd ->
     exists t, actuator_target e = Some t /\ datapoint_to_proto t = Some pd /\
       can_read permissions now (path (metadata e)) = Ok tt).
Proof.
  destruct (EntryReadAccess_new_spec e permissions now) as (Hm & _ & Hd & Ht).
  unfold proto_entry_from_entry_and_fields. cbn -[datapoint_to_proto]. split_and!.
  - by rewrite Hm.
  - intros pd. case_bool_decide; [|done].
    destruct (era_datapoint _) as [d|] eqn:E; [|done]. by destruct (Hd d eq_refl) as [-> ?].
  - intros pd. case_bool_decide; [|done].
    destruct (era_actuator_target _) as [[t|]|] eqn:E; [|done|done].
    destruct (Ht (Some t) eq_refl) as [Hte ?]. intros Hp. exists t. by rewrite <- Hte.
Qed.

(** C23. [get] never reveals a value or target the token may not read: every
    value in a response is the current value of the entry at that path, every
    target its current target, and the token may read the path. *)
Theorem get_no_leak b permissions now requested resp de :
  get b (Some permissions) now requested = Ok resp -> de ∈ get_entries resp ->
  exists i e, entries (database b) !! i = Some e /\ path (metadata e) = de_path de /\
    (forall pd, de_value de = Some pd ->
       datapoint_to_proto (datapoint e) = Some pd /\ can_read permissions now (de_path de) = Ok tt) /\
    (forall pd, de_actuator_target de = Some pd ->
       (exists t, actuator_target e = Some t /\ datapoint_to_proto t = Some pd) /\
       can_read permissions now (de_path de) = Ok tt).
Proof.
  intros Hg Hde.
  assert (requested <> []) as Hne by (by intros ->).
  destruct (fill_valid_requests requested [] []) as [[errors valid]|] eqn:Hf;
    [|unfold get in Hg; rewrite Hf in Hg; by destruct requested].
  rewrite (get_comprehension b permissions now requested errors valid Hne Hf) in Hg. injection Hg as <-.
  simpl in Hde. destruct (existsb _ valid); [by apply not_elem_of_nil in Hde|].
  apply list_elem_of_omap in Hde as (a & (i & e & He & ->)%elem_of_iter_entries & Ha).
  unfold answer in Ha. case_bool_decide; simplify_eq.
  destruct (proto_entry_values e permissions now
    (all_granted valid (EntryReadAccess_new e permissions now))) as (Hp & Hv & Ht).
  exists i, e. rewrite Hp. split_and!; [done|done|done|].
  intros pd Hpd. destruct (Ht pd Hpd) as (t & ? & ? & ?). eauto.
Qed.

(** One request for values, all of which the token may read: the answer is
    without errors, and has the value of each entry the path covers. *)
Lemma get_covered b permissions now p view fields rx :
  contains "*" p = false -> to_regex p = Ok rx ->
  PF_Value ∈ combine_view_and_fields view (known_fields fields) ->
  (exists i e, entries (database b) !! i = Some e /\ regex_is_match rx (path (metadata e)) = true) ->
  (forall i e, entries (database b) !! i = Some e -> regex_is_match rx (path (metadata e)) = true ->
     can_read permissions now (path (metadata e)) = Ok tt) ->
  forall view_i, view_from_i32 view_i = Some view ->
  exists l, get b (Some permissions) now [{| er_path := p; er_view := view_i; er_fields := fields |}] =
      Ok {| get_entries := l; get_errors := []; get_error := None |} /\
    forall i e, entries (database b) !! i = Some e -> regex_is_match rx (path (metadata e)) = true ->
      exists de, de ∈ l /\ de_path de = path (metadata e) /\ de_value de = datapoint_to_proto (datapoint e).
Proof.
  intros Hp Hrx Hval (i0 & e0 & He0 & Hm0) Hread view_i Hview.
  set (r := {| vr_regex := rx; vr_fields := combine_view_and_fields view (known_fields fields); vr_path := p;
               vr_is_match := false; vr_error := None |}).
  rewrite (get_comprehension b permissions now _ [] [r])
    by (try done; simpl; by rewrite Hp, Hview, Hrx).
  assert (forall i e, entries (database b) !! i = Some e -> regex_is_match rx (path (metadata e)) = true ->
    covers r (EntryReadAccess_new e permissions now) = true /\
    era_datapoint (EntryReadAccess_new e permissions now) = Ok (datapoint e)) as Hcov.
  { intros i e He Hm. destruct (EntryReadAccess_new_spec e permissions now) as (Hmd & Hok & Hd & _).
    unfold covers. rewrite Hmd. split; [done|].
    destruct (era_datapoint _) as [d|err] eqn:Ed; [by destruct (Hd d eq_refl) as [-> _]|].
    assert (can_read permissions now (path (metadata e)) = Ok tt) as Hc by (by eapply Hread).
    rewrite <- Hok in Hc. done. }
  assert (existsb (forbidden r) (iter_entries (database b) permissions now) = false) as Hforb.
  { apply not_true_iff_false. intros (a & Ha & Hf)%existsb_exists.
    apply list_elem_of_In, elem_of_iter_entries in Ha as (i & e & He & ->).
    unfold forbidden in Hf. bool_hyps. unfold covers in *.
    destruct (EntryReadAccess_new_spec e permissions now) as (Hmd & _). rewrite Hmd in *.
    destruct (Hcov i e He) as (_ & Hd); [done|]. by rewrite Hd in *. }
  assert (existsb (covers r) (iter_entries (database b) permissions now) = true) as Hc.
  { apply existsb_exists. exists (EntryReadAccess_new e0 permissions now). split.
    - apply list_elem_of_In, elem_of_iter_entries. eauto.
    - by apply (Hcov i0 e0). }
  assert (request_error (iter_entries (database b) permissions now) r = None) as Hre
    by (unfold request_error; by rewrite Hc, Hforb).
  simpl. rewrite Hforb, Hre. simpl. eexists. split; [done|].
  intros i e He Hm. destruct (Hcov i e He Hm) as [Hce Hde].
  assert (PF_Value ∈ all_granted [r] (EntryReadAccess_new e permissions now)) as Hg.
  { unfold all_granted. simpl. unfold granted_fields, wants_value. rewrite Hce, Hde. simpl.
    rewrite (bool_decide_true _ Hval), orb_true_r, orb_true_r. set_solver. }
  eexists. split; [apply list_elem_of_omap; eexists; split; [apply elem_of_iter_entries; eauto|]|].
  { unfold answer. rewrite bool_decide_false by set_solver. done. }
  unfold proto_entry_from_entry_and_fields. cbn -[datapoint_to_proto].
  rewrite (bool_decide_true _ Hg), Hde. by destruct (EntryReadAccess_new_spec e permissions now) as (-> & _).
Qed.

(** A request that covers one entry. *)
Lemma get_one b permissions now p view view_i fields rx i e :
  let fs := combine_view_and_fields view (known_fields fields) in
  contains "*" p = false -> to_regex p = Ok rx -> view_from_i32 view_i = Some view ->
  entries (database b) !! i = Some e -> regex_is_match rx (path (metadata e)) = true ->
  (forall j f, entries (database b) !! j = Some f -> regex_is_match rx (path (metadata f)) = true -> j = i) ->
  PF_Metadata ∈ fs /\ PF_Value ∉ fs /\ PF_ActuatorTarget ∉ fs \/
    PF_Value ∈ fs /\ can_read permissions now (path (metadata e)) = Ok tt ->
  get b (Some permissions) now [{| er_path := p; er_view := view_i; er_fields := fields |}] =
    Ok {| get_entries := [proto_entry_from_entry_and_fields (EntryReadAccess_new e permissions now) fs];
          get_errors := []; get_error := None |}.
Proof.
  intros fs Hp Hrx Hview He Hm Hone Hf.
  set (r := {| vr_regex := rx; vr_fields := fs; vr_path := p; vr_is_match := false; vr_error := None |}).
  rewrite (get_comprehension b permissions now _ [] [r]) by (try done; simpl; by rewrite Hp, Hview, Hrx).
  set (a := EntryReadAccess_new e permissions now).
  destruct (EntryReadAccess_new_spec e permissions now) as (Hmd & Hok & _). fold a in Hmd, Hok.
  assert (covers r a = true) as Hc by (unfold covers; by rewrite Hmd).
  assert (wants_value r && negb (is_ok (era_datapoint a)) = false /\
          bool_decide (PF_Metadata ∈ fs) || wants_value r && is_ok (era_datapoint a) = true) as [Hw Hg].
  { unfold wants_value. change (vr_fields r) with fs. destruct Hf as [(Hmeta & Hv & Ht)|[Hv Hr]].
    - by rewrite (bool_decide_true _ Hmeta), (bool_decide_false _ Hv), (bool_decide_false _ Ht).
    - apply Hok in Hr. by rewrite Hr, (bool_decide_true _ Hv), !orb_true_r. }
  assert (forall x, x ∈ iter_entries (database b) permissions now -> covers r x = true -> x = a) as Honly.
  { intros x (j & f & Hj & ->)%elem_of_iter_entries Hx. unfold covers in Hx.
    destruct (EntryReadAccess_new_spec f permissions now) as (Hmf & _). rewrite Hmf in Hx.
    assert (j = i) as -> by (by eapply Hone). unfold a. by simplify_eq. }
  assert (existsb (forbidden r) (iter_entries (database b) permissions now) = false) as Hforb.
  { apply not_true_iff_false. intros (x & Hx%list_elem_of_In & Hfx)%existsb_exists.
    unfold forbidden in Hfx. rewrite <- andb_assoc in Hfx. apply andb_true_iff in Hfx as [Hcx Hfx].
    apply (Honly x Hx) in Hcx as ->. by rewrite Hw in Hfx. }
  assert (existsb (covers r) (iter_entries (database b) permissions now) = true) as Hcov.
  { apply existsb_exists. exists a. split; [apply list_elem_of_In, elem_of_iter_entries; eauto|done]. }
  assert (request_error (iter_entries (database b) permissions now) r = None) as Hre
    by (unfold request_error; by rewrite Hcov, Hforb).
  assert (answer [r] a = Some (proto_entry_from_entry_and_fields a fs)) as Ha.
  { assert (all_granted [r] a = fs) as Hall.
    { unfold all_granted. simpl. unfold granted_fields. rewrite Hc. change (vr_fields r) with fs. rewrite Hg. simpl.
      by rewrite union_empty_r_L. }
    unfold answer. rewrite Hall, bool_decide_false; [done|]. destruct Hf as [(? & _)|[? _]]; set_solver. }
  cbn [existsb omap]. simpl. rewrite Hforb, Hre. simpl. do 2 f_equal.
  apply Permutation_singleton_r. unfold iter_entries.
  rewrite hash_order_perm, <- (insert_delete_id _ _ _ He), map_to_list_insert by apply lookup_delete_eq.
  simpl. fold a. rewrite Ha. apply Permutation_cons; [done|].
  assert (forall (l : list Entry), (forall f, f ∈ l -> answer [r] (EntryReadAccess_new f permissions now) = None) ->
    omap (answer [r]) (map (fun entry => EntryReadAccess_new entry permissions now) l) = []) as Hnil.
  { induction l as [|f l IH]; intros Hl; [done|]. csimpl. rewrite (Hl f) by left. apply IH.
    intros g Hgl. apply Hl. by right. }
  rewrite Hnil; [done|]. intros f ([j f'] & -> & Hj%elem_of_map_to_list)%list_elem_of_fmap. simpl.
  apply lookup_delete_Some in Hj as [Hji Hj]. unfold answer, all_granted. simpl. unfold granted_fields, covers.
  destruct (EntryReadAccess_new_spec f' permissions now) as (-> & _).
  destruct (regex_is_match (vr_regex r) (path (metadata f'))) eqn:E.
  - destruct Hji. symmetry. by eapply Hone.
  - simpl. by rewrite union_empty_r_L, bool_decide_true.
Qed.

(** A request for a single metadata field, such as the unit, is answered
    with no entries: the handler collects an entry only when the metadata as a
    whole, the value or the target is asked for. *)
Theorem get_single_metadata_field b permissions now p field rx resp :
  11 <= field <= 40 ->
  contains "*" p = false -> to_regex p = Ok rx ->
  get b (Some permissions) now [{| er_path := p; er_view := 10; er_fields := [field] |}] = Ok resp ->
  get_entries resp = [].
Proof.
  intros Hfield Hp Hrx Hg.
  set (r := {| vr_regex := rx; vr_fields := known_fields [field]; vr_path := p;
               vr_is_match := false; vr_error := None |}).
  assert (fill_valid_requests [{| er_path := p; er_view := 10; er_fields := [field] |}] [] [] =
    Ok ([], [r])) as Hf by (simpl; by rewrite Hp, Hrx).
  rewrite (get_comprehension b permissions now _ [] [r]) in Hg by done. injection Hg as <-. simpl.
  assert (forall f, f ∈ known_fields [field] -> 11 <= proto_field_i32 f) as Hnf.
  { intros f. unfold known_fields. rewrite elem_of_list_to_set, list_elem_of_omap.
    intros (x & ->%list_elem_of_singleton & Hx).
    unfold proto_field_from_i32 in Hx. repeat case_match; simplify_eq/=; lia. }
  assert (forall f, proto_field_i32 f < 11 -> bool_decide (f ∈ known_fields [field]) = false) as Hlow.
  { intros f Hlt. apply bool_decide_eq_false. intros Hin%Hnf. lia. }
  assert (forall a, granted_fields a r = ∅) as Hg0.
  { intros a. unfold granted_fields, wants_value. simpl.
    rewrite !Hlow by (simpl; lia). by rewrite andb_false_r. }
  destruct (existsb _ _ || false); [done|].
  induction (iter_entries (database b) permissions now) as [|a l IH]; [done|]. csimpl.
  unfold answer at 1, all_granted. simpl. rewrite Hg0, union_empty_l_L. by rewrite bool_decide_true.
Qed.
End GetSpec.

(** ** set *)

Section SetSpec.
Context `{RegexEngine} `{HashOrder} `{SqlParser} `{Timestamps}.

(** Only actuators have targets. *)
Definition targets_ok (db : Database) : Prop :=
  forall i e, entries db !! i = Some e -> entry_type (metadata e) <> ET_Actuator ->
    actuator_target e = None.

(** An update that gives no target to the entry [i] unless it is an actuator. *)
Definition target_permitted (db : Database) (iu : Z * EntryUpdate) : Prop :=
  forall e t, entries db !! fst iu = Some e -> u_actuator_target (snd iu) = Some (Some t) ->
    entry_type (metadata e) = ET_Actuator.

Lemma update_targets db permissions now i u :
  targets_ok db -> target_permitted db (i, u) -> targets_ok (snd (update db permissions now i u)).
Proof.
  intros Hok Hp. destruct (update db permissions now i u) as [[cf|err] db'] eqn:E; simpl;
    [|by apply update_Err in E as ->].
  apply update_Ok in E as (e & e' & Hl & Ha & _ & -> & _).
  apply apply_fields in Ha as (_ & Ht & _ & Hm & _). rewrite (proj1 (diff_other _ _)) in Ht.
  intros j f. simpl. rewrite lookup_insert_Some. intros [[<- <-]|[_ Hj]]; [|by apply (Hok j)].
  rewrite Hm, Ht. simpl. intros Hne.
  destruct (u_actuator_target u) as [[t|]|] eqn:Eu; simpl; [|done|by apply (Hok i)].
  destruct Hne. by apply (Hp e t).
Qed.

(** No update changes the kind of an entry. *)
Lemma update_entry_type db permissions now i u j e' :
  entries (snd (update db permissions now i u)) !! j = Some e' ->
  exists e, entries db !! j = Some e /\ entry_type (metadata e') = entry_type (metadata e).
Proof.
  destruct (update db permissions now i u) as [[cf|err] db'] eqn:E; simpl;
    [|apply update_Err in E as ->; eauto].
  apply update_Ok in E as (e & e1 & Hl & Ha & _ & -> & _).
  apply apply_fields in Ha as (_ & _ & _ & Hm & _). simpl.
  rewrite lookup_insert_Some. intros [[<- <-]|[_ Hj]]; [|eauto]. exists e. by rewrite Hm.
Qed.

Lemma apply_updates_targets us db permissions now changed errors :
  targets_ok db -> Forall (target_permitted db) us ->
  targets_ok (apply_updates db permissions now us changed errors).1.1.
Proof.
  rewrite apply_updates_fold. revert db changed errors.
  induction us as [|[i u] us IH]; intros db changed errors Hok Hus; simpl; [done|].
  apply Forall_cons in Hus as [Hu Hus].
  pose proof (update_targets db permissions now i u Hok Hu) as Hok1.
  pose proof (update_entry_type db permissions now i u) as Hty.
  destruct (update db permissions now i u) as [r db1]. apply IH; [done|].
  eapply Forall_impl; [exact Hus|]. intros [j v] Hjv e t He Ht.
  destruct (Hty j e He) as (e0 & He0 & ->). by apply (Hjv e0 t).
Qed.

Lemma collect_updates_targets b now requests us errs us' errs' :
  db_inv (database b) ->
  collect_updates b now requests us errs = Ok (us', errs') ->
  Forall (target_permitted (database b)) us -> Forall (target_permitted (database b)) us'.
Proof.
  intros Hinv. revert us errs.
  induction requests as [|q requests IH]; intros us errs Hc Hus; simpl in Hc; [by simplify_eq|].
  destruct (peu_entry q) as [de|]; [|done].
  destruct (access_get_id_by_path b (de_path de)) as [i|] eqn:Ei; [|by eapply IH].
  match type of Hc with (if ?c then _ else _) = _ => destruct c eqn:Ena; [done|] end.
  eapply IH; [exact Hc|]. apply Forall_app. split; [done|]. apply Forall_singleton.
  intros e t He Ht. simpl in He, Ht.
  case_bool_decide; [|done]. destruct (de_actuator_target de) as [pd|] eqn:Etg; [|done].
  unfold access_get_metadata, get_metadata_by_id in Ena. rewrite He in Ena. simpl in Ena.
  by bool_hyps.
Qed.

(** [set] keeps targets to actuators: a request that names a target for
    anything else is refused as a whole, before any update is made, so if only
    actuators have targets before a call, only actuators have targets after
    it. *)
Theorem set_targets_actuators b permissions now requests :
  db_inv (database b) -> targets_ok (database b) ->
  targets_ok (database (snd (set b permissions now requests))) /\
  (is_ok (fst (set b permissions now requests)) = false -> snd (set b permissions now requests) = b).
Proof.
  intros Hinv Hok. unfold set. destruct permissions as [p|]; [|done].
  destruct (collect_updates b now requests [] []) as [[us errs]|] eqn:Ec; [|done].
  pose proof (collect_updates_targets b now requests [] [] us errs Hinv Ec (Forall_nil_2 _)) as Hus.
  destruct (update_entries b p now us) as [r b'] eqn:Eu. simpl. split; [|done].
  apply update_entries_inv in Eu as (db' & changed & errors & nr & chans & Ea & _ & _ & -> & _).
  pose proof (apply_updates_targets us (database b) p now ∅ [] Hok Hus) as Ht. by rewrite Ea in Ht.
Qed.

(** The update that sets the value at a path. *)
Definition set_value_update (p : string) (pd : ProtoDatapoint) (fields : list Z) : ProtoEntryUpdate :=
  {| peu_entry := Some {| de_path := p; de_value := Some pd; de_actuator_target := None; de_metadata := None |};
     peu_fields := fields |}.
Definition set_value_request (p : string) (pd : ProtoDatapoint) : ProtoEntryUpdate := set_value_update p pd [2].

Lemma collect_value_update b now p pd fields i :
  access_get_id_by_path b p = Some i ->
  PF_Value ∈ known_fields fields -> PF_ActuatorTarget ∉ known_fields fields ->
  collect_updates b now [set_value_update p pd fields] [] [] =
    Ok ([(i, datapoint_update (datapoint_from_proto now pd))], []).
Proof.
  intros Hi Hv Ht. simpl. rewrite Hi. unfold from_proto_entry_and_fields.
  by rewrite bool_decide_true, bool_decide_false.
Qed.

(** An update of a value is the update of that one entry. *)
Lemma update_entries_value b permissions now i e dp :
  entries (database b) !! i = Some e ->
  can_write_datapoint permissions now (path (metadata e)) = Ok tt ->
  value_typed (data_type (metadata e)) (value dp) -> validate_allowed e (value dp) = Ok tt ->
  exists b' e', update_entries b permissions now [(i, datapoint_update dp)] = (Ok tt, b') /\
    entries (database b') = <[i := e']> (entries (database b)) /\
    path_to_id (database b') = path_to_id (database b) /\ metadata e' = metadata e /\
    (datapoint e' = dp \/ datapoint e' = datapoint e /\ dv_eqb (value dp) (value (datapoint e)) = true /\
                          change_type (metadata e) <> CT_Continuous).
Proof.
  intros He Hw Ht Ha.
  destruct (datapoint_update_accepted (database b) permissions now i e dp He Hw Ht Ha)
    as (cf & db' & Hup & e' & He' & Hd & Hpath).
  destruct (update_entries_one b permissions now i (datapoint_update dp)) as [Hr Hdb].
  rewrite Hup in Hr, Hdb. destruct (update_entries _ _ _ _) as [r b']. simpl in Hr, Hdb. subst r.
  exists b', e'. rewrite Hdb. apply update_Ok in Hup as (e0 & e1 & He0 & _ & _ & -> & _).
  simpl in He'. rewrite lookup_insert_eq in He'. by simplify_eq.
Qed.

(** Setting a value a path may hold, with permission: no error is reported and
    the entry alone is changed. *)
Lemma set_value_stored b permissions now p pd fields i e :
  let dp := datapoint_from_proto now pd in
  db_inv (database b) ->
  path_to_id (database b) !! p = Some i -> entries (database b) !! i = Some e ->
  PF_Value ∈ known_fields fields -> PF_ActuatorTarget ∉ known_fields fields ->
  can_write_datapoint permissions now p = Ok tt ->
  value_typed (data_type (metadata e)) (value dp) -> validate_allowed e (value dp) = Ok tt ->
  exists b' e', set b (Some permissions) now [set_value_update p pd fields] =
      (Ok {| set_error := None; set_errors := [] |}, b') /\
    entries (database b') = <[i := e']> (entries (database b)) /\
    path_to_id (database b') = path_to_id (database b) /\ metadata e' = metadata e /\
    (datapoint e' = dp \/ datapoint e' = datapoint e /\ dv_eqb (value dp) (value (datapoint e)) = true /\
                          change_type (metadata e) <> CT_Continuous).
Proof.
  intros dp Hinv Hi He Hv Hn Hw Ht Ha.
  destruct (inv_index _ Hinv _ _ Hi) as (e0 & He0 & Hp). simplify_eq.
  destruct (inv_entry _ Hinv _ _ He) as (Hid & _).
  assert (access_get_id_by_path b (path (metadata e)) = Some i) as Hgi.
  { unfold access_get_id_by_path, get_metadata_by_path, get_metadata_by_id.
    rewrite Hi, He. simpl. by rewrite Hid. }
  destruct (update_entries_value b permissions now i e dp He Hw Ht Ha) as (b' & e' & Hu & Hents & Hpi & Hp' & Hd).
  exists b', e'. unfold set. rewrite (collect_value_update b now _ pd fields i Hgi Hv Hn). fold dp.
  rewrite Hu. by split_and!.
Qed.

(** An update that gives nothing changes nothing. *)
Lemma update_nothing db permissions now i e :
  entries db !! i = Some e -> update db permissions now i EntryUpdate_default = (Ok ∅, db).
Proof.
  intros He. unfold update. rewrite He. simpl. rewrite (insert_id _ _ _ He).
  destruct db as [n pi es]. simpl.
  by destruct (can_write_datapoint permissions now (path (metadata e))) as [|[]],
    (can_write_actuator_target permissions now (path (metadata e))) as [|[]].
Qed.

(** End to end: a client with permission to provide a registered path sets
    a value of the declared type (and in the allowed list); the call reports no
    error, and reading the path then gives that value with its timestamp, or,
    when the signal is not continuous and already holds an equal value, leaves
    it as it was. *)
Theorem set_then_read b permissions now p pd i e now2 :
  let dp := datapoint_from_proto now pd in
  db_inv (database b) ->
  path_to_id (database b) !! p = Some i -> entries (database b) !! i = Some e ->
  can_write_datapoint permissions now p = Ok tt ->
  value_typed (data_type (metadata e)) (value dp) -> validate_allowed e (value dp) = Ok tt ->
  can_read permissions now2 p = Ok tt ->
  let '(r, b') := set b (Some permissions) now [set_value_request p pd] in
  r = Ok {| set_error := None; set_errors := [] |} /\
  exists d, access_get_datapoint_by_path b' permissions now2 p = Ok d /\
    (d = dp \/ d = datapoint e /\ dv_eqb (value dp) (value (datapoint e)) = true /\
               change_type (metadata e) <> CT_Continuous).
Proof.
  intros dp Hinv Hi He Hw Ht Ha Hr.
  change (set_value_request p pd) with (set_value_update p pd [2]).
  destruct (set_value_stored b permissions now p pd [2] i e) as (b' & e' & -> & Hents & Hpi & Hp & Hd); try done.
  split; [done|]. exists (datapoint e'). split; [|done].
  unfold access_get_datapoint_by_path, get_entry_by_path. rewrite Hpi, Hi.
  assert (get_entry_by_id (database b') permissions now2 i = Ok e') as ->; [|done].
  apply get_entry_Ok. rewrite Hents, lookup_insert_eq, Hp.
  destruct (inv_index _ Hinv _ _ Hi) as (e0 & He0 & Hp0). simplify_eq. done.
Qed.
End SetSpec.

(** ** subscribe *)

Section SubscribeSpec.
Context `{RegexEngine} `{HashOrder} `{SqlParser} `{Timestamps}.

(** An entry and the regular expression of a request. *)
Definition hits (rx : Regex) (a : EntryReadAccess) : bool := regex_is_match rx (path (era_metadata a)).

(** One request against a list of entries: what is collected. *)
Lemma subscribe_visit_fold rx f l es found perr es' found' perr' :
  fold_left (subscribe_visit rx f) l (es, found, perr) = (es', found', perr') ->
  found' = found || existsb (hits rx) l /\
  perr' = perr || existsb (fun a => hits rx a && negb (is_ok (era_datapoint a))) l /\
  (forall i fs, es !! i = Some fs -> exists fs', es' !! i = Some fs' /\ fs ⊆ fs') /\
  (forall a, a ∈ l -> hits rx a = true -> exists fs', es' !! id (era_metadata a) = Some fs' /\ f ⊆ fs') /\
  (forall i, is_Some (es' !! i) ->
     is_Some (es !! i) \/ exists a, a ∈ l /\ hits rx a = true /\ id (era_metadata a) = i).
Proof.
  revert es found perr. induction l as [|a l IH]; intros es found perr Hf; cbn [fold_left] in Hf.
  - simplify_eq. simpl. rewrite !orb_false_r. split_and!; try done; eauto.
    by intros a ?%not_elem_of_nil.
  - unfold subscribe_visit at 2 in Hf. fold (hits rx a) in Hf.
    destruct (hits rx a) eqn:Eh; destruct (IH _ _ _ Hf) as (-> & -> & Hmono & Hall & Hsrc);
      cbn [existsb]; rewrite Eh; simpl.
    2:{ split_and!; [done|done|done|..].
        - intros a' [->|Ha']%elem_of_cons Hh; [congruence|eauto].
        - intros i Hi. destruct (Hsrc i Hi) as [?|(a' & ? & ? & ?)]; [by left|].
          right. exists a'. split_and!; [by right|done|done]. }
    set (i0 := id (era_metadata a)) in *.
    set (es1 := match es !! i0 with Some existing => <[i0 := existing ∪ f]> es | None => <[i0 := f]> es end) in *.
    assert (exists fs1, es1 !! i0 = Some fs1 /\ f ⊆ fs1 /\ (forall fs, es !! i0 = Some fs -> fs ⊆ fs1)) as (fs1 & Hfs1 & Hf1 & Hold).
    { unfold es1. destruct (es !! i0) as [ex|] eqn:Ee; rewrite lookup_insert_eq; eexists; (split; [done|]).
      - split; [apply union_subseteq_r|]. intros fs [= <-]. apply union_subseteq_l.
      - done. }
    assert (forall i, i <> i0 -> es1 !! i = es !! i) as Hne.
    { intros i Hi. unfold es1. destruct (es !! i0); by rewrite lookup_insert_ne. }
    rewrite orb_true_r, orb_assoc. split_and!; [done|done|..].
    + intros i fs Hi. destruct (decide (i = i0)) as [->|Hd].
      * destruct (Hmono i0 fs1 Hfs1) as (fs' & Hfs' & Hsub). exists fs'. split; [done|].
        etrans; [by apply Hold|done].
      * apply Hmono. by rewrite Hne.
    + intros a' [->|Ha']%elem_of_cons Hh; [|eauto].
      destruct (Hmono i0 fs1 Hfs1) as (fs' & Hfs' & Hsub). exists fs'. split; [done|by etrans].
    + intros i Hi. destruct (Hsrc i Hi) as [Hi1|(a' & ? & ? & ?)].
      * destruct (decide (i = i0)) as [->|Hd].
        -- right. exists a. split_and!; [by left|done|done].
        -- left. by rewrite Hne in Hi1.
      * right. exists a'. split_and!; [by right|done|done].
Qed.

(** All requests. *)
Lemma subscribe_collect_spec b permissions now valid es es' :
  let l := iter_entries (database b) permissions now in
  subscribe_collect b permissions now valid es = Ok es' ->
  (forall i fs, es !! i = Some fs -> exists fs', es' !! i = Some fs' /\ fs ⊆ fs') /\
  (forall q rx f a, (q, (rx, f)) ∈ valid -> a ∈ l -> hits rx a = true ->
     is_ok (era_datapoint a) = true /\
     exists fs', es' !! id (era_metadata a) = Some fs' /\ f ⊆ fs') /\
  (forall i, is_Some (es' !! i) -> is_Some (es !! i) \/
     exists q rx f a, (q, (rx, f)) ∈ valid /\ a ∈ l /\ hits rx a = true /\ id (era_metadata a) = i).
Proof.
  intros l. revert es. induction valid as [|[q [rx f]] valid IH]; intros es Hc; simpl in Hc.
  - simplify_eq. split_and!; eauto. by intros q rx f a ?%not_elem_of_nil.
  - unfold for_each_entry in Hc.
    destruct (fold_left _ _ _) as [[es1 found] perr] eqn:Ef.
    destruct found; [|done]. destruct perr; [done|]. simpl in Hc.
    apply subscribe_visit_fold in Ef as (_ & Hperr & Hmono1 & Hall1 & Hsrc1). fold l in Hperr, Hall1, Hsrc1.
    destruct (IH es1 Hc) as (Hmono & Hall & Hsrc). split_and!.
    + intros i fs Hi. destruct (Hmono1 i fs Hi) as (fs1 & H1fs & Hs1).
      destruct (Hmono i fs1 H1fs) as (fs' & Hfs' & Hs'). exists fs'. split; [done|by etrans].
    + intros q' rx' f' a [[= -> -> ->]|Hin]%elem_of_cons Ha Hh; [|by eapply Hall]. split.
      * destruct (is_ok (era_datapoint a)) eqn:Eo; [done|]. exfalso.
        symmetry in Hperr. simpl in Hperr. apply not_true_iff_false in Hperr. apply Hperr.
        apply existsb_exists. exists a. split; [by apply list_elem_of_In|]. by rewrite Hh, Eo.
      * destruct (Hall1 a Ha Hh) as (fs1 & H1fs & Hs1). destruct (Hmono _ fs1 H1fs) as (fs' & ? & ?).
        exists fs'. split; [done|by etrans].
    + intros i Hi. destruct (Hsrc i Hi) as [Hi1|(q' & rx' & f' & a & ? & ? & ? & ?)].
      * destruct (Hsrc1 i Hi1) as [?|(a & ? & ? & ?)]; [by left|]. right. exists q, rx, f, a.
        split_and!; [by left|done|done|done].
      * right. exists q', rx', f', a. split_and!; [by right|done|done|done].
Qed.

End SubscribeSpec.

(** ** Witnesses *)

Section KuksaValWitnesses.
#[local] Existing Instance glob_engine.
#[local] Existing Instance one_query_parser.
#[local] Existing Instance z_timestamps.

Definition moving : DataBroker := set_database (DataBroker_new "test") speed_db2.

Definition speed_request : EntryRequest := {| er_path := "Vehicle.Speed"; er_view := 1; er_fields := [] |}.

Definition speed_answer : DataEntry :=
  {| de_path := "Vehicle.Speed";
     de_value := Some {| pd_timestamp := Some 5; pd_value := Some (PV_Int32 100) |};
     de_actuator_target := None; de_metadata := None |}.

Lemma moving_inv : db_inv (database moving).
Proof. apply update_preserves, speed_db_inv. Qed.

Lemma get_spec_witness :
  exists errors valid, fill_valid_requests [speed_request] [] [] = Ok (errors, valid) /\
    result_map get_entries (get moving (Some ALLOW_ALL) 9 [speed_request]) =
      Ok (if existsb (fun r => existsb (forbidden r) (iter_entries speed_db2 ALLOW_ALL 9)) valid then []
          else omap (answer valid) (iter_entries speed_db2 ALLOW_ALL 9)).
Proof.
  assert (is_ok (fill_valid_requests [speed_request] [] []) = true) as Hok by (vm_compute; reflexivity).
  destruct (fill_valid_requests [speed_request] [] []) as [[errors valid]|] eqn:E; [|discriminate].
  exists errors, valid. split; [reflexivity|].
  by rewrite (get_spec moving ALLOW_ALL 9 [speed_request] errors valid ltac:(discriminate) E).
Defined.

Lemma get_no_leak_witness :
  exists i e, entries speed_db2 !! i = Some e /\
    datapoint_to_proto (datapoint e) = Some {| pd_timestamp := Some 5; pd_value := Some (PV_Int32 100) |}.
Proof.
  destruct (get_no_leak moving ALLOW_ALL 9 [speed_request]
    {| get_entries := [speed_answer]; get_errors := []; get_error := None |} speed_answer)
    as (i & e & He & _ & Hv & _).
  - vm_compute. reflexivity.
  - left.
  - exists i, e. split; [exact He|]. exact (proj1 (Hv _ eq_refl)).
Defined.

Lemma get_single_metadata_field_witness :
  result_map get_entries (get moving (Some ALLOW_ALL) 9
    [{| er_path := "Vehicle.Speed"; er_view := 10; er_fields := [16] |}]) = Ok [].
Proof.
  destruct (get moving (Some ALLOW_ALL) 9 [{| er_path := "Vehicle.Speed"; er_view := 10; er_fields := [16] |}])
    as [resp|] eqn:E.
  - simpl. f_equal.
    apply (get_single_metadata_field moving ALLOW_ALL 9 "Vehicle.Speed" 16
      (pat_matcher (plain_pat "Vehicle.Speed")) resp).
    + lia.
    + vm_compute. reflexivity.
    + unfold to_regex. by rewrite (glob_engine_new "Vehicle.Speed" (plain_pat "Vehicle.Speed")) by reflexivity.
    + exact E.
  - exfalso.
    assert (is_ok (get moving (Some ALLOW_ALL) 9
      [{| er_path := "Vehicle.Speed"; er_view := 10; er_fields := [16] |}]) = true) as Hok
      by (vm_compute; reflexivity).
    rewrite E in Hok. discriminate.
Defined.

Definition speed_pd : ProtoDatapoint := {| pd_timestamp := Some 8; pd_value := Some (PV_Int32 42) |}.

Lemma set_targets_actuators_witness :
  targets_ok (database (snd (set moving (Some ALLOW_ALL) 9 [set_value_request "Vehicle.Speed" speed_pd]))).
Proof.
  refine (proj1 (set_targets_actuators moving (Some ALLOW_ALL) 9
    [set_value_request "Vehicle.Speed" speed_pd] moving_inv _)).
  intros i e He Hne. destruct (decide (i = 0)) as [->|Hi].
  - vm_compute in He. injection He as <-. reflexivity.
  - exfalso. unfold moving in He. simpl in He. unfold speed_db2 in He.
    rewrite update_other in He by exact Hi. unfold speed_db in He.
    destruct (decide (0 = i)) as [<-|Hn]; [contradiction|].
    change (entries (snd (add Database_new ALLOW_ALL 0 "Vehicle.Speed" DT_Int8 CT_OnChange ET_Actuator
      "" None None None)))
      with (<[0 := registered 0 0 "Vehicle.Speed" DT_Int8 CT_OnChange ET_Actuator "" None None None]>
            (∅ : gmap Z Entry)) in He.
    rewrite lookup_insert_ne in He by exact Hn. rewrite lookup_empty in He. discriminate.
Defined.

Lemma set_then_read_witness :
  exists d, access_get_datapoint_by_path
    (snd (set moving (Some ALLOW_ALL) 9 [set_value_request "Vehicle.Speed" speed_pd])) ALLOW_ALL 10
    "Vehicle.Speed" = Ok d.
Proof.
  destruct (entries (database moving) !! 0) as [e|] eqn:He; [|vm_compute in He; discriminate].
  pose proof (set_then_read moving ALLOW_ALL 9 "Vehicle.Speed" speed_pd 0 e 10 moving_inv) as Hs.
  destruct (set moving (Some ALLOW_ALL) 9 [set_value_request "Vehicle.Speed" speed_pd]) as [r b'].
  destruct Hs as (_ & d & Hd & _).
  - vm_compute. reflexivity.
  - exact He.
  - reflexivity.
  - vm_compute in He. injection He as <-. right. apply ht_Int8. vm_compute. split; discriminate.
  - vm_compute in He. injection He as <-. reflexivity.
  - reflexivity.
  - exists d. exact Hd.
Defined.

Definition speed_subscribe : EntryRequest := {| er_path := "Vehicle.Speed"; er_view := 0; er_fields := [2] |}.

End KuksaValWitnesses.
