(* ===== verification/ProtoSdv.v ===== *)
(** * ProtoSdv: the messages of sdv.databroker.v1 and their conversions

    The messages of src/kuksa_databroker/proto/sdv/databroker/v1/types.proto as
    the generated Rust types, and
    src/kuksa_databroker/databroker/src/grpc/sdv_databroker_v1/conversions.rs.
    The timestamp type is the parameter [Timestamps] of [ProtoVal]. *)

From S2P Require Import Prelude Floats Types Entry Broker ProtoVal.

(** ** Messages *)

Inductive SdvDataType :=
| SDT_String | SDT_Bool | SDT_Int8 | SDT_Int16 | SDT_Int32 | SDT_Int64
| SDT_Uint8 | SDT_Uint16 | SDT_Uint32 | SDT_Uint64 | SDT_Float | SDT_Double
| SDT_StringArray | SDT_BoolArray | SDT_Int8Array | SDT_Int16Array | SDT_Int32Array | SDT_Int64Array
| SDT_Uint8Array | SDT_Uint16Array | SDT_Uint32Array | SDT_Uint64Array | SDT_FloatArray | SDT_DoubleArray.

(** [as i32]: the numbers of the protocol definition. *)
Definition sdv_data_type_i32 (t : SdvDataType) : Z :=
  match t with
  | SDT_String => 0 | SDT_Bool => 1 | SDT_Int8 => 2 | SDT_Int16 => 3
  | SDT_Int32 => 4 | SDT_Int64 => 5 | SDT_Uint8 => 6 | SDT_Uint16 => 7
  | SDT_Uint32 => 8 | SDT_Uint64 => 9 | SDT_Float => 10 | SDT_Double => 11
  | SDT_StringArray => 20 | SDT_BoolArray => 21 | SDT_Int8Array => 22 | SDT_Int16Array => 23
  | SDT_Int32Array => 24 | SDT_Int64Array => 25 | SDT_Uint8Array => 26 | SDT_Uint16Array => 27
  | SDT_Uint32Array => 28 | SDT_Uint64Array => 29 | SDT_FloatArray => 30 | SDT_DoubleArray => 31
  end.

(** [DataType::from_i32]. *)
Definition sdv_data_type_from_i32 (i : Z) : option SdvDataType :=
  match i with
  | 0 => Some SDT_String | 1 => Some SDT_Bool | 2 => Some SDT_Int8
  | 3 => Some SDT_Int16 | 4 => Some SDT_Int32 | 5 => Some SDT_Int64
  | 6 => Some SDT_Uint8 | 7 => Some SDT_Uint16 | 8 => Some SDT_Uint32
  | 9 => Some SDT_Uint64 | 10 => Some SDT_Float | 11 => Some SDT_Double
  | 20 => Some SDT_StringArray | 21 => Some SDT_BoolArray | 22 => Some SDT_Int8Array
  | 23 => Some SDT_Int16Array | 24 => Some SDT_Int32Array | 25 => Some SDT_Int64Array
  | 26 => Some SDT_Uint8Array | 27 => Some SDT_Uint16Array | 28 => Some SDT_Uint32Array
  | 29 => Some SDT_Uint64Array | 30 => Some SDT_FloatArray | 31 => Some SDT_DoubleArray
  | _ => None
  end.

Inductive DatapointError :=
| DE_UnknownDatapoint | DE_InvalidType | DE_AccessDenied | DE_InternalError | DE_OutOfBounds.

Definition datapoint_error_i32 (e : DatapointError) : Z :=
  match e with
  | DE_UnknownDatapoint => 0 | DE_InvalidType => 1 | DE_AccessDenied => 2 | DE_InternalError => 3
  | DE_OutOfBounds => 4
  end.

Inductive SdvEntryType := SET_Unspecified | SET_Sensor | SET_Actuator | SET_Attribute.

Definition sdv_entry_type_i32 (t : SdvEntryType) : Z :=
  match t with SET_Unspecified => 0 | SET_Sensor => 1 | SET_Actuator => 2 | SET_Attribute => 3 end.

Inductive SdvChangeType := SCT_Static | SCT_OnChange | SCT_Continuous.

Definition sdv_change_type_i32 (t : SdvChangeType) : Z :=
  match t with SCT_Static => 0 | SCT_OnChange => 1 | SCT_Continuous => 2 end.

(** [ChangeType::from_i32]. *)
Definition sdv_change_type_from_i32 (i : Z) : option SdvChangeType :=
  match i with 0 => Some SCT_Static | 1 => Some SCT_OnChange | 2 => Some SCT_Continuous | _ => None end.

Inductive Failure :=
| FL_InvalidValue | FL_NotAvailable | FL_UnknownDatapoint | FL_AccessDenied | FL_InternalError.

Definition failure_i32 (f : Failure) : Z :=
  match f with
  | FL_InvalidValue => 0 | FL_NotAvailable => 1 | FL_UnknownDatapoint => 2 | FL_AccessDenied => 3
  | FL_InternalError => 4
  end.

Inductive SdvValue :=
| SV_Failure (f : Z) | SV_String (s : string) | SV_Bool (b : bool) | SV_Int32 (z : Z) | SV_Int64 (z : Z)
| SV_Uint32 (z : Z) | SV_Uint64 (z : Z) | SV_Float (x : float) | SV_Double (x : float)
| SV_StringArray (l : list string) | SV_BoolArray (l : list bool) | SV_Int32Array (l : list Z)
| SV_Int64Array (l : list Z) | SV_Uint32Array (l : list Z) | SV_Uint64Array (l : list Z)
| SV_FloatArray (l : list float) | SV_DoubleArray (l : list float).

Record SdvMetadata := {
  sm_id : Z;
  sm_entry_type : Z;
  sm_name : string;
  sm_data_type : Z;
  sm_change_type : Z;
  sm_description : string
}.

(** [RegistrationMetadata] of collector.proto. *)
Record RegistrationMetadata := {
  rm_name : string;
  rm_data_type : Z;
  rm_description : string;
  rm_change_type : Z
}.

Section Messages.
Context `{Timestamps}.

Record SdvDatapoint := { sd_timestamp : option Timestamp; sd_value : option SdvValue }.
End Messages.

(** ** Conversions *)

(** [From<&proto::DataType> for broker::DataType]. *)
Definition data_type_from_sdv (t : SdvDataType) : DataType :=
  match t with
  | SDT_String => DT_String
  | SDT_Bool => DT_Bool
  | SDT_Int8 => DT_Int8
  | SDT_Int16 => DT_Int16
  | SDT_Int32 => DT_Int32
  | SDT_Int64 => DT_Int64
  | SDT_Uint8 => DT_Uint8
  | SDT_Uint16 => DT_Uint16
  | SDT_Uint32 => DT_Uint32
  | SDT_Uint64 => DT_Uint64
  | SDT_Float => DT_Float
  | SDT_Double => DT_Double
  | SDT_StringArray => DT_StringArray
  | SDT_BoolArray => DT_BoolArray
  | SDT_Int8Array => DT_Int8Array
  | SDT_Int16Array => DT_Int16Array
  | SDT_Int32Array => DT_Int32Array
  | SDT_Int64Array => DT_Int64Array
  | SDT_Uint8Array => DT_Uint8Array
  | SDT_Uint16Array => DT_Uint16Array
  | SDT_Uint32Array => DT_Uint32Array
  | SDT_Uint64Array => DT_Uint64Array
  | SDT_FloatArray => DT_FloatArray
  | SDT_DoubleArray => DT_DoubleArray
  end.

(** [From<&broker::DataType> for proto::DataType]. *)
Definition data_type_to_sdv (t : DataType) : SdvDataType :=
  match t with
  | DT_String => SDT_String
  | DT_Bool => SDT_Bool
  | DT_Int8 => SDT_Int8
  | DT_Int16 => SDT_Int16
  | DT_Int32 => SDT_Int32
  | DT_Int64 => SDT_Int64
  | DT_Uint8 => SDT_Uint8
  | DT_Uint16 => SDT_Uint16
  | DT_Uint32 => SDT_Uint32
  | DT_Uint64 => SDT_Uint64
  | DT_Float => SDT_Float
  | DT_Double => SDT_Double
  | DT_StringArray => SDT_StringArray
  | DT_BoolArray => SDT_BoolArray
  | DT_Int8Array => SDT_Int8Array
  | DT_Int16Array => SDT_Int16Array
  | DT_Int32Array => SDT_Int32Array
  | DT_Int64Array => SDT_Int64Array
  | DT_Uint8Array => SDT_Uint8Array
  | DT_Uint16Array => SDT_Uint16Array
  | DT_Uint32Array => SDT_Uint32Array
  | DT_Uint64Array => SDT_Uint64Array
  | DT_FloatArray => SDT_FloatArray
  | DT_DoubleArray => SDT_DoubleArray
  end.

(** [From<&broker::EntryType> for proto::EntryType]. *)
Definition entry_type_to_sdv (t : EntryType) : SdvEntryType :=
  match t with
  | ET_Sensor => SET_Sensor
  | ET_Attribute => SET_Attribute
  | ET_Actuator => SET_Actuator
  end.

(** [From<&proto::ChangeType> for broker::ChangeType]. *)
Definition change_type_from_sdv (t : SdvChangeType) : ChangeType :=
  match t with
  | SCT_OnChange => CT_OnChange
  | SCT_Continuous => CT_Continuous
  | SCT_Static => CT_Static
  end.

(** [From<&broker::Metadata> for proto::Metadata]. *)
Definition metadata_to_sdv (m : Metadata) : SdvMetadata :=
  {| sm_id := id m;
     sm_entry_type := sdv_entry_type_i32 (entry_type_to_sdv (entry_type m));
     sm_name := path m;
     sm_data_type := sdv_data_type_i32 (data_type_to_sdv (data_type m));
     sm_change_type := sdv_change_type_i32 SCT_Continuous;
     sm_description := description m |}.

(** [From<&broker::UpdateError> for proto::DatapointError]. *)
Definition datapoint_error_from (e : UpdateError) : DatapointError :=
  match e with
  | UE_NotFound => DE_UnknownDatapoint
  | UE_WrongType | UE_UnsupportedType => DE_InvalidType
  | UE_OutOfBounds => DE_OutOfBounds
  | UE_PermissionDenied => DE_AccessDenied
  | UE_PermissionExpired => DE_AccessDenied
  end.

(** The match on the value in the conversion of a datapoint, and again in
    the conversion of a query field. *)
Definition sdv_value (v : DataValue) : SdvValue :=
  match v with
  | DV_Bool value => SV_Bool value
  | DV_String value => SV_String value
  | DV_Int32 value => SV_Int32 value
  | DV_Int64 value => SV_Int64 value
  | DV_Uint32 value => SV_Uint32 value
  | DV_Uint64 value => SV_Uint64 value
  | DV_Float value => SV_Float value
  | DV_Double value => SV_Double value
  | DV_BoolArray value => SV_BoolArray value
  | DV_StringArray value => SV_StringArray value
  | DV_Int32Array value => SV_Int32Array value
  | DV_Int64Array value => SV_Int64Array value
  | DV_Uint32Array value => SV_Uint32Array value
  | DV_Uint64Array value => SV_Uint64Array value
  | DV_FloatArray value => SV_FloatArray value
  | DV_DoubleArray value => SV_DoubleArray value
  | DV_NotAvailable => SV_Failure (failure_i32 FL_NotAvailable)
  end.

(** [From<&proto::Datapoint> for broker::DataValue], on the value. *)
Definition data_value_from_sdv (v : option SdvValue) : DataValue :=
  match v with
  | Some value =>
      match value with
      | SV_String value => DV_String value
      | SV_Bool value => DV_Bool value
      | SV_Int32 value => DV_Int32 value
      | SV_Int64 value => DV_Int64 value
      | SV_Uint32 value => DV_Uint32 value
      | SV_Uint64 value => DV_Uint64 value
      | SV_Float value => DV_Float value
      | SV_Double value => DV_Double value
      | SV_StringArray value => DV_StringArray value
      | SV_BoolArray value => DV_BoolArray value
      | SV_Int32Array value => DV_Int32Array value
      | SV_Int64Array value => DV_Int64Array value
      | SV_Uint32Array value => DV_Uint32Array value
      | SV_Uint64Array value => DV_Uint64Array value
      | SV_FloatArray value => DV_FloatArray value
      | SV_DoubleArray value => DV_DoubleArray value
      | SV_Failure _ => DV_NotAvailable
      end
  | None => DV_NotAvailable
  end.

Section Conversions.
Context `{Timestamps}.

(** [From<&proto::Datapoint> for broker::Datapoint]. *)
Definition datapoint_from_sdv (now : SystemTime) (d : SdvDatapoint) : Datapoint :=
  {| ts := match sd_timestamp d with
           | Some ts => default now (timestamp_try_into ts)
           | None => now
           end;
     value := data_value_from_sdv (sd_value d) |}.

(** [From<&broker::Datapoint> for proto::Datapoint]. *)
Definition datapoint_to_sdv (d : Datapoint) : SdvDatapoint :=
  {| sd_timestamp := Some (timestamp_from (ts d)); sd_value := Some (sdv_value (value d)) |}.

(** [From<&broker::QueryField> for proto::Datapoint]: stamped with the present
    time. *)
Definition query_field_to_sdv (now : SystemTime) (f : QueryField) : SdvDatapoint :=
  {| sd_timestamp := Some (timestamp_from now); sd_value := Some (sdv_value (qf_value f)) |}.
End Conversions.

(** ** Round trips *)

Lemma sdv_data_type_from_to t : sdv_data_type_from_i32 (sdv_data_type_i32 t) = Some t.
Proof. by destruct t. Qed.

Lemma data_value_sdv_roundtrip v : data_value_from_sdv (Some (sdv_value v)) = v.
Proof. by destruct v. Qed.

(** The legacy protocol loses nothing of a datapoint or of a data type: a
    datapoint, the absence of a value included, comes back unchanged with its
    timestamp; a message that carries a value comes back with the same value,
    and every failure code becomes "not available"; and the number a data type
    is sent as names that data type again. *)
Theorem sdv_datapoint_roundtrip `{TimestampLaws} now (dp : Datapoint) (d : SdvDatapoint) (t : DataType) :
  datapoint_from_sdv now (datapoint_to_sdv dp) = dp /\
  sd_value (datapoint_to_sdv (datapoint_from_sdv now d)) =
    Some (match sd_value d with
          | Some (SV_Failure _) | None => SV_Failure (failure_i32 FL_NotAvailable)
          | Some v => v
          end) /\
  data_type_from_sdv <$> sdv_data_type_from_i32 (sdv_data_type_i32 (data_type_to_sdv t)) = Some t.
Proof.
  split_and!.
  - unfold datapoint_from_sdv, datapoint_to_sdv. cbn [sd_timestamp sd_value].
    rewrite law_timestamp, data_value_sdv_roundtrip. by destruct dp.
  - by destruct d as [? [[]|]].
  - rewrite sdv_data_type_from_to. by destruct t.
Qed.

Lemma sdv_datapoint_roundtrip_witness :
  @datapoint_from_sdv z_timestamps 9 (@datapoint_to_sdv z_timestamps {| ts := 7; value := DV_NotAvailable |})
  = {| ts := 7; value := DV_NotAvailable |}.
Proof.
  exact (proj1 (@sdv_datapoint_roundtrip z_timestamps z_timestamp_laws 9
    {| ts := 7; value := DV_NotAvailable |} {| sd_timestamp := None; sd_value := None |} DT_Bool)).
Defined.
