(* ===== verification/Sdv.v ===== *)
(** * Sdv: the services of sdv.databroker.v1

    src/kuksa_databroker/databroker/src/grpc/sdv_databroker_v1/broker.rs (the
    service [Broker] for consumers) and collector.rs (the service [Collector]
    for providers).  As in [KuksaVal], a request carries the permissions the
    interceptor inserted, if any, and the clock is read once per call; a map of
    a message is iterated in hash order. *)

From S2P Require Import Prelude Types Regex Glob Permissions Entry Database Query Broker Delivery.
From S2P Require Import ProtoVal ProtoSdv.

Definition unauthenticated : Status :=
  {| status_code := SC_Unauthenticated; status_message := "Unauthenticated" |}.

(** [proto::DatapointError::from(error) as i32]. *)
Definition error_code (e : UpdateError) : Z := datapoint_error_i32 (datapoint_error_from e).

Section Sdv.
Context `{RegexEngine} `{HashOrder} `{SqlParser} `{Timestamps}.

(** ** Service [Broker] *)

(** The entry of the reply for the outcome of one read. *)
Definition get_reply (r : result Datapoint ReadError) : SdvDatapoint :=
  match r with
  | Ok datapoint => datapoint_to_sdv datapoint
  | Err err =>
      {| sd_timestamp := None;
         sd_value :=
           match err with
           | RE_NotFound => Some (SV_Failure (failure_i32 FL_UnknownDatapoint))
           | RE_PermissionDenied | RE_PermissionExpired =>
               Some (SV_Failure (failure_i32 FL_AccessDenied))
           end |}
  end.

(** [Broker::get_datapoints]. *)
Definition get_datapoints (b : DataBroker) (permissions : option Permissions) (now : SystemTime)
  (requested : list string) : result (gmap string SdvDatapoint) Status :=
  match permissions with
  | None => Err unauthenticated
  | Some permissions =>
      match requested with
      | [] => Err {| status_code := SC_InvalidArgument; status_message := "No datapoints requested" |}
      | _ =>
          Ok (fold_left (fun datapoints name =>
                <[name := get_reply (access_get_datapoint_by_path b permissions now name)]> datapoints)
              requested ∅)
      end
  end.

(** The loop of [set_datapoints] over the datapoints of the message: the
    updates, the errors so far and the path of each id. *)
Fixpoint collect_targets (b : DataBroker) (now : SystemTime) (datapoints : list (string * SdvDatapoint))
  (ids : list (Z * EntryUpdate)) (errors : gmap string Z) (id_to_path : gmap Z string)
  : list (Z * EntryUpdate) * gmap string Z * gmap Z string :=
  match datapoints with
  | [] => (ids, errors, id_to_path)
  | (p, datapoint) :: datapoints =>
      match access_get_metadata_by_path b p with
      | Some metadata =>
          let id_to_path := <[id metadata := p]> id_to_path in
          match entry_type metadata with
          | ET_Sensor | ET_Attribute =>
              collect_targets b now datapoints ids
                (<[p := datapoint_error_i32 DE_AccessDenied]> errors) id_to_path
          | ET_Actuator =>
              collect_targets b now datapoints
                (ids ++ [(id metadata, target_update (datapoint_from_sdv now datapoint))])
                errors id_to_path
          end
      | None =>
          collect_targets b now datapoints ids
            (<[p := datapoint_error_i32 DE_UnknownDatapoint]> errors) id_to_path
      end
  end.

(** [errors.extend(...)]: the path of the id is looked up with [[]], which
    panics when it is missing. *)
Fixpoint extend_errors (id_to_path : gmap Z string) (errors : gmap string Z)
  (err : list (Z * UpdateError)) : outcome (gmap string Z) :=
  match err with
  | [] => Returns errors
  | (i, error) :: err =>
      match id_to_path !! i with
      | Some p =>
          extend_errors id_to_path (<[p := error_code error]> errors) err
      | None => Panics
      end
  end.

(** [Broker::set_datapoints]. *)
Definition set_datapoints (b : DataBroker) (permissions : option Permissions) (now : SystemTime)
  (datapoints : gmap string SdvDatapoint) : outcome (result (gmap string Z) Status) * DataBroker :=
  match permissions with
  | None => (Returns (Err unauthenticated), b)
  | Some permissions =>
      let '(ids, errors, id_to_path) :=
        collect_targets b now (hash_order (map_to_list datapoints)) [] ∅ ∅ in
      let '(r, b) := update_entries b permissions now ids in
      (match r with
       | Ok _ => Returns (Ok errors)
       | Err err =>
           match extend_errors id_to_path errors err with
           | Returns errors => Returns (Ok errors)
           | Panics => Panics
           end
       end, b)
  end.

(** [Broker::subscribe]; the stream is given by its channel.  The message of
    the status is the debug text of the error. *)
Definition sdv_subscribe (debug : QueryError -> string) (b : DataBroker)
  (permissions : option Permissions) (now : SystemTime) (query : string)
  : result ChanId Status * DataBroker :=
  match permissions with
  | None => (Err unauthenticated, b)
  | Some permissions =>
      match subscribe_query b permissions now query with
      | (Ok stream, b) => (Ok stream, b)
      | (Err e, b) => (Err {| status_code := SC_InvalidArgument; status_message := debug e |}, b)
      end
  end.

(** [convert_to_proto_stream], on one item. *)
Definition convert_response (now : SystemTime) (item : QueryResponse) : gmap string SdvDatapoint :=
  fold_left (fun datapoints field => <[qf_name field := query_field_to_sdv now field]> datapoints)
    (qr_fields item) ∅.

(** [Broker::get_metadata]. *)
Definition get_metadata (b : DataBroker) (permissions : option Permissions) (now : SystemTime)
  (names : list string) : result (list SdvMetadata) Status :=
  match permissions with
  | None => Err unauthenticated
  | Some permissions =>
      Ok (match names with
          | [] => map_entries b permissions now (fun entry => metadata_to_sdv (era_metadata entry))
          | _ => map metadata_to_sdv (omap (fun name => access_get_metadata_by_path b name) names)
          end)
  end.

(** ** Service [Collector] *)

(** The updates of a message. *)
Definition provided_updates (now : SystemTime) (datapoints : gmap Z SdvDatapoint)
  : list (Z * EntryUpdate) :=
  map (fun '(i, datapoint) => (i, datapoint_update (datapoint_from_sdv now datapoint)))
      (hash_order (map_to_list datapoints)).

(** The errors of a reply, collected into a map. *)
Definition collect_errors (err : list (Z * UpdateError)) : gmap Z Z :=
  fold_left (fun errors e =>
    <[fst e := error_code (snd e)]> errors) err ∅.

(** [Collector::update_datapoints]. *)
Definition update_datapoints (b : DataBroker) (permissions : option Permissions) (now : SystemTime)
  (datapoints : gmap Z SdvDatapoint) : result (gmap Z Z) Status * DataBroker :=
  match permissions with
  | None => (Err unauthenticated, b)
  | Some permissions =>
      let '(r, b) := update_entries b permissions now (provided_updates now datapoints) in
      (Ok (match r with
           | Ok _ => ∅
           | Err err => collect_errors err
           end), b)
  end.

(** What the task of [stream_datapoints] is woken by: a message of the
    provider, the end of its stream, a broken connection, or the shutdown of
    the broker. *)
Inductive StreamEvent :=
| ST_Message (now : SystemTime) (datapoints : gmap Z SdvDatapoint)
| ST_End
| ST_Broken
| ST_Shutdown.

(** The task: whether its loop still runs, the broker, and the channels of the
    replies with errors. *)
Record StreamState := {
  st_running : bool;
  st_broker : DataBroker;
  st_replies : list (Channel (gmap Z Z))
}.

(** One turn of the loop.  A reply that cannot be sent is dropped. *)
Definition stream_step (permissions : Permissions) (error_sender : ChanId) (s : StreamState)
  (event : StreamEvent) : StreamState :=
  if negb (st_running s) then s else
  match event with
  | ST_Message now datapoints =>
      let '(r, b) := update_entries (st_broker s) permissions now (provided_updates now datapoints) in
      {| st_running := true; st_broker := b;
         st_replies := match r with
                       | Ok _ => st_replies s
                       | Err err => snd (send (st_replies s) error_sender (collect_errors err))
                       end |}
  | ST_End | ST_Broken | ST_Shutdown =>
      {| st_running := false; st_broker := st_broker s; st_replies := st_replies s |}
  end.

(** [Collector::stream_datapoints]: the channel of the replies is created and
    the task runs on the events of the stream. *)
Definition stream_datapoints (b : DataBroker) (permissions : option Permissions)
  (replies : list (Channel (gmap Z Z))) (events : list StreamEvent)
  : result ChanId Status * StreamState :=
  match permissions with
  | None => (Err unauthenticated, {| st_running := false; st_broker := b; st_replies := replies |})
  | Some permissions =>
      let '(error_sender, replies) := channel replies in
      (Ok error_sender,
       fold_left (stream_step permissions error_sender) events
         {| st_running := true; st_broker := b; st_replies := replies |})
  end.

(** The loop of [register_datapoints]; leaving it early is an error, the
    registrations made so far stay. *)
Fixpoint register_loop (b : DataBroker) (permissions : Permissions) (now : SystemTime)
  (list : list RegistrationMetadata) (results : gmap string Z)
  : result (gmap string Z) Status * DataBroker :=
  match list with
  | [] => (Ok results, b)
  | m :: list =>
      match sdv_data_type_from_i32 (rm_data_type m), sdv_change_type_from_i32 (rm_change_type m) with
      | Some value_type, Some change_type =>
          let failed code :=
            Err {| status_code := code; status_message := "Failed to register " +:+ rm_name m |} in
          match add_entry b permissions now (rm_name m) (data_type_from_sdv value_type)
                  (change_type_from_sdv change_type) ET_Sensor (rm_description m) None None with
          | (Ok i, b) => register_loop b permissions now list (<[rm_name m := i]> results)
          | (Err REG_PermissionDenied, b) => (failed SC_PermissionDenied, b)
          | (Err REG_PermissionExpired, b) => (failed SC_Unauthenticated, b)
          | (Err REG_ValidationError, b) => (failed SC_InvalidArgument, b)
          end
      | None, _ =>
          (Err {| status_code := SC_InvalidArgument;
                  status_message := "Unsupported data type provided for " +:+ rm_name m |}, b)
      | _, None =>
          (Err {| status_code := SC_InvalidArgument;
                  status_message := "Unsupported change type provided for " +:+ rm_name m |}, b)
      end
  end.

(** [Collector::register_datapoints]. *)
Definition register_datapoints (b : DataBroker) (permissions : option Permissions) (now : SystemTime)
  (list : list RegistrationMetadata) : result (gmap string Z) Status * DataBroker :=
  match permissions with
  | None => (Err unauthenticated, b)
  | Some permissions => register_loop b permissions now list ∅
  end.
End Sdv.
