(* ===== verification/SdvSpec.v ===== *)
(** * SdvSpec: what the services of sdv.databroker.v1 promise

    The replies of the handlers of [Sdv] as functions of the database, name by
    name, and what the handlers do to it. *)

From S2P Require Import Prelude Types Regex Glob Permissions Entry Database Query Broker Delivery.
From S2P Require Import ProtoVal ProtoSdv Sdv.

Section Spec.
Context `{RegexEngine} `{HashOrder} `{SqlParser} `{Timestamps}.

(** ** get_datapoints *)

(** What a client is told about a path. *)
Definition readable_value (b : DataBroker) (permissions : Permissions) (now : SystemTime) (name : string)
  : SdvDatapoint :=
  let failure f := {| sd_timestamp := None; sd_value := Some (SV_Failure (failure_i32 f)) |} in
  match path_to_id (database b) !! name ≫= fun i => entries (database b) !! i with
  | None => failure FL_UnknownDatapoint
  | Some e => if is_ok (can_read permissions now name) then datapoint_to_sdv (datapoint e)
              else failure FL_AccessDenied
  end.

Lemma get_reply_readable b permissions now name :
  db_inv (database b) ->
  get_reply (access_get_datapoint_by_path b permissions now name) = readable_value b permissions now name.
Proof.
  intros Hinv. unfold access_get_datapoint_by_path, get_entry_by_path, readable_value.
  destruct (path_to_id (database b) !! name) as [i|] eqn:Hi; [|done]. simpl.
  rewrite get_entry_by_id_spec. destruct (inv_index _ Hinv _ _ Hi) as (e & -> & ->).
  by destruct (can_read permissions now name) as [[]|[]].
Qed.

(** [GetDatapoints] answers every requested name and no other: with the
    datapoint if the token may read the path, with "access denied" if it may
    not, and with "unknown datapoint" if no such path is registered. *)
Theorem get_datapoints_spec b permissions now requested reply :
  db_inv (database b) ->
  get_datapoints b (Some permissions) now requested = Ok reply ->
  requested <> [] /\
  forall name, reply !! name =
    if bool_decide (name ∈ requested) then Some (readable_value b permissions now name) else None.
Proof.
  intros Hinv Hg. assert (requested <> []) as Hne by (by intros ->).
  assert (reply = fold_left (fun m name =>
    <[name := get_reply (access_get_datapoint_by_path b permissions now name)]> m) requested ∅) as ->
    by (destruct requested; [done|]; by injection Hg).
  split; [done|]. intros name. rewrite (fold_insert_lookup (fun n => n)) by (intros; by subst).
  destruct (find _ requested) as [a|] eqn:Hf.
  - apply find_some in Hf as [Ha Hk]. bool_hyps. subst. apply list_elem_of_In in Ha.
    rewrite bool_decide_true by done. by rewrite get_reply_readable.
  - rewrite bool_decide_false; [by rewrite lookup_empty|].
    intros Hin%list_elem_of_In. pose proof (find_none _ _ Hf _ Hin) as Hn. simpl in Hn. by bool_hyps.
Qed.

(** ** update_datapoints and stream_datapoints *)

(** The reply's error for an id, and the entry the call leaves. *)
Definition provide_reply (b : DataBroker) (permissions : Permissions) (now : SystemTime) (i : Z)
  (d : SdvDatapoint) : option Z :=
  error_code <$> attempt_error (fun e => provide permissions now e (datapoint_from_sdv now d))
                   (entries (database b) !! i).

Lemma hash_order_map_keys {K V} `{Countable K} (m : gmap K V) : NoDup (map fst (hash_order (map_to_list m))).
Proof.
  change (NoDup (hash_order (map_to_list m)).*1).
  rewrite (fmap_Permutation fst _ _ (hash_order_perm (map_to_list m))). apply NoDup_fst_map_to_list.
Qed.

Lemma elem_of_hash_map {K V} `{Countable K} (m : gmap K V) k v :
  (k, v) ∈ hash_order (map_to_list m) <-> m !! k = Some v.
Proof. by rewrite elem_of_hash_order, elem_of_map_to_list. Qed.

(** The reply of a batch of errors whose ids are distinct. *)
Lemma collect_errors_lookup errs (f : Z -> option UpdateError) :
  (forall i err, (i, err) ∈ errs <-> f i = Some err) ->
  forall i, collect_errors errs !! i = error_code <$> f i.
Proof.
  intros Hf i. unfold collect_errors. destruct (f i) as [err|] eqn:Ei; simpl.
  - apply Hf in Ei.
    apply (fold_insert_in fst (fun e => error_code (snd e)) errs ∅ (i, err)); [|done].
    intros [j1 e1] [j2 e2] Ha%Hf Hb%Hf Hj. simpl in *. subst. congruence.
  - rewrite (fold_insert_notin fst (fun e => error_code (snd e))); [done|].
    intros [j e] Hin%Hf Hj. simpl in *. congruence.
Qed.

(** C25. [UpdateDatapoints] treats every id of the message on its own: the reply
    has an error for exactly the ids whose update is refused, with the code of
    the reason, and afterwards every named entry holds its new value where the
    token may provide it, it has the declared type and lies in the allowed
    list (an equal value of a signal that is not continuous is left alone);
    every other entry is as before. *)
Theorem update_datapoints_spec b permissions now datapoints r b' :
  update_datapoints b (Some permissions) now datapoints = (r, b') ->
  (exists errors, r = Ok errors /\
     forall i, errors !! i = datapoints !! i ≫= provide_reply b permissions now i) /\
  (forall i, entries (database b') !! i =
     match datapoints !! i with
     | Some d => attempt_entry (fun e => provide permissions now e (datapoint_from_sdv now d))
                   (entries (database b) !! i)
     | None => entries (database b) !! i
     end).
Proof.
  unfold update_datapoints. intros Hr.
  destruct (update_entries b permissions now (provided_updates now datapoints)) as [ur b1] eqn:Eu.
  injection Hr as <- <-.
  set (ds := map (fun '(i, d) => (i, datapoint_from_sdv now d)) (hash_order (map_to_list datapoints))).
  assert (map fst ds = map fst (hash_order (map_to_list datapoints))) as Hfst.
  { unfold ds. rewrite map_map. apply map_ext. by intros []. }
  assert (forall i d, (i, d) ∈ ds <-> exists sd, datapoints !! i = Some sd /\ d = datapoint_from_sdv now sd) as Hds.
  { intros i d. setoid_rewrite <- elem_of_hash_map. unfold ds. rewrite list_elem_of_In, in_map_iff.
    setoid_rewrite list_elem_of_In. split; [intros ([] & ? & ?); simplify_eq; eauto|].
    intros (sd & ? & ->). by exists (i, sd). }
  assert (provided_updates now datapoints = map (fun '(i, d) => (i, datapoint_update d)) ds) as Hpu.
  { unfold provided_updates, ds. rewrite map_map. apply map_ext. by intros []. }
  rewrite Hpu in Eu.
  apply (update_entries_attempts _ _ _ _ _ _ _ _ (provide_attempts permissions now)) in Eu
    as (errs & -> & He & Hin & Hout); [|rewrite Hfst; apply hash_order_map_keys].
  split.
  - exists (collect_errors errs). split; [by destruct errs|]. intros i.
    rewrite (collect_errors_lookup errs (fun i => datapoints !! i ≫= fun d =>
      attempt_error (fun e => provide permissions now e (datapoint_from_sdv now d)) (entries (database b) !! i))).
    + by destruct (datapoints !! i).
    + intros j err. rewrite He. setoid_rewrite Hds. split.
      * intros (d & (sd & -> & ->) & Ha). done.
      * intros Ha. destruct (datapoints !! j) as [sd|]; [|done]. eauto.
  - intros i. destruct (datapoints !! i) as [sd|] eqn:Hi.
    + apply Hin, Hds. eauto.
    + apply Hout. intros (x & <- & Hx)%list_elem_of_In%in_map_iff. destruct x as [j d].
      apply list_elem_of_In, Hds in Hx as (sd & Hj & _). simpl in Hi. congruence.
Qed.

(** The messages the task takes from its stream. *)
Fixpoint stream_messages (events : list StreamEvent) : list (SystemTime * gmap Z SdvDatapoint) :=
  match events with
  | ST_Message now datapoints :: events => (now, datapoints) :: stream_messages events
  | _ => []
  end.

(** The same messages sent with separate calls of [UpdateDatapoints]. *)
Fixpoint unary_calls (b : DataBroker) (permissions : Permissions)
  (calls : list (SystemTime * gmap Z SdvDatapoint)) : DataBroker * list (gmap Z Z) :=
  match calls with
  | [] => (b, [])
  | (now, datapoints) :: calls =>
      let '(r, b) := update_datapoints b (Some permissions) now datapoints in
      let '(b, rs) := unary_calls b permissions calls in
      (b, match r with Ok errors => errors :: rs | Err _ => rs end)
  end.

Definition ends (event : StreamEvent) : bool :=
  match event with ST_Message _ _ => false | _ => true end.

Definition not_empty (m : gmap Z Z) : option (gmap Z Z) := if bool_decide (m = ∅) then None else Some m.

Lemma stream_stopped permissions c events s :
  st_running s = false -> fold_left (stream_step permissions c) events s = s.
Proof.
  intros Hs. induction events as [|e events IH]; simpl; [done|]. unfold stream_step at 2. by rewrite Hs.
Qed.

Lemma collect_errors_not_empty errs : errs <> [] -> collect_errors errs <> ∅.
Proof.
  intros Hne. unfold collect_errors. destruct errs as [|e errs]; [done|]. simpl. clear Hne.
  assert (<[e.1 := error_code e.2]> (∅ : gmap Z Z) <> ∅) as Hm by apply insert_non_empty.
  revert Hm. generalize (<[e.1 := error_code e.2]> (∅ : gmap Z Z)).
  induction errs as [|e2 errs IH]; intros m Hm; simpl; [done|]. apply IH, insert_non_empty.
Qed.

Lemma update_entries_not_empty b permissions now us errs b' :
  update_entries b permissions now us = (Err errs, b') -> errs <> [].
Proof. intros (? & ? & errors & ? & ? & _ & _ & Hr & _)%update_entries_inv ->. by destruct errors. Qed.

(** One message is one call, whose reply is sent unless it is empty. *)
Lemma stream_step_call permissions c b replies now datapoints :
  stream_step permissions c {| st_running := true; st_broker := b; st_replies := replies |}
    (ST_Message now datapoints) =
  let '(r, b1) := update_datapoints b (Some permissions) now datapoints in
  {| st_running := true; st_broker := b1;
     st_replies := match r with
                   | Ok errors => match not_empty errors with
                                  | Some m => snd (send replies c m) | None => replies
                                  end
                   | Err _ => replies
                   end |}.
Proof.
  unfold stream_step, update_datapoints. simpl.
  destruct (update_entries b permissions now (provided_updates now datapoints)) as [[[]|errs] b1] eqn:Eu; [done|].
  unfold not_empty. rewrite bool_decide_false; [done|].
  by eapply collect_errors_not_empty, update_entries_not_empty.
Qed.

Lemma stream_run permissions c events b replies msgs :
  replies !! c = Some (Build_Channel msgs false) ->
  let s := fold_left (stream_step permissions c) events
             {| st_running := true; st_broker := b; st_replies := replies |} in
  let '(b', rs) := unary_calls b permissions (stream_messages events) in
  st_broker s = b' /\ st_running s = negb (existsb ends events) /\
  st_replies s = <[c := Build_Channel (msgs ++ omap not_empty rs) false]> replies.
Proof.
  revert b replies msgs. induction events as [|event events IH]; intros b replies msgs Hc.
  { simpl. by rewrite app_nil_r, list_insert_id. }
  cbn [fold_left]. destruct event as [now datapoints| | |]; cbn [stream_messages unary_calls existsb ends orb];
    try (rewrite (stream_stopped permissions c events) by done; simpl; by rewrite app_nil_r, list_insert_id).
  rewrite stream_step_call. destruct (update_datapoints b (Some permissions) now datapoints) as [[m|] b1].
  - specialize (IH b1). destruct (unary_calls b1 permissions _) as [b2 rs]. csimpl.
    destruct (not_empty m) as [m'|]; [|by apply IH].
    unfold send. rewrite Hc. simpl. destruct (IH (<[c := Build_Channel (msgs ++ [m']) false]> replies)
      (msgs ++ [m'])) as (-> & -> & ->); [by eapply list_lookup_insert_eq, lookup_lt_Some|].
    by rewrite list_insert_insert_eq, <- app_assoc.
  - specialize (IH b1 replies msgs Hc). by destruct (unary_calls b1 permissions _).
Qed.

(** Streaming is the same as calling: [StreamDatapoints] leaves the broker
    as separate calls of [UpdateDatapoints] with the messages before the first
    end of the stream (or broken connection, or shutdown) leave it, and sends
    exactly their replies that report an error, in order; after that event the
    task does nothing more. *)
Theorem stream_equals_calls b permissions replies events c s :
  stream_datapoints b (Some permissions) replies events = (Ok c, s) ->
  let '(b', rs) := unary_calls b permissions (stream_messages events) in
  st_broker s = b' /\ st_running s = negb (existsb ends events) /\
  st_replies s = replies ++ [Build_Channel (omap not_empty rs) false] /\ c = length replies.
Proof.
  unfold stream_datapoints, channel. intros Hs. injection Hs as <- <-.
  pose proof (stream_run permissions (length replies) events b (replies ++ [Build_Channel [] false]) []
    (list_lookup_middle _ [] _ _ eq_refl)) as Hr.
  destruct (unary_calls b permissions _) as [b' rs]. destruct Hr as (-> & -> & ->).
  split_and!; [done..| |done]. rewrite insert_app_r_alt by done. by rewrite Nat.sub_diag.
Qed.

(** ** set_datapoints *)

(** The target a path of the message asks for, the refusals of the handler
    itself, and the reply's error for a path. *)
Definition target_of (b : DataBroker) (now : SystemTime) (pd : string * SdvDatapoint) : option (Z * Datapoint) :=
  match access_get_metadata_by_path b (fst pd) with
  | Some m => if bool_decide (entry_type m = ET_Actuator)
              then Some (id m, datapoint_from_sdv now (snd pd)) else None
  | None => None
  end.

Definition refused (b : DataBroker) (p : string) : option Z :=
  match access_get_metadata_by_path b p with
  | Some m => if bool_decide (entry_type m = ET_Actuator) then None
              else Some (datapoint_error_i32 DE_AccessDenied)
  | None => Some (datapoint_error_i32 DE_UnknownDatapoint)
  end.

Definition set_reply (b : DataBroker) (permissions : Permissions) (now : SystemTime) (p : string)
  (d : SdvDatapoint) : option Z :=
  match access_get_metadata_by_path b p with
  | Some m =>
      if bool_decide (entry_type m = ET_Actuator)
      then error_code <$> attempt_error (fun e => actuate permissions now e (datapoint_from_sdv now d))
                            (entries (database b) !! id m)
      else Some (datapoint_error_i32 DE_AccessDenied)
  | None => Some (datapoint_error_i32 DE_UnknownDatapoint)
  end.

(** The three results of the loop of [set_datapoints], each on its own. *)
Definition add_refusal (b : DataBroker) (errors : gmap string Z) (pd : string * SdvDatapoint) : gmap string Z :=
  match refused b (fst pd) with Some code => <[fst pd := code]> errors | None => errors end.

Definition add_path (b : DataBroker) (id_to_path : gmap Z string) (pd : string * SdvDatapoint) : gmap Z string :=
  match access_get_metadata_by_path b (fst pd) with
  | Some m => <[id m := fst pd]> id_to_path
  | None => id_to_path
  end.

Lemma collect_targets_fold b now l ids errors idp :
  collect_targets b now l ids errors idp =
  (ids ++ map (fun '(i, d) => (i, target_update d)) (omap (target_of b now) l),
   fold_left (add_refusal b) l errors, fold_left (add_path b) l idp).
Proof.
  revert ids errors idp. induction l as [|[p d] l IH]; intros ids errors idp; csimpl; [by rewrite app_nil_r|].
  unfold add_refusal at 2, add_path at 2, refused, target_of at 1. simpl.
  destruct (access_get_metadata_by_path b p) as [m|]; [|apply IH].
  destruct (entry_type m); rewrite IH; try done. by rewrite <- app_assoc.
Qed.

Lemma refusals_lookup b l errors p :
  fold_left (add_refusal b) l errors !! p =
  match refused b p with
  | Some code => if bool_decide (p ∈ map fst l) then Some code else errors !! p
  | None => errors !! p
  end.
Proof.
  revert errors. induction l as [|[q d] l IH]; intros errors; simpl.
  { by destruct (refused b p). }
  rewrite IH. unfold add_refusal. simpl.
  rewrite (bool_decide_ext (p ∈ q :: map fst l) (p = q \/ p ∈ map fst l)) by apply elem_of_cons.
  destruct (decide (p = q)) as [->|Hpq].
  - rewrite (bool_decide_true (q = q \/ _)) by auto. destruct (refused b q); [|done].
    by rewrite lookup_insert_eq; case_bool_decide.
  - rewrite (bool_decide_ext (p = q \/ p ∈ map fst l) (p ∈ map fst l)) by intuition.
    destruct (refused b q); by rewrite ?lookup_insert_ne by done.
Qed.

(** [id_to_path] names registered paths, and one for every update collected. *)
Lemma paths_registered b l idp :
  db_inv (database b) ->
  (forall i p, idp !! i = Some p -> path_to_id (database b) !! p = Some i) ->
  forall i p, fold_left (add_path b) l idp !! i = Some p -> path_to_id (database b) !! p = Some i.
Proof.
  intros Hinv. revert idp. induction l as [|[q d] l IH]; intros idp Hidp; simpl; [done|].
  apply IH. unfold add_path. simpl. destruct (access_get_metadata_by_path b q) as [m|] eqn:Hm; [|done].
  destruct (get_metadata_by_path_Some (database b) q m Hinv Hm) as (e & Hq & _).
  intros i p [[<- <-] | [_ ?]]%lookup_insert_Some; auto.
Qed.

Lemma paths_kept b l idp i : is_Some (idp !! i) -> is_Some (fold_left (add_path b) l idp !! i).
Proof.
  revert idp. induction l as [|[q d] l IH]; intros idp Hi; simpl; [done|].
  apply IH. unfold add_path. destruct (access_get_metadata_by_path b _); [|done].
  apply lookup_insert_is_Some'. by right.
Qed.

Lemma paths_complete b now l idp i d :
  (i, d) ∈ omap (target_of b now) l -> is_Some (fold_left (add_path b) l idp !! i).
Proof.
  revert idp. induction l as [|[q sd] l IH]; intros idp; csimpl; [by intros ?%not_elem_of_nil|].
  unfold target_of at 1. simpl. unfold add_path at 2. simpl.
  destruct (access_get_metadata_by_path b q) as [m|]; [|by apply IH].
  case_bool_decide; [|by apply IH]. intros [Heq | Hin]%elem_of_cons; [|by apply IH].
  apply paths_kept. simplify_eq. rewrite lookup_insert_eq. eauto.
Qed.

Lemma elem_of_targets b now (l : list (string * SdvDatapoint)) i d :
  db_inv (database b) ->
  (i, d) ∈ omap (target_of b now) l <->
  exists p sd e, (p, sd) ∈ l /\ path_to_id (database b) !! p = Some i /\
    entries (database b) !! i = Some e /\ path (metadata e) = p /\
    entry_type (metadata e) = ET_Actuator /\ d = datapoint_from_sdv now sd.
Proof.
  intros Hinv. rewrite list_elem_of_omap. unfold target_of. split.
  - intros ([p sd] & Hin & Ht). simpl in Ht.
    destruct (access_get_metadata_by_path b p) as [m|] eqn:Hm; [|done]. case_bool_decide; [|done].
    destruct (get_metadata_by_path_Some (database b) p m Hinv Hm) as (e & Hp & He & -> & Hpe).
    simplify_eq. exists (path (metadata e)), sd, e. auto 10.
  - intros (p & sd & e & Hin & Hp & He & <- & Het & ->). exists (path (metadata e), sd). split; [done|]. simpl.
    unfold access_get_metadata_by_path. rewrite (get_metadata_by_path_entry _ i e) by done.
    rewrite bool_decide_true by done. by rewrite (proj1 (inv_entry _ Hinv i e He)).
Qed.

Lemma targets_NoDup b now (l : list (string * SdvDatapoint)) :
  db_inv (database b) -> NoDup (map fst l) -> NoDup (map fst (omap (target_of b now) l)).
Proof.
  intros Hinv. induction l as [|[p sd] l IH]; csimpl; [by constructor|]. intros [Hp Hnd]%NoDup_cons.
  destruct (target_of b now (p, sd)) as [[i d]|] eqn:Ht; [|by apply IH].
  simpl. apply NoDup_cons. split; [|by apply IH].
  intros (x & Hx & Hin)%list_elem_of_In%in_map_iff. destruct x as [j d2]. simpl in Hx. subst j.
  apply list_elem_of_In, elem_of_targets in Hin as (q & sd2 & e & Hql & _ & He & <- & _); [|done].
  assert ((i, d) ∈ omap (target_of b now) [(p, sd)]) as Hi by (csimpl; rewrite Ht; left).
  apply elem_of_targets in Hi as (p' & sd' & e' & Heq%list_elem_of_singleton & _ & He' & <- & _); [|done].
  simplify_eq. by apply Hp, (elem_of_map_fst _ sd2).
Qed.

(** Extending the errors does not panic when every id has a path. *)
Lemma extend_errors_fold idp errs errors :
  (forall i err, (i, err) ∈ errs -> is_Some (idp !! i)) ->
  extend_errors idp errors errs =
    Returns (fold_left (fun m e => <[default "" (idp !! fst e) := error_code (snd e)]> m) errs errors).
Proof.
  revert errors. induction errs as [|[i err] errs IH]; intros errors Hidp; simpl; [done|].
  destruct (Hidp i err (list_elem_of_here _ _)) as [p ->]. apply IH.
  intros j err' Hj. apply (Hidp j err'). by right.
Qed.

(** The updates the message asks for, by the path of the entry. *)
Lemma elem_of_message_targets b now (datapoints : gmap string SdvDatapoint) i d :
  db_inv (database b) ->
  (i, d) ∈ omap (target_of b now) (hash_order (map_to_list datapoints)) <-> exists sd e,
    datapoints !! path (metadata e) = Some sd /\ entries (database b) !! i = Some e /\
    entry_type (metadata e) = ET_Actuator /\ d = datapoint_from_sdv now sd.
Proof.
  intros Hinv. rewrite elem_of_targets by done. split.
  - intros (p & sd & e & Hl%elem_of_hash_map & _ & He & <- & Het & ->). eauto 10.
  - intros (sd & e & Hl%elem_of_hash_map & He & Het & ->).
    destruct (inv_entry _ Hinv i e He) as (_ & Hp & _). eauto 10.
Qed.

(** The errors of the batch and of the handler, put together. *)
Lemma set_errors_lookup b permissions now (datapoints : gmap string SdvDatapoint) errs :
  db_inv (database b) ->
  let l := hash_order (map_to_list datapoints) in
  let idp := fold_left (add_path b) l ∅ in
  (forall i err, (i, err) ∈ errs <-> exists d, (i, d) ∈ omap (target_of b now) l /\
     attempt_error (fun e => actuate permissions now e d) (entries (database b) !! i) = Some err) ->
  exists errors, extend_errors idp (fold_left (add_refusal b) l ∅) errs = Returns errors /\
    forall p, errors !! p = datapoints !! p ≫= set_reply b permissions now p.
Proof.
  intros Hinv l idp Herrs.
  assert (forall i err, (i, err) ∈ errs -> exists e sd, idp !! i = Some (path (metadata e)) /\
    entries (database b) !! i = Some e /\ entry_type (metadata e) = ET_Actuator /\
    datapoints !! path (metadata e) = Some sd /\
    attempt_error (fun e => actuate permissions now e (datapoint_from_sdv now sd)) (Some e) = Some err) as Herr.
  { intros i err (d & Hd & Ha)%Herrs. destruct (paths_complete b now l ∅ i d Hd) as [p Hp].
    apply elem_of_message_targets in Hd as (sd & e & Hl & He & Het & ->); [|done]. rewrite He in Ha.
    assert (path_to_id (database b) !! p = Some i) as Hpi.
    { apply (paths_registered b l ∅ Hinv) in Hp; [done|]. by intros ? ? ?%lookup_empty_Some. }
    destruct (inv_index _ Hinv p i Hpi) as (e' & He' & <-). simplify_eq. eauto 10. }
  rewrite extend_errors_fold by (intros i err (e & ? & -> & _)%Herr; eauto).
  eexists. split; [done|]. intros p.
  rewrite (fold_insert_at (fun e => default "" (idp !! fst e)) (fun e => error_code (snd e)) _ _ p
             (datapoints !! p ≫= set_reply b permissions now p)).
  - destruct (existsb _ errs) eqn:Hex; [done|]. rewrite refusals_lookup, lookup_empty.
    destruct (datapoints !! p) as [sd|] eqn:Hp; simpl.
    + rewrite bool_decide_true by (by apply (elem_of_map_fst p sd), elem_of_hash_map).
      unfold set_reply, refused. destruct (access_get_metadata_by_path b p) as [m|] eqn:Hm; [|done].
      destruct (bool_decide_reflect (entry_type m = ET_Actuator)) as [Het|Het]; [|done].
      destruct (attempt_error _ _) as [err|] eqn:Hae; [|done]. exfalso.
      destruct (get_metadata_by_path_Some (database b) p m Hinv Hm) as (e & Hpi & He & -> & <-).
      assert ((id (metadata e), err) ∈ errs) as Hin.
      { apply Herrs. eexists. split; [|done]. apply elem_of_message_targets; eauto 10. }
      pose proof (Herr _ _ Hin) as (e' & _ & Hi & He' & _). simplify_eq.
      rewrite (proj2 (existsb_exists _ _)) in Hex; [done|]. eexists. split; [by apply list_elem_of_In|].
      simpl. rewrite Hi. by apply bool_decide_true.
    + destruct (refused b p); [|done]. rewrite bool_decide_false; [done|].
      intros (x & <- & Hx)%list_elem_of_In%in_map_iff. destruct x as [q sd].
      apply list_elem_of_In, elem_of_hash_map in Hx. simpl in *. congruence.
  - intros [i err] (e & sd & Hi & He & Het & Hsd & Ha)%Herr Hd. simpl in *. rewrite Hi in Hd. simpl in Hd.
    subst p. rewrite Hsd. simpl. unfold set_reply, access_get_metadata_by_path.
    rewrite (get_metadata_by_path_entry _ i e), bool_decide_true by done.
    rewrite (proj1 (inv_entry _ Hinv i e He)), He. simpl. by rewrite Ha.
Qed.

(** C14. [SetDatapoints] never panics and treats every path of the message on
    its own: the reply has "unknown datapoint" for paths that are not
    registered, "access denied" for sensors and attributes, and for actuators
    the reason the new target is refused, if it is; nothing else.  Afterwards
    every named actuator has its new target where the token may actuate it and
    the value has the declared type and lies in the allowed list; nothing else
    in the database has changed. *)
Theorem set_datapoints_spec b permissions now datapoints r b' :
  db_inv (database b) ->
  set_datapoints b (Some permissions) now datapoints = (r, b') ->
  (exists errors, r = Returns (Ok errors) /\
     forall p, errors !! p = datapoints !! p ≫= set_reply b permissions now p) /\
  (forall i, entries (database b') !! i =
     match entries (database b) !! i with
     | Some e =>
         match datapoints !! path (metadata e) with
         | Some d => if bool_decide (entry_type (metadata e) = ET_Actuator)
                     then attempt_entry (fun e => actuate permissions now e (datapoint_from_sdv now d)) (Some e)
                     else Some e
         | None => Some e
         end
     | None => None
     end).
Proof.
  intros Hinv. unfold set_datapoints. rewrite collect_targets_fold. cbn [app].
  destruct (update_entries _ _ _ _) as [ur b1] eqn:Eu. intros Hr. injection Hr as <- <-.
  pose proof (targets_NoDup b now _ Hinv (hash_order_map_keys datapoints)) as Hnd.
  destruct (update_entries_attempts _ _ _ _ _ _ _ _ (actuate_attempts permissions now) Hnd Eu)
    as (errs & -> & Herrs & Hin & Hout). clear Eu. split.
  - destruct (set_errors_lookup b permissions now datapoints errs Hinv Herrs) as (errors & He & Hl).
    exists errors. split; [|done]. destruct errs as [|err errs]; [|by rewrite He]. by injection He as <-.
  - intros i. destruct (entries (database b) !! i) as [e|] eqn:He.
    + destruct (datapoints !! path (metadata e)) as [sd|] eqn:Hsd;
        [destruct (bool_decide_reflect (entry_type (metadata e) = ET_Actuator)) as [Het|Het]|].
      1: rewrite <- He; apply Hin, elem_of_message_targets; eauto 10.
      all: rewrite <- He; apply Hout; intros (x & <- & Hx)%list_elem_of_In%in_map_iff;
        destruct x as [j d]; apply list_elem_of_In, elem_of_message_targets in Hx as (? & ? & ? & ? & ? & _);
        simpl in *; congruence.
    + rewrite <- He. apply Hout. intros (x & <- & Hx)%list_elem_of_In%in_map_iff.
      destruct x as [j d]. apply list_elem_of_In, elem_of_message_targets in Hx as (? & ? & _ & ? & _); [|done].
      simpl in *. congruence.
Qed.

(** ** register_datapoints *)

(** A registration adds the entry of a sensor, or finds the path registered. *)
Definition sensor_of (now : SystemTime) (m : RegistrationMetadata) (i : Z) (e : Entry) : Prop :=
  exists dt ct, sdv_data_type_from_i32 (rm_data_type m) = Some dt /\
    sdv_change_type_from_i32 (rm_change_type m) = Some ct /\
    e = registered now i (rm_name m) (data_type_from_sdv dt) (change_type_from_sdv ct) ET_Sensor
          (rm_description m) None None None.

Lemma register_one b permissions now m l results :
  register_loop b permissions now (m :: l) results =
  match register_loop b permissions now [m] ∅ with
  | (Ok r, b) => register_loop b permissions now l (r ∪ results)
  | (Err status, b) => (Err status, b)
  end.
Proof.
  simpl. destruct (sdv_data_type_from_i32 (rm_data_type m)), (sdv_change_type_from_i32 (rm_change_type m)); try done.
  destruct (add_entry _ _ _ _ _ _ _ _ _ _) as [[i|[]] b1]; try done. by rewrite insert_union_singleton_l.
Qed.

Lemma register_one_cases b permissions now m r b' :
  db_inv (database b) -> Z.of_nat (size (entries (database b))) < 4294967296 ->
  register_loop b permissions now [m] ∅ = (r, b') ->
  subscriptions b' = subscriptions b /\ channels b' = channels b /\ db_inv (database b') /\
  match r with
  | Ok results =>
      exists i, results = {[ rm_name m := i ]} /\ path_to_id (database b') !! rm_name m = Some i /\
        (database b' = database b \/
         exists e, sensor_of now m i e /\ entries (database b) !! i = None /\
           path_to_id (database b) !! rm_name m = None /\
           entries (database b') = <[i := e]> (entries (database b)) /\
           path_to_id (database b') = <[rm_name m := i]> (path_to_id (database b)))
  | Err _ => b' = b
  end.
Proof.
  intros Hinv Hsize. simpl.
  destruct (sdv_data_type_from_i32 (rm_data_type m)) as [dt|] eqn:Hdt,
    (sdv_change_type_from_i32 (rm_change_type m)) as [ct|] eqn:Hct;
    try (intros Hr; by simplify_eq).
  unfold add_entry. destruct (add _ _ _ _ _ _ _ _ _ _) as [ar db'] eqn:Ea. intros Hr.
  pose proof (add_preserves (database b) permissions now (rm_name m) (data_type_from_sdv dt)
    (change_type_from_sdv ct) ET_Sensor (rm_description m) None None Hinv Hsize) as Hinv'.
  rewrite Ea in Hinv'. simpl in Hinv'.
  apply add_cases in Ea as [(err & -> & ->) | (Hv & Hc & [(i & Hi & -> & ->) | (Hn & Ht & -> & ->)])].
  - assert (set_database b (database b) = b) as Hb by (by destruct b).
    rewrite Hb in Hr. destruct err; by simplify_eq.
  - simplify_eq. simpl. split_and!; try done. exists i. split_and!; [done|done|by left].
  - simplify_eq. simpl. split_and!; try done. exists (next_id (database b)).
    split_and!; [done|by rewrite lookup_insert_eq|]. right. eexists.
    split_and!; [|by apply next_id_fresh|done..]. exists dt, ct. done.
Qed.

(** One registration only adds, and adds at most one entry. *)
Lemma register_one_grows b permissions now m results b' :
  db_inv (database b) -> Z.of_nat (size (entries (database b))) < 4294967296 ->
  register_loop b permissions now [m] ∅ = (Ok results, b') ->
  (size (entries (database b')) <= S (size (entries (database b))))%nat /\
  entries (database b) ⊆ entries (database b') /\ path_to_id (database b) ⊆ path_to_id (database b') /\
  (forall j e, entries (database b') !! j = Some e -> entries (database b) !! j = Some e \/ sensor_of now m j e).
Proof.
  intros Hinv Hsize Hr. destruct (register_one_cases _ _ _ _ _ _ Hinv Hsize Hr) as (_ & _ & _ & i & _ & _ & Hdb).
  destruct Hdb as [-> | (e & Hsen & Hn & Hnp & -> & ->)]; [by split_and!; [lia| | |left]|].
  split_and!; [by rewrite map_size_insert_None|by apply insert_subseteq..|].
  intros j e' [[<- <-] | [_ ?]]%lookup_insert_Some; auto.
Qed.

Lemma register_all b permissions now l results r b' :
  db_inv (database b) -> Z.of_nat (size (entries (database b)) + length l) <= 4294967296 ->
  register_loop b permissions now l results = (r, b') ->
  (subscriptions b' = subscriptions b /\ channels b' = channels b /\ db_inv (database b')) /\
  entries (database b) ⊆ entries (database b') /\ path_to_id (database b) ⊆ path_to_id (database b') /\
  (forall i e, entries (database b') !! i = Some e ->
     entries (database b) !! i = Some e \/ exists m, m ∈ l /\ sensor_of now m i e) /\
  match r with
  | Ok results' => forall n,
      (n ∈ map rm_name l -> is_Some (path_to_id (database b') !! n)) /\
      results' !! n = if bool_decide (n ∈ map rm_name l) then path_to_id (database b') !! n else results !! n
  | Err status => exists l1 m l2 results1, l = l1 ++ m :: l2 /\
      register_loop b permissions now l1 results = (Ok results1, b') /\
      register_loop b' permissions now [m] ∅ = (Err status, b')
  end.
Proof.
  revert b results. induction l as [|m l IH]; intros b results Hinv Hsize.
  { simpl. intros Hr. simplify_eq. split_and!; try done; [by left|].
    intros n. split; [by intros ?%not_elem_of_nil|done]. }
  rewrite register_one. destruct (register_loop b permissions now [m] ∅) as [r1 b1] eqn:E1.
  destruct (register_one_cases b permissions now m r1 b1) as (Hs1 & Hc1 & Hinv1 & Hr1);
    [done|simpl in Hsize; lia|done|].
  destruct r1 as [res1|status]; [|subst b1; intros Hr; simplify_eq].
  - destruct Hr1 as (i & -> & Hi & Hdb). intros Hr.
    assert (Z.of_nat (size (entries (database b))) < 4294967296) as Hlt by (simpl in Hsize; lia).
    destruct (register_one_grows _ _ _ _ _ _ Hinv Hlt E1) as (Hsize1 & Hsub & Hsubp & Hnew).
    assert (Z.of_nat (size (entries (database b1)) + length l) <= 4294967296) as Hle by (simpl in Hsize; lia).
    destruct (IH b1 _ Hinv1 Hle Hr) as ((Hs & Hc & Hinv') & Hsub' & Hsubp' & Hnew' & Hres).
    split_and!; [congruence|congruence|done|by etrans|by etrans| |].
    + intros j e [Hj | (m' & ? & ?)]%Hnew'; [apply Hnew in Hj as [?|?]; [by left|]; right; exists m|
        right; exists m']; split; auto; [by left|by right].
    + destruct r as [results'|status].
      * intros n. destruct (Hres n) as [Hsome ->]. cbn [map].
        rewrite (bool_decide_ext (n ∈ rm_name m :: map rm_name l) (n = rm_name m \/ n ∈ map rm_name l)) by apply elem_of_cons.
        assert (path_to_id (database b') !! rm_name m = Some i) as Hm by (by eapply lookup_weaken).
        split; [intros [->|?]%elem_of_cons; [by eexists|by apply Hsome]|].
        case_bool_decide; [by rewrite bool_decide_true by auto|].
        rewrite <- insert_union_singleton_l. destruct (decide (n = rm_name m)) as [->|].
        -- by rewrite lookup_insert_eq, bool_decide_true by auto.
        -- rewrite lookup_insert_ne, bool_decide_false by (done || intros [?|?]; done). done.
      * destruct Hres as (l1 & m' & l2 & res & -> & Hl1 & Hm'). exists (m :: l1), m', l2, res.
        split_and!; [done| |done]. by rewrite register_one, E1.
  - split_and!; try done; [by left|]. exists [], m, l, results. done.
Qed.

(** C27. [RegisterDatapoints] only adds: every entry there was stays as it was,
    every new entry is a sensor the message describes, and the subscriptions
    are untouched.  On success the reply gives for every listed name the id it
    is registered under, and for no other name.  On an error the names before
    the offending one are registered, and nothing else is. *)
Theorem register_datapoints_spec b permissions now l r b' :
  db_inv (database b) -> Z.of_nat (size (entries (database b)) + length l) <= 4294967296 ->
  register_datapoints b (Some permissions) now l = (r, b') ->
  subscriptions b' = subscriptions b /\ db_inv (database b') /\
  entries (database b) ⊆ entries (database b') /\
  (forall i e, entries (database b') !! i = Some e ->
     entries (database b) !! i = Some e \/ exists m, m ∈ l /\ sensor_of now m i e) /\
  match r with
  | Ok results => forall n, results !! n =
      if bool_decide (n ∈ map rm_name l) then path_to_id (database b') !! n else None
  | Err status => exists l1 m l2 results1, l = l1 ++ m :: l2 /\
      register_datapoints b (Some permissions) now l1 = (Ok results1, b') /\
      register_datapoints b' (Some permissions) now [m] = (Err status, b')
  end.
Proof.
  intros Hinv Hsize Hr.
  destruct (register_all b permissions now l ∅ r b' Hinv Hsize Hr) as ((-> & _ & Hinv') & Hsub & _ & Hnew & Hres).
  split_and!; [done..|]. destruct r as [results|status]; [|exact Hres]. intros n. by destruct (Hres n) as [_ ->].
Qed.
End Spec.

(** ** Witnesses *)

Section Witnesses.
#[local] Existing Instance glob_engine.
#[local] Existing Instance one_query_parser.
#[local] Existing Instance z_timestamps.

Definition sdv_broker : DataBroker := set_database (DataBroker_new "test") speed_db2.

Lemma sdv_broker_inv : db_inv (database sdv_broker).
Proof. apply update_preserves, speed_db_inv. Qed.

Lemma get_datapoints_spec_witness :
  exists reply, get_datapoints sdv_broker (Some ALLOW_ALL) 9 ["Vehicle.Speed"] = Ok reply /\
    reply !! "Vehicle.Gear" = None.
Proof.
  destruct (get_datapoints sdv_broker (Some ALLOW_ALL) 9 ["Vehicle.Speed"]) as [reply|] eqn:E.
  - exists reply. split; [reflexivity|].
    destruct (get_datapoints_spec sdv_broker ALLOW_ALL 9 ["Vehicle.Speed"] reply sdv_broker_inv E) as [_ Hr].
    rewrite Hr. reflexivity.
  - exfalso. discriminate E.
Defined.

Definition speed_200 : SdvDatapoint := {| sd_timestamp := None; sd_value := Some (SV_Int32 200) |}.

Lemma update_datapoints_spec_witness :
  exists errors, fst (update_datapoints sdv_broker (Some ALLOW_ALL) 9 {[ 0 := speed_200; 7 := speed_200 ]}) = Ok errors /\
    errors !! 0 = Some 4 /\ errors !! 7 = Some 0 /\ errors !! 3 = None.
Proof.
  destruct (update_datapoints sdv_broker (Some ALLOW_ALL) 9 {[ 0 := speed_200; 7 := speed_200 ]}) as [r b'] eqn:E.
  destruct (update_datapoints_spec _ _ _ _ _ _ E) as [(errors & -> & He) _].
  exists errors. split; [reflexivity|]. rewrite !He. split_and!; reflexivity.
Defined.

Lemma set_datapoints_spec_witness :
  exists errors, fst (set_datapoints sdv_broker (Some ALLOW_ALL) 9
      {[ "Vehicle.Speed" := speed_200; "Vehicle.Gear" := speed_200 ]}) = Returns (Ok errors) /\
    errors !! "Vehicle.Speed" = Some 4 /\ errors !! "Vehicle.Gear" = Some 0.
Proof.
  destruct (set_datapoints sdv_broker (Some ALLOW_ALL) 9
    {[ "Vehicle.Speed" := speed_200; "Vehicle.Gear" := speed_200 ]}) as [r b'] eqn:E.
  destruct (set_datapoints_spec _ _ _ _ _ _ sdv_broker_inv E) as [(errors & -> & He) _].
  exists errors. split; [reflexivity|]. rewrite !He. split_and!; reflexivity.
Defined.

Lemma stream_equals_calls_witness :
  st_running (snd (stream_datapoints sdv_broker (Some ALLOW_ALL) []
    [ST_Message 9 {[ 7 := speed_200 ]}; ST_End; ST_Message 10 {[ 0 := speed_200 ]}])) = false.
Proof.
  destruct (stream_datapoints sdv_broker (Some ALLOW_ALL) []
    [ST_Message 9 {[ 7 := speed_200 ]}; ST_End; ST_Message 10 {[ 0 := speed_200 ]}]) as [[c|st] s] eqn:E.
  - pose proof (stream_equals_calls _ _ _ _ _ _ E) as Hs.
    destruct (unary_calls _ _ _) as [b' rs]. exact (proj1 (proj2 Hs)).
  - discriminate E.
Defined.

Definition new_sensor (name : string) (dt : Z) : RegistrationMetadata :=
  {| rm_name := name; rm_data_type := dt; rm_description := ""; rm_change_type := 1 |}.

Lemma register_datapoints_spec_witness :
  subscriptions (snd (register_datapoints sdv_broker (Some ALLOW_ALL) 9
    [new_sensor "Vehicle.Gear" 2; new_sensor "Vehicle.Rpm" 12])) = subscriptions sdv_broker.
Proof.
  destruct (register_datapoints sdv_broker (Some ALLOW_ALL) 9
    [new_sensor "Vehicle.Gear" 2; new_sensor "Vehicle.Rpm" 12]) as [r b'] eqn:E.
  assert (Z.of_nat (size (entries (database sdv_broker)) + 2) <= 4294967296) as Hsize
    by (vm_compute; discriminate).
  exact (proj1 (register_datapoints_spec sdv_broker ALLOW_ALL 9
    [new_sensor "Vehicle.Gear" 2; new_sensor "Vehicle.Rpm" 12] r b' sdv_broker_inv Hsize E)).
Defined.
End Witnesses.
