(* ===== verification/Vss.v ===== *)
(** * Vss: reading VSS metadata

    src/kuksa_databroker/databroker/src/vss.rs: the tree of a VSS file is
    flattened into one entry per signal, with the values of the file converted
    to the declared type.  The crate [serde_json] is a parameter ([SerdeJson]):
    its values, the conversions [from_value::<T>] the source calls, and the
    reading of a whole file into the tree, whose types are derived
    ([#[derive(Deserialize)]]).  A hash map of the tree is the list of its pairs
    in the order it is iterated in, so theorems hold for every order. *)

From S2P Require Import Prelude Floats Types Glob Entry.
From stdpp Require Import sorting.

(** ** serde_json *)

(** [from_value] of each type; an error is its text. *)
Class SerdeJson := {
  JsonValue : Type;
  json_array : list JsonValue -> JsonValue;
  from_value_string : JsonValue -> result string string;
  from_value_bool : JsonValue -> result bool string;
  from_value_int : IntTy -> JsonValue -> result Z string;
  from_value_f32 : JsonValue -> result float string;
  from_value_f64 : JsonValue -> result float string;
  from_value_vec : forall {A}, (JsonValue -> result A string) -> JsonValue -> result (list A) string
}.

(** An integer that is read fits its type, and a vector is read element by
    element. *)
Class SerdeLaws `{SerdeJson} := {
  law_int_range : forall ty v z, from_value_int ty v = Ok z -> in_range ty z = true;
  law_vec_array : forall A (f : JsonValue -> result A string) l,
    from_value_vec f (json_array l) = collect f l;
  law_vec_elements : forall A (f : JsonValue -> result A string) v l,
    from_value_vec f v = Ok l -> forall a, a ∈ l -> exists j, f j = Ok a
}.

(** ** Data *)

Inductive VssEntryType := VET_Actuator | VET_Attribute | VET_Branch | VET_Sensor.

Inductive VssChangeType := VCT_Static | VCT_OnChange | VCT_Continuous.

Inductive VssDataType :=
| VDT_String | VDT_Boolean | VDT_Int8 | VDT_Int16 | VDT_Int32 | VDT_Int64
| VDT_Uint8 | VDT_Uint16 | VDT_Uint32 | VDT_Uint64 | VDT_Float | VDT_Double
| VDT_StringArray | VDT_BooleanArray | VDT_Int8Array | VDT_Int16Array | VDT_Int32Array | VDT_Int64Array
| VDT_Uint8Array | VDT_Uint16Array | VDT_Uint32Array | VDT_Uint64Array | VDT_FloatArray | VDT_DoubleArray.

#[export] Instance VssEntryType_eq_dec : EqDecision VssEntryType.
Proof. solve_decision. Defined.

Inductive VssError := ParseError (message : string).

(** [From<DataType> for types::DataType]. *)
Definition vss_data_type (from : VssDataType) : DataType :=
  match from with
  | VDT_String => DT_String
  | VDT_Boolean => DT_Bool
  | VDT_Int8 => DT_Int8
  | VDT_Int16 => DT_Int16
  | VDT_Int32 => DT_Int32
  | VDT_Int64 => DT_Int64
  | VDT_Uint8 => DT_Uint8
  | VDT_Uint16 => DT_Uint16
  | VDT_Uint32 => DT_Uint32
  | VDT_Uint64 => DT_Uint64
  | VDT_Float => DT_Float
  | VDT_Double => DT_Double
  | VDT_StringArray => DT_StringArray
  | VDT_BooleanArray => DT_BoolArray
  | VDT_Int8Array => DT_Int8Array
  | VDT_Int16Array => DT_Int16Array
  | VDT_Int32Array => DT_Int32Array
  | VDT_Int64Array => DT_Int64Array
  | VDT_Uint8Array => DT_Uint8Array
  | VDT_Uint16Array => DT_Uint16Array
  | VDT_Uint32Array => DT_Uint32Array
  | VDT_Uint64Array => DT_Uint64Array
  | VDT_FloatArray => DT_FloatArray
  | VDT_DoubleArray => DT_DoubleArray
  end.

Section Vss.
Context `{SerdeJson}.

(** [struct Entry], a node of the tree.  Its induction principle, over the
    children, is [VssEntry_children_ind]. *)
#[local] Unset Elimination Schemes.
Inductive VssEntry := Build_VssEntry {
  ve_entry_type : VssEntryType;
  ve_description : string;
  ve_comment : option string;
  ve_children : option (list (string * VssEntry));
  ve_data_type : option VssDataType;
  ve_unit : option string;
  ve_min : option JsonValue;
  ve_max : option JsonValue;
  ve_allowed : option (list JsonValue);
  ve_change_type : option VssChangeType;
  ve_default : option JsonValue
}.
#[local] Set Elimination Schemes.

Lemma VssEntry_children_ind (P : VssEntry -> Prop) :
  (forall e, (forall l name c, ve_children e = Some l -> (name, c) ∈ l -> P c) -> P e) ->
  forall e, P e.
Proof.
  intros Hstep. fix IH 1. intros [a b c ch d f g h i j k]. apply Hstep. simpl.
  assert (match ch with Some l => Forall (fun nc => P (snd nc)) l | None => True end) as Hall.
  { destruct ch as [l|]; [|exact I]. induction l as [|[n c'] l IHl]; constructor; [apply IH|exact IHl]. }
  intros l name e -> Hin. rewrite Forall_forall in Hall. apply (Hall (name, e) Hin).
Qed.

(** [struct DataEntry], a signal. *)
Record VssDataEntry := {
  vd_data_type : DataType;
  vd_entry_type : EntryType;
  vd_change_type : ChangeType;
  vd_description : string;
  vd_comment : option string;
  vd_unit : option string;
  vd_min : option DataValue;
  vd_max : option DataValue;
  vd_allowed : option DataValue;
  vd_default : option DataValue
}.

(** ** Values *)

(** [try_from_json_value]. *)
Definition try_from_json_value (value : option JsonValue) (data_type : DataType)
  : result (option DataValue) VssError :=
  match value with
  | Some value =>
      map_err ParseError
        match data_type with
        | DT_String => result_map (fun value => Some (DV_String value)) (from_value_string value)
        | DT_Bool => result_map (fun value => Some (DV_Bool value)) (from_value_bool value)
        | DT_Int8 => result_map (fun value => Some (DV_Int32 value)) (from_value_int i8 value)
        | DT_Int16 => result_map (fun value => Some (DV_Int32 value)) (from_value_int i16 value)
        | DT_Int32 => result_map (fun value => Some (DV_Int32 value)) (from_value_int i32 value)
        | DT_Int64 => result_map (fun value => Some (DV_Int64 value)) (from_value_int i64 value)
        | DT_Uint8 => result_map (fun value => Some (DV_Uint32 value)) (from_value_int u8 value)
        | DT_Uint16 => result_map (fun value => Some (DV_Uint32 value)) (from_value_int u16 value)
        | DT_Uint32 => result_map (fun value => Some (DV_Uint32 value)) (from_value_int u32 value)
        | DT_Uint64 => result_map (fun value => Some (DV_Uint64 value)) (from_value_int u64 value)
        | DT_Float => result_map (fun value => Some (DV_Float value)) (from_value_f32 value)
        | DT_Double => result_map (fun value => Some (DV_Double value)) (from_value_f64 value)
        | DT_StringArray =>
            result_map (fun array => Some (DV_StringArray array)) (from_value_vec from_value_string value)
        | DT_BoolArray =>
            result_map (fun array => Some (DV_BoolArray array)) (from_value_vec from_value_bool value)
        | DT_Int8Array =>
            result_map (fun array => Some (DV_Int32Array array)) (from_value_vec (from_value_int i8) value)
        | DT_Int16Array =>
            result_map (fun array => Some (DV_Int32Array array)) (from_value_vec (from_value_int i16) value)
        | DT_Int32Array =>
            result_map (fun array => Some (DV_Int32Array array)) (from_value_vec (from_value_int i32) value)
        | DT_Int64Array =>
            result_map (fun array => Some (DV_Int64Array array)) (from_value_vec (from_value_int i64) value)
        | DT_Uint8Array =>
            result_map (fun array => Some (DV_Uint32Array array)) (from_value_vec (from_value_int u8) value)
        | DT_Uint16Array =>
            result_map (fun array => Some (DV_Uint32Array array)) (from_value_vec (from_value_int u16) value)
        | DT_Uint32Array =>
            result_map (fun array => Some (DV_Uint32Array array)) (from_value_vec (from_value_int u32) value)
        | DT_Uint64Array =>
            result_map (fun array => Some (DV_Uint64Array array)) (from_value_vec (from_value_int u64) value)
        | DT_FloatArray =>
            result_map (fun array => Some (DV_FloatArray array)) (from_value_vec from_value_f32 value)
        | DT_DoubleArray =>
            result_map (fun array => Some (DV_DoubleArray array)) (from_value_vec from_value_f64 value)
        end
  | None => Ok None
  end.

(** [try_from_json_array]. *)
Definition try_from_json_array (array : option (list JsonValue)) (data_type : DataType)
  : result (option DataValue) VssError :=
  match array with
  | Some array =>
      let value := Some (json_array array) in
      match data_type with
      | DT_String => try_from_json_value value DT_StringArray
      | DT_Bool => try_from_json_value value DT_BoolArray
      | DT_Int8 => try_from_json_value value DT_Int8Array
      | DT_Int16 => try_from_json_value value DT_Int16Array
      | DT_Int32 => try_from_json_value value DT_Int32Array
      | DT_Int64 => try_from_json_value value DT_Int64Array
      | DT_Uint8 => try_from_json_value value DT_Uint8Array
      | DT_Uint16 => try_from_json_value value DT_Uint16Array
      | DT_Uint32 => try_from_json_value value DT_Uint32Array
      | DT_Uint64 => try_from_json_value value DT_Uint64Array
      | DT_Float => try_from_json_value value DT_FloatArray
      | DT_Double => try_from_json_value value DT_DoubleArray
      | DT_StringArray | DT_BoolArray | DT_Int8Array | DT_Int16Array | DT_Int32Array | DT_Int64Array
      | DT_Uint8Array | DT_Uint16Array | DT_Uint32Array | DT_Uint64Array | DT_FloatArray
      | DT_DoubleArray => try_from_json_value value data_type
      end
  | None => Ok None
  end.

(** [determine_change_type]. *)
Definition determine_change_type (change_type : option VssChangeType) (entry_type : EntryType) : ChangeType :=
  match change_type with
  | Some ct =>
      match ct with
      | VCT_Continuous => CT_Continuous
      | VCT_OnChange => CT_OnChange
      | VCT_Static => CT_Static
      end
  | None =>
      match entry_type with
      | ET_Attribute => CT_Static
      | _ => CT_Continuous
      end
  end.

(** ** The tree *)

(** The cases of [add_entry] for a signal: the entry inserted at its path.  The
    default is read for attributes only. *)
Definition data_entry (entry : VssEntry) (entry_type : EntryType) : result VssDataEntry VssError :=
  match ve_data_type entry with
  | Some data_type =>
      let data_type := vss_data_type data_type in
      let? min := try_from_json_value (ve_min entry) data_type in
      let? max := try_from_json_value (ve_max entry) data_type in
      let? allowed := try_from_json_array (ve_allowed entry) data_type in
      let? default :=
        match entry_type with
        | ET_Attribute => try_from_json_value (ve_default entry) data_type
        | _ => Ok None
        end in
      Ok {| vd_data_type := data_type; vd_entry_type := entry_type;
            vd_change_type := determine_change_type (ve_change_type entry) entry_type;
            vd_description := ve_description entry; vd_comment := ve_comment entry;
            vd_unit := ve_unit entry; vd_min := min; vd_max := max; vd_allowed := allowed;
            vd_default := default |}
  | None => Err (ParseError "data_type required for actuator")
  end.

(** [add_entry]. *)
Fixpoint vss_add_entry (entries : gmap string VssDataEntry) (p : string) (entry : VssEntry) {struct entry}
  : result (gmap string VssDataEntry) VssError :=
  let insert entry_type :=
    let? d := data_entry entry entry_type in Ok (<[p := d]> entries) in
  match ve_entry_type entry with
  | VET_Branch =>
      match ve_children entry with
      | Some children =>
          (fix add_children (entries : gmap string VssDataEntry) (children : list (string * VssEntry)) :=
             match children with
             | [] => Ok entries
             | (name, child) :: children =>
                 let? entries := vss_add_entry entries (p +:+ "." +:+ name) child in
                 add_children entries children
             end) entries children
      | None => Err (ParseError "children required for type branch")
      end
  | VET_Actuator => insert ET_Actuator
  | VET_Attribute => insert ET_Attribute
  | VET_Sensor => insert ET_Sensor
  end.

(** The loop of [flatten_vss_tree] over the pairs of the root. *)
Fixpoint flatten_loop (entries : gmap string VssDataEntry) (root : list (string * VssEntry))
  : result (gmap string VssDataEntry) VssError :=
  match root with
  | [] => Ok entries
  | (p, entry) :: root =>
      let? entries := vss_add_entry entries p entry in
      flatten_loop entries root
  end.

(** [flatten_vss_tree]. *)
Definition flatten_vss_tree (root : list (string * VssEntry)) : result (gmap string VssDataEntry) VssError :=
  flatten_loop ∅ root.

(** [parse_vss_from_reader] and [parse_vss_from_str]: [read] is what
    [serde_json] makes of the file, or its error. *)
Definition parse_vss (read : result (list (string * VssEntry)) string)
  : result (gmap string VssDataEntry) VssError :=
  match read with
  | Ok root_entry => flatten_vss_tree root_entry
  | Err err => Err (ParseError err)
  end.

(** Iteration over a [BTreeMap]: by key, in the order of the bytes. *)
Definition key_le (x y : string * VssDataEntry) : Prop := String.leb (fst x) (fst y) = true.
#[export] Instance key_le_dec x y : Decision (key_le x y).
Proof. unfold key_le. apply _. Defined.

Definition btree_entries (m : gmap string VssDataEntry) : list (string * VssDataEntry) :=
  merge_sort key_le (map_to_list m).
End Vss.
