(* ===== verification/VssSpec.v ===== *)
(** * VssSpec: what reading a VSS file gives

    The signals of the tree as a relation, the flattening of [Vss] against it,
    and the types of the values that are read. *)

From S2P Require Import Prelude Floats Types Regex Glob Entry Vss.

(** Splitting a concatenation around the separator. *)
Lemma split_on_cat c s t : split_on c (s +:+ String c t) = split_on c s ++ split_on c t.
Proof.
  induction s as [|x s IH]; simpl; [by rewrite Ascii.eqb_refl|].
  rewrite IH. destruct (Ascii.eqb x c); [done|].
  pose proof (split_on_not_nil c s) as Hne. by destruct (split_on c s).
Qed.

Definition dot_free (s : string) : Prop := all_chars (fun c => negb (is_char "."%char c)) s.

Section Spec.
Context `{SerdeLaws}.

(** ** Values have the declared type *)

Lemma from_value_int_bounds ty v z : from_value_int ty v = Ok z -> int_min ty <= z <= int_max ty.
Proof. intros Hv%law_int_range. by apply in_range_spec. Qed.

Lemma from_value_ints_bounds ty v l :
  from_value_vec (from_value_int ty) v = Ok l -> Forall (fun z => int_min ty <= z <= int_max ty) l.
Proof.
  intros Hl. apply Forall_forall. intros z Hz.
  destruct (law_vec_elements _ _ _ _ Hl z Hz) as [j Hj]. by eapply from_value_int_bounds.
Qed.

Lemma result_map_Ok {A B E} (f : A -> B) (r : result A E) b :
  result_map f r = Ok b <-> exists a, r = Ok a /\ b = f a.
Proof. destruct r; simpl; split; [intros ?; simplify_eq; eauto|by intros (a' & ? & ->); simplify_eq|done|by intros (? & ? & _)]. Qed.

Lemma map_err_Ok {A E F} (f : E -> F) (r : result A E) a : map_err f r = Ok a <-> r = Ok a.
Proof. destruct r; simpl; split; intros ?; by simplify_eq. Qed.

#[local] Hint Constructors has_type : core.
#[local] Hint Resolve from_value_int_bounds from_value_ints_bounds : core.

Lemma json_value_typed value dt v : try_from_json_value value dt = Ok (Some v) -> has_type dt v.
Proof.
  destruct value as [j|]; [|done]. simpl. rewrite map_err_Ok.
  destruct dt; intros (x & Hx & Hv)%result_map_Ok; injection Hv as ->; eauto.
Qed.

(** The array type whose elements are of a scalar type. *)
Definition array_of (dt : DataType) : DataType :=
  match dt with
  | DT_String => DT_StringArray | DT_Bool => DT_BoolArray
  | DT_Int8 => DT_Int8Array | DT_Int16 => DT_Int16Array | DT_Int32 => DT_Int32Array
  | DT_Int64 => DT_Int64Array | DT_Uint8 => DT_Uint8Array | DT_Uint16 => DT_Uint16Array
  | DT_Uint32 => DT_Uint32Array | DT_Uint64 => DT_Uint64Array | DT_Float => DT_FloatArray
  | DT_Double => DT_DoubleArray
  | array => array
  end.

Lemma json_array_typed array dt v : try_from_json_array array dt = Ok (Some v) -> has_type (array_of dt) v.
Proof. destruct array as [l|]; [|done]. destruct dt; apply json_value_typed. Qed.

Lemma let_Ok {A B E} (r : result A E) (f : A -> result B E) b :
  (let? a := r in f a) = Ok b <-> exists a, r = Ok a /\ f a = Ok b.
Proof. destruct r; split; [eauto|by intros (a' & ? & ?); simplify_eq|done|by intros (? & ? & _)]. Qed.

(** The parts of a signal that was read. *)
Lemma data_entry_Ok e et d :
  data_entry e et = Ok d ->
  exists dt, ve_data_type e = Some dt /\ vd_data_type d = vss_data_type dt /\ vd_entry_type d = et /\
    vd_change_type d = determine_change_type (ve_change_type e) et /\
    vd_description d = ve_description e /\ vd_comment d = ve_comment e /\ vd_unit d = ve_unit e /\
    try_from_json_value (ve_min e) (vd_data_type d) = Ok (vd_min d) /\
    try_from_json_value (ve_max e) (vd_data_type d) = Ok (vd_max d) /\
    try_from_json_array (ve_allowed e) (vd_data_type d) = Ok (vd_allowed d) /\
    (if bool_decide (et = ET_Attribute) then try_from_json_value (ve_default e) (vd_data_type d) else Ok None)
      = Ok (vd_default d).
Proof.
  unfold data_entry. destruct (ve_data_type e) as [dt|]; [|done].
  intros (mn & Hmn & (mx & Hmx & (al & Hal & (df & Hdf & Hd)%let_Ok)%let_Ok)%let_Ok)%let_Ok.
  injection Hd as <-. exists dt. simpl. split_and!; try done. by destruct et.
Qed.

(** C32. Every value read from a VSS file has the type its signal declares:
    default, minimum and maximum are of that type, the narrow integers within
    its bounds although they are kept in 32 bits, and the allowed values are a
    list of it.  A default is only read for attributes. *)
Theorem data_entry_typed e et d :
  data_entry e et = Ok d ->
  (forall v, v ∈ [vd_default d; vd_min d; vd_max d] -> forall x, v = Some x -> has_type (vd_data_type d) x) /\
  (forall a, vd_allowed d = Some a -> has_type (array_of (vd_data_type d)) a) /\
  (et <> ET_Attribute -> vd_default d = None).
Proof.
  intros (dt & _ & _ & _ & _ & _ & _ & _ & Hmin & Hmax & Hal & Hdef)%data_entry_Ok. split_and!.
  - intros v Hv x ->. rewrite !elem_of_cons in Hv. destruct Hv as [Hx|[Hx|[Hx|?%not_elem_of_nil]]]; [|..|done].
    + rewrite <- Hx in Hdef. case_bool_decide; [by eapply json_value_typed|done].
    + rewrite <- Hx in Hmin. by eapply json_value_typed.
    + rewrite <- Hx in Hmax. by eapply json_value_typed.
  - intros a Ha. rewrite Ha in Hal. by eapply json_array_typed.
  - intros Het. rewrite bool_decide_false in Hdef by done. congruence.
Qed.

(** ** The tree as a relation *)

(** The signal at a path below a node. *)
Inductive signal_at : string -> VssEntry -> string -> VssEntry -> Prop :=
| signal_here p e : ve_entry_type e <> VET_Branch -> signal_at p e p e
| signal_below p e l name c q leaf :
    ve_entry_type e = VET_Branch -> ve_children e = Some l -> (name, c) ∈ l ->
    signal_at (p +:+ "." +:+ name) c q leaf -> signal_at p e q leaf.

Definition signal_of (root : list (string * VssEntry)) (q : string) (leaf : VssEntry) : Prop :=
  exists p e, (p, e) ∈ root /\ signal_at p e q leaf.

(** The nodes the flattening visits. *)
Inductive node_of : VssEntry -> VssEntry -> Prop :=
| node_here e : node_of e e
| node_below e l name c n :
    ve_entry_type e = VET_Branch -> ve_children e = Some l -> (name, c) ∈ l -> node_of c n -> node_of e n.

(** Reading one node: the entry of a signal, or its error. *)
Definition read_signal (e : VssEntry) : result VssDataEntry VssError :=
  match ve_entry_type e with
  | VET_Actuator => data_entry e ET_Actuator
  | VET_Attribute => data_entry e ET_Attribute
  | VET_Sensor => data_entry e ET_Sensor
  | VET_Branch => Err (ParseError "children required for type branch")
  end.

Definition bad_node (e : VssEntry) (err : VssError) : Prop :=
  read_signal e = Err err /\ (ve_entry_type e = VET_Branch -> ve_children e = None).

(** The keys of an object are distinct and contain no dot, at every level. *)
Definition keys_ok (l : list (string * VssEntry)) : Prop :=
  NoDup (map fst l) /\ Forall (fun nc => dot_free (fst nc)) l.

Definition tree_ok (e : VssEntry) : Prop :=
  forall n l, node_of e n -> ve_children n = Some l -> keys_ok l.

Lemma tree_ok_below e l name c :
  tree_ok e -> ve_entry_type e = VET_Branch -> ve_children e = Some l -> (name, c) ∈ l -> tree_ok c.
Proof. intros He Hb Hl Hin n k Hn. apply He. by eapply node_below. Qed.

(** The path of a signal extends the path of the node by names. *)
Lemma signal_at_split p e q leaf :
  tree_ok e -> signal_at p e q leaf -> exists names, split_on "."%char q = split_on "."%char p ++ names.
Proof.
  intros Hok Hs. induction Hs as [p e|p e l name c q leaf Hb Hl Hin Hs IH]; [exists []; by rewrite app_nil_r|].
  destruct IH as [names ->]; [by eapply tree_ok_below|].
  change (p +:+ "." +:+ name) with (p +:+ String "."%char name).
  rewrite split_on_cat, <- app_assoc. eauto.
Qed.

(** ** The flattening *)

(** What adding a set of signals to the entries does, or why it fails. *)
Definition adds (sig : string -> VssEntry -> Prop) (node : VssEntry -> Prop)
  (entries : gmap string VssDataEntry) (r : result (gmap string VssDataEntry) VssError) : Prop :=
  match r with
  | Ok m =>
      (forall q, (forall leaf, ~ sig q leaf) -> m !! q = entries !! q) /\
      (forall q d, m !! q = Some d -> entries !! q = Some d \/ exists leaf, sig q leaf) /\
      (forall q leaf, sig q leaf -> exists d, read_signal leaf = Ok d /\ m !! q = Some d) /\
      (forall n err, node n -> ~ bad_node n err)
  | Err err => exists n, node n /\ bad_node n err
  end.

(** The loop over the pairs of an object, for the paths [f name]. *)
Fixpoint add_all (f : string -> string) (entries : gmap string VssDataEntry) (l : list (string * VssEntry))
  : result (gmap string VssDataEntry) VssError :=
  match l with
  | [] => Ok entries
  | (name, child) :: l =>
      let? entries := vss_add_entry entries (f name) child in
      add_all f entries l
  end.

Lemma add_entry_branch entries p e l :
  ve_entry_type e = VET_Branch -> ve_children e = Some l ->
  vss_add_entry entries p e = add_all (fun name => p +:+ "." +:+ name) entries l.
Proof.
  destruct e as [et ? ? ch ? ? ? ? ? ? ?]. simpl. intros -> ->. revert entries.
  induction l as [|[name c] l IH]; intros entries; [done|]. simpl.
  destruct (vss_add_entry entries _ c); [apply IH|done].
Qed.

Lemma add_entry_signal entries p e :
  (ve_entry_type e = VET_Branch -> ve_children e = None) ->
  vss_add_entry entries p e = let? d := read_signal e in Ok (<[p := d]> entries).
Proof. destruct e as [et ? ? ch ? ? ? ? ? ? ?]. unfold read_signal. simpl. destruct et; try done. by intros ->. Qed.

Lemma flatten_add_all entries root : flatten_loop entries root = add_all (fun name => name) entries root.
Proof. revert entries. induction root as [|[p e] root IH]; intros entries; simpl; [done|]. by destruct (vss_add_entry _ _ _). Qed.

(** An object: the paths start with [prefix] and continue with the key. *)
Lemma add_all_adds f prefix entries l :
  (forall name, dot_free name -> split_on "."%char (f name) = prefix ++ [name]) ->
  keys_ok l -> (forall name c, (name, c) ∈ l -> tree_ok c) ->
  (forall name c, (name, c) ∈ l -> forall entries p, tree_ok c ->
     adds (signal_at p c) (node_of c) entries (vss_add_entry entries p c)) ->
  adds (fun q leaf => exists name c, (name, c) ∈ l /\ signal_at (f name) c q leaf)
       (fun n => exists name c, (name, c) ∈ l /\ node_of c n) entries (add_all f entries l).
Proof.
  intros Hf. revert entries. induction l as [|[name c] l IH]; intros entries [Hnd Hdot] Hok Hadd; simpl.
  { split_and!; [done|by left|by intros q leaf (? & ? & ?%not_elem_of_nil & _)|by intros n err (? & ? & ?%not_elem_of_nil & _)]. }
  apply NoDup_cons in Hnd as [Hname Hnd]. apply Forall_cons in Hdot as [Hdn Hdl]. simpl in *.
  pose proof (Hadd name c (list_elem_of_here _ _) entries (f name) (Hok name c (list_elem_of_here _ _))) as Hc.
  destruct (vss_add_entry entries (f name) c) as [m1|err]; simpl in Hc.
  2: { destruct Hc as (n & Hn & Hb). exists n. split; [|done]. exists name, c. split; [by left|done]. }
  assert (forall q leaf1 leaf2, signal_at (f name) c q leaf1 ->
    (exists name' c', (name', c') ∈ l /\ signal_at (f name') c' q leaf2) -> False) as Hdisj.
  { intros q leaf1 leaf2 Hs1 (name' & c' & Hin & Hs2).
    apply signal_at_split in Hs1 as [ns1 Hq1]; [|by apply (Hok name); left].
    apply signal_at_split in Hs2 as [ns2 Hq2]; [|by apply (Hok name'); right].
    rewrite Forall_forall in Hdl. rewrite (Hf name Hdn) in Hq1. rewrite (Hf name' (Hdl (name', c') Hin)) in Hq2.
    rewrite Hq1, <- !app_assoc in Hq2. apply app_inv_head in Hq2. simplify_eq/=.
    by apply Hname, (elem_of_map_fst _ c'). }
  destruct Hc as (Hout & Hsrc & Hin & Hbad).
  assert (keys_ok l) as Hkl by done.
  specialize (IH m1 Hkl (fun n e He => Hok n e (list_elem_of_further _ _ _ He))
    (fun n e He => Hadd n e (list_elem_of_further _ _ _ He))).
  destruct (add_all f m1 l) as [m|err]; simpl in IH.
  - destruct IH as (Hout' & Hsrc' & Hin' & Hbad'). split_and!.
    + intros q Hq. rewrite Hout'; [apply Hout|]; intros leaf Hs; apply (Hq leaf).
      * exists name, c. split; [by left|done].
      * destruct Hs as (n & e & ? & ?). exists n, e. split; [by right|done].
    + intros q d [Hm|(leaf & n & e & ? & ?)]%Hsrc'; [apply Hsrc in Hm as [?|[leaf ?]]; [by left|right]|right].
      * exists leaf, name, c. split; [by left|done].
      * exists leaf, n, e. split; [by right|done].
    + intros q leaf (n & e & [Heq|He]%elem_of_cons & Hs); [simplify_eq|apply Hin'; eauto].
      destruct (Hin q leaf Hs) as (d & Hd & Hm). exists d. split; [done|]. rewrite Hout'; [done|].
      intros leaf' Hl. by eapply Hdisj.
    + intros n err (n0 & e & [Heq|He]%elem_of_cons & Hn); [simplify_eq; by apply Hbad|apply Hbad'; eauto].
  - destruct IH as (n & (n0 & e & ? & ?) & Hb). exists n. split; [|done]. exists n0, e. split; [by right|done].
Qed.

Lemma adds_iff sig sig' node node' entries r :
  (forall q leaf, sig q leaf <-> sig' q leaf) ->
  (forall n err, bad_node n err -> node n <-> node' n) ->
  adds sig node entries r -> adds sig' node' entries r.
Proof.
  intros Hs Hn. destruct r as [m|err]; simpl.
  - intros (Hout & Hsrc & Hin & Hbad). split_and!.
    + intros q Hq. apply Hout. intros leaf Hl. by apply (Hq leaf), Hs.
    + intros q d [?|[leaf ?]]%Hsrc; [by left|]. right. exists leaf. by apply Hs.
    + intros q leaf Hl. by apply Hin, Hs.
    + intros n err Hn' Hb. apply (Hbad n err); [|done]. by apply (Hn n err).
  - intros (n & Hn' & Hb). exists n. split; [|done]. by apply (Hn n err).
Qed.

Lemma signal_entry_adds e entries p :
  (ve_entry_type e = VET_Branch -> ve_children e = None) ->
  adds (signal_at p e) (node_of e) entries (vss_add_entry entries p e).
Proof.
  intros Hb. rewrite add_entry_signal by done.
  assert (forall n, node_of e n -> n = e) as Hnode.
  { intros n Hn. destruct Hn as [|e l name c n Ht Hl]; [done|]. rewrite Hb in Hl by done. done. }
  destruct (read_signal e) as [d|err] eqn:Hr; simpl; [|exists e; split; [constructor|done]].
  assert (ve_entry_type e <> VET_Branch) as Hne by (intros Ht; unfold read_signal in Hr; by rewrite Ht in Hr).
  split_and!.
  - intros q Hq. apply lookup_insert_ne. intros ->. by apply (Hq e), signal_here.
  - intros q d' [[<- _] | [_ ?]]%lookup_insert_Some; [right; exists e; by constructor|by left].
  - intros q leaf Hs. destruct Hs as [p e|]; [|done]. exists d. by rewrite lookup_insert_eq.
  - intros n err Hn [Hbad _]. apply Hnode in Hn as ->. congruence.
Qed.

Lemma add_entry_adds e entries p : tree_ok e -> adds (signal_at p e) (node_of e) entries (vss_add_entry entries p e).
Proof.
  revert entries p. induction e as [e IH] using VssEntry_children_ind. intros entries p Hok.
  destruct (decide (ve_entry_type e = VET_Branch)) as [Het|Het]; [|by apply signal_entry_adds].
  destruct (ve_children e) as [l|] eqn:Hl; [|by apply signal_entry_adds].
  rewrite (add_entry_branch _ _ _ l) by done.
  eapply adds_iff; [| |apply (add_all_adds _ (split_on "."%char p))].
  - intros q leaf. split.
    + intros (name & c & Hin & Hs). by eapply signal_below.
    + intros Hs. destruct Hs as [|p e l' name c q leaf _ Hl' Hin Hs]; [done|]. simplify_eq. eauto.
  - intros n err [_ Hb]. split.
    + intros (name & c & Hin & Hn). by eapply node_below.
    + intros Hn. destruct Hn as [e|e l' name c n _ Hl' Hin Hn]; [rewrite Hb in Hl; done|]. simplify_eq. eauto.
  - intros name Hn. change (p +:+ "." +:+ name) with (p +:+ String "."%char name).
    rewrite split_on_cat. by rewrite (split_on_free _ name).
  - by apply (Hok e); [constructor|].
  - intros name c Hin. by eapply tree_ok_below.
  - intros name c Hin. by eapply IH.
Qed.

(** C19. Flattening the tree is exact, for keys that are distinct within an
    object and contain no dot.  On success every node was readable, and the
    result has one entry for each signal of the tree, at the path of names
    leading to it, read from that signal's node, and nothing else; so the
    result does not depend on the order in which the maps of the tree are
    iterated.  Otherwise the error is that of some node: a branch without
    children, or a signal without data type or with a value that does not fit
    it. *)
Theorem flatten_exact root :
  keys_ok root -> (forall p e, (p, e) ∈ root -> tree_ok e) ->
  match flatten_vss_tree root with
  | Ok m =>
      (forall q d, m !! q = Some d <-> exists leaf, signal_of root q leaf /\ read_signal leaf = Ok d) /\
      (forall q leaf, signal_of root q leaf -> is_Some (m !! q)) /\
      (forall p e n err, (p, e) ∈ root -> node_of e n -> ~ bad_node n err)
  | Err err => exists p e n, (p, e) ∈ root /\ node_of e n /\ bad_node n err
  end.
Proof.
  intros Hkeys Hok. unfold flatten_vss_tree. rewrite flatten_add_all.
  pose proof (add_all_adds (fun name => name) [] ∅ root) as Ha.
  destruct (add_all _ ∅ root) as [m|err]; simpl in Ha.
  - destruct Ha as (_ & Hsrc & Hin & Hbad); [intros name Hn; by rewrite split_on_free|done..| |].
    { intros name c _ entries p. apply add_entry_adds. }
    split_and!.
    + intros q d. split.
      * intros Hm. destruct (Hsrc q d Hm) as [?|[leaf Hs]]; [done|]. exists leaf. split; [done|].
        destruct (Hin q leaf Hs) as (d' & Hd' & Hm'). congruence.
      * intros (leaf & Hs & Hd). destruct (Hin q leaf Hs) as (d' & Hd' & ->). congruence.
    + intros q leaf Hs. destruct (Hin q leaf Hs) as (d & _ & ->). done.
    + intros p e n err Hpe Hn. apply Hbad. eauto.
  - destruct Ha as (n & (p & e & ? & ?) & ?); [intros name Hn; by rewrite split_on_free|done..| |exists p, e, n; done].
    intros name c _ entries p. apply add_entry_adds.
Qed.
End Spec.

(** ** A small instance of serde_json *)

#[local] Unset Elimination Schemes.
Inductive Json := J_Null | J_Bool (b : bool) | J_Int (z : Z) | J_String (s : string) | J_Array (l : list Json).
#[local] Set Elimination Schemes.

Definition json_vec {A} (f : Json -> result A string) (v : Json) : result (list A) string :=
  match v with J_Array l => collect f l | _ => Err "invalid type" end.

Definition small_json : SerdeJson :=
  {| JsonValue := Json; json_array := J_Array;
     from_value_string := fun v => match v with J_String s => Ok s | _ => Err "invalid type" end;
     from_value_bool := fun v => match v with J_Bool b => Ok b | _ => Err "invalid type" end;
     from_value_int := fun ty v => match v with
       | J_Int z => if in_range ty z then Ok z else Err "invalid value" | _ => Err "invalid type" end;
     from_value_f32 := fun _ => Err "invalid type"; from_value_f64 := fun _ => Err "invalid type";
     from_value_vec := fun A f v => json_vec f v |}.

Lemma small_json_laws : @SerdeLaws small_json.
Proof.
  constructor; simpl.
  - intros ty v z. destruct v; try done. destruct (in_range ty z0) eqn:E; [|done]. by intros [= <-].
  - done.
  - intros A f v l Hl a Ha. destruct v; try done. apply collect_Ok in Hl.
    apply list_elem_of_lookup in Ha as [i Hi].
    destruct (Forall2_lookup_r _ _ _ _ _ Hl Hi) as (j & _ & Hj). eauto.
Qed.

Section Witnesses.
#[local] Existing Instance small_json.

Definition leaf_node (et : VssEntryType) (dt : VssDataType) (default : option Json) (allowed : option (list Json))
  : VssEntry :=
  Build_VssEntry et "a signal" None None (Some dt) None None None allowed None default.

Definition branch_node (children : list (string * VssEntry)) : VssEntry :=
  Build_VssEntry VET_Branch "a branch" None (Some children) None None None None None None None.

Definition small_vss : list (string * VssEntry) :=
  [("Vehicle", branch_node
     [("Speed", leaf_node VET_Sensor VDT_Uint8 (Some (J_Int 7)) None);
      ("Name", leaf_node VET_Attribute VDT_String (Some (J_String "car")) None)])].

Lemma data_entry_typed_witness :
  match data_entry (leaf_node VET_Attribute VDT_Uint8 (Some (J_Int 200)) None) ET_Attribute with
  | Ok d => vd_default d = Some (DV_Uint32 200) /\ has_type DT_Uint8 (DV_Uint32 200)
  | Err _ => False
  end.
Proof.
  destruct (data_entry _ _) as [d|] eqn:E; [|vm_compute in E; discriminate E].
  pose proof (@data_entry_typed small_json small_json_laws _ _ _ E) as [Hv _].
  vm_compute in E. injection E as <-. split; [reflexivity|].
  apply (Hv _ (list_elem_of_here _ _) _ eq_refl).
Defined.

Lemma small_vss_ok : forall p e, (p, e) ∈ small_vss -> tree_ok e.
Proof.
  intros p e Hin n l Hn Hl. apply list_elem_of_singleton in Hin as [= -> ->].
  assert (forall c, ve_children c = None -> node_of c n -> n = c) as Hleaf.
  { intros c Hc Hcn. destruct Hcn as [|? ? ? ? ? _ Hc']; [done|congruence]. }
  inversion Hn as [|? l' name c ? _ Hl' Hin Hcn]; subst.
  - simpl in Hl. injection Hl as <-. split; [by apply (bool_decide_unpack _)|].
    repeat constructor.
  - simpl in Hl'. injection Hl' as <-. rewrite !elem_of_cons in Hin.
    destruct Hin as [[= -> ->]|[[= -> ->]|?%not_elem_of_nil]]; [..|done];
      apply Hleaf in Hcn as ->; done.
Qed.

Lemma flatten_exact_witness :
  exists d, result_map (fun m => m !! "Vehicle.Name") (flatten_vss_tree small_vss) = Ok (Some d) /\
    vd_default d = Some (DV_String "car").
Proof.
  assert (keys_ok small_vss) as Hk.
  { split; [by apply (bool_decide_unpack _)|]. repeat constructor. }
  pose proof (@flatten_exact small_json small_vss Hk small_vss_ok) as Hf.
  destruct (flatten_vss_tree small_vss) as [m|] eqn:E; [|vm_compute in E; discriminate E].
  destruct (data_entry (leaf_node VET_Attribute VDT_String (Some (J_String "car")) None) ET_Attribute) as [d|] eqn:Ed;
    [|vm_compute in Ed; discriminate Ed].
  exists d. split; [|vm_compute in Ed; injection Ed as <-; reflexivity].
  simpl. f_equal. apply (proj1 Hf).
  exists (leaf_node VET_Attribute VDT_String (Some (J_String "car")) None). split; [|exact Ed].
  exists "Vehicle". eexists. split; [left|].
  eapply (signal_below _ _ _ "Name"); [reflexivity|reflexivity|right; left|].
  apply signal_here. discriminate.
Defined.
End Witnesses.
