(* ===== verification/ServiceTests.v ===== *)
(** * ServiceTests: the test suites of scope.rs, val.rs and vss.rs

    The tests of src/kuksa_databroker/databroker/src/authorization/jwt/scope.rs,
    grpc/kuksa_val_v1/val.rs and vss.rs on the model.  The text of the VSS file is
    the tree [serde_json] reads it to. *)

From S2P Require Import Prelude Floats Types TypesTests Regex Glob Permissions Auth Entry Database Query Broker ProtoVal.
From S2P Require Import KuksaVal Vss VssSpec.

#[local] Existing Instance auth_engine.
#[local] Existing Instance one_query_parser.
#[local] Existing Instance z_timestamps.

(** ** scope.rs *)

(** One scope with this action and this path; an error. *)
Definition parses_to (scope : string) (action_ : Action) (path_ : option string) : bool :=
  match parse_whitespace_separated scope with
  | Returns (Ok [s]) => bool_decide (action s = action_) && bool_decide (scope_path s = path_)
  | _ => false
  end.
Definition is_parse_error (scope : string) : bool :=
  match parse_whitespace_separated scope with Returns (Err Auth.ParseError) => true | _ => false end.

Definition test_scope_read : bool := parses_to "read" A_Read None.
Definition test_scope_read_no_path : bool := is_parse_error "read:".
Definition test_scope_read_vehicle_test : bool := parses_to "read:Vehicle.Test" A_Read (Some "Vehicle.Test").
Definition test_scope_read_vehicle_wildcard_test : bool :=
  parses_to "read:Vehicle.*.Test" A_Read (Some "Vehicle.*.Test").
Definition test_scope_read_vehicle_prefixed_wildcard_test : bool := is_parse_error "read:Vehicle.As*.Test".
Definition test_scope_read_vehicle_test_wildcard_test : bool :=
  parses_to "read:Vehicle.Test.*" A_Read (Some "Vehicle.Test.*").
Definition test_scope_actuate_no_path : bool := parses_to "actuate" A_Actuate None.
Definition test_scope_actuate_sep_no_path : bool := is_parse_error "actuate:".
Definition test_scope_actuate_vehicle_test : bool :=
  parses_to "actuate:Vehicle.Test" A_Actuate (Some "Vehicle.Test").
Definition test_scope_provide_no_path : bool := parses_to "provide" A_Provide None.
Definition test_scope_provide_sep_no_path : bool := is_parse_error "provide:".
Definition test_scope_provide_vehicle_test : bool :=
  parses_to "provide:Vehicle.Test" A_Provide (Some "Vehicle.Test").
Definition test_scope_create_no_path : bool := parses_to "create" A_Create None.
Definition test_scope_create_sep_no_path : bool := is_parse_error "create:".
Definition test_scope_create_vehicle_test : bool := parses_to "create:Vehicle.*" A_Create (Some "Vehicle.*").

(** ** val.rs *)

(** An update of a boolean signal with an int32. *)
Definition test_update_datapoint_using_wrong_type : bool :=
  let '(r, b) := add_entry (DataBroker_new "") ALLOW_ALL 0 "test.datapoint1" DT_Bool CT_OnChange ET_Sensor
                   "Test datapoint 1" None None in
  let request :=
    {| peu_fields := [proto_field_i32 PF_Value];
       peu_entry := Some {| de_path := "test.datapoint1";
                            de_value := Some {| pd_timestamp := Some (timestamp_from 1);
                                                pd_value := Some (PV_Int32 1456) |};
                            de_metadata := None; de_actuator_target := None |} |} in
  is_ok r &&
  (* Manually insert permissions *)
  match fst (set b (Some ALLOW_ALL) 1 [request]) with
  | Ok response =>
      match set_errors response with
      | error :: _ => match dee_error error with Some error => err_code error =? 400 | None => false end
      | [] => false
      end
  | Err _ => false
  end.

(** ** vss.rs *)

(** [serde_json] with numbers that are integers. *)
#[local] Instance test_json : SerdeJson :=
  {| JsonValue := Json; json_array := J_Array;
     from_value_string := @from_value_string small_json; from_value_bool := @from_value_bool small_json;
     from_value_int := @from_value_int small_json;
     from_value_f32 := fun v => match v with J_Int z => Ok (f32_lit z) | _ => Err "invalid type" end;
     from_value_f64 := fun v => match v with J_Int z => Ok (f64_lit z) | _ => Err "invalid type" end;
     from_value_vec := fun A f v => json_vec f v |}.

Definition branch (description : string) (children : list (string * VssEntry)) : VssEntry :=
  {| ve_entry_type := VET_Branch; ve_description := description; ve_comment := None; ve_children := Some children;
     ve_data_type := None; ve_unit := None; ve_min := None; ve_max := None; ve_allowed := None;
     ve_change_type := None; ve_default := None |}.
Definition signal (type : VssEntryType) (datatype : VssDataType) (description : string) (unit_ : option string)
  (min max default : option Json) (allowed_ : option (list Json)) : VssEntry :=
  {| ve_entry_type := type; ve_description := description; ve_comment := None; ve_children := None;
     ve_data_type := Some datatype; ve_unit := unit_; ve_min := min; ve_max := max; ve_allowed := allowed_;
     ve_change_type := None; ve_default := default |}.

Definition test_vss_data : list (string * VssEntry) :=
  [("Vehicle", branch "High-level vehicle data."
     [("ADAS", branch "All Advanced Driver Assist Systems data."
        [("ESC", branch "Electronic Stability Control System signals."
           [("IsEnabled", signal VET_Actuator VDT_Boolean
               "Indicates if ESC is enabled. True = Enabled. False = Disabled." None None None None None);
            ("IsEngaged", signal VET_Sensor VDT_Boolean
               "Indicates if ESC is currently regulating vehicle stability. True = Engaged. False = Not Engaged."
               None None None None None);
            ("RoadFriction", branch "Road friction values reported by the ESC system."
               [("MostProbable", signal VET_Sensor VDT_Float
                   "Most probable road friction, as calculated by the ESC system. Exact meaning of most probable is implementation specific. 0 = no friction, 100 = maximum friction."
                   (Some "percent") (Some (J_Int 0)) (Some (J_Int 100)) None None)])]);
         ("SupportedAutonomyLevel", signal VET_Attribute VDT_String
            "Indicates the highest level of autonomy according to SAE J3016 taxonomy the vehicle is capable of."
            None None None None
            (Some (map J_String ["SAE_0"; "SAE_1"; "SAE_2"; "SAE_3"; "SAE_4"; "SAE_5"])))]);
      ("MaxTowWeight", signal VET_Attribute VDT_Uint16 "Maximum weight of trailer." (Some "kg") None None
         (Some (J_Int 1000)) None)])].

Definition entry_is (entries : gmap string VssDataEntry) (p : string) (expected : VssDataEntry -> bool) : bool :=
  match entries !! p with Some entry => expected entry | None => false end.
Definition has_types (data_type : DataType) (entry_type : EntryType) (entry : VssDataEntry) : bool :=
  bool_decide (vd_data_type entry = data_type) && bool_decide (vd_entry_type entry = entry_type).
Definition value_is (v : DataValue) (o : option DataValue) : bool :=
  match o with Some x => dv_eqb x v | None => false end.

Definition test_parse_vss : bool :=
  match flatten_vss_tree test_vss_data with
  | Ok entries =>
      (Z.of_nat (size entries) =? 5)
      && entry_is entries "Vehicle.ADAS.ESC.IsEnabled" (fun entry =>
           has_types DT_Bool ET_Actuator entry
           && String.eqb (vd_description entry) "Indicates if ESC is enabled. True = Enabled. False = Disabled.")
      && entry_is entries "Vehicle.ADAS.ESC.IsEngaged" (has_types DT_Bool ET_Sensor)
      && entry_is entries "Vehicle.ADAS.ESC.RoadFriction.MostProbable" (fun entry =>
           has_types DT_Float ET_Sensor entry && value_is (DV_Float (f32_lit 0)) (vd_min entry)
           && value_is (DV_Float (f32_lit 100)) (vd_max entry) && bool_decide (vd_unit entry = Some "percent"))
      && entry_is entries "Vehicle.MaxTowWeight" (fun entry =>
           has_types DT_Uint16 ET_Attribute entry && value_is (DV_Uint32 1000) (vd_default entry)
           && bool_decide (vd_unit entry = Some "kg"))
      && entry_is entries "Vehicle.ADAS.SupportedAutonomyLevel" (fun entry =>
           has_types DT_String ET_Attribute entry
           && value_is (DV_StringArray ["SAE_0"; "SAE_1"; "SAE_2"; "SAE_3"; "SAE_4"; "SAE_5"]) (vd_allowed entry))
  | Err _ => false
  end.

Definition service_tests : list bool := [
  test_scope_read; test_scope_read_no_path; test_scope_read_vehicle_test; test_scope_read_vehicle_wildcard_test;
  test_scope_read_vehicle_prefixed_wildcard_test; test_scope_read_vehicle_test_wildcard_test;
  test_scope_actuate_no_path; test_scope_actuate_sep_no_path; test_scope_actuate_vehicle_test;
  test_scope_provide_no_path; test_scope_provide_sep_no_path; test_scope_provide_vehicle_test;
  test_scope_create_no_path; test_scope_create_sep_no_path; test_scope_create_vehicle_test;
  test_update_datapoint_using_wrong_type; test_parse_vss
].

Theorem service_tests_pass : forallb Datatypes.id service_tests = true.
Proof. vm_compute. reflexivity. Qed.
