(* ===== verification/Startup.v ===== *)
(** * Startup: what the broker does before it serves

    src/kuksa_databroker/databroker/src/main.rs: the attributes of the broker
    itself, the metadata files, and the choices of TLS and of authorization.
    The arguments that lead here are in [Main], the tasks that serve in
    [Lifecycle]; logging is left out.  Reading a file is an argument ([open],
    [read_file]). *)

From S2P Require Import Prelude Types Regex Glob Permissions Auth Entry Database Query Broker Vss.

(** [Box<dyn Error>]: the errors [main] ends with. *)
Inductive StartError :=
| SE_Io (message : string)
| SE_Vss (e : VssError)
| SE_Tls (message : string)
| SE_PublicKey.

(** [ServerTLS], with the certificate and the key of the identity. *)
Inductive ServerTLS := TLS_Disabled | TLS_Enabled (cert key : string).

Section Startup.
Context `{RegexEngine} `{HashOrder} `{SqlParser} `{SerdeJson} `{JwtLibrary}.

(** [add_kuksa_attribute]; errors are logged. *)
Definition add_kuksa_attribute (b : DataBroker) (permissions : Permissions) (now : SystemTime)
  (attribute value description : string) : DataBroker :=
  match add_entry b permissions now attribute DT_String CT_OnChange ET_Attribute description None None with
  | (Ok i, b) =>
      snd (update_entries b permissions now [(i, datapoint_update {| ts := now; value := DV_String value |})])
  | (Err _, b) => b
  end.

(** The body of the loop of [read_metadata_file]; errors are logged. *)
Definition add_vss_datapoint (permissions : Permissions) (now : SystemTime) (b : DataBroker)
  (pe : string * VssDataEntry) : DataBroker :=
  let '(p, entry) := pe in
  match add_entry b permissions now p (vd_data_type entry) (vd_change_type entry) (vd_entry_type entry)
          (vd_description entry) (vd_allowed entry) (vd_unit entry) with
  | (Ok i, b) =>
      match vd_default entry with
      | Some default =>
          snd (update_entries b permissions now [(i, datapoint_update {| ts := now; value := default |})])
      | None => b
      end
  | (Err _, b) => b
  end.

(** [read_metadata_file]: [open] gives what [serde_json] reads from the file. *)
Definition read_metadata_file (open : string -> result (result (list (string * VssEntry)) string) string)
  (b : DataBroker) (permissions : Permissions) (now : SystemTime) (filename : string)
  : result unit StartError * DataBroker :=
  match open filename with
  | Err e => (Err (SE_Io e), b)
  | Ok metadata_file =>
      match parse_vss metadata_file with
      | Err e => (Err (SE_Vss e), b)
      | Ok entries => (Ok tt, fold_left (add_vss_datapoint permissions now) (btree_entries entries) b)
      end
  end.

(** The files of the option [vss-file], up to the first error. *)
Fixpoint read_metadata_files (open : string -> result (result (list (string * VssEntry)) string) string)
  (b : DataBroker) (permissions : Permissions) (now : SystemTime) (filenames : list string)
  : result unit StartError * DataBroker :=
  match filenames with
  | [] => (Ok tt, b)
  | filename :: filenames =>
      match read_metadata_file open b permissions now filename with
      | (Ok _, b) => read_metadata_files open b permissions now filenames
      | (Err e, b) => (Err e, b)
      end
  end.

(** [main] up to the choice of TLS: the versions are those of the build. *)
Definition populate (open : string -> result (result (list (string * VssEntry)) string) string)
  (now : SystemTime) (version : string) (git_version cargo_version commit_sha : option string)
  (vss_files : list string) : result unit StartError * DataBroker :=
  let b := DataBroker_new version in
  let b := add_kuksa_attribute b ALLOW_ALL now "Kuksa.Databroker.GitVersion"
             (default "N/A" git_version) "Databroker version as reported by GIT" in
  let b := add_kuksa_attribute b ALLOW_ALL now "Kuksa.Databroker.CargoVersion"
             (default "N/A" cargo_version) "Databroker version as reported by GIT" in
  let b := add_kuksa_attribute b ALLOW_ALL now "Kuksa.Databroker.CommitSha"
             (default "N/A" commit_sha) "Commit SHA of current version" in
  read_metadata_files open b ALLOW_ALL now vss_files.

(** The TLS configuration. *)
Definition start_tls (read_file : string -> result string string) (insecure : bool)
  (cert_file key_file : option string) : result ServerTLS StartError :=
  if insecure then Ok TLS_Disabled else
  match cert_file, key_file with
  | Some cert_file, Some key_file =>
      let? cert := map_err SE_Io (read_file cert_file) in
      let? key := map_err SE_Io (read_file key_file) in
      Ok (TLS_Enabled cert key)
  | Some _, None => Err (SE_Tls "TLS private key (--tls-private-key) must be set if --tls-cert is.")
  | None, Some _ => Err (SE_Tls "TLS certificate (--tls-cert) must be set if --tls-private-key is.")
  | None, None => Ok TLS_Disabled
  end.

(** The authorization: the key is read before the option that disables it is
    looked at. *)
Definition start_authorization (read_file : string -> result string string)
  (disable_authorization : bool) (jwt_public_key : option string) : result Authorization StartError :=
  let enable_authorization := negb disable_authorization in
  let? jwt_public_key :=
    match jwt_public_key with
    | Some pub_key_filename => map_err SE_Io (result_map Some (read_file pub_key_filename))
    | None => Ok None
    end in
  match enable_authorization, jwt_public_key with
  | true, Some pub_key => map_err (fun _ => SE_PublicKey) (Authorization_new pub_key)
  | true, None => Ok Disabled
  | false, _ => Ok Disabled
  end.
End Startup.
