(* ===== verification/StartupSpec.v ===== *)
(** * StartupSpec: the database the broker starts with

    What the metadata files put into the database, path by path, and the
    choices of TLS and authorization. *)

From stdpp Require Import sorting.
From S2P Require Import Prelude Types Regex Glob Permissions Auth Entry Database Query Broker Delivery.
From S2P Require Import Vss VssSpec Startup.

Section Spec.
Context `{RegexEngine} `{HashOrder} `{SqlParser} `{SerdeJson}.

(** The entry registered at a path. *)
Definition by_path (db : Database) (p : string) : option Entry := path_to_id db !! p ≫= fun i => entries db !! i.

(** The new entry for a signal of the file, and an entry with the default. *)
Definition new_entry (now : SystemTime) (i : Z) (p : string) (d : VssDataEntry) : Entry :=
  registered now i p (vd_data_type d) (vd_change_type d) (vd_entry_type d) (vd_description d)
    (vd_allowed d) None (vd_unit d).

Definition with_default (now : SystemTime) (d : VssDataEntry) (e : Entry) : Entry :=
  match vd_default d with
  | Some v =>
      match provide ALLOW_ALL now e {| ts := now; value := v |} with
      | Ok e' => e'
      | Err _ => e
      end
  | None => e
  end.

(** A signal the database takes: a valid path, and an allowed list whose
    element type the broker has. *)
Definition registrable (p : string) (d : VssDataEntry) : bool :=
  is_valid_path p && is_ok (validate_allowed_type (new_entry 0 0 p d) (vd_allowed d)).

Definition loaded (now : SystemTime) (p : string) (d : VssDataEntry) (old new : option Entry) : Prop :=
  match old with
  | Some e => new = Some (with_default now d e)
  | None => if registrable p d then exists i, new = Some (with_default now d (new_entry now i p d))
            else new = None
  end.

(** The default, written through [update_entries]. *)
Lemma write_default b now i e v r b' :
  entries (database b) !! i = Some e ->
  update_entries b ALLOW_ALL now [(i, datapoint_update {| ts := now; value := v |})] = (r, b') ->
  database b' = set_entries (database b)
    (<[i := match provide ALLOW_ALL now e {| ts := now; value := v |} with Ok e' => e' | Err _ => e end]>
       (entries (database b))).
Proof.
  intros He Hu. destruct (update_entries_one b ALLOW_ALL now i (datapoint_update {| ts := now; value := v |})) as [_ Hdb].
  rewrite Hu in Hdb. simpl in Hdb. rewrite Hdb, (datapoint_update_eq _ _ _ _ e) by done. unfold provide.
  destruct (can_write_datapoint _ _ _) as [[]|]; simpl; [|by rewrite set_entries_same].
  destruct (keeps_value e _); simpl; [by rewrite set_entries_same|].
  destruct (check_value e v); simpl; [done|by rewrite set_entries_same].
Qed.

Lemma default_written b now i e d :
  entries (database b) !! i = Some e ->
  database (match vd_default d with
            | Some v => snd (update_entries b ALLOW_ALL now [(i, datapoint_update {| ts := now; value := v |})])
            | None => b
            end) = set_entries (database b) (<[i := with_default now d e]> (entries (database b))).
Proof.
  intros He. unfold with_default. destruct (vd_default d) as [v|]; [|by rewrite set_entries_same].
  destruct (update_entries _ _ _ _) as [r b'] eqn:Eu. by eapply write_default.
Qed.

Lemma with_default_path now d e : metadata (with_default now d e) = metadata e.
Proof.
  unfold with_default, provide. destruct (vd_default d); [|done].
  destruct (can_write_datapoint _ _ _); [|done]. destruct (keeps_value _ _); [done|]. by destruct (check_value _ _).
Qed.

Lemma validate_allowed_type_data e1 e2 a :
  data_type (metadata e1) = data_type (metadata e2) -> validate_allowed_type e1 a = validate_allowed_type e2 a.
Proof. unfold validate_allowed_type. by intros ->. Qed.

(** One signal of the file: the database afterwards. *)
Lemma add_vss_database b now p d :
  db_inv (database b) ->
  let db := database b in
  database (add_vss_datapoint ALLOW_ALL now b (p, d)) =
  match path_to_id db !! p with
  | Some i => match entries db !! i with
              | Some e => set_entries db (<[i := with_default now d e]> (entries db))
              | None => db
              end
  | None =>
      if registrable p d then
        {| next_id := wrap_i32 (next_id db + 1); path_to_id := <[p := next_id db]> (path_to_id db);
           entries := <[next_id db := with_default now d (new_entry now (next_id db) p d)]> (entries db) |}
      else db
  end.
Proof.
  intros Hinv db. unfold add_vss_datapoint, add_entry, add.
  assert (database b = db) as -> by done.
  destruct (path_to_id db !! p) as [i|] eqn:Hi.
  - destruct (inv_index db Hinv p i Hi) as (e & He & <-). destruct (inv_entry db Hinv i e He) as (_ & _ & -> & _).
    simpl. rewrite He. apply (default_written (set_database b db)). done.
  - destruct (is_valid_path p) eqn:Hv; [|unfold registrable; by rewrite Hv]. cbn -[registrable].
    match goal with |- context [validate_allowed_type ?e (vd_allowed d)] =>
      rewrite (validate_allowed_type_data e (new_entry 0 0 p d) (vd_allowed d) eq_refl) end.
    unfold registrable. rewrite Hv.
    destruct (validate_allowed_type (new_entry 0 0 p d) (vd_allowed d)) as [[]|]; cbn; [|done].
    rewrite (default_written _ now (next_id db) (new_entry now (next_id db) p d)); [|by simpl; rewrite lookup_insert_eq].
    unfold set_entries. simpl. by rewrite insert_insert_eq.
Qed.

Lemma add_vss_inv b now p d :
  db_inv (database b) -> Z.of_nat (size (entries (database b))) < 4294967296 ->
  db_inv (database (add_vss_datapoint ALLOW_ALL now b (p, d))).
Proof.
  intros Hinv Hsize. unfold add_vss_datapoint, add_entry.
  pose proof (add_preserves (database b) ALLOW_ALL now p (vd_data_type d) (vd_change_type d) (vd_entry_type d)
    (vd_description d) (vd_allowed d) (vd_unit d) Hinv Hsize) as Hadd.
  destruct (add _ _ _ _ _ _ _ _ _ _) as [[i|] db1]; simpl in *; [|done].
  destruct (vd_default d); [|done].
  rewrite (proj2 (update_entries_one _ _ _ _ _)). by apply update_preserves.
Qed.

(** ... and what it means path by path. *)
Lemma add_vss_loaded b now p d :
  db_inv (database b) -> Z.of_nat (size (entries (database b))) < 4294967296 ->
  let b' := add_vss_datapoint ALLOW_ALL now b (p, d) in
  (size (entries (database b')) <= S (size (entries (database b))))%nat /\
  loaded now p d (by_path (database b) p) (by_path (database b') p) /\
  forall q, q <> p -> by_path (database b') q = by_path (database b) q.
Proof.
  intros Hinv Hsize b'. pose proof (add_vss_database b now p d Hinv) as Hdb. cbn zeta in Hdb. fold b' in Hdb.
  unfold loaded, by_path. set (db := database b) in *.
  destruct (path_to_id db !! p) as [i|] eqn:Hi; simpl.
  - destruct (inv_index db Hinv p i Hi) as (e & He & Hpe). rewrite He in *. rewrite Hdb. simpl. rewrite Hi. simpl.
    rewrite lookup_insert_eq. split_and!; [|done|].
    + by rewrite (size_insert_present db i e); [lia|].
    + intros q Hq. destruct (path_to_id db !! q) as [j|] eqn:Hj; [|done]. simpl. apply lookup_insert_ne.
      intros <-. destruct (inv_index db Hinv q i Hj) as (e' & ? & ?). simplify_eq.
  - destruct (registrable p d); rewrite Hdb; simpl; [|by rewrite Hi; split_and!; [lia|..]].
    pose proof (next_id_fresh db Hinv Hsize) as Hfresh. rewrite lookup_insert_eq. simpl. rewrite lookup_insert_eq.
    split_and!; [by rewrite map_size_insert_None|by eexists|]. intros q Hq. rewrite lookup_insert_ne by done.
    destruct (path_to_id db !! q) as [j|] eqn:Hj; [|done]. simpl. apply lookup_insert_ne.
    intros <-. destruct (inv_index db Hinv q _ Hj) as (e' & ? & ?). congruence.
Qed.

(** The loop over the file. *)
Lemma load_all now l : forall b,
  NoDup (map fst l) -> db_inv (database b) ->
  Z.of_nat (size (entries (database b)) + length l) <= 4294967296 ->
  let b' := fold_left (add_vss_datapoint ALLOW_ALL now) l b in
  db_inv (database b') /\
  (forall p d, (p, d) ∈ l -> loaded now p d (by_path (database b) p) (by_path (database b') p)) /\
  (forall q, q ∉ map fst l -> by_path (database b') q = by_path (database b) q).
Proof.
  induction l as [|[p d] l IH]; intros b Hnd Hinv Hsize; simpl.
  { split_and!; [done|by intros ? ? ?%not_elem_of_nil|done]. }
  simpl in Hnd, Hsize. apply NoDup_cons in Hnd as [Hp Hnd].
  assert (Z.of_nat (size (entries (database b))) < 4294967296) as Hlt by lia.
  destruct (add_vss_loaded b now p d Hinv Hlt) as (Hsize1 & Hload & Hother).
  pose proof (add_vss_inv b now p d Hinv Hlt) as Hinv1.
  set (b1 := add_vss_datapoint ALLOW_ALL now b (p, d)) in *.
  destruct (IH b1 Hnd Hinv1) as (Hinv' & Hin & Hout); [lia|]. split_and!; [done| |].
  - intros q d' [[= -> ->] | Hq]%elem_of_cons; [by rewrite Hout|].
    rewrite <- (Hother q); [by apply Hin|]. intros ->. by apply Hp, (elem_of_map_fst _ d').
  - intros q [Hqp Hql]%not_elem_of_cons. by rewrite Hout, Hother.
Qed.

Lemma btree_entries_perm m : btree_entries m ≡ₚ map_to_list m.
Proof. apply merge_sort_Permutation. Qed.

(** C21. A metadata file that parses is loaded signal by signal: a path that is
    not registered yet is registered with everything the file says of it if it
    is a valid path and the broker has the element type of its allowed list,
    and is not registered otherwise; the default of the file becomes the
    current value wherever the broker accepts it; every path the file does not
    name is left alone.  A file that does not parse changes nothing. *)
Theorem read_metadata_file_spec open b now filename r b' :
  db_inv (database b) ->
  read_metadata_file open b ALLOW_ALL now filename = (r, b') ->
  match r with
  | Ok _ => exists file m, open filename = Ok file /\ parse_vss file = Ok m /\
      (Z.of_nat (size (entries (database b)) + size m) <= 4294967296 ->
       db_inv (database b') /\
       forall p, match m !! p with
                 | Some d => loaded now p d (by_path (database b) p) (by_path (database b') p)
                 | None => by_path (database b') p = by_path (database b) p
                 end)
  | Err _ => b' = b
  end.
Proof.
  unfold read_metadata_file. intros Hinv Hr.
  destruct (open filename) as [file|]; [|by simplify_eq].
  destruct (parse_vss file) as [m|] eqn:Hm; [|by simplify_eq]. injection Hr as <- <-.
  exists file, m. split_and!; [done..|]. intros Hsize.
  assert (NoDup (map fst (btree_entries m))) as Hnd.
  { change (NoDup (btree_entries m).*1). rewrite btree_entries_perm. apply NoDup_fst_map_to_list. }
  destruct (load_all now (btree_entries m) b Hnd Hinv) as (Hinv' & Hin & Hout).
  { rewrite (Permutation_length (btree_entries_perm m)), length_map_to_list. done. }
  split; [done|]. intros p. destruct (m !! p) as [d|] eqn:Hp.
  - apply Hin. by rewrite btree_entries_perm, elem_of_map_to_list.
  - apply Hout. intros (x & <- & Hx)%list_elem_of_In%in_map_iff. destruct x as [q d].
    apply list_elem_of_In in Hx. rewrite btree_entries_perm, elem_of_map_to_list in Hx. simpl in Hp. congruence.
Qed.

(** The types that are stored wider than they are declared. *)
Definition narrow (dt : DataType) : bool :=
  match dt with
  | DT_Int8 | DT_Int16 | DT_Uint8 | DT_Uint16
  | DT_Int8Array | DT_Int16Array | DT_Uint8Array | DT_Uint16Array => true
  | _ => false
  end.

(** The allowed list of such a type is stored under the wider type. *)
Lemma try_from_json_array_narrow array dt r e :
  narrow dt = true -> try_from_json_array (Some array) dt = Ok r ->
  data_type (metadata e) = dt -> is_ok (validate_allowed_type e r) = false.
Proof.
  intros Hn Hr He. unfold validate_allowed_type. rewrite He.
  destruct dt; try discriminate Hn; simpl in Hr; unfold map_err, result_map in Hr;
    destruct (from_value_vec _ _) in Hr; try discriminate Hr; by injection Hr as <-.
Qed.

(** A signal of a VSS file whose type is narrower than 32 bits (or an
    array of such) and that has an allowed list is read without an error, yet
    never gets into the database: the broker takes no allowed list of these
    types. *)
Theorem narrow_allowed_dropped node et d b now p :
  data_entry node et = Ok d -> narrow (vd_data_type d) = true -> ve_allowed node <> None ->
  db_inv (database b) -> by_path (database b) p = None ->
  database (add_vss_datapoint ALLOW_ALL now b (p, d)) = database b.
Proof.
  intros Hd Hn Ha Hinv Hp. pose proof (add_vss_database b now p d Hinv) as Hdb. cbn zeta in Hdb. rewrite Hdb.
  unfold by_path in Hp. destruct (path_to_id (database b) !! p) as [i|] eqn:Hi.
  { destruct (inv_index _ Hinv p i Hi) as (e & He & _). simpl in Hp. congruence. }
  replace (registrable p d) with false; [done|]. symmetry. unfold registrable.
  apply andb_false_intro2. unfold data_entry in Hd. destruct (ve_data_type node) as [dt|]; [|done].
  destruct (ve_allowed node) as [array|]; [|done].
  destruct (try_from_json_value _ _) in Hd; [|done]. destruct (try_from_json_value _ _) in Hd; [|done].
  destruct (try_from_json_array _ _) as [r|] eqn:Hr in Hd; [|done]. cbn in Hd.
  destruct (match et with ET_Attribute => _ | _ => _ end) in Hd; [|done]. cbn in Hd. injection Hd as <-.
  cbn [vd_allowed vd_data_type] in *. by eapply try_from_json_array_narrow.
Qed.
End Spec.

(** ** Witnesses *)

Section Witnesses.
#[local] Existing Instance glob_engine.
#[local] Existing Instance one_query_parser.
#[local] Existing Instance small_json.

Definition small_broker : DataBroker := DataBroker_new "test".

Lemma small_broker_inv : db_inv (database small_broker).
Proof. apply db_inv_new. Qed.

Definition small_open (filename : string) : result (result (list (string * VssEntry)) string) string :=
  if String.eqb filename "vss.json" then Ok (Ok small_vss) else Err "no such file".

Lemma small_vss_size : result_map size (parse_vss (Ok small_vss)) = Ok 2%nat.
Proof. vm_compute. reflexivity. Qed.

Definition name_entry : VssDataEntry :=
  {| vd_data_type := DT_String; vd_entry_type := ET_Attribute; vd_change_type := CT_Static;
     vd_description := "a signal"; vd_comment := None; vd_unit := None; vd_min := None; vd_max := None;
     vd_allowed := None; vd_default := Some (DV_String "car") |}.

Lemma small_vss_name :
  result_map (fun m => m !! "Vehicle.Name") (parse_vss (Ok small_vss)) = Ok (Some name_entry).
Proof. vm_compute. reflexivity. Qed.

Lemma read_metadata_file_spec_witness :
  ((fun e => value (datapoint e)) <$>
    by_path (database (snd (read_metadata_file small_open small_broker ALLOW_ALL 9 "vss.json"))) "Vehicle.Name")
  = Some (DV_String "car").
Proof.
  destruct (read_metadata_file small_open small_broker ALLOW_ALL 9 "vss.json") as [r b'] eqn:E.
  pose proof (read_metadata_file_spec small_open small_broker 9 "vss.json" r b' small_broker_inv E) as Hr.
  destruct r as [[]|e]; [|apply (f_equal fst) in E; vm_compute in E; discriminate E]. destruct Hr as (file & m & Hf & Hm & Hr).
  injection Hf as <-.
  pose proof small_vss_size as Hsize. pose proof small_vss_name as Hd.
  rewrite Hm in Hsize, Hd. cbn [result_map] in Hsize, Hd. injection Hsize as Hsize. injection Hd as Hd.
  destruct Hr as [_ Hr]; [rewrite Hsize; vm_compute; discriminate|].
  specialize (Hr "Vehicle.Name"). rewrite Hd in Hr. cbn [snd].
  destruct Hr as [i ->]. vm_compute. reflexivity.
Defined.

Lemma narrow_allowed_dropped_witness :
  match data_entry (leaf_node VET_Sensor VDT_Uint8 None (Some [J_Int 7])) ET_Sensor with
  | Ok d => database (add_vss_datapoint ALLOW_ALL 9 small_broker ("Vehicle.Speed", d)) = database small_broker
  | Err _ => False
  end.
Proof.
  destruct (data_entry (leaf_node VET_Sensor VDT_Uint8 None (Some [J_Int 7])) ET_Sensor) as [d|] eqn:E;
    [|vm_compute in E; discriminate E].
  apply (narrow_allowed_dropped _ _ d small_broker 9 "Vehicle.Speed" E).
  - vm_compute in E. by injection E as <-.
  - done.
  - exact small_broker_inv.
  - reflexivity.
Defined.
End Witnesses.
