(* ===== verification/Main.v ===== *)
(** * Main: the command line of the broker and its start

    The function [main] of src/kuksa_databroker/databroker/src/main.rs, built with
    the features [tls] and [viss]: the options, declared as clap's builder
    declares them, and what [main] makes of the matches before it serves.  The
    crate clap is a parameter, [Clap]; its documented laws ([ClapLaws]) are what
    the calls of [unwrap] and [expect] rely on. *)

From S2P Require Import Prelude Floats Types Regex Glob Permissions Auth Entry Database Query Broker Vss VssSpec.
From S2P Require Import Startup StartupSpec.

(** ** The crate clap *)

Inductive ArgAction := AA_Set | AA_SetTrue.
Inductive ValueParser := VP_String | VP_NonEmptyString | VP_U16.

(** [clap::Arg], with what the options of [main] use of it. *)
Record Arg := {
  ar_id : string;
  ar_display_order : Z;
  ar_long : string;
  ar_alias : option string;
  ar_help : string;
  ar_action : ArgAction;
  ar_value_name : option string;
  ar_required : bool;
  ar_env : option string;
  ar_value_parser : ValueParser;
  ar_default : option string;
  ar_value_delimiter : option Ascii.ascii;
  ar_conflicts : option string
}.

(** [Arg::new] and the options most arguments share. *)
Definition flag (id : string) (order : Z) (help : string) : Arg :=
  {| ar_id := id; ar_display_order := order; ar_long := id; ar_alias := None; ar_help := help;
     ar_action := AA_SetTrue; ar_value_name := None; ar_required := false; ar_env := None;
     ar_value_parser := VP_String; ar_default := None; ar_value_delimiter := None; ar_conflicts := None |}.
Definition file_option (id : string) (order : Z) (help : string) (conflicts : option string) : Arg :=
  {| ar_id := id; ar_display_order := order; ar_long := id; ar_alias := None; ar_help := help;
     ar_action := AA_Set; ar_value_name := Some "FILE"; ar_required := false; ar_env := None;
     ar_value_parser := VP_String; ar_default := None; ar_value_delimiter := None; ar_conflicts := conflicts |}.
Definition socket_option (id : string) (order : Z) (alias : option string) (help value_name env default : string)
  (value_parser : ValueParser) : Arg :=
  {| ar_id := id; ar_display_order := order; ar_long := id; ar_alias := alias; ar_help := help;
     ar_action := AA_Set; ar_value_name := Some value_name; ar_required := false; ar_env := Some env;
     ar_value_parser := value_parser; ar_default := Some default; ar_value_delimiter := None; ar_conflicts := None |}.

(** The options of [main]. *)
Definition parser : list Arg := [
  socket_option "address" 1 (Some "addr") "Bind address" "IP" "KUKSA_DATA_BROKER_ADDR" "127.0.0.1" VP_String;
  socket_option "port" 2 None "Bind port" "PORT" "KUKSA_DATA_BROKER_PORT" "55555" VP_U16;
  {| ar_id := "vss-file"; ar_display_order := 4; ar_long := "vss"; ar_alias := Some "metadata";
     ar_help := "Populate data broker with VSS metadata from (comma-separated) list of files";
     ar_action := AA_Set; ar_value_name := Some "FILE"; ar_required := false;
     ar_env := Some "KUKSA_DATA_BROKER_METADATA_FILE"; ar_value_parser := VP_NonEmptyString; ar_default := None;
     ar_value_delimiter := Some ","%char; ar_conflicts := None |};
  file_option "jwt-public-key" 5 "Public key used to verify JWT access tokens" None;
  flag "disable-authorization" 6 "Disable authorization";
  flag "insecure" 20 "Allow insecure connections";
  file_option "tls-cert" 21 "TLS certificate file (.pem)" (Some "insecure");
  file_option "tls-private-key" 22 "TLS private key file (.key)" (Some "insecure");
  flag "enable-viss" 30 "Enable VISSv2 (websocket) service";
  socket_option "viss-address" 31 None "VISS address" "IP" "KUKSA_DATABROKER_VISS_ADDR" "127.0.0.1" VP_String;
  socket_option "viss-port" 32 None "VISS port" "PORT" "KUKSA_DATABROKER_VISS_PORT" "8090" VP_U16
].

(** [clap::ArgMatches]: the values of [get_one], [get_many] and [get_flag]. *)
Class Clap := {
  Matches : Type;
  get_one : Matches -> string -> option string;
  get_one_u16 : Matches -> string -> option Z;
  get_many : Matches -> string -> option (list string);
  get_flag : Matches -> string -> bool;
  (** What [get_matches] may return for these options; for a command line that
      does not fit them it exits. *)
  matches_of : list Arg -> Matches -> Prop
}.

(** An option with a default value has one; a port is one; options that are in
    conflict are not both given. *)
Class ClapLaws `{Clap} := {
  law_default args m a : matches_of args m -> a ∈ args -> ar_action a = AA_Set -> is_Some (ar_default a) ->
    match ar_value_parser a with
    | VP_U16 => exists port, get_one_u16 m (ar_id a) = Some port /\ in_range u16 port = true
    | _ => is_Some (get_one m (ar_id a))
    end;
  law_conflict args m a id : matches_of args m -> a ∈ args -> ar_conflicts a = Some id ->
    get_flag m id = true -> get_one m (ar_id a) = None
}.

(** ** main *)

(** What the environment answers: the address as [IpAddr] reads it, files,
    sockets and the TLS library; and the clock. *)
Record Environment `{SerdeJson} := {
  env_address : string -> result string string;
  env_open : string -> result (result (list (string * VssEntry)) string) string;
  env_read : string -> result string string;
  env_bind : string -> Z -> result unit string;
  env_tls : string -> string -> result unit string;
  env_now : SystemTime
}.

(** What the build leaves in [option_env!]. *)
Record BuildInfo := {
  VERGEN_GIT_SEMVER_LIGHTWEIGHT : option string;
  VERGEN_GIT_SHA : option string;
  CARGO_PKG_VERSION : option string
}.

Inductive MainError :=
| ME_Address (message : string)
| ME_Start (e : StartError)
| ME_Serve (message : string).

Section Main.
Context `{RegexEngine} `{HashOrder} `{SqlParser} `{SerdeJson} `{JwtLibrary} `{Clap}.

(** What [main] hands to the two servers. *)
Record Started := {
  sd_broker : DataBroker;
  sd_tls : ServerTLS;
  sd_authorization : Authorization;
  sd_grpc : string * Z;
  sd_viss : option (string * Z)
}.

(** The version the broker reports. *)
Definition version_of (build : BuildInfo) : string :=
  match VERGEN_GIT_SEMVER_LIGHTWEIGHT build with
  | Some version => version
  | None => default "unknown" (VERGEN_GIT_SHA build)
  end.

(** [unwrap] and [expect]. *)
Definition unwrap {A B} (o : option A) (k : A -> outcome B) : outcome B :=
  match o with Some a => k a | None => Panics end.

(** [main] from the matches to the servers. *)
Definition main_start (env : Environment) (build : BuildInfo) (args : Matches) : outcome (result Started MainError) :=
  unwrap (get_one args "address") (fun address =>
  match env_address env address with
  | Err message => Returns (Err (ME_Address message))
  | Ok ip_addr =>
  unwrap (get_one_u16 args "port") (fun port =>
  match populate (env_open env) (env_now env) (version_of build) (VERGEN_GIT_SEMVER_LIGHTWEIGHT build)
          (CARGO_PKG_VERSION build) (VERGEN_GIT_SHA build) (default [] (get_many args "vss-file")) with
  | (Err e, _) => Returns (Err (ME_Start e))
  | (Ok _, broker) =>
  match start_tls (env_read env) (get_flag args "insecure") (get_one args "tls-cert")
          (get_one args "tls-private-key") with
  | Err e => Returns (Err (ME_Start e))
  | Ok tls_config =>
  match start_authorization (env_read env) (get_flag args "disable-authorization") (get_one args "jwt-public-key") with
  | Err e => Returns (Err (ME_Start e))
  | Ok authorization =>
  unwrap (get_one_u16 args "viss-port") (fun viss_port =>
  Returns (Ok {| sd_broker := broker; sd_tls := tls_config; sd_authorization := authorization;
                 sd_grpc := (ip_addr, port);
                 sd_viss := if get_flag args "enable-viss" then Some (ip_addr, viss_port) else None |}))
  end end end) end).

(** ** What main guarantees *)

Context `{!ClapLaws}.

(** An option with a default is there. *)
Lemma default_text args a :
  matches_of parser args -> a ∈ parser -> ar_action a = AA_Set -> is_Some (ar_default a) ->
  ar_value_parser a = VP_String -> is_Some (get_one args (ar_id a)).
Proof. intros Hm Ha Hact Hd Hp. pose proof (law_default _ _ _ Hm Ha Hact Hd) as Hl. by rewrite Hp in Hl. Qed.

Lemma default_port args a :
  matches_of parser args -> a ∈ parser -> ar_action a = AA_Set -> is_Some (ar_default a) ->
  ar_value_parser a = VP_U16 -> exists port, get_one_u16 args (ar_id a) = Some port /\ in_range u16 port = true.
Proof. intros Hm Ha Hact Hd Hp. pose proof (law_default _ _ _ Hm Ha Hact Hd) as Hl. by rewrite Hp in Hl. Qed.

(** The options that [main] unwraps. *)
Record unwrapped (args : Matches) (address : string) (port viss_port : Z) : Prop := {
  uw_address : get_one args "address" = Some address;
  uw_port : get_one_u16 args "port" = Some port;
  uw_viss_port : get_one_u16 args "viss-port" = Some viss_port;
  uw_ports : in_range u16 port = true /\ in_range u16 viss_port = true
}.

Lemma parser_unwrapped args : matches_of parser args -> exists address port viss_port, unwrapped args address port viss_port.
Proof.
  intros Hm.
  destruct (default_text args (socket_option "address" 1 (Some "addr") "Bind address" "IP" "KUKSA_DATA_BROKER_ADDR"
    "127.0.0.1" VP_String) Hm) as [address Ha]; [left|done|by eexists|done|].
  destruct (default_port args (socket_option "port" 2 None "Bind port" "PORT" "KUKSA_DATA_BROKER_PORT" "55555" VP_U16) Hm)
    as (port & Hp & Hr); [right; left|done|by eexists|done|].
  destruct (default_port args (socket_option "viss-port" 32 None "VISS port" "PORT" "KUKSA_DATABROKER_VISS_PORT" "8090"
    VP_U16) Hm) as (viss_port & Hv & Hvr); [do 10 right; left|done|by eexists|done|].
  by exists address, port, viss_port.
Qed.

(** TLS and authorization as the options ask for them. *)
Lemma start_tls_spec read insecure cert_file key_file tls :
  (insecure = true -> cert_file = None /\ key_file = None) ->
  start_tls read insecure cert_file key_file = Ok tls ->
  match tls with
  | TLS_Disabled => cert_file = None /\ key_file = None
  | TLS_Enabled cert key =>
      exists cf kf, cert_file = Some cf /\ key_file = Some kf /\ read cf = Ok cert /\ read kf = Ok key
  end.
Proof.
  unfold start_tls. destruct insecure; [intros Hi [= <-]; by apply Hi|]. intros _.
  destruct cert_file as [cf|], key_file as [kf|]; try done; [|by intros [= <-]].
  destruct (read cf) as [cert|] eqn:Ec; [|done]. destruct (read kf) as [key|] eqn:Ek; [|done]. simpl.
  intros [= <-]. by exists cf, kf.
Qed.

Lemma start_authorization_spec read disable key_file auth :
  start_authorization read disable key_file = Ok auth ->
  match auth with
  | Disabled => disable = true \/ key_file = None
  | Enabled decoder =>
      disable = false /\ exists file key, key_file = Some file /\ read file = Ok key /\ Decoder_new key = Ok decoder
  end.
Proof.
  unfold start_authorization. destruct key_file as [file|]; simpl.
  - destruct (read file) as [key|] eqn:Ek; [|done]. simpl.
    destruct disable; simpl; [intros [= <-]; by left|]. unfold Authorization_new.
    destruct (Decoder_new key) as [decoder|] eqn:Ed; [|done]. intros [= <-]. split; [done|]. by exists file, key.
  - destruct disable; simpl; intros [= <-]; auto.
Qed.

End Main.

(** ** Witnesses *)

Section Witnesses.
#[local] Existing Instance glob_engine.
#[local] Existing Instance one_query_parser.
#[local] Existing Instance small_json.

#[local] Instance any_key : JwtLibrary :=
  {| DecodingKey := unit; from_rsa_pem := fun _ => Some tt; jwt_decode := fun _ _ _ => None |}.

(** A command line is what was given for each option; the rest is default. *)
Definition declared (args : list Arg) (id : string) : option Arg := find (fun a => String.eqb (ar_id a) id) args.

#[local] Instance given_options : Clap := {|
  Matches := list Arg * gmap string string;
  get_one m id :=
    match snd m !! id with Some v => Some v | None => declared (fst m) id ≫= ar_default end;
  get_one_u16 m id :=
    match snd m !! id with Some v => Some v | None => declared (fst m) id ≫= ar_default end ≫= parse_int u16;
  get_many m id := (fun v => split_on ","%char v) <$> snd m !! id;
  get_flag m id := is_some (snd m !! id);
  matches_of args m :=
    fst m = args /\
    Forall (fun a => declared args (ar_id a) = Some a /\
      (ar_value_parser a = VP_U16 -> forall v, (match snd m !! ar_id a with Some v => Some v | None => ar_default a end) = Some v ->
         is_Some (parse_int u16 v)) /\
      (forall id, ar_conflicts a = Some id -> is_some (snd m !! id) = true ->
         ar_default a = None /\ snd m !! ar_id a = None)) args
|}.

#[local] Instance given_options_laws : ClapLaws.
Proof.
  split.
  - intros args [m0 m] a [Hf Hall] Ha Hact [d Hd]. simpl in Hf. subst m0. rewrite Forall_forall in Hall.
    destruct (Hall a Ha) as (Hdecl & Hport & _). simpl in *. rewrite Hdecl. simpl.
    destruct (ar_value_parser a); try (destruct (m !! ar_id a); [by eexists|by rewrite Hd; eexists]).
    assert (exists v, (match m !! ar_id a with Some v => Some v | None => ar_default a end) = Some v) as [v Hv]
      by (destruct (m !! ar_id a); [by eexists|by exists d]).
    rewrite Hv. simpl. destruct (Hport eq_refl v Hv) as [port Hp]. exists port. split; [done|].
    apply in_range_spec. by eapply parse_int_bounds.
  - intros args [m0 m] a id [Hf Hall] Ha Hc Hi. simpl in *. subst m0. rewrite Forall_forall in Hall.
    destruct (Hall a Ha) as (Hdecl & _ & Hcon). destruct (Hcon id Hc Hi) as [Hd Hn]. by rewrite Hn, Hdecl.
Qed.

Definition some_files : Environment :=
  {| env_address := Ok; env_open := fun _ => Err "no such file"; env_read := Ok; env_bind := fun _ _ => Ok tt;
     env_tls := fun _ _ => Ok tt; env_now := 0 |}.
Definition no_build : BuildInfo :=
  {| VERGEN_GIT_SEMVER_LIGHTWEIGHT := None; VERGEN_GIT_SHA := None; CARGO_PKG_VERSION := None |}.

Definition secure_options : Matches :=
  (parser, {[ "tls-cert" := "Server.pem"; "tls-private-key" := "Server.key"; "jwt-public-key" := "jwt.key.pub" ]}).

Lemma secure_options_match : matches_of parser secure_options.
Proof.
  split; [reflexivity|]. unfold parser.
  repeat (apply Forall_cons; split; [split_and!; [reflexivity| |]|]); [..|apply Forall_nil_2].
  all: first [intros Hp v Hv; first [discriminate Hp|injection Hv as <-; eexists; reflexivity]
             |intros id Hc Hi; first [discriminate Hc|injection Hc as <-; discriminate Hi]].
Qed.

End Witnesses.
