(* ===== verification/Lifecycle.v ===== *)
(** * Lifecycle: the process of the broker, from its start to its exit

    The end of src/kuksa_databroker/databroker/src/main.rs and
    src/kuksa_databroker/databroker/src/grpc/server.rs: the gRPC server between
    the call of [serve] and its return.  The requests
    are the tasks of [Locks]; a subscription that was granted keeps its request
    open, a provider's stream is a task of its own; a signal shuts the broker down
    and then closes the listener; the server returns when every request is over
    (tonic's graceful shutdown, which waits for open streams).

    A VISS connection is not waited for, and the servers' sockets are left to the
    environment. *)

From S2P Require Import Prelude Types Regex Glob Permissions Auth Entry Database Query Broker Delivery System.
From S2P Require Import Locks LocksSpec LocksRun Vss Startup Main.

(** ** The server *)

Section Process.
Context `{RegexEngine} `{HashOrder} `{SqlParser} `{LockPolicy}.

(** The task of a stream of datapoints: when it took its shutdown trigger, and
    the update it waits for. *)
Record Provider := { pv_trigger : nat; pv_update : option nat; pv_running : bool }.

Inductive Phase :=
| PH_serving
| PH_stopping (t : nat)  (* a signal came, the task [t] shuts the broker down *)
| PH_draining            (* the listener is closed *)
| PH_exited.

Record Process := { ps_machine : Machine; ps_phase : Phase; ps_providers : list Provider }.

Definition with_machine (p : Process) (m : Machine) : Process :=
  {| ps_machine := m; ps_phase := ps_phase p; ps_providers := ps_providers p |}.
Definition with_phase (p : Process) (phase : Phase) : Process :=
  {| ps_machine := ps_machine p; ps_phase := phase; ps_providers := ps_providers p |}.
Definition with_providers (p : Process) (l : list Provider) : Process :=
  {| ps_machine := ps_machine p; ps_phase := ps_phase p; ps_providers := l |}.

(** A broker nobody uses yet. *)
Definition machine_of (b : DataBroker) : Machine :=
  {| mc_broker := b; mc_change_received := ∅; mc_query_received := ∅;
     mc_tasks := []; mc_database_queue := []; mc_subscriptions_queue := [] |}.

(** [serve_with_incoming_shutdown], when it begins to serve. *)
Definition process_new (b : DataBroker) : Process :=
  {| ps_machine := machine_of b; ps_phase := PH_serving; ps_providers := [] |}.

(** [serve]: the socket and the TLS configuration may be refused. *)
Definition grpc_serve `{SerdeJson} `{JwtLibrary} (env : Environment) (started : Started) : result Process MainError :=
  let? _ := map_err ME_Serve (env_bind env (fst (sd_grpc started)) (snd (sd_grpc started))) in
  let? _ := match sd_tls started with
            | TLS_Enabled cert key => map_err ME_Serve (env_tls env cert key)
            | TLS_Disabled => Ok tt
            end in
  Ok (process_new (sd_broker started)).

(** ** Requests that are over *)

(** A stream of notifications ends when its client is gone, or when nobody can
    send on it any more and what was sent is taken. *)
Definition stream_over {A} (registered : bool) (store : list (Channel A)) (got : gmap ChanId nat) (c : ChanId) : bool :=
  match store !! c with
  | Some ch => closed ch || negb registered && (length (sent ch) <=? received got c)%nat
  | None => true
  end.

Definition change_registered (s : Subscriptions) (c : ChanId) : bool :=
  existsb (fun sub => Nat.eqb (cs_sender sub) c) (change_subscriptions s).
Definition query_registered (s : Subscriptions) (c : ChanId) : bool :=
  existsb (fun sub => Nat.eqb (qs_sender sub) c) (query_subscriptions s).

(** Whether the server need not wait for this task: a request that is answered
    and whose stream is over, or the housekeeping. *)
Definition task_over (m : Machine) (task : Task) : bool :=
  let b := mc_broker m in
  match task with
  | T_end (TR_subscribed (Ok c)) =>
      stream_over (change_registered (subscriptions b) c) (change_channels (channels b)) (mc_change_received m) c
  | T_end (TR_queried (Ok c)) =>
      stream_over (query_registered (subscriptions b) c) (query_channels (channels b)) (mc_query_received m) c
  | T_end _ => true
  | T_start Op_housekeeping => true
  | _ => false
  end.

(** ** Events *)

Inductive ProcessEvent :=
| PE_request (op : Op)           (* a request is accepted *)
| PE_provider                    (* a request of [stream_datapoints] *)
| PE_message (i : nat) (permissions : Permissions) (now : SystemTime) (updates : list (Z * EntryUpdate))
| PE_updated (i : nat)           (* the provider's update is answered *)
| PE_triggered (i : nat)         (* its task sees the shutdown *)
| PE_stream_end (i : nat)        (* its stream ends, or is broken *)
| PE_tick                        (* the housekeeping task is due *)
| PE_signal                      (* SIGINT, SIGHUP or SIGTERM *)
| PE_close
| PE_exit
| PE_run (t : nat) | PE_receive_change (c : ChanId) | PE_receive_query (c : ChanId)
| PE_drop_change (c : ChanId) | PE_drop_query (c : ChanId)
| PE_cancel (t : nat).           (* a client gives up its request *)

(** The requests of clients. *)
Definition client_op (op : Op) : bool := match op with Op_housekeeping | Op_shutdown => false | _ => true end.

Definition accepting (phase : Phase) : bool := match phase with PH_serving | PH_stopping _ => true | _ => false end.

Definition has_exited (phase : Phase) : bool := match phase with PH_exited => true | _ => false end.

Definition is_housekeeping (task : Task) : bool := match task with T_start Op_housekeeping => true | _ => false end.

Definition is_ended (m : Machine) (t : nat) : bool :=
  match mc_tasks m !! t with Some (T_end _) => true | _ => false end.

(** The tasks of the server itself have no client to give them up. *)
Definition own_task (p : Process) (t : nat) : bool :=
  existsb (fun pv => bool_decide (pv_update pv = Some t)) (ps_providers p) ||
  match mc_tasks (ps_machine p) !! t with Some (T_start op) => negb (client_op op) | _ => false end.

(** A step of the machine. *)
Definition on_machine (p : Process) (event : LockEvent) : option Process :=
  with_machine p <$> lock_step (ps_machine p) event.

(** A provider in its [select!], and what becomes of it. *)
Definition idle_provider (p : Process) (i : nat) (f : Provider -> option Process) : option Process :=
  match ps_providers p !! i with
  | Some pv => if pv_running pv && negb (is_some (pv_update pv)) then f pv else None
  | None => None
  end.
Definition stop_provider (p : Process) (i : nat) (pv : Provider) : Process :=
  with_providers p (<[i := {| pv_trigger := pv_trigger pv; pv_update := None; pv_running := false |}]> (ps_providers p)).

Definition process_step (p : Process) (event : ProcessEvent) : option Process :=
  let m := ps_machine p in
  let next := length (mc_tasks m) in
  if has_exited (ps_phase p) then None else
  match event with
  | PE_request op => if accepting (ps_phase p) && client_op op then on_machine p (LE_request op) else None
  | PE_provider =>
      if accepting (ps_phase p) then
        Some (with_providers p (ps_providers p ++
          [{| pv_trigger := shutdown_trigger (mc_broker m); pv_update := None; pv_running := true |}]))
      else None
  | PE_message i permissions now updates =>
      idle_provider p i (fun pv =>
        on_machine (with_providers p (<[i := {| pv_trigger := pv_trigger pv; pv_update := Some next;
                                               pv_running := true |}]> (ps_providers p)))
          (LE_request (Op_update permissions now updates)))
  | PE_updated i =>
      match ps_providers p !! i with
      | Some {| pv_trigger := trigger; pv_update := Some t; pv_running := running |} =>
          if is_ended m t
          then Some (with_providers p (<[i := {| pv_trigger := trigger; pv_update := None; pv_running := running |}]>
                                         (ps_providers p)))
          else None
      | _ => None
      end
  | PE_triggered i =>
      idle_provider p i (fun pv =>
        if (pv_trigger pv <? shutdown_trigger (mc_broker m))%nat then Some (stop_provider p i pv) else None)
  | PE_stream_end i => idle_provider p i (fun pv => Some (stop_provider p i pv))
  | PE_tick => if existsb is_housekeeping (mc_tasks m) then None else on_machine p (LE_request Op_housekeeping)
  | PE_signal =>
      match ps_phase p with
      | PH_serving => on_machine (with_phase p (PH_stopping next)) (LE_request Op_shutdown)
      | _ => None
      end
  | PE_close =>
      match ps_phase p with
      | PH_stopping t => if is_ended m t then Some (with_phase p PH_draining) else None
      | _ => None
      end
  | PE_exit =>
      match ps_phase p with
      | PH_draining =>
          if forallb (task_over m) (mc_tasks m) && forallb (fun pv => negb (pv_running pv)) (ps_providers p)
          then Some (with_phase p PH_exited) else None
      | _ => None
      end
  | PE_run t => on_machine p (LE_run t)
  | PE_receive_change c => on_machine p (LE_receive_change c)
  | PE_receive_query c => on_machine p (LE_receive_query c)
  | PE_drop_change c => on_machine p (LE_drop_change c)
  | PE_drop_query c => on_machine p (LE_drop_query c)
  | PE_cancel t => if own_task p t then None else on_machine p (LE_cancel t)
  end.

Fixpoint process_run (p : Process) (events : list ProcessEvent) : option Process :=
  match events with
  | [] => Some p
  | event :: events => match process_step p event with Some p => process_run p events | None => None end
  end.
End Process.
