(* ===== verification/LifecycleSpec.v ===== *)
(** * LifecycleSpec: stopping the broker

    Theorems of [Lifecycle]: that the broker can exit after a signal without the
    help of its clients, and that one subscription that is registered after the
    broker was shut down keeps it from exiting. *)

From S2P Require Import Prelude Types Regex Glob Permissions Auth Entry Database Query Broker Delivery System.
From S2P Require Import Locks LocksSpec LocksRun Lifecycle.

Section LifecycleSpec.
Context `{RegexEngine} `{HashOrder} `{SqlParser} `{LockPolicy}.

(** ** A turn of a task *)

(** Channels stay open until their clients drop them. *)
Definition stays_open {A} (store store' : list (Channel A)) : Prop :=
  forall c ch, store !! c = Some ch -> closed ch = false -> exists ch', store' !! c = Some ch' /\ closed ch' = false.

Lemma stays_open_refl {A} (store : list (Channel A)) : stays_open store store.
Proof. intros c ch Hc Hcl. by exists ch. Qed.

Lemma stays_open_app {A} (store l : list (Channel A)) : stays_open store (store ++ l).
Proof. intros c ch Hc Hcl. exists ch. split; [by apply lookup_app_l_Some|done]. Qed.

Lemma stays_open_send {A} (store : list (Channel A)) c message :
  stays_open store (send_notification store c message).2.
Proof.
  intros c' ch Hc Hcl. unfold send_notification, send. destruct (store !! c) as [ch0|] eqn:Hc0; [|by exists ch].
  destruct (closed ch0) eqn:Ecl; [by exists ch|]. simpl. destruct (decide (c = c')) as [->|Hne].
  - rewrite list_lookup_insert_eq by (by eapply lookup_lt_Some). by eexists.
  - rewrite list_lookup_insert_ne by done. by exists ch.
Qed.

Lemma stays_open_notify (messages : list EntryUpdates) store c :
  stays_open store
    (match messages with [] => (Ok tt, store) | message :: _ => send_notification store c message end).2.
Proof. destruct messages; [apply stays_open_refl|apply stays_open_send]. Qed.

(** The subscribers to changes that are still connected. *)
Definition connected (b : DataBroker) (sub : ChangeSubscription) : Prop :=
  sub ∈ change_subscriptions (subscriptions b) /\
  exists ch, change_channels (channels b) !! cs_sender sub = Some ch /\ closed ch = false.

(** What one turn does to the subscriptions. *)
Record turn (b : DataBroker) (task : Task) (b' : DataBroker) (task' : Task) : Prop := {
  tu_registers : (registers task' <= registers task)%nat;
  tu_started op : task' <> T_start op;
  tu_ended : task = T_start Op_shutdown -> task' = T_end TR_done;
  tu_shutdown : task = T_start Op_shutdown ->
    subscribers (subscriptions b') = O /\ shutdown_trigger b' = S (shutdown_trigger b);
  tu_quiet : task <> T_start Op_shutdown ->
    shutdown_trigger b' = shutdown_trigger b /\
    (subscribers (subscriptions b') <= subscribers (subscriptions b) + registers task)%nat;
  tu_connected sub : task <> T_start Op_shutdown -> connected b sub -> connected b' sub
}.

Lemma connected_same b b' sub :
  change_subscriptions (subscriptions b') = change_subscriptions (subscriptions b) ->
  stays_open (change_channels (channels b)) (change_channels (channels b')) -> connected b sub -> connected b' sub.
Proof. intros Hs Ho [Hin (ch & Hc & Hcl)]. split; [by rewrite Hs|]. by eapply Ho. Qed.

Lemma connected_cleanup b sub : connected b sub -> connected (cleanup_subscriptions b) sub.
Proof.
  intros [Hin (ch & Hc & Hcl)]. split; [|by exists ch]. simpl.
  apply list_elem_of_In, filter_In. split; [by apply list_elem_of_In|]. unfold is_closed. by rewrite Hc, Hcl.
Qed.

#[local] Hint Resolve stays_open_refl stays_open_app connected_cleanup : core.

(** One section: the obligations of [turn] by computation. *)
Ltac section_turn :=
  split; simpl; try done; try lia;
  try (intros _; split; [done|unfold subscribers in *; simpl in *; rewrite ?length_app; simpl; lia]);
  intros sub' _; try (by apply connected_same; simpl; auto); try (by auto).

Lemma task_step_turn m t task m' :
  task_step m t task = Some m' -> exists b' task', m' = become m b' t task' /\ turn (mc_broker m) task b' task'.
Proof.
  destruct task as [op|now changed errors|now changed errors queries changes failed|errors|sub|sub|r];
    cbn -[query_notify change_notify query_message change_message].
  - unfold start_step. destruct op.
    + destruct (can_write_database m t); [|done]. unfold add_entry.
      destruct (add _ _ _ _ _ _ _ _ _ _ _) as [r db]. intros [= <-]. eexists _, _. split; [done|]. section_turn.
    + destruct (can_read_database m t); [|done]. intros [= <-]. eexists _, _. split; [done|]. section_turn.
    + destruct (can_write_database m t); [|done].
      destruct (apply_updates _ _ _ _ _ _) as [[db changed] errors]. intros [= <-]. eexists _, _. split; [done|]. section_turn.
    + destruct (can_read_database m t); [|done]. unfold subscribe_initial.
      case_bool_decide; [intros [= <-]; eexists _, _; split; [done|]; section_turn|]. simpl. rewrite send_new.
      intros [= <-]. eexists _, _. split; [done|]. section_turn.
    + destruct (can_read_database m t); [|done]. unfold query_initial.
      destruct (compile _ _); [|intros [= <-]; eexists _, _; split; [done|]; section_turn].
      destruct (channel _) as [c st]. destruct (query_notify _ _ _ _ _) as [[] st']; intros [= <-];
        (eexists _, _; split; [done|]; section_turn).
    + destruct (can_write_subscriptions m t); [|done]. intros [= <-]. eexists _, _. split; [done|].
      pose proof (cleanup_subscribers (mc_broker m)). section_turn.
    + destruct (can_write_subscriptions m t); [|done]. intros [= <-]. eexists _, _. split; [done|]. split; simpl; try done; lia.
  - destruct (can_read_subscriptions m t); [|done]. intros [= <-]. eexists _, _. split; [done|]. section_turn.
  - destruct queries as [|sub queries]; [destruct changes as [|sub changes]|];
      cbn -[query_notify change_notify query_message change_message].
    + intros [= <-]. eexists _, _. split; [done|]. destruct failed; section_turn.
    + destruct (waits _ _ _ _); [done|]. destruct (change_notify _ _ _ _ _) as [r store] eqn:En.
      pose proof (stays_open_notify (change_message sub (Some changed) (database (mc_broker m)) now)
        (change_channels (channels (mc_broker m))) (cs_sender sub)) as Ho.
      rewrite change_notify_message in En. rewrite En in Ho. intros [= <-]. eexists _, _. split; [done|]. section_turn.
    + destruct (waits _ _ _ _); [done|]. destruct (query_notify _ _ _ _ _) as [r store].
      intros [= <-]. eexists _, _. split; [done|]. section_turn.
  - destruct (can_write_subscriptions m t); [|done]. intros [= <-]. eexists _, _. split; [done|].
    pose proof (cleanup_subscribers (mc_broker m)). section_turn.
  - destruct (can_write_subscriptions m t); [|done]. intros [= <-]. eexists _, _. split; [done|]. section_turn.
    intros [Hin Hch]. split; [|done]. simpl. apply elem_of_app. by left.
  - destruct (can_write_subscriptions m t); [|done]. intros [= <-]. eexists _, _. split; [done|]. section_turn.
  - done.
Qed.

(** ** The invariant of the process *)

(** The machine is in order; a trigger is taken before it is pulled; a provider
    waits for a task there is; the only task that shuts the broker down is the
    one of the signal. *)
Record process_inv (p : Process) : Prop := {
  pi_shape : shape_inv (ps_machine p);
  pi_triggers i pv : ps_providers p !! i = Some pv ->
    (pv_trigger pv <= shutdown_trigger (mc_broker (ps_machine p)))%nat;
  pi_updates i pv t : ps_providers p !! i = Some pv -> pv_update pv = Some t ->
    is_Some (mc_tasks (ps_machine p) !! t);
  pi_shutdown t : mc_tasks (ps_machine p) !! t = Some (T_start Op_shutdown) -> ps_phase p = PH_stopping t;
  pi_stopping t : ps_phase p = PH_stopping t ->
    mc_tasks (ps_machine p) !! t = Some (T_start Op_shutdown) \/ is_ended (ps_machine p) t = true
}.

Lemma process_inv_new b : process_inv (process_new b).
Proof.
  split; simpl; try done. split; simpl; try done.
  all: split; [apply NoDup_nil_2|intros t; split; [by intros ?%elem_of_nil|by intros (x & Hx & _)]].
Qed.

(** A task that ended stays as it is, and tasks are only added. *)
Lemma lock_step_tasks m event m' :
  lock_step m event = Some m' ->
  (forall t, is_Some (mc_tasks m !! t) -> is_Some (mc_tasks m' !! t)) /\
  (forall t, is_ended m t = true -> is_ended m' t = true).
Proof.
  assert (forall t x y, mc_tasks m !! t = Some x -> is_ended m t = false ->
    (forall t', is_Some (mc_tasks m !! t') -> is_Some (<[t := y]> (mc_tasks m) !! t')) /\
    (forall t', is_ended m t' = true ->
       match <[t := y]> (mc_tasks m) !! t' with Some (T_end _) => true | _ => false end = true)) as Hbecome.
  { intros t x y Hx He. split; intros t'.
    - intros Hs. destruct (decide (t = t')) as [<-|Hne].
      + rewrite list_lookup_insert_eq by (by eapply lookup_lt_Some). by eexists.
      + by rewrite list_lookup_insert_ne.
    - intros He'. rewrite list_lookup_insert_ne; [done|]. intros ->. congruence. }
  intros Hstep. destruct event as [op|t|c|c|c|c|t].
  - injection Hstep as <-. split; intros t; simpl.
    + intros [x Hx]. exists x. by apply lookup_app_l_Some.
    + unfold is_ended. simpl. destruct (mc_tasks m !! t) as [x|] eqn:Hx; [|done]. by rewrite (lookup_app_l_Some _ _ _ _ Hx).
  - simpl in Hstep. destruct (mc_tasks m !! t) as [task|] eqn:Ht; [|done].
    assert (is_ended m t = false) as He by (unfold is_ended; rewrite Ht; by destruct task).
    apply task_step_turn in Hstep as (b' & task' & -> & _). by apply (Hbecome t task).
  - simpl in Hstep. destruct (has_message _ _ _); [|done]. by injection Hstep as <-.
  - simpl in Hstep. destruct (has_message _ _ _); [|done]. by injection Hstep as <-.
  - by injection Hstep as <-.
  - by injection Hstep as <-.
  - pose proof Hstep as Hc. apply cancel_cases in Hc as (task & Ht & ->). apply (Hbecome t task); [done|].
    simpl in Hstep. rewrite Ht in Hstep. unfold is_ended. rewrite Ht. by destruct task.
Qed.

(** What a step that is no request of the server does to the rest of the
    invariant. *)
Lemma lock_step_trigger m event m' :
  lock_step m event = Some m' ->
  (shutdown_trigger (mc_broker m) <= shutdown_trigger (mc_broker m'))%nat /\
  forall t, mc_tasks m' !! t = Some (T_start Op_shutdown) ->
    mc_tasks m !! t = Some (T_start Op_shutdown) \/ event = LE_request Op_shutdown /\ t = length (mc_tasks m).
Proof.
  intros Hstep. destruct event as [op|t|c|c|c|c|t].
  - injection Hstep as <-. split; [done|]. simpl. intros t [Hx|[Hge Hx]]%lookup_app_Some; [by left|].
    apply list_lookup_singleton_Some in Hx as [Hi Hx]. right. split; [|lia].
    destruct (first_task_cases op) as [E|[r E]]; rewrite E in Hx; congruence.
  - simpl in Hstep. destruct (mc_tasks m !! t) as [task|] eqn:Ht; [|done].
    apply task_step_turn in Hstep as (b' & task' & -> & Hturn). split; simpl.
    + destruct task as [[]| | | | | |];
        try (rewrite (proj1 (tu_quiet _ _ _ _ Hturn ltac:(done))); done).
      rewrite (proj2 (tu_shutdown _ _ _ _ Hturn eq_refl)). lia.
    + intros t' Hx. left. destruct (decide (t = t')) as [<-|Hne].
      * rewrite list_lookup_insert_eq in Hx by (by eapply lookup_lt_Some). injection Hx as ->.
        by destruct (tu_started _ _ _ _ Hturn Op_shutdown).
      * by rewrite list_lookup_insert_ne in Hx.
  - simpl in Hstep. destruct (has_message _ _ _); [|done]. injection Hstep as <-. split; [done|]. intros t Ht. by left.
  - simpl in Hstep. destruct (has_message _ _ _); [|done]. injection Hstep as <-. split; [done|]. intros t Ht. by left.
  - injection Hstep as <-. split; [done|]. intros t Ht. by left.
  - injection Hstep as <-. split; [done|]. intros t Ht. by left.
  - apply cancel_cases in Hstep as (task & Ht & ->). split; [done|]. simpl. intros t' Hx. left.
    destruct (decide (t = t')) as [<-|Hne].
    + by rewrite list_lookup_insert_eq in Hx by (by eapply lookup_lt_Some).
    + by rewrite list_lookup_insert_ne in Hx.
Qed.

(** The task of the shutdown waits until it is over. *)
Lemma lock_step_stopping m event m' t :
  lock_step m event = Some m' -> event <> LE_cancel t -> mc_tasks m !! t = Some (T_start Op_shutdown) ->
  mc_tasks m' !! t = Some (T_start Op_shutdown) \/ is_ended m' t = true.
Proof.
  intros Hstep Hne Ht. destruct event as [op|t'|c|c|c|c|t'].
  - injection Hstep as <-. left. simpl. by apply lookup_app_l_Some.
  - simpl in Hstep. destruct (mc_tasks m !! t') as [task|] eqn:Ht'; [|done].
    apply task_step_turn in Hstep as (b' & task' & -> & Hturn). simpl. destruct (decide (t' = t)) as [->|Hn].
    + simplify_eq. right. unfold is_ended. simpl. rewrite list_lookup_insert_eq by (by eapply lookup_lt_Some).
      by rewrite (tu_ended _ _ _ _ Hturn eq_refl).
    + left. by rewrite list_lookup_insert_ne.
  - simpl in Hstep. destruct (has_message _ _ _); [|done]. injection Hstep as <-. by left.
  - simpl in Hstep. destruct (has_message _ _ _); [|done]. injection Hstep as <-. by left.
  - injection Hstep as <-. by left.
  - injection Hstep as <-. by left.
  - apply cancel_cases in Hstep as (task & Htask & ->). left. simpl. rewrite list_lookup_insert_ne; [done|]. congruence.
Qed.

Lemma on_machine_inv p event p' :
  process_inv p -> event <> LE_request Op_shutdown ->
  (forall t, event = LE_cancel t -> mc_tasks (ps_machine p) !! t <> Some (T_start Op_shutdown)) ->
  on_machine p event = Some p' -> process_inv p'.
Proof.
  intros [Hs Htr Hup Hsh Hst] Hreq Hcancel. unfold on_machine.
  destruct (lock_step (ps_machine p) event) as [m'|] eqn:Hstep; [|done]. intros [= <-].
  destruct (lock_step_tasks _ _ _ Hstep) as [Hkeep Hend]. destruct (lock_step_trigger _ _ _ Hstep) as [Hle Hnew].
  split; simpl.
  - by eapply lock_step_shape.
  - intros i pv Hi. specialize (Htr i pv Hi). lia.
  - intros i pv t Hi Hu. by eapply Hkeep, Hup.
  - intros t Ht. destruct (Hnew t Ht) as [Ht'|[-> _]]; [by apply Hsh|done].
  - intros t Hph. destruct (Hst t Hph) as [Ht|He]; [|right; by apply Hend].
    apply (lock_step_stopping _ _ _ _ Hstep); [|done]. intros ->. by apply (Hcancel t eq_refl).
Qed.

Lemma with_providers_inv p l :
  process_inv p ->
  (forall i pv, l !! i = Some pv ->
     (pv_trigger pv <= shutdown_trigger (mc_broker (ps_machine p)))%nat /\
     forall t, pv_update pv = Some t -> is_Some (mc_tasks (ps_machine p) !! t)) ->
  process_inv (with_providers p l).
Proof.
  intros [Hs Htr Hup Hsh Hst] Hl. split; simpl; try done; [by apply Hl|].
  intros i pv t Hi. by apply (proj2 (Hl i pv Hi)).
Qed.

(** One provider replaced. *)
Lemma set_provider_inv p i pv pv' :
  process_inv p -> ps_providers p !! i = Some pv -> pv_trigger pv' = pv_trigger pv ->
  (forall t, pv_update pv' = Some t -> is_Some (mc_tasks (ps_machine p) !! t)) ->
  process_inv (with_providers p (<[i := pv']> (ps_providers p))).
Proof.
  intros Hinv Hi Ht Hu. apply with_providers_inv; [done|]. intros j x.
  destruct (decide (i = j)) as [<-|Hne].
  - rewrite list_lookup_insert_eq by (by eapply lookup_lt_Some). intros [= <-]. rewrite Ht. split; [|done].
    by eapply pi_triggers.
  - rewrite list_lookup_insert_ne by done. intros Hx. split; [by eapply pi_triggers|].
    intros t. by eapply pi_updates.
Qed.

Lemma idle_provider_Some p i f p' :
  idle_provider p i f = Some p' ->
  exists pv, ps_providers p !! i = Some pv /\ pv_running pv = true /\ pv_update pv = None /\ f pv = Some p'.
Proof.
  unfold idle_provider. destruct (ps_providers p !! i) as [pv|]; [|done].
  destruct (pv_running pv) eqn:Er, (pv_update pv) eqn:Eu; simpl; try done. intros Hf. by exists pv.
Qed.

Lemma stop_provider_inv p i pv : process_inv p -> ps_providers p !! i = Some pv -> process_inv (stop_provider p i pv).
Proof. intros Hinv Hi. by eapply set_provider_inv. Qed.

Lemma process_step_inv p event p' : process_inv p -> process_step p event = Some p' -> process_inv p'.
Proof.
  intros Hinv. unfold process_step. destruct (has_exited (ps_phase p)); [done|].
  assert (forall event, event <> LE_request Op_shutdown -> (forall t, event <> LE_cancel t) ->
    on_machine p event = Some p' -> process_inv p') as Hmachine.
  { intros e Hreq Hcancel. apply on_machine_inv; [done|done|]. intros t ->. by destruct (Hcancel t). }
  destruct event as [op| |i permissions now updates|i|i|i| | | | |t|c|c|c|c|t]; try (by apply Hmachine).
  - destruct (accepting _), (client_op op) eqn:Eop; simpl; try done. apply Hmachine; [by intros [= ->]|done].
  - destruct (accepting _); [|done]. intros [= <-]. apply with_providers_inv; [done|].
    intros j pv [Hj|[_ Hj]]%lookup_app_Some.
    + split; [by eapply pi_triggers|]. intros t. by eapply pi_updates.
    + apply list_lookup_singleton_Some in Hj as [_ <-]. done.
  - intros (pv & Hi & Hr & Hu & Hf)%idle_provider_Some. unfold on_machine in Hf. injection Hf as <-. simpl.
    assert (process_inv (with_machine p {| mc_broker := mc_broker (ps_machine p);
      mc_change_received := mc_change_received (ps_machine p); mc_query_received := mc_query_received (ps_machine p);
      mc_tasks := mc_tasks (ps_machine p) ++ [T_start (Op_update permissions now updates)];
      mc_database_queue := mc_database_queue (ps_machine p) ++ [length (mc_tasks (ps_machine p))];
      mc_subscriptions_queue := mc_subscriptions_queue (ps_machine p) ++ [] |})) as Hinv'.
    { by apply (on_machine_inv p (LE_request (Op_update permissions now updates)) _ Hinv). }
    apply (set_provider_inv _ i pv _ Hinv' Hi); [done|]. simpl. intros t [= <-]. exists (T_start (Op_update permissions now updates)).
    by rewrite list_lookup_middle.
  - destruct (ps_providers p !! i) as [[trigger [t|] running]|] eqn:Hi; try done.
    destruct (is_ended _ _); [|done]. intros [= <-]. by eapply set_provider_inv.
  - intros (pv & Hi & Hr & Hu & Hf)%idle_provider_Some. destruct (_ <? _)%nat; [|done]. injection Hf as <-.
    by apply stop_provider_inv.
  - intros (pv & Hi & Hr & Hu & Hf)%idle_provider_Some. injection Hf as <-. by apply stop_provider_inv.
  - destruct (existsb _ _); [done|]. by apply Hmachine.
  - destruct (ps_phase p) eqn:Eph; try done. unfold on_machine. intros [= <-]. destruct Hinv as [Hs Htr Hup Hsh Hst].
    split; simpl.
    + by apply (request_shape _ Op_shutdown _ Hs).
    + done.
    + intros i pv t Hi Hu. destruct (Hup i pv t Hi Hu) as [x Hx]. exists x. by apply lookup_app_l_Some.
    + intros t [Hx|[Hge Hx]]%lookup_app_Some; [by specialize (Hsh t Hx); congruence|].
      apply list_lookup_singleton_Some in Hx as [Hx _]. f_equal. lia.
    + intros t [= <-]. left. by rewrite list_lookup_middle.
  - destruct (ps_phase p) as [|t| |] eqn:Eph; try done. destruct (is_ended _ _) eqn:Ee; [|done]. intros [= <-].
    destruct Hinv as [Hs Htr Hup Hsh Hst]. split; simpl; try done. intros t' Ht'. specialize (Hsh t' Ht').
    rewrite Eph in Hsh. injection Hsh as <-. unfold is_ended in Ee. by rewrite Ht' in Ee.
  - destruct (ps_phase p) eqn:Eph; try done. destruct (_ && _); [|done]. intros [= <-].
    destruct Hinv as [Hs Htr Hup Hsh Hst]. split; simpl; try done. intros t Ht. specialize (Hsh t Ht). congruence.
  - destruct (own_task p t) eqn:Eown; [done|]. apply on_machine_inv; [done|done|]. intros t' [= <-] Ht.
    unfold own_task in Eown. rewrite Ht in Eown. by rewrite orb_true_r in Eown.
Qed.

Lemma process_run_inv events p p' : process_inv p -> process_run p events = Some p' -> process_inv p'.
Proof.
  revert p. induction events as [|event events IH]; intros p Hinv; simpl; [by intros [= <-]|].
  destruct (process_step p event) as [p1|] eqn:He; [|done]. by eapply IH, process_step_inv.
Qed.

(** ** Stopping *)

(** What happens without the help of clients that leave and without new
    requests: tasks go on, clients read, the server notices. *)
Definition cooperative (event : ProcessEvent) : Prop :=
  match event with
  | PE_run _ | PE_receive_change _ | PE_receive_query _ | PE_updated _ | PE_triggered _ | PE_close | PE_exit => True
  | _ => False
  end.

(** [p] can become [p'] in this way. *)
Definition can_become (p p' : Process) : Prop :=
  exists events, Forall cooperative events /\ process_run p events = Some p'.

Lemma process_run_app p events1 events2 :
  process_run p (events1 ++ events2) =
    match process_run p events1 with Some p1 => process_run p1 events2 | None => None end.
Proof.
  revert p. induction events1 as [|event events1 IH]; intros p; simpl; [done|].
  by destruct (process_step p event).
Qed.

#[local] Instance can_become_preorder : PreOrder can_become.
Proof.
  split.
  - intros p. by exists [].
  - intros p1 p2 p3 (e1 & H1' & R1) (e2 & H2' & R2). exists (e1 ++ e2). split; [by apply Forall_app|].
    by rewrite process_run_app, R1.
Qed.

Lemma can_become_step p event p' : cooperative event -> process_step p event = Some p' -> can_become p p'.
Proof. intros Hc Hs. exists [event]. split; [by apply Forall_singleton|]. simpl. by rewrite Hs. Qed.

Lemma can_become_helpful m m' p :
  rtc helpful m m' -> ps_machine p = m -> has_exited (ps_phase p) = false -> can_become p (with_machine p m').
Proof.
  intros Hr. revert p. induction Hr as [m|m1 m2 m3 (event & Hh & He) _ IH]; intros p <- Hx; [by destruct p|].
  transitivity (with_machine p m2); [|by apply (IH (with_machine p m2))].
  assert (exists pe, cooperative pe /\ process_step p pe = Some (with_machine p m2)) as (pe & Hc & Hs);
    [|by eapply can_become_step].
  destruct event as [op|t|c|c|c|c|t]; try done;
    [exists (PE_run t)|exists (PE_receive_change c)|exists (PE_receive_query c)]; split; try done;
    unfold process_step, on_machine; by rewrite Hx, He.
Qed.

(** While the tasks go on: the task [t] will shut the broker down, or nobody is
    subscribed any more; and nobody will be. *)
Record closing (t k : nat) (m : Machine) : Prop := {
  cl_shape : shape_inv m;
  cl_state : mc_tasks m !! t = Some (T_start Op_shutdown) /\ shutdown_trigger (mc_broker m) = k \/
             mc_tasks m !! t <> Some (T_start Op_shutdown) /\
             subscribers (subscriptions (mc_broker m)) = O /\ shutdown_trigger (mc_broker m) = S k;
  cl_registers : sum_list_with registers (mc_tasks m) = O;
  cl_only t' : mc_tasks m !! t' = Some (T_start Op_shutdown) -> t' = t
}.

Lemma sum_zero {B} (f : B -> nat) l i x : sum_list_with f l = O -> l !! i = Some x -> f x = O.
Proof.
  revert i. induction l as [|y l IH]; intros [|i] Hs Hi; simpl in *; try done; [injection Hi as ->; lia|].
  apply (IH i); [lia|done].
Qed.

Lemma closing_run t k m t' m' : closing t k m -> lock_step m (LE_run t') = Some m' -> closing t k m'.
Proof.
  intros [Hs Hst Hreg Honly] Hstep. pose proof (lock_step_shape _ _ _ Hs Hstep) as Hs'.
  simpl in Hstep. destruct (mc_tasks m !! t') as [task|] eqn:Ht'; [|done].
  apply task_step_turn in Hstep as (b' & task' & -> & Hturn). pose proof (lookup_lt_Some _ _ _ Ht') as Hlt.
  pose proof (sum_zero _ _ _ _ Hreg Ht') as Hzero. pose proof (tu_registers _ _ _ _ Hturn) as Hle.
  split; [done| | |].
  - simpl. assert (task = T_start Op_shutdown \/ task <> T_start Op_shutdown) as [->|Hne]
      by (destruct task as [[]| | | | | |]; auto).
    + right. destruct (tu_shutdown _ _ _ _ Hturn eq_refl) as [-> ->]. pose proof (Honly t' Ht') as ->.
      destruct Hst as [[_ ->]|[Hno _]]; [|done]. split; [|done]. rewrite list_lookup_insert_eq by done.
      rewrite (tu_ended _ _ _ _ Hturn eq_refl). done.
    + destruct (tu_quiet _ _ _ _ Hturn Hne) as [-> Hsub]. destruct Hst as [[Ht Hk]|(Hno & Hz & Hk)].
      * left. split; [|done]. rewrite list_lookup_insert_ne; [done|]. intros ->. congruence.
      * right. split_and!; [|lia|done]. destruct (decide (t' = t)) as [->|Hn].
        -- rewrite list_lookup_insert_eq by done. intros [= ->]. by destruct (tu_started _ _ _ _ Hturn Op_shutdown).
        -- by rewrite list_lookup_insert_ne.
  - simpl. pose proof (sum_insert registers _ _ _ task' Ht'). lia.
  - simpl. intros t2. destruct (decide (t' = t2)) as [->|Hn].
    + rewrite list_lookup_insert_eq by done. intros [= ->]. by destruct (tu_started _ _ _ _ Hturn Op_shutdown).
    + rewrite list_lookup_insert_ne by done. apply Honly.
Qed.

Lemma closing_helpful t k m m' : rtc helpful m m' -> closing t k m -> closing t k m'.
Proof.
  induction 1 as [|m1 m2 m3 (event & Hh & He) _ IH]; [done|]. intros Hc. apply IH.
  destruct event as [op|t'|c|c|c|c|t']; try done; [by eapply closing_run| |]; simpl in He;
    destruct (has_message _ _ _); try done; injection He as <-; destruct Hc as [Hs Hst Hreg Honly];
    by split; [apply (shape_inv_frame m1)| | |].
Qed.

(** ** Reading what is left *)

(** All of a store's messages are taken, where there still is a client. *)
Definition all_read {A} (store : list (Channel A)) (got : gmap ChanId nat) (n : nat) : Prop :=
  forall c ch, (c < n)%nat -> store !! c = Some ch -> closed ch = false -> (length (sent ch) <= received got c)%nat.

(** One channel read to its end leaves the others alone. *)
Lemma read_change m c ch :
  change_channels (channels (mc_broker m)) !! c = Some ch -> closed ch = false ->
  exists got, rtc helpful m (with_received m got (mc_query_received m)) /\
    (length (sent ch) <= received got c)%nat /\
    forall c', c <> c' -> received got c' = received (mc_change_received m) c'.
Proof.
  intros Hc Hcl. remember (length (sent ch) - received (mc_change_received m) c)%nat as n eqn:Hn.
  revert m Hc Hn. induction n as [|n IH]; intros m Hc Hn.
  - exists (mc_change_received m). split_and!; [by destruct m|lia|done].
  - set (m1 := with_received m (receive_from (mc_change_received m) c) (mc_query_received m)).
    destruct (IH m1 Hc) as (got & Hr & Hgot & Hoth); [simpl; rewrite received_more; lia|].
    exists got. split_and!; [|done|].
    + eapply rtc_l; [|exact Hr]. exists (LE_receive_change c). split; [done|]. simpl.
      by rewrite (has_message_open _ _ _ ch) by (done || lia).
    + intros c' Hne. rewrite Hoth by done. simpl. by apply received_other.
Qed.

Lemma read_query m c ch :
  query_channels (channels (mc_broker m)) !! c = Some ch -> closed ch = false ->
  exists got, rtc helpful m (with_received m (mc_change_received m) got) /\
    (length (sent ch) <= received got c)%nat /\
    forall c', c <> c' -> received got c' = received (mc_query_received m) c'.
Proof.
  intros Hc Hcl. remember (length (sent ch) - received (mc_query_received m) c)%nat as n eqn:Hn.
  revert m Hc Hn. induction n as [|n IH]; intros m Hc Hn.
  - exists (mc_query_received m). split_and!; [by destruct m|lia|done].
  - set (m1 := with_received m (mc_change_received m) (receive_from (mc_query_received m) c)).
    destruct (IH m1 Hc) as (got & Hr & Hgot & Hoth); [simpl; rewrite received_more; lia|].
    exists got. split_and!; [|done|].
    + eapply rtc_l; [|exact Hr]. exists (LE_receive_query c). split; [done|]. simpl.
      by rewrite (has_message_open _ _ _ ch) by (done || lia).
    + intros c' Hne. rewrite Hoth by done. simpl. by apply received_other.
Qed.

Lemma all_read_next {A} (store : list (Channel A)) got n :
  (forall ch, store !! n = Some ch -> closed ch = false -> (length (sent ch) <= received got n)%nat) ->
  all_read store got n -> all_read store got (S n).
Proof. intros Hn Hl c ch Hc. destruct (decide (c = n)) as [->|]; [by apply Hn|]. apply Hl. lia. Qed.

Lemma read_changes m n :
  exists got, rtc helpful m (with_received m got (mc_query_received m)) /\
    all_read (change_channels (channels (mc_broker m))) got n.
Proof.
  induction n as [|n (got & Hr & Hgot)]; [exists (mc_change_received m); split; [by destruct m|intros c ch; lia]|].
  destruct (change_channels (channels (mc_broker m)) !! n) as [ch|] eqn:Hc; [destruct (closed ch) eqn:Hcl|].
  - exists got. split; [done|]. apply all_read_next; [|done]. intros ch' Hc'. congruence.
  - destruct (read_change (with_received m got (mc_query_received m)) n ch Hc Hcl) as (got' & Hr' & Hlen & Hoth).
    exists got'. split; [by transitivity (with_received m got (mc_query_received m))|].
    apply all_read_next; [intros ch' Hc' _; by simplify_eq|]. intros c ch' Hlt Hc' Hcl'.
    rewrite Hoth by lia. by apply (Hgot c).
  - exists got. split; [done|]. apply all_read_next; [|done]. intros ch' Hc'. congruence.
Qed.

Lemma read_queries m n :
  exists got, rtc helpful m (with_received m (mc_change_received m) got) /\
    all_read (query_channels (channels (mc_broker m))) got n.
Proof.
  induction n as [|n (got & Hr & Hgot)]; [exists (mc_query_received m); split; [by destruct m|intros c ch; lia]|].
  destruct (query_channels (channels (mc_broker m)) !! n) as [ch|] eqn:Hc; [destruct (closed ch) eqn:Hcl|].
  - exists got. split; [done|]. apply all_read_next; [|done]. intros ch' Hc'. congruence.
  - destruct (read_query (with_received m (mc_change_received m) got) n ch Hc Hcl) as (got' & Hr' & Hlen & Hoth).
    exists got'. split; [by transitivity (with_received m (mc_change_received m) got)|].
    apply all_read_next; [intros ch' Hc' _; by simplify_eq|]. intros c ch' Hlt Hc' Hcl'.
    rewrite Hoth by lia. by apply (Hgot c).
  - exists got. split; [done|]. apply all_read_next; [|done]. intros ch' Hc'. congruence.
Qed.

Lemma stream_over_read {A} (store : list (Channel A)) got c :
  all_read store got (length store) -> stream_over false store got c = true.
Proof.
  intros Hl. unfold stream_over. destruct (store !! c) as [ch|] eqn:Hc; [|done].
  destruct (closed ch) eqn:Hcl; [done|]. simpl. apply Nat.leb_le. eapply Hl; [|done|done]. by eapply lookup_lt_Some.
Qed.

(** With nobody subscribed and everything read, every answered request is over. *)
Lemma all_over m :
  Forall ended (mc_tasks m) -> subscribers (subscriptions (mc_broker m)) = O ->
  exists change query, rtc helpful m (with_received m change query) /\
    forallb (task_over (with_received m change query)) (mc_tasks m) = true.
Proof.
  intros Hend Hsub. destruct (read_changes m (length (change_channels (channels (mc_broker m))))) as (change & Hr1 & Hc).
  destruct (read_queries (with_received m change (mc_query_received m))
    (length (query_channels (channels (mc_broker m))))) as (query & Hr2 & Hq).
  exists change, query. split; [by transitivity (with_received m change (mc_query_received m))|].
  unfold subscribers in Hsub. apply Nat.eq_add_0 in Hsub as [Hsq%length_zero_iff_nil Hsc%length_zero_iff_nil].
  apply forallb_forall. intros task Hin%list_elem_of_In. rewrite Forall_forall in Hend.
  destruct (Hend task Hin) as [[ | | |[c|]|[c|]| |] ->]; try done; simpl.
  - unfold change_registered. rewrite Hsc. by apply stream_over_read.
  - unfold query_registered. rewrite Hsq. by apply stream_over_read.
Qed.

(** ** The providers *)

Lemma ended_is_ended m t : Forall ended (mc_tasks m) -> is_Some (mc_tasks m !! t) -> is_ended m t = true.
Proof.
  intros Hend [task Ht]. unfold is_ended. rewrite Ht. rewrite Forall_lookup in Hend.
  by destruct (Hend t task Ht) as [r ->].
Qed.

(** One provider whose trigger was pulled and whose update is answered stops. *)
Lemma stop_one p i pv :
  has_exited (ps_phase p) = false -> Forall ended (mc_tasks (ps_machine p)) -> ps_providers p !! i = Some pv ->
  (pv_trigger pv < shutdown_trigger (mc_broker (ps_machine p)))%nat ->
  (forall t, pv_update pv = Some t -> is_Some (mc_tasks (ps_machine p) !! t)) ->
  exists pv', can_become p (with_providers p (<[i := pv']> (ps_providers p))) /\ pv_running pv' = false.
Proof.
  intros Hx Hend Hi Hlt Hup. pose proof (lookup_lt_Some _ _ _ Hi) as Hlen.
  assert (forall q pv0, has_exited (ps_phase q) = false -> ps_providers q !! i = Some pv0 ->
    pv_update pv0 = None -> pv_running pv0 = true ->
    (pv_trigger pv0 < shutdown_trigger (mc_broker (ps_machine q)))%nat ->
    can_become q (stop_provider q i pv0)) as Hstop.
  { intros q pv0 Hq Hq0 Hu Hr Hl. apply (can_become_step q (PE_triggered i)); [done|].
    unfold process_step, idle_provider. by rewrite Hq, Hq0, Hu, Hr, (proj2 (Nat.ltb_lt _ _) Hl). }
  destruct (pv_running pv) eqn:Hr.
  2: { exists pv. rewrite list_insert_id by done. split; [|done]. by destruct p. }
  destruct (pv_update pv) as [t|] eqn:Hu.
  - set (pv1 := {| pv_trigger := pv_trigger pv; pv_update := None; pv_running := pv_running pv |}).
    set (p1 := with_providers p (<[i := pv1]> (ps_providers p))).
    exists {| pv_trigger := pv_trigger pv; pv_update := None; pv_running := false |}. split; [|done].
    transitivity p1.
    + apply (can_become_step p (PE_updated i)); [done|]. unfold process_step. rewrite Hx, Hi.
      destruct pv as [trigger update running]. simpl in *. subst update running.
      by rewrite (ended_is_ended _ _ Hend (Hup t eq_refl)).
    + assert (stop_provider p1 i pv1 =
        with_providers p (<[i := {| pv_trigger := pv_trigger pv; pv_update := None; pv_running := false |}]>
                            (ps_providers p))) as <-.
      { unfold stop_provider, p1. simpl. by rewrite list_insert_insert_eq. }
      apply Hstop; [done| |done|done|done]. simpl. by rewrite list_lookup_insert_eq.
  - eexists. split; [by apply Hstop|done].
Qed.

Lemma stop_providers p :
  has_exited (ps_phase p) = false -> Forall ended (mc_tasks (ps_machine p)) ->
  (forall i pv, ps_providers p !! i = Some pv ->
     (pv_trigger pv < shutdown_trigger (mc_broker (ps_machine p)))%nat /\
     forall t, pv_update pv = Some t -> is_Some (mc_tasks (ps_machine p) !! t)) ->
  exists l, can_become p (with_providers p l) /\ forallb (fun pv => negb (pv_running pv)) l = true.
Proof.
  intros Hx Hend Hpv.
  assert (forall n, exists l, can_become p (with_providers p l) /\
    (forall i pv, (i < n)%nat -> l !! i = Some pv -> pv_running pv = false) /\
    forall i, (n <= i)%nat -> l !! i = ps_providers p !! i) as Hall.
  { intros n. induction n as [|n (l & Hb & Hdone & Hrest)].
    - exists (ps_providers p). split_and!; [by destruct p|lia|done].
    - destruct (ps_providers p !! n) as [pv|] eqn:Hn.
      + destruct (Hpv n pv Hn) as [Hlt Hup].
        destruct (stop_one (with_providers p l) n pv) as (pv' & Hb' & Hr'); try done; [by rewrite <- Hn, <- Hrest|].
        exists (<[n := pv']> l). split_and!; [by transitivity (with_providers p l)| |].
        * intros i x Hi. destruct (decide (n = i)) as [<-|Hne].
          -- rewrite list_lookup_insert_eq; [by intros [= <-]|]. by eapply lookup_lt_Some; rewrite Hrest.
          -- rewrite list_lookup_insert_ne by done. apply Hdone. lia.
        * intros i Hi. rewrite list_lookup_insert_ne by lia. apply Hrest. lia.
      + exists l. split_and!; [done| |intros i Hi; apply Hrest; lia]. intros i x Hi Hlx.
        destruct (decide (i = n)) as [->|]; [|apply (Hdone i x); [lia|done]]. rewrite Hrest in Hlx by done. congruence. }
  destruct (Hall (length (ps_providers p))) as (l & Hb & Hdone & Hrest). exists l. split; [done|].
  apply forallb_forall. intros pv (i & Hi)%list_elem_of_In%list_elem_of_lookup. apply negb_true_iff.
  destruct (decide (i < length (ps_providers p))%nat) as [Hlt|Hge]; [by apply (Hdone i)|].
  rewrite Hrest, lookup_ge_None_2 in Hi by lia. done.
Qed.

(** The signal adds the task of the shutdown, and nothing else. *)
Lemma signal_closing p :
  process_inv p -> ps_phase p = PH_serving -> sum_list_with registers (mc_tasks (ps_machine p)) = O ->
  exists t p1, process_step p PE_signal = Some p1 /\ process_inv p1 /\ ps_phase p1 = PH_stopping t /\
    closing t (shutdown_trigger (mc_broker (ps_machine p1))) (ps_machine p1).
Proof.
  intros Hinv Hph Hreg. exists (length (mc_tasks (ps_machine p))).
  destruct (process_step p PE_signal) as [p1|] eqn:E1; [|unfold process_step in E1; by rewrite Hph in E1].
  pose proof (process_step_inv _ _ _ Hinv E1) as Hinv1. exists p1.
  unfold process_step in E1. rewrite Hph in E1. injection E1 as <-. split_and!; [done|done|done|].
  split; [apply Hinv1| | |].
  - left. split; [|done]. simpl. by rewrite list_lookup_middle.
  - simpl. rewrite sum_list_with_app, Hreg. done.
  - intros t' Ht'. apply (pi_shutdown _ Hinv1) in Ht'. by injection Ht'.
Qed.

(** With all requests answered and nobody subscribed, the server can exit. *)
Lemma draining_exits p :
  process_inv p -> ps_phase p = PH_draining -> Forall ended (mc_tasks (ps_machine p)) ->
  subscribers (subscriptions (mc_broker (ps_machine p))) = O ->
  (forall i pv, ps_providers p !! i = Some pv ->
     (pv_trigger pv < shutdown_trigger (mc_broker (ps_machine p)))%nat) ->
  exists p', can_become p p' /\ ps_phase p' = PH_exited.
Proof.
  intros Hinv Hph Hend Hsub Htrig. assert (has_exited (ps_phase p) = false) as Hx by (by rewrite Hph).
  destruct (all_over _ Hend Hsub) as (change & query & Hread & Hover).
  set (m := with_received (ps_machine p) change query) in *.
  destruct (stop_providers (with_machine p m)) as (l & Hb & Hstopped); [done|done| |].
  { intros i pv Hi. split; [by apply (Htrig i)|]. intros t. by apply (pi_updates _ Hinv i). }
  exists (with_phase (with_providers (with_machine p m) l) PH_exited). split; [|done].
  transitivity (with_machine p m); [by apply (can_become_helpful _ _ p Hread)|].
  transitivity (with_providers (with_machine p m) l); [done|].
  apply (can_become_step _ PE_exit); [done|]. unfold process_step. cbn -[task_over forallb]. rewrite Hph.
  change (mc_tasks m) with (mc_tasks (ps_machine p)). by rewrite Hover, Hstopped.
Qed.

(** C7. A signal is enough: whatever streams are open and whatever requests are
    under way, as long as none of them is a subscription still to be granted,
    the broker that is told to stop can exit without any of its clients leaving;
    it only takes that the tasks go on and that the clients read what they were
    sent.  Every stream, of subscribers and of providers, is ended by the
    broker. *)
Theorem graceful_shutdown b events p :
  process_run (process_new b) events = Some p -> ps_phase p = PH_serving ->
  sum_list_with registers (mc_tasks (ps_machine p)) = O ->
  exists p1 p2, process_step p PE_signal = Some p1 /\ can_become p1 p2 /\ ps_phase p2 = PH_exited.
Proof.
  intros Hrun Hph Hreg. pose proof (process_run_inv _ _ _ (process_inv_new b) Hrun) as Hinv.
  destruct (signal_closing p Hinv Hph Hreg) as (t & p1 & E1 & Hinv1 & Hph1 & Hcl). exists p1.
  assert (has_exited (ps_phase p1) = false) as Hx1 by (by rewrite Hph1).
  destruct (drain (ps_machine p1) (pi_shape _ Hinv1)) as (m2 & Hdrain & Hend).
  pose proof (closing_helpful _ _ _ _ Hdrain Hcl) as [_ Hst _ _].
  assert (is_Some (mc_tasks m2 !! t) -> is_ended m2 t = true) as Hended by (by apply ended_is_ended).
  destruct Hst as [[Ht _]|(_ & Hsub & Htrig)].
  { rewrite Forall_lookup in Hend. by destruct (Hend t _ Ht). }
  destruct (can_become_helpful _ _ p1 Hdrain eq_refl Hx1) as (es2 & Hco2 & Hrun2).
  pose proof (process_run_inv _ _ _ Hinv1 Hrun2) as Hinv2.
  set (p3 := with_phase (with_machine p1 m2) PH_draining).
  assert (process_step (with_machine p1 m2) PE_close = Some p3) as E3.
  { unfold process_step. simpl. rewrite Hph1. simpl. destruct (pi_stopping _ Hinv2 t Hph1) as [Ht|He].
    - by rewrite Hended by by eexists.
    - simpl in He. by rewrite He. }
  destruct (draining_exits p3) as (p4 & Hb4 & Hexit); [by eapply process_step_inv|done|done|done| |].
  - intros i pv Hi. simpl in *. rewrite Htrig. pose proof (pi_triggers _ Hinv1 i pv Hi). lia.
  - exists p4. split_and!; [done| |done]. transitivity (with_machine p1 m2); [by exists es2|].
    transitivity p3; [by apply (can_become_step _ PE_close)|done].
Qed.

(** ** A subscription that comes too late *)

(** A subscriber is connected, its request is answered, and nobody will shut the
    broker down any more. *)
Record late (t : nat) (sub : ChangeSubscription) (m : Machine) : Prop := {
  lt_connected : connected (mc_broker m) sub;
  lt_answered : mc_tasks m !! t = Some (T_end (TR_subscribed (Ok (cs_sender sub))));
  lt_no_shutdown t' : mc_tasks m !! t' <> Some (T_start Op_shutdown)
}.

Lemma ended_kept m event m' t r :
  lock_step m event = Some m' -> mc_tasks m !! t = Some (T_end r) -> mc_tasks m' !! t = Some (T_end r).
Proof.
  intros Hstep Ht. destruct event as [op|t'|c|c|c|c|t'].
  - injection Hstep as <-. simpl. by apply lookup_app_l_Some.
  - simpl in Hstep. destruct (mc_tasks m !! t') as [task|] eqn:Ht'; [|done].
    destruct (decide (t' = t)) as [->|Hne]; [by simplify_eq|].
    apply task_step_turn in Hstep as (b' & task' & -> & _). simpl. by rewrite list_lookup_insert_ne.
  - simpl in Hstep. destruct (has_message _ _ _); [|done]. by injection Hstep as <-.
  - simpl in Hstep. destruct (has_message _ _ _); [|done]. by injection Hstep as <-.
  - by injection Hstep as <-.
  - by injection Hstep as <-.
  - pose proof Hstep as Hc. apply cancel_cases in Hc as (task & Ht' & ->). simpl.
    destruct (decide (t' = t)) as [->|Hne]; [|by rewrite list_lookup_insert_ne].
    simpl in Hstep. by rewrite Ht in Hstep.
Qed.

Lemma late_step t sub m event m' :
  late t sub m -> event <> LE_drop_change (cs_sender sub) -> event <> LE_request Op_shutdown ->
  lock_step m event = Some m' -> late t sub m'.
Proof.
  intros [Hcon Hans Hno] Hdrop Hreq Hstep. split; [|by eapply ended_kept|].
  2: { intros t' Ht'. destruct (lock_step_trigger _ _ _ Hstep) as [_ Hnew].
       destruct (Hnew t' Ht') as [?|[? _]]; [by apply (Hno t')|done]. }
  destruct event as [op|t'|c|c|c|c|t']; simpl in Hstep.
  - by injection Hstep as <-.
  - destruct (mc_tasks m !! t') as [task|] eqn:Ht'; [|done].
    apply task_step_turn in Hstep as (b' & task' & -> & Hturn). apply (tu_connected _ _ _ _ Hturn); [|done].
    intros ->. by apply (Hno t').
  - destruct (has_message _ _ _); [|done]. by injection Hstep as <-.
  - destruct (has_message _ _ _); [|done]. by injection Hstep as <-.
  - injection Hstep as <-. destruct Hcon as [Hin (ch & Hc & Hcl)]. split; [done|]. exists ch. split; [|done].
    simpl. rewrite drop_receiver_other; [done|]. intros ->. by apply Hdrop.
  - by injection Hstep as <-.
  - destruct (mc_tasks m !! t') as [[]|]; try done; by injection Hstep as <-.
Qed.

Lemma late_not_over t sub m : late t sub m -> forallb (task_over m) (mc_tasks m) = false.
Proof.
  intros [[Hin (ch & Hc & Hcl)] Hans _]. apply not_true_iff_false. intros Hall.
  rewrite forallb_forall in Hall.
  specialize (Hall _ (proj1 (list_elem_of_In _ _) (list_elem_of_lookup_2 _ _ _ Hans))). simpl in Hall.
  unfold stream_over in Hall. rewrite Hc, Hcl in Hall.
  assert (change_registered (subscriptions (mc_broker m)) (cs_sender sub) = true) as Hreg; [|by rewrite Hreg in Hall].
  apply existsb_exists. exists sub. split; [by apply list_elem_of_In|apply Nat.eqb_refl].
Qed.

Lemma late_process_step t sub p event p' :
  late t sub (ps_machine p) -> ps_phase p = PH_draining -> event <> PE_drop_change (cs_sender sub) ->
  process_step p event = Some p' -> late t sub (ps_machine p') /\ ps_phase p' = PH_draining.
Proof.
  intros Hl Hph Hdrop Hstep.
  assert (forall q e, ps_machine q = ps_machine p -> ps_phase q = PH_draining ->
    e <> LE_drop_change (cs_sender sub) -> e <> LE_request Op_shutdown ->
    on_machine q e = Some p' -> late t sub (ps_machine p') /\ ps_phase p' = PH_draining) as Hmachine.
  { intros q e Hq Hqp Hd Hr. unfold on_machine. rewrite Hq. destruct (lock_step _ e) as [m'|] eqn:He; [|done].
    intros [= <-]. split; [|done]. by eapply late_step. }
  unfold process_step in Hstep. rewrite Hph in Hstep.
  destruct event as [op| |i permissions now updates|i|i|i| | | | |t'|c|c|c|c|t']; simpl in Hstep; try done.
  - apply idle_provider_Some in Hstep as (pv & _ & _ & _ & Hf). by apply (Hmachine (with_providers p _) _ eq_refl Hph) in Hf.
  - destruct (ps_providers p !! i) as [[trigger [u|] running]|]; try done.
    destruct (is_ended _ _); [|done]. by injection Hstep as <-.
  - apply idle_provider_Some in Hstep as (pv & _ & _ & _ & Hf). destruct (_ <? _)%nat; [|done]. by injection Hf as <-.
  - apply idle_provider_Some in Hstep as (pv & _ & _ & _ & Hf). by injection Hf as <-.
  - destruct (existsb _ _); [done|]. by apply (Hmachine p _ eq_refl Hph) in Hstep.
  - by rewrite (late_not_over _ _ _ Hl) in Hstep.
  - by apply (Hmachine p _ eq_refl Hph) in Hstep.
  - by apply (Hmachine p _ eq_refl Hph) in Hstep.
  - by apply (Hmachine p _ eq_refl Hph) in Hstep.
  - apply (Hmachine p _ eq_refl Hph) in Hstep; [done|congruence|done].
  - by apply (Hmachine p _ eq_refl Hph) in Hstep.
  - destruct (own_task p t'); [done|]. by apply (Hmachine p _ eq_refl Hph) in Hstep.
Qed.

(** C8. A subscription that is registered after the broker was shut down keeps the
    server from exiting: from the moment the listener is closed, whatever
    happens and for as long as its client stays connected, the server does not
    exit; a second signal changes nothing. *)
Theorem late_subscription_blocks_exit b events p t sub more p' :
  process_run (process_new b) events = Some p -> ps_phase p = PH_draining ->
  connected (mc_broker (ps_machine p)) sub ->
  mc_tasks (ps_machine p) !! t = Some (T_end (TR_subscribed (Ok (cs_sender sub)))) ->
  process_run p more = Some p' -> PE_drop_change (cs_sender sub) ∉ more ->
  ps_phase p' = PH_draining.
Proof.
  intros Hrun Hph Hcon Hans Hmore Hdrop. pose proof (process_run_inv _ _ _ (process_inv_new b) Hrun) as Hinv.
  assert (late t sub (ps_machine p)) as Hl.
  { split; [done|done|]. intros t' Ht'. apply (pi_shutdown _ Hinv) in Ht'. congruence. }
  clear Hrun Hcon Hans Hinv. revert p Hph Hl Hmore. induction more as [|event more IH]; intros p Hph Hl; simpl; [by intros [= <-]|].
  destruct (process_step p event) as [p1|] eqn:He; [|done]. apply not_elem_of_cons in Hdrop as [Hne Hdrop].
  destruct (late_process_step _ _ _ _ _ Hl Hph (not_eq_sym Hne) He) as [Hl1 Hph1]. by apply IH.
Qed.
End LifecycleSpec.

(** ** Runs *)

Section Runs.
#[local] Existing Instance glob_engine.
#[local] Existing Instance one_query_parser.
#[local] Existing Instance fifo.

Definition test_broker : DataBroker := DataBroker_new "test".

Definition the_process (events : list ProcessEvent) : Process :=
  default (process_new test_broker) (process_run (process_new test_broker) events).

Definition runs_to (f : Process -> bool) (events : list ProcessEvent) : bool :=
  match process_run (process_new test_broker) events with Some p => f p | None => false end.

Lemma runs_to_spec f events :
  runs_to f events = true ->
  process_run (process_new test_broker) events = Some (the_process events) /\ f (the_process events) = true.
Proof. unfold runs_to, the_process. by destruct (process_run _ _). Qed.

Definition add_speed : list ProcessEvent :=
  [PE_request (Op_add_entry ALLOW_ALL 0 "Vehicle.Speed" DT_Int8 CT_OnChange ET_Actuator "" None None); PE_run 0].

(** A subscriber, and a provider in the middle of an update. *)
Definition busy : list ProcessEvent :=
  add_speed ++
  [PE_request (Op_subscribe ALLOW_ALL 1 (cs_entries speed_sub)); PE_run 1; PE_run 1; PE_provider;
   PE_message 0 ALLOW_ALL 2 [(0, datapoint_update {| ts := 2; value := DV_Int32 5 |})]; PE_run 2].

Definition serving_quietly (p : Process) : bool :=
  match ps_phase p with PH_serving => Nat.eqb (sum_list_with registers (mc_tasks (ps_machine p))) 0 | _ => false end.

Lemma graceful_shutdown_witness :
  exists p1 p2, process_step (the_process busy) PE_signal = Some p1 /\ can_become p1 p2 /\ ps_phase p2 = PH_exited.
Proof.
  assert (runs_to serving_quietly busy = true) as Hb by (vm_compute; reflexivity).
  apply runs_to_spec in Hb as [Hrun Hq]. unfold serving_quietly in Hq.
  revert Hrun Hq. generalize (the_process busy). intros p Hrun Hq. destruct (ps_phase p) eqn:Eph; try discriminate Hq.
  apply (graceful_shutdown test_broker busy p Hrun Eph). exact (proj1 (Nat.eqb_eq _ _) Hq).
Defined.

(** A subscription is accepted after the signal and registered behind the
    shutdown. *)
Definition too_late : list ProcessEvent :=
  add_speed ++
  [PE_signal; PE_request (Op_subscribe ALLOW_ALL 1 (cs_entries speed_sub)); PE_run 2; PE_run 1; PE_run 2; PE_close].

Definition blocked_exit (p : Process) : bool :=
  match ps_phase p, change_subscriptions (subscriptions (mc_broker (ps_machine p))), mc_tasks (ps_machine p) !! 2%nat with
  | PH_draining, [sub], Some (T_end (TR_subscribed (Ok c))) =>
      Nat.eqb (cs_sender sub) 0 && Nat.eqb c 0 &&
      match change_channels (channels (mc_broker (ps_machine p))) !! 0%nat with Some ch => negb (closed ch) | None => false end
  | _, _, _ => false
  end.

Lemma late_subscription_blocks_exit_witness :
  process_run (process_new test_broker) too_late = Some (the_process too_late) /\
  forall more p', process_run (the_process too_late) more = Some p' -> PE_drop_change 0 ∉ more ->
    ps_phase p' = PH_draining.
Proof.
  assert (runs_to blocked_exit too_late = true) as Hb by (vm_compute; reflexivity).
  apply runs_to_spec in Hb as [Hrun Hb]. split; [exact Hrun|]. intros more p' Hmore Hdrop.
  revert Hrun Hb Hmore. generalize (the_process too_late). intros p Hrun Hb Hmore. unfold blocked_exit in Hb.
  destruct (ps_phase p) eqn:Eph; try discriminate Hb.
  destruct (change_subscriptions _) as [|sub [|]] eqn:Esub; try discriminate Hb.
  destruct (mc_tasks (ps_machine p) !! 2%nat) as [[| | | | | |[| | |[c|]| | |]]|] eqn:Et; try discriminate Hb.
  destruct (change_channels (channels (mc_broker (ps_machine p))) !! 0%nat) as [ch|] eqn:Ech; [|by rewrite andb_false_r in Hb].
  apply andb_true_iff in Hb as [[Hs%Nat.eqb_eq Hc%Nat.eqb_eq]%andb_true_iff Hcl%negb_true_iff].
  subst c. rewrite <- Hs in Ech, Hdrop.
  pose proof (eq_trans Et (f_equal (fun c => Some (T_end (TR_subscribed (Ok c)))) (eq_sym Hs))) as Et'.
  refine (late_subscription_blocks_exit test_broker too_late _ 2 sub more p' Hrun Eph _ Et' Hmore Hdrop).
  split; [rewrite Esub; left|]. exists ch. split; [exact Ech|exact Hcl].
Defined.
End Runs.
