(* ===== verification/VissTypes.v ===== *)
(** * VissTypes: the messages of the VISS v2 server

    src/kuksa_databroker/databroker/src/viss/v2/types.rs (requests, responses,
    errors) and conversions.rs (between the texts of the protocol and the
    broker's values).  What is derived with [serde] (the JSON text of these
    types) is left out; a hash map of the metadata tree is a [gmap]. *)

From S2P Require Import Prelude Floats Regex Display Types Entry.

(** ** types.rs *)

(** [RequestId], [Path], [SubscriptionId] and [Timestamp] wrap one value each. *)
Definition RequestId : Type := string.
Definition VPath : Type := string.
Definition SubscriptionId : Type := string.
Definition Timestamp : Type := SystemTime.

Inductive VissValue := VV_None | VV_Scalar (value : string) | VV_Array (array : list string).

Inductive VissDataType :=
| VT_String | VT_Boolean | VT_Int8 | VT_Int16 | VT_Int32 | VT_Int64 | VT_Uint8 | VT_Uint16
| VT_Uint32 | VT_Uint64 | VT_Float | VT_Double | VT_StringArray | VT_BoolArray | VT_Int8Array | VT_Int16Array
| VT_Int32Array | VT_Int64Array | VT_Uint8Array | VT_Uint16Array | VT_Uint32Array | VT_Uint64Array | VT_FloatArray | VT_DoubleArray.

Record VissDataPoint := { vdp_value : VissValue; vdp_ts : Timestamp }.
Record DataObject := { do_path : VPath; do_dp : VissDataPoint }.
Inductive Data := D_Object (o : DataObject) | D_Array (l : list DataObject).

(** [SensorEntry], [AttributeEntry] and [ActuatorEntry]. *)
Record SensorEntry := {
  se_datatype : VissDataType;
  se_description : string;
  se_comment : option string;
  se_unit : option string;
  se_allowed : option VissValue;
  se_min : option VissValue;
  se_max : option VissValue
}.
Record AttributeEntry := {
  at_datatype : VissDataType;
  at_description : string;
  at_unit : option string;
  at_allowed : option VissValue;
  at_default : option VissValue
}.
Record ActuatorEntry := {
  ac_datatype : VissDataType;
  ac_description : string;
  ac_comment : option string;
  ac_unit : option string;
  ac_allowed : option VissValue;
  ac_min : option VissValue;
  ac_max : option VissValue
}.

(** [MetadataEntry], with the fields of [BranchEntry]. *)
Inductive MetadataEntry :=
| ME_Branch (description : string) (children : gmap string MetadataEntry)
| ME_Sensor (e : SensorEntry)
| ME_Attribute (e : AttributeEntry)
| ME_Actuator (e : ActuatorEntry).

Inductive VissError :=
| VE_BadRequest (msg : option string)
| VE_UnauthorizedTokenExpired
| VE_UnauthorizedTokenInvalid
| VE_UnauthorizedTokenMissing
| VE_UnauthorizedReadOnly
| VE_Forbidden
| VE_NotFoundInvalidPath
| VE_NotFoundUnavailableData
| VE_NotFoundInvalidSubscriptionId
| VE_InternalServerError
| VE_NotImplemented.

Record ErrorSpec := { number : Z; reason : string; message : string }.

(** [From<Error> for ErrorSpec]: what is sent for an error. *)
Definition error_spec (error : VissError) : ErrorSpec :=
  match error with
  | VE_BadRequest custom_msg =>
      {| number := 400; reason := "bad_request";
         message := default "The server is unable to fulfil the client request because the request is malformed."
                      custom_msg |}
  | VE_UnauthorizedTokenExpired =>
      {| number := 401; reason := "token_expired"; message := "Access token has expired." |}
  | VE_UnauthorizedTokenInvalid =>
      {| number := 401; reason := "token_invalid"; message := "Access token is invalid." |}
  | VE_UnauthorizedTokenMissing =>
      {| number := 401; reason := "token_missing"; message := "Access token is missing." |}
  | VE_UnauthorizedReadOnly =>
      {| number := 401; reason := "read_only";
         message := "The desired signal cannot be set since it is a read only signal." |}
  | VE_Forbidden =>
      {| number := 403; reason := "user_forbidden";
         message := "The user is not permitted to access the requested resource. Retrying does not help." |}
  | VE_NotFoundInvalidPath =>
      {| number := 404; reason := "invalid_path"; message := "The specified data path does not exist." |}
  | VE_NotFoundUnavailableData =>
      {| number := 404; reason := "unavailable_data"; message := "The requested data was not found." |}
  | VE_NotFoundInvalidSubscriptionId =>
      {| number := 404; reason := "invalid_subscription_id"; message := "The specified subscription was not found." |}
  | VE_InternalServerError =>
      {| number := 500; reason := "internal_server_error";
         message := "The server encountered an unexpected condition which prevented it from fulfilling the request." |}
  | VE_NotImplemented =>
      {| number := 501; reason := "not_implemented";
         message := "The server does not support the functionality required to fulfill the request." |}
  end.

(** ** Requests and responses *)

(** [Filter::StaticMetadata], the only filter. *)
Inductive Filter := FI_StaticMetadata.

Record GetRequest := {
  gr_path : VPath; gr_request_id : RequestId; gr_authorization : option string; gr_filter : option Filter }.
Record SetRequest := {
  sr_path : VPath; sr_value : VissValue; sr_request_id : RequestId; sr_authorization : option string }.
Record SubscribeRequest := {
  sbr_path : VPath; sbr_request_id : RequestId; sbr_authorization : option string }.
Record UnsubscribeRequest := { ur_request_id : RequestId; ur_subscription_id : SubscriptionId }.

Inductive Request :=
| RQ_Get (r : GetRequest)
| RQ_Set (r : SetRequest)
| RQ_Subscribe (r : SubscribeRequest)
| RQ_Unsubscribe (r : UnsubscribeRequest).

Record GenericRequest := { gn_action : option string; gn_request_id : option RequestId }.

Record DataResponse := { dr_request_id : RequestId; dr_data : Data }.
Record MetadataResponse := { mr_request_id : RequestId; mr_metadata : gmap string MetadataEntry }.
Inductive GetSuccessResponse := GS_Data (r : DataResponse) | GS_Metadata (r : MetadataResponse).
Record GetErrorResponse := { ge_request_id : RequestId; ge_error : VissError; ge_ts : Timestamp }.
Record SetSuccessResponse := { ss_request_id : RequestId; ss_ts : Timestamp }.
Record SetErrorResponse := { sse_request_id : RequestId; sse_error : VissError; sse_ts : Timestamp }.
Record SubscribeSuccessResponse := {
  sb_request_id : RequestId; sb_subscription_id : SubscriptionId; sb_ts : Timestamp }.
Record SubscribeErrorResponse := { sbe_request_id : RequestId; sbe_error : VissError; sbe_ts : Timestamp }.
Record SubscriptionEvent := { ev_subscription_id : SubscriptionId; ev_data : Data; ev_ts : Timestamp }.
Record SubscriptionErrorEvent := {
  eve_subscription_id : SubscriptionId; eve_error : VissError; eve_ts : Timestamp }.
Record UnsubscribeSuccessResponse := {
  us_request_id : RequestId; us_subscription_id : SubscriptionId; us_ts : Timestamp }.
Record UnsubscribeErrorResponse := {
  use_request_id : RequestId; use_subscription_id : SubscriptionId; use_error : VissError; use_ts : Timestamp }.
Record GenericErrorResponse := {
  gne_action : option string; gne_request_id : option RequestId; gne_error : VissError }.

(** ** conversions.rs: texts to values *)

Inductive ConversionError := CE_ParseError.

(** [value.parse().map_err(|_| ParseError)]. *)
Definition parsed {A} (o : option A) : result A ConversionError := ok_or o CE_ParseError.

Definition try_string (value : VissValue) : result string ConversionError :=
  match value with
  | VV_Array _ | VV_None => Err CE_ParseError
  | VV_Scalar value => Ok value
  end.

Definition try_bool (value : VissValue) : result bool ConversionError :=
  match value with
  | VV_Array _ | VV_None => Err CE_ParseError
  | VV_Scalar value => parsed (parse_bool value)
  end.

Definition try_i32 (value : VissValue) : result Z ConversionError :=
  match value with
  | VV_Array _ | VV_None => Err CE_ParseError
  | VV_Scalar value => parsed (parse_int i32 value)
  end.

Definition try_i64 (value : VissValue) : result Z ConversionError :=
  match value with
  | VV_Array _ | VV_None => Err CE_ParseError
  | VV_Scalar value => parsed (parse_int i64 value)
  end.

Definition try_u32 (value : VissValue) : result Z ConversionError :=
  match value with
  | VV_Array _ | VV_None => Err CE_ParseError
  | VV_Scalar value => parsed (parse_int u32 value)
  end.

Definition try_u64 (value : VissValue) : result Z ConversionError :=
  match value with
  | VV_Array _ | VV_None => Err CE_ParseError
  | VV_Scalar value => parsed (parse_int u64 value)
  end.

Definition try_f32 (value : VissValue) : result float ConversionError :=
  match value with
  | VV_Array _ | VV_None => Err CE_ParseError
  | VV_Scalar value => parsed (parse_float f32 value)
  end.

Definition try_f64 (value : VissValue) : result float ConversionError :=
  match value with
  | VV_Array _ | VV_None => Err CE_ParseError
  | VV_Scalar value => parsed (parse_float f64 value)
  end.

Definition try_vec_string (value : VissValue) : result (list string) ConversionError :=
  match value with
  | VV_Scalar _ | VV_None => Err CE_ParseError
  | VV_Array array => Ok array
  end.

Definition try_vec_bool (value : VissValue) : result (list bool) ConversionError :=
  match value with
  | VV_Scalar _ | VV_None => Err CE_ParseError
  | VV_Array array => collect (fun value => parsed (parse_bool value)) array
  end.

Definition try_vec_i32 (value : VissValue) : result (list Z) ConversionError :=
  match value with
  | VV_Scalar _ | VV_None => Err CE_ParseError
  | VV_Array array => collect (fun value => parsed (parse_int i32 value)) array
  end.

Definition try_vec_i64 (value : VissValue) : result (list Z) ConversionError :=
  match value with
  | VV_Scalar _ | VV_None => Err CE_ParseError
  | VV_Array array => collect (fun value => parsed (parse_int i64 value)) array
  end.

Definition try_vec_u32 (value : VissValue) : result (list Z) ConversionError :=
  match value with
  | VV_Scalar _ | VV_None => Err CE_ParseError
  | VV_Array array => collect (fun value => parsed (parse_int u32 value)) array
  end.

Definition try_vec_u64 (value : VissValue) : result (list Z) ConversionError :=
  match value with
  | VV_Scalar _ | VV_None => Err CE_ParseError
  | VV_Array array => collect (fun value => parsed (parse_int u64 value)) array
  end.

Definition try_vec_f32 (value : VissValue) : result (list float) ConversionError :=
  match value with
  | VV_Scalar _ | VV_None => Err CE_ParseError
  | VV_Array array => collect (fun value => parsed (parse_float f32 value)) array
  end.

Definition try_vec_f64 (value : VissValue) : result (list float) ConversionError :=
  match value with
  | VV_Scalar _ | VV_None => Err CE_ParseError
  | VV_Array array => collect (fun value => parsed (parse_float f64 value)) array
  end.

(** [Value::try_into_type]. *)
Definition try_into_type (self : VissValue) (data_type : DataType) : result DataValue ConversionError :=
  match data_type with
  | DT_String => result_map DV_String (try_string self)
  | DT_Bool => result_map DV_Bool (try_bool self)
  | DT_Int8 | DT_Int16 | DT_Int32 => result_map DV_Int32 (try_i32 self)
  | DT_Int64 => result_map DV_Int64 (try_i64 self)
  | DT_Uint8 | DT_Uint16 | DT_Uint32 => result_map DV_Uint32 (try_u32 self)
  | DT_Uint64 => result_map DV_Uint64 (try_u64 self)
  | DT_Float => result_map DV_Float (try_f32 self)
  | DT_Double => result_map DV_Double (try_f64 self)
  | DT_StringArray => result_map DV_StringArray (try_vec_string self)
  | DT_BoolArray => result_map DV_BoolArray (try_vec_bool self)
  | DT_Int8Array | DT_Int16Array | DT_Int32Array => result_map DV_Int32Array (try_vec_i32 self)
  | DT_Int64Array => result_map DV_Int64Array (try_vec_i64 self)
  | DT_Uint8Array | DT_Uint16Array | DT_Uint32Array => result_map DV_Uint32Array (try_vec_u32 self)
  | DT_Uint64Array => result_map DV_Uint64Array (try_vec_u64 self)
  | DT_FloatArray => result_map DV_FloatArray (try_vec_f32 self)
  | DT_DoubleArray => result_map DV_DoubleArray (try_vec_f64 self)
  end.

(** ** conversions.rs: values to texts *)

(** [From<broker::DataValue> for Value]. *)
Definition value_from (value : DataValue) : VissValue :=
  match value with
  | DV_NotAvailable => VV_None
  | DV_Bool value => VV_Scalar (bool_to_string value)
  | DV_String value => VV_Scalar value
  | DV_Int32 value => VV_Scalar (int_to_string value)
  | DV_Int64 value => VV_Scalar (int_to_string value)
  | DV_Uint32 value => VV_Scalar (int_to_string value)
  | DV_Uint64 value => VV_Scalar (int_to_string value)
  | DV_Float value => VV_Scalar (float_to_string f32 value)
  | DV_Double value => VV_Scalar (float_to_string f64 value)
  | DV_BoolArray array => VV_Array (map bool_to_string array)
  | DV_StringArray array => VV_Array array
  | DV_Int32Array array => VV_Array (map int_to_string array)
  | DV_Int64Array array => VV_Array (map int_to_string array)
  | DV_Uint32Array array => VV_Array (map int_to_string array)
  | DV_Uint64Array array => VV_Array (map int_to_string array)
  | DV_FloatArray array => VV_Array (map (float_to_string f32) array)
  | DV_DoubleArray array => VV_Array (map (float_to_string f64) array)
  end.

(** [From<broker::Datapoint> for DataPoint]. *)
Definition viss_datapoint (dp : Datapoint) : VissDataPoint :=
  {| vdp_value := value_from (value dp); vdp_ts := ts dp |}.

(** [From<broker::DataType> for DataType]. *)
Definition viss_data_type (value : DataType) : VissDataType :=
  match value with
  | DT_String => VT_String
  | DT_Bool => VT_Boolean
  | DT_Int8 => VT_Int8
  | DT_Int16 => VT_Int16
  | DT_Int32 => VT_Int32
  | DT_Int64 => VT_Int64
  | DT_Uint8 => VT_Uint8
  | DT_Uint16 => VT_Uint16
  | DT_Uint32 => VT_Uint32
  | DT_Uint64 => VT_Uint64
  | DT_Float => VT_Float
  | DT_Double => VT_Double
  | DT_StringArray => VT_StringArray
  | DT_BoolArray => VT_BoolArray
  | DT_Int8Array => VT_Int8Array
  | DT_Int16Array => VT_Int16Array
  | DT_Int32Array => VT_Int32Array
  | DT_Int64Array => VT_Int64Array
  | DT_Uint8Array => VT_Uint8Array
  | DT_Uint16Array => VT_Uint16Array
  | DT_Uint32Array => VT_Uint32Array
  | DT_Uint64Array => VT_Uint64Array
  | DT_FloatArray => VT_FloatArray
  | DT_DoubleArray => VT_DoubleArray
  end.

(** [Display for DataType]. *)
Definition viss_data_type_text (self : VissDataType) : string :=
  match self with
  | VT_String => "string"
  | VT_Boolean => "bool"
  | VT_Int8 => "int8"
  | VT_Int16 => "int16"
  | VT_Int32 => "int32"
  | VT_Int64 => "int64"
  | VT_Uint8 => "uint8"
  | VT_Uint16 => "uint16"
  | VT_Uint32 => "uint32"
  | VT_Uint64 => "uint64"
  | VT_Float => "float"
  | VT_Double => "double"
  | VT_StringArray => "string[]"
  | VT_BoolArray => "bool[]"
  | VT_Int8Array => "int8[]"
  | VT_Int16Array => "int16[]"
  | VT_Int32Array => "int32[]"
  | VT_Int64Array => "int64[]"
  | VT_Uint8Array => "uint8[]"
  | VT_Uint16Array => "uint16[]"
  | VT_Uint32Array => "uint32[]"
  | VT_Uint64Array => "uint64[]"
  | VT_FloatArray => "float[]"
  | VT_DoubleArray => "double[]"
  end.

(** [From<&broker::Metadata> for MetadataEntry]. *)
Definition metadata_entry (metadata : Metadata) : MetadataEntry :=
  match entry_type metadata with
  | ET_Sensor =>
      ME_Sensor {| se_datatype := viss_data_type (data_type metadata); se_description := description metadata;
                   se_comment := None; se_unit := None; se_allowed := value_from <$> allowed metadata;
                   se_min := None; se_max := None |}
  | ET_Attribute =>
      ME_Attribute {| at_datatype := viss_data_type (data_type metadata); at_description := description metadata;
                      at_unit := None; at_allowed := value_from <$> allowed metadata; at_default := None |}
  | ET_Actuator =>
      ME_Actuator {| ac_datatype := viss_data_type (data_type metadata); ac_description := description metadata;
                     ac_comment := None; ac_unit := None; ac_allowed := value_from <$> allowed metadata;
                     ac_min := None; ac_max := None |}
  end.
