(* ===== verification/Viss.v ===== *)
(** * Viss: the VISS v2 server

    src/kuksa_databroker/databroker/src/viss/v2/server.rs (the requests) and
    viss/server.rs (one web socket: the loop that reads it and the tasks that
    forward notifications).  The JSON texts are a parameter ([VissJson]); the
    clock and the identifier of a new subscription ([Uuid::new_v4]) are
    arguments.  An abort handle is the channel of the stream it aborts. *)

From S2P Require Import Prelude Types Regex Glob Permissions Auth Entry Database Query Broker VissTypes.

(** ** Operations of [str] *)

(** [s.split_once(c)] and [s.rsplit_once(c)]. *)
Fixpoint split_once (c : Ascii.ascii) (s : string) : option (string * string) :=
  match s with
  | EmptyString => None
  | String x rest =>
      if Ascii.eqb x c then Some ("", rest)
      else match split_once c rest with
           | Some (key, path) => Some (String x key, path)
           | None => None
           end
  end.
Fixpoint rsplit_once (c : Ascii.ascii) (s : string) : option (string * string) :=
  match s with
  | EmptyString => None
  | String x rest =>
      match rsplit_once c rest with
      | Some (prefix, leaf) => Some (String x prefix, leaf)
      | None => if Ascii.eqb x c then Some ("", rest) else None
      end
  end.

(** ** Metadata *)

(** [insert_entry] on the path split at its dots, which is what the repeated
    [split_once] gives. *)
Fixpoint insert_components (entries : gmap string MetadataEntry) (path : list string) (entry : MetadataEntry)
  : gmap string MetadataEntry :=
  match path with
  | [] => entries
  | [key] => <[key := entry]> entries
  | key :: path =>
      match entries !! key with
      | Some (ME_Branch description children) =>
          <[key := ME_Branch description (insert_components children path entry)]> entries
      | Some _ => entries (* ignored *)
      | None => <[key := ME_Branch "" (insert_components ∅ path entry)]> entries
      end
  end.

Definition insert_entry (entries : gmap string MetadataEntry) (path : string) (entry : MetadataEntry)
  : gmap string MetadataEntry :=
  insert_components entries (split_on "."%char path) entry.

(** The prefix that [generate_metadata] removes from the paths. *)
Definition prefix_to_strip (path : string) : string :=
  match rsplit_once "."%char path with
  | Some (prefix_excl_dot, _) => prefix_excl_dot +:+ "."
  | None => ""
  end.

(** The visit of one entry by [generate_metadata]. *)
Definition metadata_visit (path : string) (metadata : gmap string MetadataEntry) (entry : EntryReadAccess)
  : gmap string MetadataEntry :=
  let entry_metadata := era_metadata entry in
  let entry_path := Entry.path entry_metadata in
  if starts_with path entry_path then
    match strip_prefix (prefix_to_strip path) entry_path with
    | Some path => insert_entry metadata path (metadata_entry entry_metadata)
    | None => metadata
    end
  else metadata.

(** ** Server *)

(** What [serde_json] makes of a message and of a response. *)
Inductive Response :=
| RS_GetSuccess (r : GetSuccessResponse)
| RS_GetError (r : GetErrorResponse)
| RS_SetSuccess (r : SetSuccessResponse)
| RS_SetError (r : SetErrorResponse)
| RS_SubscribeSuccess (r : SubscribeSuccessResponse)
| RS_SubscribeError (r : SubscribeErrorResponse)
| RS_UnsubscribeSuccess (r : UnsubscribeSuccessResponse)
| RS_UnsubscribeError (r : UnsubscribeErrorResponse)
| RS_Event (r : SubscriptionEvent)
| RS_EventError (r : SubscriptionErrorEvent)
| RS_GenericError (r : GenericErrorResponse).

Class VissJson := {
  read_request : string -> option Request;
  read_generic_request : string -> option GenericRequest;
  serialize : Response -> result string string
}.

Section Viss.
Context `{RegexEngine} `{HashOrder} `{SqlParser} `{JwtLibrary} `{VissJson}.

(** [Server], without the broker it shares: the authorization, and the abort
    handle of each subscription.  Dropping a handle aborts its stream; the
    streams aborted so far are remembered. *)
Record VissServer := {
  vs_authorization : Authorization;
  vs_subscriptions : gmap SubscriptionId ChanId;
  vs_aborted : gset ChanId
}.

(** [Server::new]. *)
Definition VissServer_new (authorization : Authorization) : VissServer :=
  {| vs_authorization := authorization; vs_subscriptions := ∅; vs_aborted := ∅ |}.

(** [HashMap::insert] drops the handle it replaces. *)
Definition insert_handle (self : VissServer) (i : SubscriptionId) (handle : ChanId) : VissServer :=
  {| vs_authorization := vs_authorization self;
     vs_subscriptions := <[i := handle]> (vs_subscriptions self);
     vs_aborted := match vs_subscriptions self !! i with
                   | Some old => {[ old ]} ∪ vs_aborted self
                   | None => vs_aborted self
                   end |}.

(** [HashMap::remove], and the handle dropped. *)
Definition remove_handle (self : VissServer) (i : SubscriptionId) (handle : ChanId) : VissServer :=
  {| vs_authorization := vs_authorization self;
     vs_subscriptions := delete i (vs_subscriptions self);
     vs_aborted := {[ handle ]} ∪ vs_aborted self |}.

(** The server dropped with all its handles. *)
Definition drop_handles (self : VissServer) : VissServer :=
  {| vs_authorization := vs_authorization self;
     vs_subscriptions := ∅;
     vs_aborted := list_to_set (map snd (map_to_list (vs_subscriptions self))) ∪ vs_aborted self |}.

(** [resolve_permissions]. *)
Definition resolve_permissions (authorization : Authorization) (token : option string)
  : outcome (result Permissions VissError) :=
  match authorization with
  | Disabled => Returns (Ok ALLOW_ALL)
  | Enabled token_decoder =>
      match token with
      | Some token =>
          match decode_token token_decoder token with
          | Ok claims =>
              match permissions_try_from claims with
              | Returns (Ok permissions) => Returns (Ok permissions)
              | Returns (Err _) => Returns (Err VE_UnauthorizedTokenInvalid)
              | Panics => Panics
              end
          | Err _ => Returns (Err VE_UnauthorizedTokenInvalid)
          end
      | None => Returns (Err VE_UnauthorizedTokenMissing)
      end
  end.

(** [generate_metadata]. *)
Definition generate_metadata (b : DataBroker) (permissions : Permissions) (now : SystemTime) (path : string)
  : gmap string MetadataEntry :=
  for_each_entry b permissions now (metadata_visit path) ∅.

(** The error of a refused read. *)
Definition read_error_to_viss (err : ReadError) : VissError :=
  match err with
  | RE_NotFound => VE_NotFoundInvalidPath
  | RE_PermissionDenied => VE_Forbidden
  | RE_PermissionExpired => VE_UnauthorizedTokenExpired
  end.

(** [Server::get]. *)
Definition viss_get (b : DataBroker) (self : VissServer) (now : SystemTime) (request : GetRequest)
  : outcome (result GetSuccessResponse GetErrorResponse) :=
  let request_id := gr_request_id request in
  match gr_filter request with
  | Some FI_StaticMetadata =>
      Returns (Ok (GS_Metadata {| mr_request_id := request_id;
                                  mr_metadata := generate_metadata b ALLOW_NONE now (gr_path request) |}))
  | None =>
      let failed error := Returns (Err {| ge_request_id := request_id; ge_error := error; ge_ts := now |}) in
      match resolve_permissions (vs_authorization self) (gr_authorization request) with
      | Panics => Panics
      | Returns (Err error) => failed error
      | Returns (Ok permissions) =>
          match access_get_datapoint_by_path b permissions now (gr_path request) with
          | Ok datapoint =>
              Returns (Ok (GS_Data {| dr_request_id := request_id;
                                      dr_data := D_Object {| do_path := gr_path request;
                                                             do_dp := viss_datapoint datapoint |} |}))
          | Err err => failed (read_error_to_viss err)
          end
      end
  end.

(** The error of a refused update. *)
Definition update_error_to_viss (error : UpdateError) : VissError :=
  match error with
  | UE_NotFound => VE_NotFoundInvalidPath
  | UE_WrongType => VE_BadRequest (Some "Wrong data type.")
  | UE_OutOfBounds => VE_BadRequest (Some "Value out of bounds.")
  | UE_UnsupportedType => VE_BadRequest (Some "Unsupported data type.")
  | UE_PermissionDenied => VE_Forbidden
  | UE_PermissionExpired => VE_UnauthorizedTokenExpired
  end.

(** [Server::set]. *)
Definition viss_set (b : DataBroker) (self : VissServer) (now : SystemTime) (request : SetRequest)
  : outcome (result SetSuccessResponse SetErrorResponse) * DataBroker :=
  let request_id := sr_request_id request in
  let failed error : outcome (result SetSuccessResponse SetErrorResponse) :=
    Returns (Err {| sse_request_id := request_id; sse_error := error; sse_ts := now |}) in
  match resolve_permissions (vs_authorization self) (sr_authorization request) with
  | Panics => (Panics, b)
  | Returns (Err error) => (failed error, b)
  | Returns (Ok permissions) =>
      match access_get_metadata_by_path b (sr_path request) with
      | Some metadata =>
          if bool_decide (entry_type metadata <> ET_Actuator) then (failed VE_UnauthorizedReadOnly, b) else
          match try_into_type (sr_value request) (data_type metadata) with
          | Ok actuator_target =>
              let update := target_update {| ts := now; value := actuator_target |} in
              match update_entries b permissions now [(id metadata, update)] with
              | (Ok _, b) => (Returns (Ok {| ss_request_id := request_id; ss_ts := now |}), b)
              | (Err errors, b) =>
                  let error := match errors with
                               | (_, error) :: _ => update_error_to_viss error
                               | [] => VE_InternalServerError
                               end in
                  (failed error, b)
              end
          | Err CE_ParseError =>
              (failed (VE_BadRequest (Some ("Failed to parse the value as a " +:+
                 viss_data_type_text (viss_data_type (data_type metadata))))), b)
          end
      | None => (failed VE_NotFoundInvalidPath, b)
      end
  end.

(** The error of a refused subscription. *)
Definition subscription_error_to_viss (err : SubscriptionError) : VissError :=
  match err with
  | SE_NotFound => VE_NotFoundInvalidPath
  | SE_InvalidInput => VE_NotFoundInvalidPath
  | SE_InternalError => VE_InternalServerError
  end.

(** [Server::subscribe]; the stream is given by its channel. *)
Definition viss_subscribe (b : DataBroker) (self : VissServer) (now : SystemTime) (new_id : SubscriptionId)
  (request : SubscribeRequest)
  : outcome (result (SubscribeSuccessResponse * ChanId) SubscribeErrorResponse) * DataBroker * VissServer :=
  let request_id := sbr_request_id request in
  let failed error : outcome (result (SubscribeSuccessResponse * ChanId) SubscribeErrorResponse) :=
    Returns (Err {| sbe_request_id := request_id; sbe_error := error; sbe_ts := now |}) in
  match resolve_permissions (vs_authorization self) (sbr_authorization request) with
  | Panics => (Panics, b, self)
  | Returns (Err error) => (failed error, b, self)
  | Returns (Ok permissions) =>
      match access_get_id_by_path b (sbr_path request) with
      | None => (failed VE_NotFoundInvalidPath, b, self)
      | Some i =>
          match subscribe b permissions now {[ i := {[ F_Datapoint ]} ]} with
          | (Ok stream, b) =>
              (Returns (Ok ({| sb_request_id := request_id; sb_subscription_id := new_id; sb_ts := now |}, stream)),
               b, insert_handle self new_id stream)
          | (Err err, b) => (failed (subscription_error_to_viss err), b, self)
          end
      end
  end.

(** [Server::unsubscribe]. *)
Definition viss_unsubscribe (self : VissServer) (now : SystemTime) (request : UnsubscribeRequest)
  : result UnsubscribeSuccessResponse UnsubscribeErrorResponse * VissServer :=
  let subscription_id := ur_subscription_id request in
  let request_id := ur_request_id request in
  match vs_subscriptions self !! subscription_id with
  | Some handle =>
      (Ok {| us_request_id := request_id; us_subscription_id := subscription_id; us_ts := now |},
       remove_handle self subscription_id handle)
  | None =>
      (Err {| use_request_id := request_id; use_subscription_id := subscription_id;
              use_error := VE_NotFoundInvalidSubscriptionId; use_ts := now |}, self)
  end.

(** [convert_to_viss_stream], on one item. *)
Definition convert_event (subscription_id : SubscriptionId) (now : SystemTime) (item : EntryUpdates)
  : result SubscriptionEvent SubscriptionErrorEvent :=
  let failed :=
    Err {| eve_subscription_id := subscription_id; eve_error := VE_InternalServerError; eve_ts := now |} in
  match last (updates item) with
  | Some item =>
      match u_path (cn_update item), u_datapoint (cn_update item) with
      | Some path, Some datapoint =>
          Ok {| ev_subscription_id := subscription_id;
                ev_data := D_Object {| do_path := path; do_dp := viss_datapoint datapoint |};
                ev_ts := now |}
      | _, _ => failed
      end
  | None => failed
  end.

(** ** One web socket *)

(** [parse_v2_msg]. *)
Definition parse_v2_msg (msg : string) : result Request GenericErrorResponse :=
  match read_request msg with
  | Some request => Ok request
  | None =>
      Err match read_generic_request msg with
          | Some request => {| gne_action := gn_action request; gne_request_id := gn_request_id request;
                               gne_error := VE_BadRequest None |}
          | None => {| gne_action := None; gne_request_id := None; gne_error := VE_BadRequest None |}
          end
  end.

(** The subprotocol check of [handle_websocket]; the header may not be a text. *)
Definition valid_subprotocol (protocol : option (result string unit)) : bool :=
  match protocol with
  | Some (Ok subprotocol) => String.eqb subprotocol "VISSv2"
  | Some (Err _) => false
  | None => true
  end.

(** A socket: its server, the tasks that forward the streams (the channel, its
    subscription and the number of items received), the responses handed to
    the task that writes, and whether it is read. *)
Record Connection := {
  co_server : VissServer;
  co_tasks : gmap ChanId (SubscriptionId * nat);
  co_sent : list Response;
  co_open : bool
}.

(** [handle_viss_v2] before its loops run. *)
Definition Connection_new (authorization : Authorization) : Connection :=
  {| co_server := VissServer_new authorization; co_tasks := ∅; co_sent := []; co_open := true |}.

Definition set_server (c : Connection) (server : VissServer) : Connection :=
  {| co_server := server; co_tasks := co_tasks c; co_sent := co_sent c; co_open := co_open c |}.
Definition set_tasks (c : Connection) (tasks : gmap ChanId (SubscriptionId * nat)) : Connection :=
  {| co_server := co_server c; co_tasks := tasks; co_sent := co_sent c; co_open := co_open c |}.

(** [try_send] of the serialized response: dropped when the channel is full. *)
Definition try_send (c : Connection) (full : bool) (response : Response) : Connection :=
  match serialize response with
  | Ok _ => if full then c else
            {| co_server := co_server c; co_tasks := co_tasks c; co_sent := co_sent c ++ [response];
               co_open := co_open c |}
  | Err _ => c
  end.

(** The reading task over, its server dropped. *)
Definition close_connection (c : Connection) : Connection :=
  {| co_server := drop_handles (co_server c); co_tasks := co_tasks c; co_sent := co_sent c; co_open := false |}.

(** The handling of a request by the reading task; a panic ends the task. *)
Definition handle_request (b : DataBroker) (c : Connection) (now : SystemTime) (new_id : SubscriptionId)
  (request : Request) : outcome Response * DataBroker * Connection :=
  match request with
  | RQ_Get request =>
      (match viss_get b (co_server c) now request with
       | Returns (Ok response) => Returns (RS_GetSuccess response)
       | Returns (Err error_response) => Returns (RS_GetError error_response)
       | Panics => Panics
       end, b, c)
  | RQ_Set request =>
      let '(r, b) := viss_set b (co_server c) now request in
      (match r with
       | Returns (Ok response) => Returns (RS_SetSuccess response)
       | Returns (Err error_response) => Returns (RS_SetError error_response)
       | Panics => Panics
       end, b, c)
  | RQ_Subscribe request =>
      let '(r, b, server) := viss_subscribe b (co_server c) now new_id request in
      let c := set_server c server in
      match r with
      | Returns (Ok (response, stream)) =>
          (* Setup background stream *)
          (Returns (RS_SubscribeSuccess response), b,
           set_tasks c (<[stream := (sb_subscription_id response, 0%nat)]> (co_tasks c)))
      | Returns (Err error_response) => (Returns (RS_SubscribeError error_response), b, c)
      | Panics => (Panics, b, c)
      end
  | RQ_Unsubscribe request =>
      let '(r, server) := viss_unsubscribe (co_server c) now request in
      (Returns match r with
               | Ok response => RS_UnsubscribeSuccess response
               | Err error_response => RS_UnsubscribeError error_response
               end, b, set_server c server)
  end.

Inductive WsMessage := WM_Text (msg : string) | WM_Binary | WM_Close | WM_Pong | WM_Ping.

(** One turn of the loop of the reading task. *)
Definition read_message (b : DataBroker) (c : Connection) (now : SystemTime) (new_id : SubscriptionId)
  (full : bool) (msg : WsMessage) : DataBroker * Connection :=
  match msg with
  | WM_Text msg =>
      match parse_v2_msg msg with
      | Ok request =>
          match handle_request b c now new_id request with
          | (Returns response, b, c) => (b, try_send c full response)
          | (Panics, b, c) => (b, close_connection c)
          end
      | Err error_response => (b, try_send c full (RS_GenericError error_response))
      end
  | WM_Close => (b, close_connection c)
  | WM_Binary | WM_Pong | WM_Ping => (b, c)
  end.

(** The task of a stream over: it drops its receiver. *)
Definition end_task (b : DataBroker) (c : Connection) (stream : ChanId) : DataBroker * Connection :=
  (set_channels b {| change_channels := drop_receiver (change_channels (channels b)) stream;
                     query_channels := query_channels (channels b) |},
   set_tasks c (delete stream (co_tasks c))).

(** One turn of the loop of a task: an aborted stream ends it, an item is
    converted and sent; it goes on when the channel is full, and ends when the
    writing task is gone. *)
Definition forward (b : DataBroker) (c : Connection) (now : SystemTime) (full disconnected : bool)
  (stream : ChanId) : DataBroker * Connection :=
  match co_tasks c !! stream with
  | None => (b, c)
  | Some (subscription_id, received) =>
      if bool_decide (stream ∈ vs_aborted (co_server c)) then end_task b c stream else
      match change_channels (channels b) !! stream with
      | None => (b, c)
      | Some ch =>
          match sent ch !! received with
          | None => (b, c)
          | Some item =>
              let response := match convert_event subscription_id now item with
                              | Ok event => RS_Event event
                              | Err error_event => RS_EventError error_event
                              end in
              let c := set_tasks c (<[stream := (subscription_id, S received)]> (co_tasks c)) in
              if disconnected && is_ok (serialize response) then end_task b c stream
              else (b, try_send c full response)
          end
      end
  end.

(** What can happen to a socket: a message, the end of the reading (also by an
    error) or of the writing task, a turn of a task that forwards, and the end
    of a stream because the broker has dropped its sender. *)
Inductive WsEvent :=
| WE_Message (now : SystemTime) (new_id : SubscriptionId) (full : bool) (msg : WsMessage)
| WE_End
| WE_Forward (now : SystemTime) (full : bool) (disconnected : bool) (stream : ChanId)
| WE_StreamEnd (stream : ChanId).

Definition ws_step (b : DataBroker) (c : Connection) (event : WsEvent) : DataBroker * Connection :=
  match event with
  | WE_Message now new_id full msg => if co_open c then read_message b c now new_id full msg else (b, c)
  | WE_End => (b, if co_open c then close_connection c else c)
  | WE_Forward now full disconnected stream => forward b c now full disconnected stream
  | WE_StreamEnd stream => if bool_decide (stream ∈ dom (co_tasks c)) then end_task b c stream else (b, c)
  end.
End Viss.
