(* ===== verification/VissSpec.v ===== *)
(** * VissSpec: what the VISS v2 server does

    Values printed for a client read back; what [set] may change; the metadata
    tree holds exactly the signals asked for; one response per request; and
    notifications only for subscriptions that are active. *)

From S2P Require Import Prelude Floats Display Types Regex Glob Permissions Auth Entry Database Query Broker Delivery.
From S2P Require Import VissTypes Viss.

(** ** Values *)

(** The texts of the floats of a value are found ([Display.shortest]). *)
Definition dv_printable (v : DataValue) : bool :=
  match v with
  | DV_Float x => printable f32 x
  | DV_Double x => printable f64 x
  | DV_FloatArray l => forallb (printable f32) l
  | DV_DoubleArray l => forallb (printable f64) l
  | _ => true
  end.

Lemma collect_parsed {A} (parse : string -> option A) (print : A -> string) l :
  (forall a, a ∈ l -> parse (print a) = Some a) ->
  collect (fun value => parsed (parse value)) (map print l) = Ok l.
Proof.
  intros Hp. apply collect_Ok, Forall2_fmap_l, Forall_Forall2_diag, Forall_forall.
  intros a Ha. cbn. by rewrite (Hp a Ha).
Qed.

Lemma collect_ints ty l :
  forallb (in_range ty) l = true -> collect (fun value => parsed (parse_int ty value)) (map int_to_string l) = Ok l.
Proof.
  intros Hl. apply collect_parsed. intros z Hz. apply parse_int_to_string.
  by apply (proj1 (forallb_forall _ _) Hl), list_elem_of_In.
Qed.

Lemma collect_floats fmt l :
  forallb (printable fmt) l = true ->
  collect (fun value => parsed (parse_float fmt value)) (map (float_to_string fmt) l) = Ok l.
Proof.
  intros Hl. apply collect_parsed. intros z Hz. apply parse_float_to_string.
  by apply (proj1 (forallb_forall _ _) Hl), list_elem_of_In.
Qed.

Lemma collect_bools l : collect (fun value => parsed (parse_bool value)) (map bool_to_string l) = Ok l.
Proof. apply collect_parsed. intros b _. apply parse_bool_to_string. Qed.

(** Every value the server prints for a client is read back as the same
    value when the client sends the text for a signal of the same type: the
    texts of the scalars and arrays of all types lose nothing. *)
Theorem viss_value_roundtrip dt v :
  has_type dt v -> dv_wf v = true -> dv_printable v = true -> try_into_type (value_from v) dt = Ok v.
Proof.
  intros Ht Hwf Hp. destruct Ht; simpl in *;
    rewrite ?parse_int_to_string, ?parse_float_to_string, ?parse_bool_to_string, ?collect_ints, ?collect_floats,
      ?collect_bools by done; done.
Qed.

(** What is read from a text has the kind of the type and fits its width. *)
Lemma parsed_Ok {A} (o : option A) a : parsed o = Ok a -> o = Some a.
Proof. destruct o; [by intros [= <-]|done]. Qed.

Lemma collect_parse_int ty l zs :
  collect (fun value => parsed (parse_int ty value)) l = Ok zs -> forallb (in_range ty) zs = true.
Proof.
  intros Hc%collect_Ok. apply forallb_forall. intros z Hz%list_elem_of_In.
  apply list_elem_of_lookup in Hz as [k Hk]. destruct (Forall2_lookup_r _ _ _ _ _ Hc Hk) as (s & _ & Hs).
  by apply in_range_spec, (parse_int_bounds ty s), parsed_Ok.
Qed.

Lemma parsed_int_range ty s z : parsed (parse_int ty s) = Ok z -> in_range ty z = true.
Proof. intros Hz%parsed_Ok. by apply in_range_spec, (parse_int_bounds ty s). Qed.


(** ** set *)

(** C15. [set] answers with success only when it has written: then the path
    is that of an actuator, the text was read as a value of its type, the token
    may actuate it, type and allowed list admit the value, and the new target
    of that one entry is all that has changed in the database.  A refusal
    changes nothing and names a fault of the request, never an internal
    error.  The answer carries the identifier of the request. *)
Theorem viss_set_spec `{RegexEngine} `{HashOrder} `{SqlParser} `{JwtLibrary} b self now request r b' :
  db_inv (database b) -> viss_set b self now request = (Returns r, b') ->
  match r with
  | Ok resp => ss_request_id resp = sr_request_id request /\
      exists permissions i e v,
        resolve_permissions (vs_authorization self) (sr_authorization request) = Returns (Ok permissions) /\
        entries (database b) !! i = Some e /\ path (metadata e) = sr_path request /\
        entry_type (metadata e) = ET_Actuator /\
        try_into_type (sr_value request) (data_type (metadata e)) = Ok v /\
        can_write_actuator_target permissions now (path (metadata e)) = Ok tt /\
        value_typed (data_type (metadata e)) v /\ validate_allowed e v = Ok tt /\
        database b' = set_entries (database b)
          (<[i := set_actuator_target e (Some {| ts := now; value := v |})]> (entries (database b)))
  | Err resp => sse_request_id resp = sr_request_id request /\ database b' = database b /\
      sse_error resp <> VE_InternalServerError
  end.
Proof.
  intros Hinv. unfold viss_set.
  destruct (resolve_permissions _ _) as [[permissions|error]|] eqn:Hres; [|intros Hs; simplify_eq; simpl|done].
  2: { split_and!; [done..|]. intros ->. unfold resolve_permissions in Hres. crush_match_in Hres. }
  unfold access_get_metadata_by_path.
  destruct (get_metadata_by_path (database b) (sr_path request)) as [m|] eqn:Hm; [|intros Hs; by simplify_eq].
  destruct (get_metadata_by_path_Some (database b) _ m Hinv Hm) as (e & Hpi & He & -> & Hp).
  case_bool_decide as Het; [intros Hs; by simplify_eq|].
  destruct (try_into_type _ _) as [v|[]] eqn:Hv; [|intros Hs; by simplify_eq].
  set (d := {| ts := now; value := v |}).
  destruct (update_entries_one b permissions now (id (metadata e)) (target_update d)) as [Hr Hdb].
  destruct (update_entries _ _ _ _) as [ur b1]. simpl in Hr, Hdb.
  rewrite (target_update_eq _ _ _ _ e d He) in Hr, Hdb.
  destruct (can_write_actuator_target _ _ _) as [[]|err] eqn:Hw; simpl in Hr, Hdb; subst ur.
  - destruct (check_value e v) as [[]|err] eqn:Hc; simpl in Hdb; intros Hs; simpl in Hs; injection Hs as <- <-; simpl.
    + split; [done|]. apply and_then_Ok in Hc as [Hty Hal]. apply validate_value_typed in Hty.
      exists permissions, (id (metadata e)), e, v. split_and!; done.
    + split_and!; [done..|]. by destruct err.
  - intros Hs; simpl in Hs; injection Hs as <- <-; simpl. split_and!; [done..|]. by destruct err.
Qed.

(** ** The metadata tree *)

(** The node of the tree at a path, and whether it is a signal. *)
Fixpoint tree_lookup (t : gmap string MetadataEntry) (p : list string) : option MetadataEntry :=
  match p with
  | [] => None
  | [key] => t !! key
  | key :: p => match t !! key with
                | Some (ME_Branch _ children) => tree_lookup children p
                | _ => None
                end
  end.

Definition is_signal (e : MetadataEntry) : bool := match e with ME_Branch _ _ => false | _ => true end.

Definition signal_at (t : gmap string MetadataEntry) (p : list string) : option MetadataEntry :=
  match tree_lookup t p with Some e => if is_signal e then Some e else None | None => None end.

Lemma signal_at_cons t k p : p <> [] ->
  signal_at t (k :: p) = match t !! k with Some (ME_Branch _ children) => signal_at children p | _ => None end.
Proof. intros Hp. destruct p; [done|]. unfold signal_at. simpl. by destruct (t !! k) as [[]|]. Qed.

Lemma insert_cons t k p e : p <> [] ->
  insert_components t (k :: p) e =
    match t !! k with
    | Some (ME_Branch description children) => <[k := ME_Branch description (insert_components children p e)]> t
    | Some _ => t
    | None => <[k := ME_Branch "" (insert_components ∅ p e)]> t
    end.
Proof. by destruct p. Qed.

Lemma signal_at_empty p : signal_at ∅ p = None.
Proof. unfold signal_at. destruct p as [|k [|k' p]]; simpl; by rewrite ?lookup_empty. Qed.

(** No signal of the tree lies above or below the new one. *)
Lemma insert_signal p : forall t e q,
  p <> [] -> is_signal e = true ->
  (forall q, signal_at t q <> None -> q `prefix_of` p \/ p `prefix_of` q -> q = p) ->
  signal_at (insert_components t p e) q = if decide (q = p) then Some e else signal_at t q.
Proof.
  induction p as [|k p IH]; intros t e q Hne He Hfree; [done|].
  destruct (decide (p = [])) as [->|Hp].
  - simpl. destruct q as [|k' q]; [by rewrite decide_False|].
    destruct (decide (q = [])) as [->|Hq].
    + unfold signal_at. simpl. destruct (decide (k' = k)) as [->|Hk].
      * by rewrite lookup_insert_eq, He, decide_True.
      * rewrite lookup_insert_ne by done. by rewrite decide_False by congruence.
    + rewrite decide_False by (by intros [= _ ->]). rewrite !signal_at_cons by done.
      destruct (decide (k' = k)) as [->|Hk]; [|by rewrite lookup_insert_ne].
      rewrite lookup_insert_eq. destruct (signal_at t (k :: q)) as [e'|] eqn:Hs.
      * exfalso. assert (k :: q = [k]) as [= ->]; [|done].
        apply Hfree; [by rewrite Hs|right; by exists q].
      * rewrite signal_at_cons in Hs by done. by destruct e.
  - destruct q as [|k' q].
    { rewrite decide_False by done. unfold signal_at. by destruct (insert_components _ _ _). }
    assert (forall ch, (t !! k = None /\ ch = ∅ \/ exists d, t !! k = Some (ME_Branch d ch)) ->
      signal_at (insert_components ch p e) q = if decide (q = p) then Some e else signal_at ch q) as Hch.
    { intros ch Ht. apply IH; [done..|]. intros q' Hq' Hpre.
      assert (k :: q' = k :: p) as [= ?]; [|done]. apply Hfree; [|by destruct Hpre; [left|right]; apply prefix_cons].
      destruct Ht as [[_ ->]|[d Ht]]; [by rewrite signal_at_empty in Hq'|].
      destruct (decide (q' = [])) as [->|]; [done|]. by rewrite signal_at_cons, Ht by done. }
    rewrite insert_cons by done.
    destruct (t !! k) as [[d ch| | |]|] eqn:Htk.
    2,3,4: exfalso; assert ([k] = k :: p) as [= Hkp]; [|by destruct p];
      apply Hfree; [unfold signal_at; simpl; by rewrite Htk|left; by apply prefix_cons, prefix_nil].
    + destruct (decide (q = [])) as [->|Hq].
      * rewrite decide_False by (by intros [= _ <-]). unfold signal_at. simpl.
        destruct (decide (k' = k)) as [->|]; [by rewrite lookup_insert_eq, Htk|by rewrite lookup_insert_ne].
      * rewrite !signal_at_cons by done. destruct (decide (k' = k)) as [->|].
        -- rewrite lookup_insert_eq, Htk, (Hch ch) by eauto.
           by destruct (decide (q = p)) as [->|]; [rewrite decide_True|rewrite decide_False by congruence].
        -- rewrite lookup_insert_ne by done. by rewrite decide_False by congruence.
    + destruct (decide (q = [])) as [->|Hq].
      * rewrite decide_False by (by intros [= _ <-]). unfold signal_at. simpl.
        destruct (decide (k' = k)) as [->|]; [by rewrite lookup_insert_eq, Htk|by rewrite lookup_insert_ne].
      * rewrite !signal_at_cons by done. destruct (decide (k' = k)) as [->|].
        -- rewrite lookup_insert_eq, Htk, (Hch ∅) by auto. rewrite signal_at_empty.
           by destruct (decide (q = p)) as [->|]; [rewrite decide_True|rewrite decide_False by congruence].
        -- rewrite lookup_insert_ne by done. by rewrite decide_False by congruence.
Qed.

(** Signals inserted one after the other, none above another. *)
Lemma fold_signals ps : forall t (S : list string -> Prop),
  (forall p e, (p, e) ∈ ps -> S p /\ p <> [] /\ is_signal e = true) ->
  (forall q, signal_at t q <> None -> S q) ->
  (forall p q, S p -> S q -> p `prefix_of` q -> p = q) ->
  (forall p e e', (p, e) ∈ ps -> (p, e') ∈ ps -> e = e') ->
  forall q e, signal_at (fold_left (fun t pe => insert_components t (fst pe) (snd pe)) ps t) q = Some e <->
    (q, e) ∈ ps \/ ((forall e', (q, e') ∉ ps) /\ signal_at t q = Some e).
Proof.
  induction ps as [|[p e0] ps IH]; intros t S Hps Ht Hfree Hfun q e; simpl.
  - split; [intros Hs; right; split; [intros ? ?%not_elem_of_nil|]; done|by intros [?%not_elem_of_nil|[_ ?]]].
  - destruct (Hps p e0 (list_elem_of_here _ _)) as (Hp & Hne & He0).
    assert (forall q, signal_at (insert_components t p e0) q = if decide (q = p) then Some e0 else signal_at t q) as Hins.
    { intros q'. apply insert_signal; [done..|]. intros q1 Hq1 [Hpre|Hpre]; [|symmetry]; by apply Hfree; auto. }
    rewrite (IH _ S); [..|done|].
    + rewrite Hins. destruct (decide (q = p)) as [->|Hq].
      * split.
        -- intros [Hin|[_ [= <-]]]; left; [by right|by left].
        -- intros [Hin|[Hno _]]; [|by destruct (Hno e0); left].
           assert (e = e0) as -> by (eapply Hfun; [done|left]).
           destruct (decide (p ∈ ps.*1)) as [([p' e'] & -> & He')%list_elem_of_fmap|Hno'].
           ++ left. simpl in *. by rewrite (Hfun p' e0 e') by (by left || by right).
           ++ right. split; [|done]. intros e' He'. apply Hno', list_elem_of_fmap. by exists (p, e').
      * split.
        -- intros [Hin|[Hno Hs]]; [left; by right|right]. split; [|done].
           intros e' [[= ? ?]|Hin]%elem_of_cons; [done|by apply (Hno e')].
        -- intros [[[= ? ?]|Hin]%elem_of_cons|[Hno Hs]]; [done|by left|right]. split; [|done].
           intros e' Hin. apply (Hno e'). by right.
    + intros p' e' Hin. apply Hps. by right.
    + intros q'. rewrite Hins. case_decide; [by subst|apply Ht].
    + intros p' e1 e2 H1 H2. by apply (Hfun p'); right.
Qed.

Section Metadata.
Context `{RegexEngine} `{HashOrder} `{SqlParser}.

(** What one visit inserts. *)
Definition visited (p : string) (a : EntryReadAccess) : option (list string * MetadataEntry) :=
  if starts_with p (Entry.path (era_metadata a)) then
    (fun rest => (split_on "."%char rest, metadata_entry (era_metadata a))) <$>
      strip_prefix (prefix_to_strip p) (Entry.path (era_metadata a))
  else None.

Lemma visits_fold p l t :
  fold_left (metadata_visit p) l t =
    fold_left (fun t pe => insert_components t (fst pe) (snd pe)) (omap (visited p) l) t.
Proof.
  revert t. induction l as [|a l IH]; intros t; [done|]. csimpl. rewrite IH.
  assert (metadata_visit p t a = match visited p a with Some pe => insert_components t pe.1 pe.2 | None => t end) as ->.
  { unfold metadata_visit, visited. destruct (starts_with _ _); [|done]. by destruct (strip_prefix _ _). }
  by destruct (visited p a).
Qed.

Lemma is_signal_metadata m : is_signal (metadata_entry m) = true.
Proof. unfold metadata_entry. by destruct (entry_type m). Qed.

Lemma elem_of_visited b now p q e :
  (q, e) ∈ omap (visited p) (iter_entries (database b) ALLOW_NONE now) <->
  exists i x rest, entries (database b) !! i = Some x /\ Entry.path (metadata x) = prefix_to_strip p +:+ rest /\
    starts_with p (Entry.path (metadata x)) = true /\ q = split_on "."%char rest /\ e = metadata_entry (metadata x).
Proof.
  rewrite list_elem_of_omap. split.
  - intros (a & (i & x & Hx & ->)%elem_of_iter_entries & Ha). unfold visited in Ha.
    rewrite (proj1 (EntryReadAccess_new_spec x ALLOW_NONE now)) in Ha.
    destruct (starts_with _ _) eqn:Hs; [|done]. destruct (strip_prefix _ _) as [rest|] eqn:Hr; [|done].
    apply strip_prefix_Some in Hr. simplify_eq/=. by exists i, x, rest.
  - intros (i & x & rest & Hx & Hp & Hs & -> & ->). exists (EntryReadAccess_new x ALLOW_NONE now).
    split; [apply elem_of_iter_entries; eauto|]. unfold visited.
    rewrite (proj1 (EntryReadAccess_new_spec x ALLOW_NONE now)), Hs, Hp, strip_prefix_app. done.
Qed.

(** No signal is registered below another one. *)
Definition no_nesting (db : Database) : Prop :=
  forall i j x y, entries db !! i = Some x -> entries db !! j = Some y ->
    starts_with (Entry.path (metadata x) +:+ ".") (Entry.path (metadata y)) = false.

Lemma split_on_prefix r s :
  split_on "."%char r `prefix_of` split_on "."%char s -> r = s \/ exists t, s = r +:+ "." +:+ t.
Proof.
  intros [k Hk]. rewrite <- (join_split_on r), <- (join_split_on s), Hk. destruct k as [|x k].
  - left. by rewrite app_nil_r.
  - right. eexists. apply join_app; [apply split_on_not_nil|done].
Qed.

End Metadata.

(** ** One web socket *)

Section Connection.
Context `{RegexEngine} `{HashOrder} `{SqlParser} `{JwtLibrary} `{VissJson}.

(** The subscription a notification is for. *)
Definition event_subscription (r : Response) : option SubscriptionId :=
  match r with
  | RS_Event e => Some (ev_subscription_id e)
  | RS_EventError e => Some (eve_subscription_id e)
  | _ => None
  end.

(** The request a response answers. *)
Definition response_request (r : Response) : option RequestId :=
  match r with
  | RS_GetSuccess (GS_Data r) => Some (dr_request_id r)
  | RS_GetSuccess (GS_Metadata r) => Some (mr_request_id r)
  | RS_GetError r => Some (ge_request_id r)
  | RS_SetSuccess r => Some (ss_request_id r)
  | RS_SetError r => Some (sse_request_id r)
  | RS_SubscribeSuccess r => Some (sb_request_id r)
  | RS_SubscribeError r => Some (sbe_request_id r)
  | RS_UnsubscribeSuccess r => Some (us_request_id r)
  | RS_UnsubscribeError r => Some (use_request_id r)
  | RS_Event _ | RS_EventError _ => None
  | RS_GenericError r => gne_request_id r
  end.
Definition request_id (r : Request) : RequestId :=
  match r with
  | RQ_Get r => gr_request_id r
  | RQ_Set r => sr_request_id r
  | RQ_Subscribe r => sbr_request_id r
  | RQ_Unsubscribe r => ur_request_id r
  end.

(** A step of the socket, or of anyone else who uses the broker. *)
Inductive conn_step (s : DataBroker * Connection) : DataBroker * Connection -> Prop :=
| conn_event event : conn_step s (ws_step (fst s) (snd s) event)
| conn_others b : conn_step s (b, snd s).

(** Every task forwards a stream that is aborted or whose subscription is
    registered. *)
Definition conn_inv (c : Connection) : Prop :=
  forall stream i n, co_tasks c !! stream = Some (i, n) ->
    stream ∈ vs_aborted (co_server c) \/ vs_subscriptions (co_server c) !! i = Some stream.

Lemma try_send_fields c full r :
  co_server (try_send c full r) = co_server c /\ co_tasks (try_send c full r) = co_tasks c /\
  co_open (try_send c full r) = co_open c /\
  (co_sent (try_send c full r) = co_sent c \/ co_sent (try_send c full r) = co_sent c ++ [r]).
Proof. unfold try_send. destruct (serialize r), full; simpl; auto. Qed.

Lemma conn_inv_same c c' :
  conn_inv c -> co_server c' = co_server c -> co_tasks c' = co_tasks c -> conn_inv c'.
Proof. unfold conn_inv. by intros Hc -> ->. Qed.

Lemma conn_inv_close c : conn_inv c -> conn_inv (close_connection c).
Proof.
  intros Hc stream i n Ht. left. simpl in *. apply elem_of_union.
  destruct (Hc stream i n Ht) as [?|Hs]; [by right|left]. apply elem_of_list_to_set, list_elem_of_In.
  apply in_map_iff. exists (i, stream). split; [done|]. by apply list_elem_of_In, elem_of_map_to_list.
Qed.

Lemma conn_inv_end c stream : conn_inv c -> conn_inv (set_tasks c (delete stream (co_tasks c))).
Proof. intros Hc s i n. simpl. intros [_ Ht]%lookup_delete_Some. by apply (Hc s i n). Qed.

Lemma conn_inv_request b c now new_id request r b' c' :
  conn_inv c -> handle_request b c now new_id request = (r, b', c') -> conn_inv c' /\ co_sent c' = co_sent c.
Proof.
  intros Hc Hr. destruct request as [rq|rq|rq|rq]; simpl in Hr.
  - by injection Hr as <- <- <-.
  - destruct (viss_set _ _ _ _) as [r1 b1]. by injection Hr as <- <- <-.
  - unfold viss_subscribe in Hr.
    destruct (resolve_permissions _ _) as [[permissions|error]|]; [|by injection Hr as <- <- <-..].
    destruct (access_get_id_by_path _ _) as [j|]; [|by injection Hr as <- <- <-].
    destruct (subscribe _ _ _ _) as [[stream|err] b1]; [|by injection Hr as <- <- <-].
    injection Hr as <- <- <-. split; [|done]. intros s i n. simpl.
    intros [[<- [= <- <-]]|[Hs Ht]]%lookup_insert_Some; [right; by apply lookup_insert_eq|].
    destruct (Hc s i n Ht) as [Ha|Hi].
    + left. destruct (vs_subscriptions (co_server c) !! new_id); [by apply elem_of_union_r|done].
    + destruct (decide (i = new_id)) as [->|Hne]; [left; rewrite Hi; by apply elem_of_union_l, elem_of_singleton|].
      right. by rewrite lookup_insert_ne.
  - unfold viss_unsubscribe in Hr.
    destruct (vs_subscriptions (co_server c) !! ur_subscription_id rq) as [handle|] eqn:Hh;
      injection Hr as <- <- <-; (split; [|done]); [|done].
    intros s i n Ht. simpl in *. destruct (Hc s i n Ht) as [Ha|Hi]; [left; by apply elem_of_union_r|].
    destruct (decide (i = ur_subscription_id rq)) as [->|Hne].
    + left. rewrite Hi in Hh. injection Hh as ->. by apply elem_of_union_l, elem_of_singleton.
    + right. by rewrite lookup_delete_ne.
Qed.

Lemma forward_inv b c now full disconnected stream :
  conn_inv c ->
  let c' := snd (forward b c now full disconnected stream) in
  conn_inv c' /\ (co_sent c' = co_sent c \/ exists r i, co_sent c' = co_sent c ++ [r] /\
    event_subscription r = Some i /\ vs_subscriptions (co_server c) !! i = Some stream).
Proof.
  intros Hc. unfold forward. destruct (co_tasks c !! stream) as [[i n]|] eqn:Ht; [|by simpl; auto].
  case_bool_decide as Ha; [split; [by apply conn_inv_end|by left]|].
  destruct (change_channels (channels b) !! stream) as [ch|]; [|by simpl; auto].
  destruct (sent ch !! n) as [item|]; [|by simpl; auto].
  destruct (Hc stream i n Ht) as [?|Hi]; [done|].
  set (r := match convert_event i now item with Ok event => RS_Event event | Err e => RS_EventError e end).
  assert (event_subscription r = Some i) as Hev.
  { unfold r, convert_event. destruct (last (updates item)) as [cn|]; [|done].
    by destruct (u_path (cn_update cn)), (u_datapoint (cn_update cn)). }
  assert (conn_inv (set_tasks c (<[stream := (i, S n)]> (co_tasks c)))) as Hc1.
  { intros s j m. simpl. intros [[<- [= <- <-]]|[Hs Hsj]]%lookup_insert_Some; [by right|by apply (Hc s j m)]. }
  destruct (disconnected && is_ok (serialize r)); simpl; [split; [by apply conn_inv_end|by left]|].
  pose proof (try_send_fields (set_tasks c (<[stream := (i, S n)]> (co_tasks c))) full r)
    as (Hsrv & Htk & _ & Hsent). split; [by eapply conn_inv_same|].
  destruct Hsent as [Hs|Hs]; [left; exact Hs|right; exists r, i; done].
Qed.

#[local] Ltac crush_all :=
  repeat match goal with
  | E : context [match ?x with _ => _ end] |- _ => let F := fresh "F" in destruct x eqn:F; simplify_eq/=
  end.

(** A request is answered under its own identifier, and not by a notification. *)
Lemma handle_request_reply b c now new_id request r b' c' :
  handle_request b c now new_id request = (Returns r, b', c') ->
  response_request r = Some (request_id request) /\ event_subscription r = None /\ co_open c' = co_open c.
Proof.
  destruct request as [rq|rq|rq|rq]; simpl; unfold viss_get, viss_set, viss_subscribe, viss_unsubscribe;
    intros Hr; crush_match_in Hr; crush_all; done.
Qed.

Lemma read_message_sent b c now new_id full msg :
  conn_inv c ->
  let c' := snd (read_message b c now new_id full msg) in
  conn_inv c' /\ (co_sent c' = co_sent c \/ exists r, co_sent c' = co_sent c ++ [r] /\ event_subscription r = None).
Proof.
  intros Hc. destruct msg as [msg| | | |]; simpl; auto using conn_inv_close.
  destruct (parse_v2_msg msg) as [request|err].
  - destruct (handle_request b c now new_id request) as [[r b1] c1] eqn:Hr.
    destruct (conn_inv_request _ _ _ _ _ _ _ _ Hc Hr) as [Hc1 Hs1].
    destruct r as [r|]; simpl; [|rewrite <- Hs1; auto using conn_inv_close].
    destruct (handle_request_reply _ _ _ _ _ _ _ _ Hr) as (_ & Hev & _).
    destruct (try_send_fields c1 full r) as (Hsrv & Htk & _ & Hsent). rewrite Hs1 in Hsent.
    split; [by eapply conn_inv_same|]. destruct Hsent as [Hs|Hs]; eauto.
  - destruct (try_send_fields c full (RS_GenericError err)) as (Hsrv & Htk & _ & Hsent). simpl.
    split; [by eapply conn_inv_same|]. destruct Hsent as [Hs|Hs]; eauto.
Qed.

Lemma ws_step_sent b c event :
  conn_inv c ->
  let c' := snd (ws_step b c event) in
  conn_inv c' /\ (co_sent c' = co_sent c \/ exists r, co_sent c' = co_sent c ++ [r] /\
    forall i, event_subscription r = Some i -> is_some (vs_subscriptions (co_server c) !! i) = true).
Proof.
  intros Hc. destruct event as [now new_id full msg| |now full disconnected stream|stream]; simpl.
  - destruct (co_open c); [|by auto].
    destruct (read_message_sent b c now new_id full msg Hc) as [Hc' [Hs|(r & Hs & Hev)]]; split; auto.
    right. exists r. split; [done|]. by rewrite Hev.
  - destruct (co_open c); simpl; auto using conn_inv_close.
  - destruct (forward_inv b c now full disconnected stream Hc) as [Hc' [Hs|(r & i & Hs & Hev & Hi)]]; split; auto.
    right. exists r. split; [done|]. intros j. rewrite Hev. intros [= <-]. by rewrite Hi.
  - case_bool_decide; simpl; auto using conn_inv_end.
Qed.

Lemma conn_inv_reachable authorization b0 s :
  rtc conn_step (b0, Connection_new authorization) s -> conn_inv (snd s).
Proof.
  intros Hr. assert (conn_inv (snd (b0, Connection_new authorization))) as Hc.
  { intros stream i n. simpl. by rewrite lookup_empty. }
  revert Hc. induction Hr as [|s1 s2 s3 [event|b] _ IH]; [done| |done]. intros Hc.
  by apply IH, ws_step_sent.
Qed.


(** Every text a client sends gets one response, if the socket can take
    it: a request is answered under its own identifier, a text that is no
    request with "bad request" and whatever identifier it has.  Only a panic
    while a token is decoded ends the socket instead. *)
Theorem viss_one_response b c now new_id msg b' c' :
  (forall r, is_ok (serialize r) = true) -> co_open c = true ->
  ws_step b c (WE_Message now new_id false (WM_Text msg)) = (b', c') ->
  match read_request msg with
  | Some request =>
      (exists r, co_sent c' = co_sent c ++ [r] /\ response_request r = Some (request_id request) /\ co_open c' = true) \/
      (co_open c' = false /\ co_sent c' = co_sent c /\ fst (fst (handle_request b c now new_id request)) = Panics)
  | None => exists error, co_sent c' = co_sent c ++ [RS_GenericError error] /\ co_open c' = true /\ b' = b /\
      number (error_spec (gne_error error)) = 400 /\
      gne_request_id error = read_generic_request msg ≫= gn_request_id
  end.
Proof.
  intros Hser Hopen. simpl. rewrite Hopen. unfold parse_v2_msg.
  assert (forall c r, co_sent (try_send c false r) = co_sent c ++ [r]) as Hsend.
  { intros c1 r. unfold try_send. specialize (Hser r). by destruct (serialize r). }
  destruct (read_request msg) as [request|].
  - destruct (handle_request b c now new_id request) as [[r b1] c1] eqn:Hr.
    assert (co_sent c1 = co_sent c) as Hs1.
    { destruct request; simpl in Hr; crush_match_in Hr; done. }
    destruct r as [r|]; intros Hs; injection Hs as <- <-; [left|by right].
    destruct (handle_request_reply _ _ _ _ _ _ _ _ Hr) as (Hid & _ & Ho). exists r. rewrite Hsend, Hs1.
    destruct (try_send_fields c1 false r) as (_ & _ & -> & _). by rewrite Ho.
  - intros Hs; injection Hs as <- <-. eexists. rewrite Hsend.
    destruct (try_send_fields c false (RS_GenericError match read_generic_request msg with
      | Some request => {| gne_action := gn_action request; gne_request_id := gn_request_id request;
                           gne_error := VE_BadRequest None |}
      | None => {| gne_action := None; gne_request_id := None; gne_error := VE_BadRequest None |} end)) as (_ & _ & -> & _).
    split_and!; try done; by destruct (read_generic_request msg).
Qed.
End Connection.

(** ** Witnesses *)

Section Witnesses.
#[local] Existing Instance glob_engine.
#[local] Existing Instance one_query_parser.

(** A library that knows one key and no valid token, and a client of few
    words. *)
#[local] Instance no_jwt : JwtLibrary :=
  {| DecodingKey := unit; from_rsa_pem := fun _ => Some tt; jwt_decode := fun _ _ _ => None |}.

Definition sub_request : SubscribeRequest :=
  {| sbr_path := "Vehicle.Speed"; sbr_request_id := "1"; sbr_authorization := None |}.

#[local] Instance few_words : VissJson :=
  {| read_request := fun msg =>
       if String.eqb msg "subscribe" then Some (RQ_Subscribe sub_request)
       else if String.eqb msg "unsubscribe"
       then Some (RQ_Unsubscribe {| ur_request_id := "2"; ur_subscription_id := "s" |}) else None;
     read_generic_request := fun _ => None;
     serialize := fun _ => Ok "text" |}.

Lemma viss_value_roundtrip_witness :
  try_into_type (value_from (DV_Int32Array [-5; 7])) DT_Int8Array = Ok (DV_Int32Array [-5; 7]) /\
  value_from (DV_Int32Array [-5; 7]) = VV_Array ["-5"; "7"].
Proof.
  split; [|reflexivity]. apply viss_value_roundtrip; [|reflexivity..].
  apply ht_Int8Array. repeat constructor; simpl; discriminate.
Defined.


Definition viss_broker : DataBroker := set_database (DataBroker_new "test") speed_db2.

Lemma viss_broker_inv : db_inv (database viss_broker).
Proof. apply update_preserves, speed_db_inv. Qed.

Definition viss_server : VissServer := VissServer_new Disabled.

Definition speed_set (text : string) : SetRequest :=
  {| sr_path := "Vehicle.Speed"; sr_value := VV_Scalar text; sr_request_id := "7"; sr_authorization := None |}.

Lemma viss_set_spec_witness :
  database (snd (viss_set viss_broker viss_server 9 (speed_set "300"))) = database viss_broker /\
  is_some (entries (database (snd (viss_set viss_broker viss_server 9 (speed_set "30")))) !! 0) = true.
Proof.
  split; [|vm_compute; reflexivity].
  destruct (viss_set viss_broker viss_server 9 (speed_set "300")) as [r b'] eqn:E.
  assert (exists resp, r = Returns (Err resp)) as [resp ->].
  { apply (f_equal fst) in E. vm_compute in E. eexists. symmetry. exact E. }
  exact (proj1 (proj2 (viss_set_spec viss_broker viss_server 9 (speed_set "300") _ b' viss_broker_inv E))).
Defined.

Lemma speed_no_nesting : no_nesting speed_db2.
Proof.
  intros i j x y Hx Hy.
  assert (forall i x, entries speed_db2 !! i = Some x -> Entry.path (metadata x) = "Vehicle.Speed") as Hp.
  { intros k z Hz. unfold speed_db2 in Hz. apply elem_of_map_to_list in Hz. vm_compute in Hz.
    apply list_elem_of_singleton in Hz. by injection Hz as -> ->. }
  by rewrite (Hp i x Hx), (Hp j y Hy).
Qed.


Definition open_socket : Connection := Connection_new Disabled.

Definition subscribed_socket : DataBroker * Connection :=
  ws_step viss_broker open_socket (WE_Message 9 "s" false (WM_Text "subscribe")).

(** The initial notification, forwarded by the task of the subscription. *)
Definition notified_socket : DataBroker * Connection :=
  ws_step (fst subscribed_socket) (snd subscribed_socket) (WE_Forward 10 false false 0).

Lemma subscribed_sent : length (co_sent (snd subscribed_socket)) = 1%nat.
Proof. vm_compute. reflexivity. Qed.

Lemma notified_sent : event_subscription <$> co_sent (snd notified_socket) !! 1%nat = Some (Some "s").
Proof. vm_compute. reflexivity. Qed.


Lemma viss_one_response_witness :
  exists error, co_sent (snd (ws_step viss_broker open_socket (WE_Message 9 "s" false (WM_Text "noise")))) =
    [RS_GenericError error] /\ number (error_spec (gne_error error)) = 400.
Proof.
  destruct (ws_step viss_broker open_socket (WE_Message 9 "s" false (WM_Text "noise"))) as [b' c'] eqn:E.
  assert (forall r, is_ok (serialize r) = true) as Hser by reflexivity.
  destruct (viss_one_response viss_broker open_socket 9 "s" "noise" b' c' Hser eq_refl E)
    as (error & Hs & _ & _ & Hn & _).
  exists error. split; [exact Hs|exact Hn].
Defined.
End Witnesses.
