(* ===== verification/Server.v ===== *)
(** * Server: all services on one broker

    The handlers of kuksa.val.v1, sdv.databroker.v1 and VISS v2, the start-up
    and the housekeeping task (src/kuksa_databroker/databroker/src/broker.rs,
    [start_housekeeping_task]) as steps on one broker, and the refinement: each
    handler is a sequence of the critical sections of [System], so what holds
    of every interleaving of critical sections holds of the whole server. *)

From S2P Require Import Prelude Types Regex Glob Permissions Auth Entry Database Query Broker Delivery System.
From S2P Require Import ProtoVal KuksaVal ProtoSdv Sdv SdvSpec Vss VssSpec Startup VissTypes Viss VissSpec.

Section Server.
Context `{RegexEngine} `{HashOrder} `{SqlParser} `{Timestamps} `{SerdeJson} `{JwtLibrary} `{VissJson}.

(** One request of one of the services run to its end, a step of a provider's
    stream or of a socket, the loading of one signal or attribute at start, a
    turn of the housekeeping task, a client gone, or the shutdown. *)
Inductive server_step (b : DataBroker) : DataBroker -> Prop :=
| sv_val_set permissions now requests :
    server_step b (snd (KuksaVal.set b permissions now requests))
| sv_val_subscribe permissions now requested :
    server_step b (snd (val_subscribe b permissions now requested))
| sv_sdv_set permissions now datapoints :
    server_step b (snd (set_datapoints b permissions now datapoints))
| sv_sdv_subscribe debug permissions now query :
    server_step b (snd (sdv_subscribe debug b permissions now query))
| sv_sdv_update permissions now datapoints :
    server_step b (snd (update_datapoints b permissions now datapoints))
| sv_sdv_register permissions now l :
    Z.of_nat (size (entries (database b)) + length l) <= 4294967296 ->
    server_step b (snd (register_datapoints b permissions now l))
| sv_sdv_stream permissions error_sender s event :
    st_broker s = b -> server_step b (st_broker (stream_step permissions error_sender s event))
| sv_viss c event : server_step b (fst (ws_step b c event))
| sv_vss_signal permissions now pe :
    Z.of_nat (size (entries (database b))) < 4294967296 ->
    server_step b (add_vss_datapoint permissions now b pe)
| sv_kuksa_attribute permissions now attribute value description :
    Z.of_nat (size (entries (database b))) < 4294967296 ->
    server_step b (add_kuksa_attribute b permissions now attribute value description)
| sv_housekeeping : server_step b (cleanup_subscriptions b)
| sv_drop_change c : server_step b (drop_change_receiver b c)
| sv_drop_query c : server_step b (drop_query_receiver b c)
| sv_shutdown : server_step b (shutdown b).

(** The broker steps of [System] from one broker to another, whatever is
    pending. *)
Definition broker_steps (b b' : DataBroker) : Prop :=
  forall p, rtc sys_step {| sys_broker := b; pending := p |} {| sys_broker := b'; pending := p |}.

#[export] Instance broker_steps_preorder : PreOrder broker_steps.
Proof. split; [by intros b p|]. intros b1 b2 b3 H12 H23 p. by etrans; [apply H12|apply H23]. Qed.

Lemma update_entries_steps b permissions now us :
  broker_steps b (snd (update_entries b permissions now us)).
Proof.
  intros p. unfold update_entries.
  pose proof (sys_update {| sys_broker := b; pending := p |} permissions now us) as Hu. simpl in Hu.
  destruct (update_entries_locked b permissions now us) as [[errors cleanup_needed] b1]. simpl in *.
  eapply rtc_l; [exact Hu|]. destruct cleanup_needed; [|done].
  apply rtc_once, (sys_cleanup {| sys_broker := b1; pending := p |}).
Qed.

Lemma subscribe_steps b permissions now valid_entries :
  broker_steps b (snd (subscribe b permissions now valid_entries)).
Proof.
  intros p. unfold subscribe. destruct (subscribe_initial b permissions now valid_entries) as [[sub|err] b1] eqn:E.
  - simpl. eapply rtc_l; [eapply (sys_subscribe_initial {| sys_broker := b; pending := p |}); exact E|].
    apply rtc_once. simpl.
    pose proof (sys_subscribe_register {| sys_broker := b1; pending := p ++ [sub] |} sub p [] eq_refl) as Hr.
    rewrite app_nil_r in Hr. exact Hr.
  - unfold subscribe_initial in E. case_bool_decide; [by injection E as _ <-|].
    destruct (channel _) as [c0 st0], (change_notify _ _ _ _ _) as [r0 st1]. done.
Qed.

Lemma subscribe_query_steps b permissions now sql :
  broker_steps b (snd (subscribe_query b permissions now sql)).
Proof. intros p. apply rtc_once, (sys_subscribe_query {| sys_broker := b; pending := p |}). Qed.

Lemma add_entry_steps b permissions now name dt ct et desc al un :
  Z.of_nat (size (entries (database b))) < 4294967296 ->
  broker_steps b (snd (add_entry b permissions now name dt ct et desc al un)).
Proof. intros Hsize p. apply rtc_once, (sys_add_entry {| sys_broker := b; pending := p |}). exact Hsize. Qed.

Lemma drop_change_steps b c : broker_steps b (drop_change_receiver b c).
Proof. intros p. apply rtc_once, (sys_drop_change {| sys_broker := b; pending := p |}). Qed.

(** A registration adds at most one entry. *)
Lemma add_entry_size b permissions now name dt ct et desc al un :
  (size (entries (database (snd (add_entry b permissions now name dt ct et desc al un)))) <=
   S (size (entries (database b))))%nat.
Proof.
  unfold add_entry. destruct (add _ _ _ _ _ _ _ _ _ _ _) as [r db'] eqn:E. simpl.
  apply add_cases in E as [(? & _ & ->) | (_ & _ & [(? & _ & _ & ->) | (_ & _ & _ & ->)])]; [lia|lia|].
  simpl. destruct (entries (database b) !! next_id (database b)) as [e|] eqn:He.
  - rewrite map_size_insert_Some by by eexists. lia.
  - by rewrite map_size_insert_None.
Qed.

Lemma register_steps permissions now l : forall b results,
  Z.of_nat (size (entries (database b)) + length l) <= 4294967296 ->
  broker_steps b (snd (register_loop b permissions now l results)).
Proof.
  induction l as [|m l IH]; intros b results Hsize; simpl; [done|]. simpl in Hsize.
  destruct (sdv_data_type_from_i32 (rm_data_type m)) as [dt|], (sdv_change_type_from_i32 (rm_change_type m)) as [ct|];
    try done.
  pose proof (add_entry_steps b permissions now (rm_name m) (data_type_from_sdv dt) (change_type_from_sdv ct) ET_Sensor
    (rm_description m) None None ltac:(lia)) as Ha.
  pose proof (add_entry_size b permissions now (rm_name m) (data_type_from_sdv dt) (change_type_from_sdv ct) ET_Sensor
    (rm_description m) None None) as Hs.
  destruct (add_entry _ _ _ _ _ _ _ _ _ _) as [[i|[]] b1]; simpl in *; try done.
  etrans; [exact Ha|]. apply IH. lia.
Qed.

Lemma add_vss_steps permissions now b pe :
  Z.of_nat (size (entries (database b))) < 4294967296 ->
  broker_steps b (add_vss_datapoint permissions now b pe).
Proof.
  intros Hsize. destruct pe as [p d]. unfold add_vss_datapoint.
  pose proof (add_entry_steps b permissions now p (vd_data_type d) (vd_change_type d) (vd_entry_type d)
    (vd_description d) (vd_allowed d) (vd_unit d) Hsize) as Ha.
  destruct (add_entry _ _ _ _ _ _ _ _ _ _) as [[i|err] b1]; simpl in Ha; [|done].
  destruct (vd_default d); [|done]. etrans; [exact Ha|apply update_entries_steps].
Qed.

Lemma viss_steps b c event : broker_steps b (fst (ws_step b c event)).
Proof.
  destruct event as [now new_id full msg| |now full disconnected stream|stream]; simpl.
  - destruct (co_open c); [|done]. destruct msg as [msg| | | |]; simpl; try done.
    destruct (parse_v2_msg msg) as [request|]; [|done].
    assert (broker_steps b (snd (fst (handle_request b c now new_id request)))) as Hr.
    { destruct request as [rq|rq|rq|rq]; simpl; [done|..].
      - unfold viss_set. destruct (resolve_permissions _ _) as [[permissions|]|]; try done.
        destruct (access_get_metadata_by_path _ _) as [m|]; [|done]. destruct (bool_decide _); [done|].
        destruct (try_into_type _ _) as [v|[]]; [|done].
        pose proof (update_entries_steps b permissions now [(id m, target_update {| ts := now; value := v |})]) as Hu.
        by destruct (update_entries _ _ _ _) as [[|] b1].
      - unfold viss_subscribe. destruct (resolve_permissions _ _) as [[permissions|]|]; try done.
        destruct (access_get_id_by_path _ _) as [i|]; [|done].
        pose proof (subscribe_steps b permissions now {[ i := {[ F_Datapoint ]} ]}) as Hs.
        by destruct (subscribe _ _ _ _) as [[|] b1].
      - by destruct (viss_unsubscribe _ _ _). }
    by destruct (handle_request b c now new_id request) as [[[r|] b1] c1].
  - done.
  - unfold forward. destruct (co_tasks c !! stream) as [[i n]|]; [|done].
    case_bool_decide; [apply drop_change_steps|].
    destruct (change_channels (channels b) !! stream) as [ch|]; [|done].
    destruct (sent ch !! n) as [item|]; [|done]. destruct (_ && _); [apply drop_change_steps|done].
  - case_bool_decide; [apply drop_change_steps|done].
Qed.

(** Every handler is a run of critical sections. *)
Lemma server_step_steps b b' : server_step b b' -> broker_steps b b'.
Proof.
  intros Hs. destruct Hs as [permissions now requests|permissions now requested|permissions now datapoints
    |debug permissions now query|permissions now datapoints|permissions now l Hsize|permissions c s event <-|c event
    |permissions now pe Hsize|permissions now attribute value description Hsize| | | |].
  - unfold KuksaVal.set. destruct permissions as [permissions|]; [|done].
    destruct (collect_updates _ _ _ _ _) as [[us errors]|]; [|done].
    pose proof (update_entries_steps b permissions now us) as Hu. by destruct (update_entries _ _ _ _).
  - unfold val_subscribe. destruct permissions as [permissions|]; [|done]. destruct requested as [|r requested]; [done|].
    destruct (subscribe_collect _ _ _ _ _) as [es|]; [|done].
    pose proof (subscribe_steps b permissions now es) as Hs. by destruct (subscribe _ _ _ _) as [[|[]] b1].
  - unfold set_datapoints. destruct permissions as [permissions|]; [|done].
    destruct (collect_targets _ _ _ _ _ _) as [[ids errors] id_to_path].
    pose proof (update_entries_steps b permissions now ids) as Hu. by destruct (update_entries _ _ _ _).
  - unfold sdv_subscribe. destruct permissions as [permissions|]; [|done].
    pose proof (subscribe_query_steps b permissions now query) as Hs. by destruct (subscribe_query _ _ _ _) as [[|] b1].
  - unfold update_datapoints. destruct permissions as [permissions|]; [|done].
    pose proof (update_entries_steps b permissions now (provided_updates now datapoints)) as Hu.
    by destruct (update_entries _ _ _ _).
  - unfold register_datapoints. destruct permissions as [permissions|]; [|done]. by apply register_steps.
  - unfold stream_step. destruct (negb _); [done|]. destruct event as [now datapoints| | |]; try done.
    pose proof (update_entries_steps (st_broker s) permissions now (provided_updates now datapoints)) as Hu.
    by destruct (update_entries _ _ _ _).
  - apply viss_steps.
  - by apply add_vss_steps.
  - unfold add_kuksa_attribute.
    pose proof (add_entry_steps b permissions now attribute DT_String CT_OnChange ET_Attribute description None None
      Hsize) as Ha.
    destruct (add_entry _ _ _ _ _ _ _ _ _ _) as [[i|err] b1]; simpl in Ha; [|done].
    etrans; [exact Ha|apply update_entries_steps].
  - intros p. apply rtc_once, (sys_cleanup {| sys_broker := b; pending := p |}).
  - apply drop_change_steps.
  - intros p. apply rtc_once, (sys_drop_query {| sys_broker := b; pending := p |}).
  - intros p. apply rtc_once, (sys_shutdown {| sys_broker := b; pending := p |}).
Qed.

(** Requests handled whole, while others are between two of their critical
    sections. *)
Inductive server_run (s : System) : System -> Prop :=
| sr_handler b : server_step (sys_broker s) b -> server_run s {| sys_broker := b; pending := pending s |}
| sr_section s' : sys_step s s' -> server_run s s'.

(** C10. Every handler of every service refines the broker's critical
    sections: whatever requests the server has handled since it started, of
    whichever services and in whatever order, and also while other clients are
    in the middle of theirs, its state is one that the critical sections
    reach, and satisfies the invariant of the system.  Nothing a service does
    escapes the locks. *)
Theorem server_refines v s :
  rtc server_run (sys_new v) s -> rtc sys_step (sys_new v) s /\ sys_inv s.
Proof.
  intros Hr. assert (rtc sys_step (sys_new v) s) as Hs.
  { induction Hr as [s|s1 s2 s3 H12 _ IH]; [done|]. etrans; [|exact IH].
    destruct H12 as [b Hb|s' Hs']; [|by apply rtc_once]. destruct s1 as [b1 p]. by apply server_step_steps. }
  split; [exact Hs|]. by apply (sys_inv_rtc (sys_new v)); [apply sys_inv_new|].
Qed.

Lemma collect_one_error i err : collect_errors [(i, err)] <> ∅.
Proof. apply insert_non_empty. Qed.

(** C36. Across services: a value that a provider's [UpdateDatapoints] has
    stored without an error is the value a VISS client then reads, printed,
    unless the signal is not continuous and already has an equal value. *)
Theorem update_then_viss_get b permissions now i d e b' self now' request reader :
  db_inv (database b) -> entries (database b) !! i = Some e ->
  update_datapoints b (Some permissions) now {[ i := d ]} = (Ok ∅, b') ->
  gr_path request = path (metadata e) -> gr_filter request = None ->
  resolve_permissions (vs_authorization self) (gr_authorization request) = Returns (Ok reader) ->
  can_read reader now' (path (metadata e)) = Ok tt ->
  exists dp, viss_get b' self now' request =
      Returns (Ok (GS_Data {| dr_request_id := gr_request_id request;
                              dr_data := D_Object {| do_path := path (metadata e); do_dp := viss_datapoint dp |} |})) /\
    (dp = datapoint_from_sdv now d \/ dp = datapoint e /\ keeps_value e (datapoint_from_sdv now d) = true).
Proof.
  intros Hinv He Hu Hp Hfilter Hres Hread. set (dp := datapoint_from_sdv now d).
  unfold update_datapoints, provided_updates in Hu.
  rewrite map_to_list_singleton in Hu.
  assert (hash_order [(i, d)] = [(i, d)]) as Hho by (apply Permutation_singleton_r, hash_order_perm).
  rewrite Hho in Hu. cbn [map] in Hu.
  destruct (update_entries_one b permissions now i (datapoint_update dp)) as [Hr Hdb]. fold dp in Hu. clearbody dp.
  destruct (update_entries _ _ _ _) as [ur b1]. simpl in Hr, Hdb. injection Hu as Hur <-.
  rewrite (datapoint_update_eq _ _ _ _ e dp He) in Hr, Hdb.
  assert (exists e', entries (database b1) !! i = Some e' /\ metadata e' = metadata e /\
    path_to_id (database b1) = path_to_id (database b) /\
    (datapoint e' = dp \/ datapoint e' = datapoint e /\ keeps_value e dp = true)) as (e' & He' & Hm & Hpi & Hdp).
  { destruct (can_write_datapoint _ _ _) as [[]|err]; simpl in Hr, Hdb;
      [|subst ur; by apply collect_one_error in Hur].
    destruct (keeps_value e dp) eqn:Hk; simpl in Hdb; [exists e; rewrite Hdb; split_and!; auto|].
    destruct (check_value e (value dp)) as [[]|err]; simpl in Hr, Hdb;
      [|subst ur; by apply collect_one_error in Hur].
    eexists. rewrite Hdb. simpl. rewrite lookup_insert_eq. split_and!; [done..|by left]. }
  exists (datapoint e'). split; [|exact Hdp].
  destruct (inv_entry _ Hinv i e He) as (_ & Hie & _).
  unfold viss_get, access_get_datapoint_by_path, get_entry_by_path, get_entry_by_id.
  rewrite Hfilter, Hres, Hp, Hpi, Hie. simpl. rewrite He', Hm, Hread. done.
Qed.
End Server.

(** ** Witnesses *)

Section Witnesses.
#[local] Existing Instance glob_engine.
#[local] Existing Instance one_query_parser.
#[local] Existing Instance z_timestamps.
#[local] Existing Instance small_json.
#[local] Existing Instance no_jwt.
#[local] Existing Instance few_words.

Definition speed_signal : VssDataEntry :=
  {| vd_data_type := DT_Int8; vd_entry_type := ET_Actuator; vd_change_type := CT_OnChange; vd_description := "";
     vd_comment := None; vd_unit := None; vd_min := None; vd_max := None; vd_allowed := None; vd_default := None |}.

(** A broker started with one signal, and then used by a VISS client. *)
Definition started : DataBroker :=
  add_vss_datapoint ALLOW_ALL 0 (DataBroker_new "test") ("Vehicle.Speed", speed_signal).

Definition served : DataBroker := fst (ws_step started open_socket (WE_Message 9 "s" false (WM_Text "subscribe"))).

Lemma server_refines_witness : sys_inv {| sys_broker := served; pending := [] |}.
Proof.
  apply (server_refines "test").
  apply rtc_l with {| sys_broker := started; pending := [] |}.
  - apply (sr_handler (sys_new "test")), sv_vss_signal. reflexivity.
  - apply rtc_once, (sr_handler {| sys_broker := started; pending := [] |}), (sv_viss started open_socket).
Defined.

Definition speed_get : GetRequest :=
  {| gr_path := "Vehicle.Speed"; gr_request_id := "3"; gr_authorization := None; gr_filter := None |}.

Definition speed_to_42 : SdvDatapoint := {| sd_timestamp := None; sd_value := Some (SV_Int32 42) |}.

Lemma update_then_viss_get_witness :
  viss_get (snd (update_datapoints viss_broker (Some ALLOW_ALL) 9 {[ 0 := speed_to_42 ]})) viss_server 11 speed_get =
  Returns (Ok (GS_Data {| dr_request_id := "3";
    dr_data := D_Object {| do_path := "Vehicle.Speed";
                           do_dp := {| vdp_value := VV_Scalar "42"; vdp_ts := 9 |} |} |})).
Proof.
  destruct (entries (database viss_broker) !! 0) as [e|] eqn:He; [|vm_compute in He; discriminate He].
  destruct (update_datapoints viss_broker (Some ALLOW_ALL) 9 {[ 0 := speed_to_42 ]}) as [r b'] eqn:Eu.
  assert (r = Ok ∅) as ->.
  { apply (f_equal fst) in Eu. cbn [fst] in Eu. rewrite <- Eu. vm_compute. reflexivity. }
  assert (path (metadata e) = "Vehicle.Speed" /\ keeps_value e (datapoint_from_sdv 9 speed_to_42) = false) as [Hp Hk].
  { vm_compute in He. injection He as <-. split; reflexivity. }
  destruct (update_then_viss_get viss_broker ALLOW_ALL 9 0 speed_to_42 e b' viss_server 11 speed_get ALLOW_ALL
    viss_broker_inv He Eu) as (dp & Hget & [->|[_ Hkeep]]); rewrite ?Hp; try reflexivity.
  - cbn [snd]. rewrite Hget, Hp. reflexivity.
  - congruence.
Defined.
End Witnesses.
