(* ===== verification/Client.v ===== *)
(** * Client: the client libraries

    src/kuksa_databroker/lib: the connection of a client ([Client] of
    common/src/lib.rs) and the clients of the two gRPC services ([KuksaClient]
    of kuksa/src/lib.rs, [SDVClient] of sdv/src/lib.rs).  The crates [http] and
    [tonic] are the parameter [Tonic]; what is at the other end of a connection
    is an interface, [Remote], that the clients are written against and that
    [ClientServer] implements by the broker.  A method that takes [&mut self]
    and awaits the network is a computation on the client and the network; it
    is given by its outcome and what it leaves of both. *)

From S2P Require Import Prelude Types Glob Broker ProtoVal KuksaVal ProtoSdv Sdv.

(** ** Errors and connection states *)

Inductive ConnectionState := CS_Connected | CS_Disconnected.

Inductive ClientError :=
| CE_Connection (con : string)
| CE_Status (status : Status)
| CE_Function (err : list ProtoError).

Inductive TokenError := MalformedTokenError (msg : string).

(** One element of the list printed for [ClientError::Function]. *)
Definition format_error (element : ProtoError) : string :=
  "code: " +:+ pretty (err_code element) +:+ ", message: " +:+ err_message element +:+
  ", reason: " +:+ err_reason element.

(** [Display for ClientError]; the text of a status is tonic's. *)
Definition client_error_to_string (status_to_string : Status -> string) (e : ClientError) : string :=
  match e with
  | CE_Connection con => con
  | CE_Status status => status_to_string status
  | CE_Function err => join ", " (map format_error err)
  end.

(** ** The crates http and tonic *)

Record UriParts (Scheme Authority PathAndQuery : Type) := {
  up_scheme : option Scheme;
  up_authority : option Authority;
  up_path_and_query : option PathAndQuery
}.
Arguments up_scheme {Scheme Authority PathAndQuery} _.
Arguments up_authority {Scheme Authority PathAndQuery} _.
Arguments up_path_and_query {Scheme Authority PathAndQuery} _.
Arguments Build_UriParts {Scheme Authority PathAndQuery} _ _ _.

Class Tonic := {
  Uri : Type;
  Scheme : Type;
  UriAuthority : Type;
  PathAndQuery : Type;
  uri_parse : string -> result Uri string;
  uri_to_string : Uri -> string;
  into_parts : Uri -> UriParts Scheme UriAuthority PathAndQuery;
  from_parts : UriParts Scheme UriAuthority PathAndQuery -> result Uri string;
  scheme_parse : string -> option Scheme;
  path_parse : string -> option PathAndQuery;
  TlsConfig : Type;
  Endpoint : Type;
  endpoint : Uri -> Endpoint;
  endpoint_tls_config : Endpoint -> TlsConfig -> result Endpoint string;
  (** [AsciiMetadataValue::try_from], the value given by its text. *)
  ascii_metadata_value : string -> result string string;
  (** The text of the error of a broadcast that nobody receives. *)
  send_error_text : string
}.

(** [to_uri]. *)
Definition to_uri `{Tonic} (uri : string) : outcome (result Uri string) :=
  match uri_parse uri with
  | Err err => Returns (Err err)
  | Ok uri =>
      let parts := into_parts uri in
      match (match up_scheme parts with
             | None => match scheme_parse "http" with Some s => Returns (Some s) | None => Panics end
             | Some s => Returns (Some s)
             end) with
      | Panics => Panics
      | Returns scheme =>
          match up_authority parts with
          | Some authority =>
              match path_parse "" with
              | Some path_and_query =>
                  Returns (from_parts (Build_UriParts scheme (Some authority) (Some path_and_query)))
              | None => Panics
              end
          | None => Returns (Err "No server uri specified")
          end
      end
  end.

(** ** The other end of a connection

    A connection ([tonic::transport::Channel]), what a stream of replies is,
    and one operation per method of the services the clients call: the
    connection, the text of the header [authorization] if there is one, and the
    request. *)

Class Remote `{Timestamps} `{Tonic} := {
  Net : Type;
  Conn : Type;
  Streaming : Type;
  connect : Endpoint -> Net -> result Conn string * Net;
  rpc_set : Conn -> option string -> list ProtoEntryUpdate -> Net -> result SetResponse Status * Net;
  rpc_get : Conn -> option string -> list EntryRequest -> Net -> result GetResponse Status * Net;
  rpc_subscribe : Conn -> option string -> list EntryRequest -> Net -> result Streaming Status * Net;
  rpc_sdv_get_metadata : Conn -> option string -> list string -> Net -> result (list SdvMetadata) Status * Net;
  rpc_sdv_get_datapoints :
    Conn -> option string -> list string -> Net -> result (gmap string SdvDatapoint) Status * Net;
  rpc_sdv_set_datapoints :
    Conn -> option string -> gmap string SdvDatapoint -> Net -> result (gmap string Z) Status * Net;
  rpc_sdv_subscribe : Conn -> option string -> string -> Net -> result Streaming Status * Net;
  rpc_sdv_update_datapoints :
    Conn -> option string -> gmap Z SdvDatapoint -> Net -> result (gmap Z Z) Status * Net
}.

Section Client.
Context `{Remote} `{HashOrder}.

(** ** Client *)

(** The sender of a [tokio::sync::broadcast] channel: how many receivers are
    left and what was sent.  A receiver is given by the number of states sent
    before it. *)
Record StateSubs := { receivers : nat; states : list ConnectionState }.

Record Client := {
  uri : Uri;
  token : option string;
  client_tls_config : option TlsConfig;
  client_channel : option Conn;
  connection_state_subs : option StateSubs
}.

(** [Client::new]. *)
Definition Client_new (uri : Uri) : Client :=
  {| uri := uri; token := None; client_tls_config := None; client_channel := None;
     connection_state_subs := None |}.

Definition with_uri (self : Client) (u : Uri) : Client :=
  {| uri := u; token := token self; client_tls_config := client_tls_config self;
     client_channel := client_channel self; connection_state_subs := connection_state_subs self |}.
Definition with_token (self : Client) (t : option string) : Client :=
  {| uri := uri self; token := t; client_tls_config := client_tls_config self;
     client_channel := client_channel self; connection_state_subs := connection_state_subs self |}.
Definition with_channel (self : Client) (channel : option Conn) : Client :=
  {| uri := uri self; token := token self; client_tls_config := client_tls_config self;
     client_channel := channel; connection_state_subs := connection_state_subs self |}.
Definition with_subs (self : Client) (subs : option StateSubs) : Client :=
  {| uri := uri self; token := token self; client_tls_config := client_tls_config self;
     client_channel := client_channel self; connection_state_subs := subs |}.

(** [Client::get_uri]. *)
Definition get_uri (self : Client) : string := uri_to_string (uri self).

(** [Client::set_tls_config]. *)
Definition set_tls_config (self : Client) (tls_config : TlsConfig) : Client :=
  {| uri := uri self; token := token self; client_tls_config := Some tls_config;
     client_channel := client_channel self; connection_state_subs := connection_state_subs self |}.

(** [Client::set_access_token]. *)
Definition set_access_token (self : Client) (token : string) : result unit TokenError * Client :=
  match ascii_metadata_value ("Bearer " +:+ token) with
  | Ok token => (Ok tt, with_token self (Some token))
  | Err err => (Err (MalformedTokenError err), self)
  end.

(** [Client::is_connected]. *)
Definition is_connected (self : Client) : bool := is_some (client_channel self).

(** [Client::subscribe_to_connection_state]. *)
Definition subscribe_to_connection_state (self : Client) : nat * Client :=
  match connection_state_subs self with
  | Some stream =>
      (length (states stream),
       with_subs self (Some {| receivers := S (receivers stream); states := states stream |}))
  | None => (O, with_subs self (Some {| receivers := 1; states := [] |}))
  end.

(** A stream returned by [subscribe_to_connection_state] is dropped. *)
Definition drop_state_stream (self : Client) : Client :=
  match connection_state_subs self with
  | Some stream =>
      with_subs self (Some {| receivers := pred (receivers stream); states := states stream |})
  | None => self
  end.

(** [broadcast::Sender::send]: fails when there is no receiver. *)
Definition send_state (subs : StateSubs) (state : ConnectionState) : result unit string * StateSubs :=
  match receivers subs with
  | O => (Err send_error_text, subs)
  | S _ => (Ok tt, {| receivers := receivers subs; states := states subs ++ [state] |})
  end.

(** [if let Some(subs) = &self.connection_state_subs { subs.send(state) }]. *)
Definition notify_state (self : Client) (state : ConnectionState) : result unit string * Client :=
  match connection_state_subs self with
  | Some subs => let '(r, subs) := send_state subs state in (r, with_subs self (Some subs))
  | None => (Ok tt, self)
  end.

(** ** Computations of a client *)

Definition M (A : Type) : Type := Client * Net -> result A ClientError * (Client * Net).

Definition ret {A} (a : A) : M A := fun s => (Ok a, s).
Definition fail {A} (e : ClientError) : M A := fun s => (Err e, s).

(** [c.await?] and then [k]. *)
Definition bind {A B} (c : M A) (k : A -> M B) : M B :=
  fun s => match c s with
           | (Ok a, s) => k a s
           | (Err e, s) => (Err e, s)
           end.

(** [Client::try_create_channel]. *)
Definition try_create_channel : M Conn :=
  fun '(self, net) =>
    let builder := endpoint (uri self) in
    match (match client_tls_config self with
           | Some tls_config =>
               map_err (fun err => CE_Connection ("Failed to configure TLS: " +:+ err))
                 (endpoint_tls_config builder tls_config)
           | None => Ok builder
           end) with
    | Err e => (Err e, (self, net))
    | Ok builder =>
        match connect builder net with
        | (Ok channel, net) =>
            match notify_state self CS_Connected with
            | (Err err, self) =>
                (Err (CE_Connection ("Failed to notify connection state change: " +:+ err)), (self, net))
            | (Ok _, self) => (Ok channel, (with_channel self (Some channel), net))
            end
        | (Err err, net) =>
            (Err (CE_Connection ("Failed to connect to " +:+ uri_to_string (uri self) +:+ ": " +:+ err)),
             (snd (notify_state self CS_Disconnected), net))
        end
    end.

(** [Client::try_connect]. *)
Definition try_connect : M unit := bind try_create_channel (fun _ => ret tt).

(** [Client::try_connect_to]. *)
Definition try_connect_to (uri : Uri) : M unit :=
  fun '(self, net) => bind try_create_channel (fun _ => ret tt) (with_uri self uri, net).

(** [Client::get_channel]. *)
Definition get_channel : M Conn :=
  fun '(self, net) =>
    match client_channel self with
    | None => try_create_channel (self, net)
    | Some channel => (Ok channel, (self, net))
    end.

(** [Client::get_auth_interceptor]: the header of a request. *)
Definition auth_header (self : Client) : option string := token self.

(** A method of a service called with [get_channel] and the interceptor; a
    status is [ClientError::Status]. *)
Definition call {A} (rpc : Conn -> option string -> Net -> result A Status * Net) : M A :=
  bind get_channel (fun channel '(self, net) =>
    let '(r, net) := rpc channel (auth_header self) net in (map_err CE_Status r, (self, net))).
End Client.

Notation "'let!' x ':=' c 'in' k" := (bind c (fun x => k))
  (at level 10, x binder, c at level 100, k at level 200,
   format "'[v' 'let!'  x  ':='  c  'in' '/' k ']'") : rust_scope.

(** ** KuksaClient *)

Section KuksaClient.
Context `{Remote} `{HashOrder}.

(** The errors of a response: the global one and those of the entries. *)
Definition response_errors (error : option ProtoError) (errors : list DataEntryError) : list ProtoError :=
  match error with Some err => [err] | None => [] end ++ omap dee_error errors.

(** [KuksaClient::set]. *)
Definition client_set (entry : DataEntry) (fields : list ProtoField) : M unit :=
  let! message := call (fun channel header =>
    rpc_set channel header [{| peu_entry := Some entry; peu_fields := map proto_field_i32 fields |}]) in
  match response_errors (set_error message) (set_errors message) with
  | [] => ret tt
  | errors => fail (CE_Function errors)
  end.

(** [view.into()]. *)
Definition view_i32 (v : View) : Z :=
  match v with
  | VW_Unspecified => 0 | VW_CurrentValue => 1 | VW_TargetValue => 2
  | VW_Metadata => 3 | VW_Fields => 10 | VW_All => 20
  end.

(** [KuksaClient::get]. *)
Definition client_get (path : string) (view : View) (fields : list ProtoField) : M (list DataEntry) :=
  let! message := call (fun channel header =>
    rpc_get channel header
      [{| er_path := path; er_view := view_i32 view; er_fields := map proto_field_i32 fields |}]) in
  match response_errors (get_error message) (get_errors message) with
  | [] => ret (get_entries message)
  | errors => fail (CE_Function errors)
  end.

(** The loop over [paths] of the three methods that read. *)
Fixpoint get_each (view : View) (fields : list ProtoField) (paths : list string) (get_result : list DataEntry)
  : M (list DataEntry) :=
  match paths with
  | [] => ret get_result
  | path :: paths =>
      let! entry := client_get path view fields in
      get_each view fields paths (get_result ++ entry)
  end.

(** [KuksaClient::get_metadata]. *)
Definition client_get_metadata (paths : list string) : M (list DataEntry) :=
  get_each VW_Metadata [PF_Metadata] paths [].

(** [KuksaClient::get_current_values]. *)
Definition get_current_values (paths : list string) : M (list DataEntry) :=
  get_each VW_CurrentValue [PF_Value; PF_Metadata] paths [].

(** [KuksaClient::get_target_values]. *)
Definition get_target_values (paths : list string) : M (list DataEntry) :=
  get_each VW_TargetValue [PF_ActuatorTarget; PF_Metadata] paths [].

(** The loop of the three methods that write. *)
Fixpoint set_each {A} (entry_of : string -> A -> DataEntry) (fields : list ProtoField) (l : list (string * A))
  : M unit :=
  match l with
  | [] => ret tt
  | (path, a) :: l =>
      let! _ := client_set (entry_of path a) fields in
      set_each entry_of fields l
  end.

Definition value_entry (path : string) (datapoint : ProtoDatapoint) : DataEntry :=
  {| de_path := path; de_value := Some datapoint; de_actuator_target := None; de_metadata := None |}.
Definition target_entry (path : string) (datapoint : ProtoDatapoint) : DataEntry :=
  {| de_path := path; de_value := None; de_actuator_target := Some datapoint; de_metadata := None |}.
Definition only_metadata_entry (path : string) (metadata : ProtoMetadata) : DataEntry :=
  {| de_path := path; de_value := None; de_actuator_target := None; de_metadata := Some metadata |}.

(** [KuksaClient::set_current_values]. *)
Definition set_current_values (datapoints : gmap string ProtoDatapoint) : M unit :=
  set_each value_entry [PF_Value; PF_Path] (hash_order (map_to_list datapoints)).

(** [KuksaClient::set_target_values]. *)
Definition set_target_values (datapoints : gmap string ProtoDatapoint) : M unit :=
  set_each target_entry [PF_ActuatorTarget; PF_Path] (hash_order (map_to_list datapoints)).

(** [KuksaClient::set_metadata]. *)
Definition set_metadata (metadatas : gmap string ProtoMetadata) : M unit :=
  set_each only_metadata_entry [PF_Metadata; PF_Path] (hash_order (map_to_list metadatas)).

(** The entries of a subscription and the call. *)
Definition subscribe_entries (view : View) (fields : list ProtoField) (paths : list string) : list EntryRequest :=
  map (fun path => {| er_path := path; er_view := view_i32 view; er_fields := map proto_field_i32 fields |}) paths.

(** [KuksaClient::subscribe_current_values], and [KuksaClient::subscribe]. *)
Definition subscribe_current_values (paths : list string) : M Streaming :=
  call (fun channel header =>
    rpc_subscribe channel header (subscribe_entries VW_CurrentValue [PF_Value; PF_Metadata] paths)).

(** [KuksaClient::subscribe_target_values]. *)
Definition subscribe_target_values (paths : list string) : M Streaming :=
  call (fun channel header =>
    rpc_subscribe channel header (subscribe_entries VW_TargetValue [PF_ActuatorTarget] paths)).

(** [KuksaClient::subscribe_metadata]. *)
Definition subscribe_metadata (paths : list string) : M Streaming :=
  call (fun channel header =>
    rpc_subscribe channel header (subscribe_entries VW_Metadata [PF_Metadata] paths)).

(** ** SDVClient *)

(** [SDVClient::get_metadata]. *)
Definition sdv_client_get_metadata (paths : list string) : M (list SdvMetadata) :=
  call (fun channel header => rpc_sdv_get_metadata channel header paths).

(** [SDVClient::get_datapoints]. *)
Definition sdv_client_get_datapoints (paths : list string) : M (gmap string SdvDatapoint) :=
  call (fun channel header => rpc_sdv_get_datapoints channel header paths).

(** [SDVClient::set_datapoints]. *)
Definition sdv_client_set_datapoints (datapoints : gmap string SdvDatapoint) : M (gmap string Z) :=
  call (fun channel header => rpc_sdv_set_datapoints channel header datapoints).

(** [SDVClient::subscribe]. *)
Definition sdv_client_subscribe (query : string) : M Streaming :=
  call (fun channel header => rpc_sdv_subscribe channel header query).

(** [SDVClient::update_datapoints]. *)
Definition sdv_client_update_datapoints (datapoints : gmap Z SdvDatapoint) : M (gmap Z Z) :=
  call (fun channel header => rpc_sdv_update_datapoints channel header datapoints).
End KuksaClient.
