(* ===== verification/ClientSpec.v ===== *)
(** * ClientSpec: what the client libraries promise of any server

    The theorems of [Client] that hold whatever is at the other end of the
    connection: how a call uses the connection and the token, which requests a
    method over several paths makes, and when a client can no longer make
    any. *)

From S2P Require Import Prelude Types Broker ProtoVal KuksaVal ProtoSdv Sdv Client.

Section ClientSpec.
Context `{Remote} `{HashOrder}.

(** ** One call *)

(** A connected client makes its call on the connection it has, with its
    token, and is not changed by it. *)
Lemma call_connected {A} (rpc : Conn -> option string -> Net -> result A Status * Net) self net c :
  client_channel self = Some c ->
  call rpc (self, net) =
    (map_err CE_Status (fst (rpc c (token self) net)), (self, snd (rpc c (token self) net))).
Proof.
  intros Hc. unfold call, bind, get_channel. rewrite Hc. unfold auth_header.
  by destruct (rpc c (token self) net) as [r net'].
Qed.

(** ** Methods over several paths *)

(** The requests for [l] are made one after the other and all accepted. *)
Fixpoint all_set {A} (entry_of : string -> A -> DataEntry) (fields : list ProtoField)
  (l : list (string * A)) (s s' : Client * Net) : Prop :=
  match l with
  | [] => s' = s
  | (path, a) :: l => exists s1, client_set (entry_of path a) fields s = (Ok tt, s1) /\
                                 all_set entry_of fields l s1 s'
  end.

Lemma set_each_prefix {A} (entry_of : string -> A -> DataEntry) fields l s :
  exists accepted rest s1, l = accepted ++ rest /\ all_set entry_of fields accepted s s1 /\
    match fst (set_each entry_of fields l s) with
    | Ok _ => rest = [] /\ snd (set_each entry_of fields l s) = s1
    | Err e => exists path a rest', rest = (path, a) :: rest' /\
        client_set (entry_of path a) fields s1 = (Err e, snd (set_each entry_of fields l s))
    end.
Proof.
  revert s. induction l as [|[p a] l IH]; intros s; simpl; [by exists [], [], s|].
  unfold bind. destruct (client_set (entry_of p a) fields s) as [[[]|e] s1] eqn:Ec.
  - destruct (IH s1) as (accepted & rest & s2 & -> & Hall & Hr).
    exists ((p, a) :: accepted), rest, s2. split_and!; [done|by exists s1|done].
  - exists [], ((p, a) :: l), s. split_and!; [done|done|]. by exists p, a, l.
Qed.

(** A method that sets several paths makes one request per path, in the order
    in which the map is iterated, and stops at the first that is refused: what
    was set before it stays set, nothing after it is asked for, and the error
    does not say how far it came. *)
Theorem set_current_values_prefix datapoints s r s' :
  set_current_values datapoints s = (r, s') ->
  exists accepted rest s1, hash_order (map_to_list datapoints) = accepted ++ rest /\
    all_set value_entry [PF_Value; PF_Path] accepted s s1 /\
    match r with
    | Ok _ => rest = [] /\ s' = s1
    | Err e => exists path pd rest', rest = (path, pd) :: rest' /\
        client_set (value_entry path pd) [PF_Value; PF_Path] s1 = (Err e, s')
    end.
Proof.
  intros Hs. unfold set_current_values in Hs.
  destruct (set_each_prefix value_entry [PF_Value; PF_Path] (hash_order (map_to_list datapoints)) s)
    as (accepted & rest & s1 & Hl & Hall & Hr).
  rewrite Hs in Hr. by exists accepted, rest, s1.
Qed.

(** The answers to requests for [paths], one after the other, all given. *)
Fixpoint all_got (view : View) (fields : list ProtoField) (paths : list string)
  (answers : list (list DataEntry)) (s s' : Client * Net) : Prop :=
  match paths, answers with
  | [], [] => s' = s
  | path :: paths, a :: answers =>
      exists s1, client_get path view fields s = (Ok a, s1) /\ all_got view fields paths answers s1 s'
  | _, _ => False
  end.

Lemma get_each_Ok view fields paths acc s l s' :
  get_each view fields paths acc s = (Ok l, s') ->
  exists answers, all_got view fields paths answers s s' /\ l = acc ++ concat answers.
Proof.
  revert acc s. induction paths as [|p paths IH]; intros acc s Hg; simpl in Hg.
  - injection Hg as <- <-. exists []. by rewrite app_nil_r.
  - unfold bind in Hg. destruct (client_get p view fields s) as [[a|e] s1] eqn:Ec; [|done].
    destruct (IH _ _ Hg) as (answers & Hall & ->). exists (a :: answers). split; [by exists s1|].
    simpl. by rewrite app_assoc.
Qed.

(** ** Connecting *)

(** A failed [try_connect_to] has changed the address but kept the connection
    to the old one, which the next request goes to. *)
Theorem failed_reconnect_keeps_channel self net u e s' :
  try_connect_to u (self, net) = (Err e, s') ->
  uri (fst s') = u /\ client_channel (fst s') = client_channel self /\ token (fst s') = token self.
Proof.
  unfold try_connect_to, bind, try_create_channel. intros Hc. simpl in Hc.
  destruct (match client_tls_config self with Some _ => _ | None => _ end) as [b|e0];
    [|injection Hc as _ <-; done].
  destruct (connect b net) as [[c|err] net']; unfold notify_state in Hc; simpl in Hc.
  - destruct (connection_state_subs self) as [[n st]|]; [|done]. unfold send_state in Hc.
    destruct n; simpl in Hc; [|done]. injection Hc as _ <-. done.
  - injection Hc as _ <-. destruct (connection_state_subs self) as [[n st]|]; [|done].
    unfold send_state. by destruct n.
Qed.

(** A client that is not connected and whose streams of connection states are
    all dropped. *)
Definition unheard (self : Client) : Prop :=
  client_channel self = None /\
  exists subs, connection_state_subs self = Some subs /\ receivers subs = O.

Lemma unheard_create self net :
  unheard self ->
  exists m self', fst (try_create_channel (self, net)) = Err (CE_Connection m) /\
    fst (snd (try_create_channel (self, net))) = self' /\ unheard self' /\ uri self' = uri self.
Proof.
  intros (Hc & [n st] & Hs & Hn). simpl in Hn. subst n. unfold try_create_channel.
  destruct (client_tls_config self) as [tls|]; simpl.
  - destruct (endpoint_tls_config (endpoint (uri self)) tls) as [b|err]; simpl.
    + destruct (connect b net) as [[c|err] net']; unfold notify_state, send_state; rewrite Hs; simpl;
        eexists _, _; split_and!; try done; split; simpl; eauto.
    + eexists _, _. split_and!; try done. split; eauto.
  - destruct (connect (endpoint (uri self)) net) as [[c|err] net']; unfold notify_state, send_state; rewrite Hs; simpl;
      eexists _, _; split_and!; try done; split; simpl; eauto.
Qed.

(** Dropping the last stream of connection states cuts a client that is
    not connected off: telling the stream that the connection is up fails, and
    with it the connection, so that every call of every service fails before
    it is sent, and so does every attempt to connect, to whatever address,
    although the server accepts each of them; after each, the client is as cut
    off as before. *)
Theorem unheard_client_stuck self net u :
  unheard self ->
  (forall A (rpc : Conn -> option string -> Net -> result A Status * Net),
     exists m, fst (call rpc (self, net)) = Err (CE_Connection m) /\
       unheard (fst (snd (call rpc (self, net)))) /\
       snd (snd (call rpc (self, net))) = snd (snd (try_create_channel (self, net)))) /\
  (exists m, fst (try_connect_to u (self, net)) = Err (CE_Connection m)) /\
  unheard (fst (snd (try_connect_to u (self, net)))).
Proof.
  intros Hu. split.
  - intros A rpc. destruct (unheard_create self net Hu) as (m & self' & Hf & Hs & Hu' & _).
    exists m. unfold call, bind, get_channel. destruct Hu as (-> & _).
    destruct (try_create_channel (self, net)) as [[c|e] [self1 net1]]; simpl in *; [done|].
    injection Hf as ->. subst self'. done.
  - assert (unheard (with_uri self u)) as Hu1 by (destruct Hu as (? & subs & ? & ?); split; [done|by exists subs]).
    destruct (unheard_create _ net Hu1) as (m & self' & Hf & Hs & Hu' & _).
    unfold try_connect_to, bind. destruct (try_create_channel (with_uri self u, net)) as [[c|e] [self1 net1]];
      simpl in *; [done|]. injection Hf as ->. subst self'. split; [by exists m|done].
Qed.
End ClientSpec.
