(* ===== verification/ClientServer.v ===== *)
(** * ClientServer: the clients connected to the broker

    The interface of the clients ([Remote]) implemented by the broker: a
    request passes the interceptor of
    src/kuksa_databroker/databroker/src/grpc/server.rs and then the handler of
    its service, with the permissions the interceptor inserted; the network
    loses nothing.  The end-to-end theorems about a client and a broker. *)

From S2P Require Import Prelude Types Regex Glob Permissions Auth Entry Database Query Broker Delivery System.
From S2P Require Import ProtoVal KuksaVal KuksaValSpec ProtoSdv Sdv SdvSpec Client ClientSpec.

Section ClientServer.
Context `{RegexEngine} `{HashOrder} `{SqlParser} `{Timestamps} `{JwtLibrary} `{Tonic}.

(** A broker in the network: whether an endpoint reaches it, its clock at each
    request, and what the model of the services leaves open: the text of the
    interceptor's refusal, the status a client gets when the handler panics,
    and the debug text of a query error. *)
Record BrokerNet := {
  bn_broker : DataBroker;
  bn_authorization : Authorization;
  bn_reach : Endpoint -> result unit string;
  bn_clock : nat -> SystemTime;
  bn_calls : nat;
  bn_refusal : string;
  bn_broken : Status;
  bn_debug : QueryError -> string
}.

Definition served (net : BrokerNet) (b : DataBroker) : BrokerNet :=
  {| bn_broker := b; bn_authorization := bn_authorization net; bn_reach := bn_reach net;
     bn_clock := bn_clock net; bn_calls := S (bn_calls net); bn_refusal := bn_refusal net;
     bn_broken := bn_broken net; bn_debug := bn_debug net |}.

(** The broker's clock at the next request. *)
Definition bn_now (net : BrokerNet) : SystemTime := bn_clock net (bn_calls net).

(** [with_interceptor(broker, authorization)]: the permissions of a request. *)
Definition authorize (net : BrokerNet) (header : option string) : result Permissions Status :=
  match interceptor_call (bn_authorization net) (Ok <$> header) with
  | Returns (Ok permissions) => Ok permissions
  | Returns (Err _) => Err {| status_code := SC_Unauthenticated; status_message := bn_refusal net |}
  | Panics => Err (bn_broken net)
  end.

(** One request served. *)
Definition serve {A}
  (handler : DataBroker -> option Permissions -> SystemTime -> outcome (result A Status) * DataBroker)
  (header : option string) (net : BrokerNet) : result A Status * BrokerNet :=
  match authorize net header with
  | Err status => (Err status, net)
  | Ok permissions =>
      let '(r, b) := handler (bn_broker net) (Some permissions) (bn_now net) in
      (match r with Returns r => r | Panics => Err (bn_broken net) end, served net b)
  end.

(** A handler that does not panic, and one that also changes nothing. *)
Definition writes {A} (handler : DataBroker -> option Permissions -> SystemTime -> result A Status * DataBroker)
  (b : DataBroker) (permissions : option Permissions) (now : SystemTime)
  : outcome (result A Status) * DataBroker :=
  let '(r, b) := handler b permissions now in (Returns r, b).
Definition reads {A} (handler : DataBroker -> option Permissions -> SystemTime -> result A Status)
  (b : DataBroker) (permissions : option Permissions) (now : SystemTime)
  : outcome (result A Status) * DataBroker :=
  (Returns (handler b permissions now), b).

#[export] Instance broker_remote : Remote := {|
  Net := BrokerNet;
  Conn := unit;
  Streaming := ChanId;
  connect e net := (bn_reach net e, net);
  rpc_set _ header requests := serve (writes (fun b p now => KuksaVal.set b p now requests)) header;
  rpc_get _ header requested := serve (reads (fun b p now => KuksaVal.get b p now requested)) header;
  rpc_subscribe _ header requested := serve (writes (fun b p now => val_subscribe b p now requested)) header;
  rpc_sdv_get_metadata _ header names := serve (reads (fun b p now => Sdv.get_metadata b p now names)) header;
  rpc_sdv_get_datapoints _ header names := serve (reads (fun b p now => get_datapoints b p now names)) header;
  rpc_sdv_set_datapoints _ header datapoints := serve (fun b p now => set_datapoints b p now datapoints) header;
  rpc_sdv_subscribe _ header query net :=
    serve (writes (fun b p now => sdv_subscribe (bn_debug net) b p now query)) header net;
  rpc_sdv_update_datapoints _ header datapoints :=
    serve (writes (fun b p now => update_datapoints b p now datapoints)) header
|}.

(** The permissions a connected client's requests carry. *)
Definition holds (self : Client) (net : BrokerNet) (permissions : Permissions) : Prop :=
  is_connected self = true /\ authorize net (token self) = Ok permissions.

Lemma authorize_served net b header : authorize (served net b) header = authorize net header.
Proof. done. Qed.

Lemma holds_connected self net permissions :
  holds self net permissions -> client_channel self = Some tt /\ authorize net (token self) = Ok permissions.
Proof. unfold holds, is_connected. by destruct (client_channel self) as [[]|]; intros []. Qed.

(** A token is what the interceptor gets, with the word that it expects. *)
Lemma token_holds self self' net t permissions :
  ascii_metadata_value ("Bearer " +:+ t) = Ok ("Bearer " +:+ t) ->
  set_access_token self t = (Ok tt, self') ->
  interceptor_call (bn_authorization net) (Some (Ok ("Bearer " +:+ t))) = Returns (Ok permissions) ->
  is_connected self = true -> holds self' net permissions.
Proof.
  unfold set_access_token. intros -> [= <-] Hi Hc. split; [done|]. unfold authorize. simpl. by rewrite Hi.
Qed.

(** ** The methods of [KuksaClient] *)

(** [set] and [get] of a connected client, on the broker. *)
Lemma client_set_broker self net permissions entry fields b' :
  holds self net permissions ->
  KuksaVal.set (bn_broker net) (Some permissions) (bn_now net)
    [{| peu_entry := Some entry; peu_fields := map proto_field_i32 fields |}] =
    (Ok {| set_error := None; set_errors := [] |}, b') ->
  client_set entry fields (self, net) = (Ok tt, (self, served net b')).
Proof.
  intros (Hc & Ha)%holds_connected Hs. unfold client_set, bind. rewrite (call_connected _ self net tt Hc).
  simpl. unfold serve, writes. rewrite Ha, Hs. done.
Qed.

Lemma client_get_broker self net permissions p view fields l :
  holds self net permissions ->
  KuksaVal.get (bn_broker net) (Some permissions) (bn_now net)
    [{| er_path := p; er_view := view_i32 view; er_fields := map proto_field_i32 fields |}] =
    Ok {| get_entries := l; get_errors := []; get_error := None |} ->
  client_get p view fields (self, net) = (Ok l, (self, served net (bn_broker net))).
Proof.
  intros (Hc & Ha)%holds_connected Hs. unfold client_get, bind. rewrite (call_connected _ self net tt Hc).
  simpl. unfold serve, reads. rewrite Ha, Hs. done.
Qed.

(** The fields of a request that sets a value, and of one that reads it. *)
Lemma set_value_fields : PF_Value ∈ known_fields [2; 1] /\ PF_ActuatorTarget ∉ known_fields [2; 1].
Proof. split.
  - apply (bool_decide_eq_true_1 (PF_Value ∈ known_fields [2; 1])). reflexivity.
  - apply (bool_decide_eq_false_1 (PF_ActuatorTarget ∈ known_fields [2; 1])). reflexivity. Qed.
Lemma get_value_fields : PF_Value ∈ combine_view_and_fields VW_CurrentValue (known_fields [2; 10]).
Proof.
  apply (bool_decide_eq_true_1 (PF_Value ∈ combine_view_and_fields VW_CurrentValue (known_fields [2; 10]))).
  reflexivity. Qed.

(** C18. From client to client: after [set_access_token], [set_current_values]
    of a value the path may hold succeeds, and [get_current_values] of the path
    then answers with the entry and that value and its timestamp, or with the
    value it had when the signal is not continuous and already had an equal
    one.  The token, the interceptor, the service and the database are all on
    the way. *)
Theorem client_set_then_get self self' net t permissions p pd i e rx :
  let now := bn_now net in let later := bn_clock net (S (bn_calls net)) in
  let dp := datapoint_from_proto now pd in
  let db := database (bn_broker net) in
  ascii_metadata_value ("Bearer " +:+ t) = Ok ("Bearer " +:+ t) ->
  is_connected self = true -> set_access_token self t = (Ok tt, self') ->
  interceptor_call (bn_authorization net) (Some (Ok ("Bearer " +:+ t))) = Returns (Ok permissions) ->
  db_inv db -> path_to_id db !! p = Some i -> entries db !! i = Some e ->
  can_write_datapoint permissions now p = Ok tt ->
  value_typed (data_type (metadata e)) (value dp) -> validate_allowed e (value dp) = Ok tt ->
  contains "*" p = false -> to_regex p = Ok rx -> regex_is_match rx p = true ->
  (forall j f, entries db !! j = Some f -> regex_is_match rx (path (metadata f)) = true ->
     can_read permissions later (path (metadata f)) = Ok tt) ->
  exists s1 l s2 de d,
    set_current_values {[ p := pd ]} (self', net) = (Ok tt, s1) /\
    get_current_values [p] s1 = (Ok l, s2) /\
    de ∈ l /\ de_path de = p /\ de_value de = datapoint_to_proto d /\
    (d = dp \/ d = datapoint e /\ dv_eqb (value dp) (value (datapoint e)) = true /\
               change_type (metadata e) <> CT_Continuous).
Proof.
  intros now later dp db Hascii Hconn Htok Hicpt Hinv Hi He Hw Ht Hall Hstar Hrx Hm Hread.
  pose proof (token_holds self self' net t permissions Hascii Htok Hicpt Hconn) as Hh.
  destruct set_value_fields as [Hfv Hft].
  destruct (set_value_stored (bn_broker net) permissions now p pd [2; 1] i e Hinv Hi He Hfv Hft Hw Ht Hall)
    as (b' & e' & Hs & Hents & Hpi & Hme & Hd).
  assert (path (metadata e) = p) as Hpe.
  { destruct (inv_index _ Hinv _ _ Hi) as (e0 & He0 & Hp0). unfold db in *. by simplify_eq. }
  assert (path (metadata e') = p) as Hp by (by rewrite Hme).
  pose proof (client_set_broker self' net permissions (value_entry p pd) [PF_Value; PF_Path] b' Hh Hs) as Hset.
  destruct (get_covered b' permissions later p VW_CurrentValue [2; 10] rx Hstar Hrx get_value_fields) with (view_i := 1)
    as (l & Hg & Hl); [..|reflexivity|].
  - exists i, e'. rewrite Hents, lookup_insert_eq, Hp. done.
  - intros j f. rewrite Hents, lookup_insert_Some. intros [[<- <-]|[_ Hf]]; [|by apply (Hread j)].
    rewrite Hp, <- Hpe. intros _. apply (Hread i e He). by rewrite Hpe.
  - pose proof (client_get_broker self' (served net b') permissions p VW_CurrentValue [PF_Value; PF_Metadata] l
      Hh Hg) as Hget.
    destruct (Hl i e') as (de & Hde & Hdp & Hdv); [by rewrite Hents, lookup_insert_eq|by rewrite Hp|].
    exists (self', served net b'), l. eexists. exists de, (datapoint e'). split_and!.
    + unfold set_current_values. rewrite map_to_list_singleton.
      rewrite hash_order_single.
      simpl. unfold bind at 1. by rewrite Hset.
    + unfold get_current_values. simpl. unfold bind at 1. rewrite Hget. done.
    + done.
    + by rewrite Hdp.
    + done.
    + done.
Qed.

(** ** What the broker does with metadata *)

Lemma metadata_update now p m :
  from_proto_entry_and_fields now (only_metadata_entry p m) (known_fields [10; 1]) = EntryUpdate_default.
Proof. reflexivity. Qed.

Lemma set_metadata_one b permissions now p m :
  db_inv (database b) -> is_Some (path_to_id (database b) !! p) ->
  exists b', KuksaVal.set b (Some permissions) now
      [{| peu_entry := Some (only_metadata_entry p m); peu_fields := [10; 1] |}] =
      (Ok {| set_error := None; set_errors := [] |}, b') /\ database b' = database b.
Proof.
  intros Hinv [i Hi]. destruct (inv_index _ Hinv _ _ Hi) as (e & He & Hp).
  destruct (inv_entry _ Hinv _ _ He) as (Hid & _).
  assert (access_get_id_by_path b p = Some i) as Hgi.
  { unfold access_get_id_by_path, get_metadata_by_path, get_metadata_by_id. rewrite Hi, He. simpl. by rewrite Hid. }
  destruct (update_entries_one b permissions now i EntryUpdate_default) as [Hr Hdb].
  rewrite (update_nothing _ permissions now i e He) in Hr, Hdb.
  unfold KuksaVal.set, collect_updates, peu_entry, peu_fields. rewrite metadata_update.
  change (de_path (only_metadata_entry p m)) with p. rewrite Hgi. cbn [de_actuator_target only_metadata_entry app].
  destruct (update_entries _ _ _ _) as [r b']. simpl in Hr, Hdb. subst r. by exists b'.
Qed.

(** [set_metadata] does nothing and says that it worked: for any metadata
    of any registered paths and any token that the broker accepts, even one
    that may only read, every request is answered without an error and the
    database is unchanged. *)
Theorem set_metadata_ignored metadatas self net permissions :
  holds self net permissions -> db_inv (database (bn_broker net)) ->
  (forall p m, metadatas !! p = Some m -> is_Some (path_to_id (database (bn_broker net)) !! p)) ->
  exists s', set_metadata metadatas (self, net) = (Ok tt, s') /\
    database (bn_broker (snd s')) = database (bn_broker net).
Proof.
  intros Hh Hinv Hp. unfold set_metadata.
  assert (forall p m, (p, m) ∈ hash_order (map_to_list metadatas) ->
    is_Some (path_to_id (database (bn_broker net)) !! p)) as Hl.
  { intros p m. rewrite elem_of_hash_order, elem_of_map_to_list. apply Hp. }
  clear Hp. revert net Hh Hinv Hl. induction (hash_order (map_to_list metadatas)) as [|[p m] l IH];
    intros net Hh Hinv Hl; simpl; [by exists (self, net)|].
  destruct (set_metadata_one (bn_broker net) permissions (bn_now net) p m Hinv) as (b' & Hs & Hdb);
    [apply (Hl p m); left|].
  unfold bind. rewrite (client_set_broker self net permissions (only_metadata_entry p m) [PF_Metadata; PF_Path] b' Hh Hs).
  destruct (IH (served net b')) as (s' & -> & Hdb'); simpl; rewrite ?Hdb; try done.
  - intros q n Hq. apply (Hl q n). by right.
  - exists s'. split; [done|]. exact (eq_trans Hdb' Hdb).
Qed.

(** A subscription to no field is never told of a change. *)
Definition fieldless (es : gmap Z (gset Field)) : Prop := forall i fs, es !! i = Some fs -> fs = ∅.

Lemma subscribe_visit_fieldless rx l es found perr :
  fieldless es -> fieldless (fold_left (subscribe_visit rx ∅) l (es, found, perr)).1.1.
Proof.
  revert es found perr. induction l as [|a l IH]; intros es found perr Hes; simpl; [done|].
  destruct (regex_is_match rx (path (era_metadata a))); [|by apply IH]. apply IH.
  destruct (es !! id (era_metadata a)) as [fs|] eqn:Ef; intros j gs; rewrite lookup_insert_Some;
    intros [[_ <-]|[_ Hj]]; try done; [|by eapply Hes..].
  by rewrite (Hes _ _ Ef), union_empty_l_L.
Qed.

Lemma subscribe_collect_fieldless b permissions now valid es es' :
  (forall p rx f, (p, (rx, f)) ∈ valid -> f = ∅) -> fieldless es ->
  subscribe_collect b permissions now valid es = Ok es' -> fieldless es'.
Proof.
  revert es. induction valid as [|[p [rx f]] valid IH]; intros es Hv Hes Hc; simpl in Hc; [by simplify_eq|].
  assert (f = ∅) as -> by (eapply Hv; left). unfold for_each_entry in Hc.
  pose proof (subscribe_visit_fieldless rx (iter_entries (database b) permissions now) es false false Hes) as Hes1.
  destruct (fold_left _ _ _) as [[es1 found] perr]. destruct (negb found), perr; try done.
  eapply (IH es1); [|done|done]. intros q rx' f' Hin. eapply Hv. by right.
Qed.

Lemma subscribe_requests_fields entries f0 :
  Forall (fun entry => subscribe_fields (er_fields entry) = f0) entries ->
  forall p rx f, subscribe_requests entries !! p = Some (rx, f) -> f = f0.
Proof.
  unfold subscribe_requests. intros Hall.
  assert (forall (m : gmap string (Regex * gset Field)), (forall p rx f, m !! p = Some (rx, f) -> f = f0) ->
    forall p rx f, fold_left (fun valid entry =>
      if contains "*" (er_path entry) && negb (is_valid_pattern (er_path entry)) then valid
      else match to_regex (er_path entry) with
           | Ok regex => <[er_path entry := (regex, subscribe_fields (er_fields entry))]> valid
           | Err _ => valid
           end) entries m !! p = Some (rx, f) -> f = f0) as Hgen;
    [|by apply Hgen; intros p rx f; rewrite lookup_empty].
  induction Hall as [|q entries Hq Hall IH]; intros m Hm; simpl; [done|]. apply IH.
  destruct (_ && _); [done|]. destruct (to_regex (er_path q)) as [rx0|]; [|done].
  intros p rx f. rewrite lookup_insert_Some. intros [[_ [= <- <-]]|[_ Hp]]; [done|by eapply Hm].
Qed.

(** [subscribe_metadata] succeeds and delivers nothing: the broker keeps a
    subscription to the paths but to no field of theirs, so whatever changes,
    at any time, no message is sent on its stream. *)
Theorem subscribe_metadata_silent paths self net permissions c s' :
  holds self net permissions -> subscribe_metadata paths (self, net) = (Ok c, s') ->
  database (bn_broker (snd s')) = database (bn_broker net) /\
  exists sub, sub ∈ change_subscriptions (subscriptions (bn_broker (snd s'))) /\ cs_sender sub = c /\
    forall changed db now store, change_notify sub (Some changed) db now store = (Ok tt, store).
Proof.
  intros (Hc & Ha)%holds_connected Hs. unfold subscribe_metadata in Hs. rewrite (call_connected _ self net tt Hc) in Hs.
  simpl in Hs. unfold serve, writes in Hs. rewrite Ha in Hs. unfold val_subscribe in Hs.
  destruct (subscribe_entries VW_Metadata [PF_Metadata] paths) as [|r0 rs] eqn:Er; [done|]. rewrite <- Er in Hs.
  assert (Forall (fun entry => subscribe_fields (er_fields entry) = ∅)
    (subscribe_entries VW_Metadata [PF_Metadata] paths)) as Hall by (apply Forall_map; by apply Forall_true).
  clear r0 rs Er.
  destruct (subscribe_collect _ _ _ _ _) as [es|] eqn:Ec; [|done].
  assert (fieldless es) as Hes.
  { eapply (subscribe_collect_fieldless (bn_broker net) permissions (bn_now net)); [|by intros i fs; rewrite lookup_empty|exact Ec].
    intros p rx f. rewrite elem_of_hash_order, elem_of_map_to_list. by eapply subscribe_requests_fields. }
  destruct (subscribe (bn_broker net) permissions (bn_now net) es) as [[c'|[]] b'] eqn:Es; simplify_eq/=.
  destruct (subscribe_registers _ _ _ _ _ _ Es) as (Hdb & sub & Hsub & Hent & Hsend & _).
  split; [done|]. exists sub. split_and!; [done|done|]. intros changed db now store. simpl.
  assert (existsb (fun '(i, changed_fields) =>
    match cs_entries sub !! i with Some fields => overlaps fields changed_fields | None => false end)
    (hash_order (map_to_list changed)) = false) as ->; [|done].
  apply not_true_iff_false. intros ([i cf] & _ & Ho)%existsb_exists. rewrite Hent in Ho.
  destruct (es !! i) as [fs|] eqn:Ei; [|done]. rewrite (Hes _ _ Ei) in Ho.
  apply overlaps_spec in Ho as (x & Hx & _). by apply not_elem_of_empty in Hx.
Qed.
End ClientServer.

(** ** Witnesses *)

Section Witnesses.
#[local] Existing Instance auth_engine.
#[local] Existing Instance one_query_parser.
#[local] Existing Instance z_timestamps.

(** A library that accepts one token, and a network of plain texts. *)
#[local] Instance one_token : JwtLibrary :=
  {| DecodingKey := unit; from_rsa_pem := fun _ => Some tt;
     jwt_decode := fun t _ _ => if String.eqb t "secret" then Some test_claims else None |}.

#[local] Instance plain_tonic : Tonic := {|
  Uri := string; Scheme := string; UriAuthority := string; PathAndQuery := string;
  uri_parse := Ok; uri_to_string := fun u => u;
  into_parts := fun u => Build_UriParts None (Some u) None;
  from_parts := fun p => match up_authority p with Some a => Ok a | None => Err "invalid format" end;
  scheme_parse := Some; path_parse := Some;
  TlsConfig := unit; Endpoint := string; endpoint := fun u => u; endpoint_tls_config := fun e _ => Ok e;
  ascii_metadata_value := Ok;
  send_error_text := "channel closed"
|}.

Definition speed_entry : Entry :=
  registered 0 0 "Vehicle.Speed" DT_Int8 CT_OnChange ET_Actuator "" None None None.

Definition speed_database : Database :=
  snd (add Database_new ALLOW_ALL 0 "Vehicle.Speed" DT_Int8 CT_OnChange ET_Actuator "" None None None).

Lemma speed_database_inv : db_inv speed_database.
Proof. apply add_preserves; [apply db_inv_new | vm_compute; done]. Qed.

Lemma speed_database_entries : entries speed_database = {[ 0 := speed_entry ]}.
Proof. reflexivity. Qed.

Definition remote_broker : BrokerNet := {|
  bn_broker := set_database (DataBroker_new "test") speed_database;
  bn_authorization := Enabled {| decoding_key := tt; validator := {| algorithm := RS256; audience := ["kuksa.val"] |} |};
  bn_reach := fun _ => Ok tt;
  bn_clock := fun n => 9 + Z.of_nat n;
  bn_calls := 0;
  bn_refusal := "Invalid auth token";
  bn_broken := {| status_code := SC_Internal; status_message := "" |};
  bn_debug := fun _ => ""
|}.

Definition connected_client : Client := with_channel (Client_new "http://127.0.0.1:55555") (Some tt).

Definition trusted_client : Client := with_token connected_client (Some "Bearer secret").

Lemma trusted_holds : holds trusted_client remote_broker test_permissions.
Proof. split; reflexivity. Qed.

Lemma client_set_then_get_witness :
  exists s1 l s2,
    set_current_values {[ "Vehicle.Speed" := speed_pd ]} (trusted_client, remote_broker) = (Ok tt, s1) /\
    get_current_values ["Vehicle.Speed"] s1 = (Ok l, s2) /\
    exists de, de ∈ l /\ de_value de = Some {| pd_timestamp := Some 8; pd_value := Some (PV_Int32 42) |}.
Proof.
  assert (is_ok (to_regex "Vehicle.Speed") = true) as Hrx by (vm_compute; reflexivity).
  destruct (to_regex "Vehicle.Speed") as [rx|] eqn:Erx; [clear Hrx|discriminate].
  assert (regex_is_match rx "Vehicle.Speed" = true) as Hm.
  { apply (f_equal (fun r => match r with Ok rx => regex_is_match rx "Vehicle.Speed" | Err _ => true end)) in Erx.
    rewrite <- Erx. vm_compute. reflexivity. }
  destruct (client_set_then_get connected_client trusted_client remote_broker "secret" test_permissions
    "Vehicle.Speed" speed_pd 0 speed_entry rx) as (s1 & l & s2 & de & d & Hs & Hg & Hde & _ & Hv & Hd);
    try reflexivity; try assumption.
  - apply speed_database_inv.
  - right. apply ht_Int8. vm_compute. split; discriminate.
  - exists s1, l, s2. split_and!; [exact Hs|exact Hg|]. exists de. split; [exact Hde|].
    destruct Hd as [->|(_ & Heq & _)]; [rewrite Hv; reflexivity|]. vm_compute in Heq. discriminate.
Defined.

Lemma set_metadata_ignored_witness :
  exists s', set_metadata {[ "Vehicle.Speed" := ProtoMetadata_default ]} (trusted_client, remote_broker) = (Ok tt, s') /\
    database (bn_broker (snd s')) = speed_database.
Proof.
  apply (set_metadata_ignored _ trusted_client remote_broker test_permissions trusted_holds speed_database_inv).
  intros p m Hm. destruct (decide (p = "Vehicle.Speed")) as [->|Hp].
  - exists 0. reflexivity.
  - rewrite lookup_singleton_ne in Hm by congruence. discriminate.
Defined.

Lemma subscribe_metadata_silent_witness :
  database (bn_broker (snd (snd (subscribe_metadata ["Vehicle.Speed"] (trusted_client, remote_broker))))) =
  speed_database.
Proof.
  refine (proj1 (subscribe_metadata_silent ["Vehicle.Speed"] trusted_client remote_broker test_permissions 0%nat _
    trusted_holds _)).
  rewrite (surjective_pairing (subscribe_metadata _ _)) at 1. apply f_equal2; [|reflexivity].
  vm_compute. reflexivity.
Defined.

(** A client that dropped its only stream of connection states. *)
Definition unheard_client : Client :=
  drop_state_stream (snd (subscribe_to_connection_state (Client_new "http://127.0.0.1:55555"))).

Lemma unheard_client_stuck_witness :
  bn_reach remote_broker (endpoint (uri unheard_client)) = Ok tt /\
  exists m, fst (call (fun channel header => rpc_sdv_get_metadata channel header []) (unheard_client, remote_broker)) =
    Err (CE_Connection m).
Proof.
  split; [reflexivity|].
  destruct (unheard_client_stuck unheard_client remote_broker (uri unheard_client)) as (Hcall & _).
  - split; [reflexivity|]. eexists. split; reflexivity.
  - destruct (Hcall _ (fun channel header => rpc_sdv_get_metadata channel header [])) as (m & Hm & _).
    exists m. exact Hm.
Defined.
End Witnesses.
