(* ===== verification/Cli.v ===== *)
(** * Cli: what the two interactive clients share

    src/kuksa_databroker/databroker-cli/src/cli.rs, and the parts that
    kuksa_cli.rs and sdv_cli.rs repeat word for word: the table of commands and
    the completion of paths.  Printing is given by what is written to the two
    streams; the colours are the crate [ansi_term]'s.  Text operations are
    those of ASCII text. *)

From stdpp Require Import sorting.
From S2P Require Import Prelude Floats Regex Search Display Glob Auth Client.

(** ** Operations of [str] *)

Definition char_text (n : N) : string := String (Ascii.ascii_of_N n) "".
Definition QUOTE : string := char_text 34.
Definition NEWLINE : string := char_text 10.

Fixpoint trim_start (s : string) : string :=
  match s with
  | String c rest => if is_whitespace c then trim_start rest else s
  | EmptyString => EmptyString
  end.

Fixpoint trim_end (s : string) : string :=
  match s with
  | String c rest =>
      match trim_end rest with
      | EmptyString => if is_whitespace c then EmptyString else String c EmptyString
      | rest => String c rest
      end
  | EmptyString => EmptyString
  end.

Definition trim (s : string) : string := trim_end (trim_start s).

(** [s.strip_suffix(c)]. *)
Fixpoint strip_suffix (x : Ascii.ascii) (s : string) : option string :=
  match s with
  | String c EmptyString => if Ascii.eqb c x then Some EmptyString else None
  | String c rest => match strip_suffix x rest with Some rest => Some (String c rest) | None => None end
  | EmptyString => None
  end.

(** The text before the first whitespace, and the text from it on. *)
Fixpoint span_word (s : string) : string * string :=
  match s with
  | String c rest =>
      if is_whitespace c then (EmptyString, s)
      else let '(word, rest) := span_word rest in (String c word, rest)
  | EmptyString => (EmptyString, EmptyString)
  end.

(** The number of characters of a UTF-8 text. *)
Definition char_count (s : string) : nat :=
  length (List.filter (fun c => negb (N.land (byte_code c) 192 =? 128)%N) (bytes s)).

Fixpoint spaces (n : nat) : string := match n with O => "" | S n => String " "%char (spaces n) end.

(** [{:<width$}]. *)
Definition pad_right (width : nat) (s : string) : string := s +:+ spaces (width - char_count s).

(** ** cli.rs *)

Inductive CliAPI := KuksaValV1 | SdvDatabrokerV1.

Inductive ParseErrorT := ParseErr.

(** [split_first_word]. *)
Definition split_first_word (s : string) : string * string :=
  let '(word, rest) := span_word (trim s) in (word, trim_start rest).

(** [code_to_text]. *)
Definition code_to_text (code : StatusCode) : string :=
  match code with
  | SC_Ok => "Ok"
  | SC_Cancelled => "Cancelled"
  | SC_Unknown => "Unknown"
  | SC_InvalidArgument => "InvalidArgument"
  | SC_DeadlineExceeded => "DeadlineExceeded"
  | SC_NotFound => "NotFound"
  | SC_AlreadyExists => "AlreadyExists"
  | SC_PermissionDenied => "PermissionDenied"
  | SC_ResourceExhausted => "ResourceExhausted"
  | SC_FailedPrecondition => "FailedPrecondition"
  | SC_Aborted => "Aborted"
  | SC_OutOfRange => "OutOfRange"
  | SC_Unimplemented => "Unimplemented"
  | SC_Internal => "Internal"
  | SC_Unavailable => "Unavailable"
  | SC_DataLoss => "DataLoss"
  | SC_Unauthenticated => "Unauthenticated"
  end.

Definition ARRAY_REGEX : string :=
  "(?:\\.|[^" +:+ QUOTE +:+ ",])*" +:+ QUOTE +:+ "(?:\\.|[^" +:+ QUOTE +:+ "])*" +:+ QUOTE +:+
  "|[^" +:+ QUOTE +:+ ",]+".

(** [Regex::captures_iter], each capture given by the text of its match. *)
Class RegexSearch `{RegexEngine} := { regex_captures_iter : Regex -> string -> list string }.

(** The text of an element: trimmed, without quotes, backslashes for quotes. *)
Definition element_text (part : string) : string := replace "\" QUOTE (replace QUOTE "" (trim part)).

(** The loop over the captures. *)
Fixpoint parse_elements {T} (parse : string -> option T) (inputs : list string) : result (list T) ParseErrorT :=
  match inputs with
  | [] => Ok []
  | part :: inputs =>
      match parse (element_text part) with
      | Some value => let? array := parse_elements parse inputs in Ok (value :: array)
      | None => Err ParseErr
      end
  end.

(** [get_array_from_input], for the type that [parse] reads; [unwrap] on a
    pattern that does not compile panics. *)
Definition get_array_from_input `{RegexSearch} {T} (parse : string -> option T) (values : string)
  : outcome (result (list T) ParseErrorT) :=
  match (match strip_prefix "[" values with Some s => strip_suffix "]"%char s | None => None end) with
  | None => Returns (Err ParseErr)
  | Some raw_input =>
      match regex_new ARRAY_REGEX with
      | Some regex => Returns (parse_elements parse (regex_captures_iter regex raw_input))
      | None => Panics
      end
  end.

(** What [EnterFunction::execute] does with the line being edited: take it as
    input, insert a text, or nothing. *)
Inductive EnterAction := EA_Accept (buffer : string) | EA_Insert (text : string) | EA_Nothing.

Definition enter_function (buffer : string) (count : Z) : EnterAction :=
  if starts_with "subscribe" (trim buffer) then
    if ends_with NEWLINE buffer then
      EA_Accept (match strip_suffix (Ascii.ascii_of_N 10) buffer with Some s => s | None => buffer end)
    else if 0 <? count then EA_Insert NEWLINE
    else EA_Nothing
  else EA_Accept buffer.

(** ** Printing *)

Inductive Output := Out_stdout (text : string) | Out_stderr (text : string).

(** The styles of the crate [ansi_term] that are used. *)
Class AnsiTerm := {
  white_dimmed : string -> string;
  white_on_red : string -> string;
  black_on_green : string -> string;
  red : string -> string;
  red_dimmed : string -> string;
  green_prefix : string; green_suffix : string; red_prefix : string; red_suffix : string
}.

Section Printing.
Context `{AnsiTerm}.

Definition prompt (prefix text suffix : string) : string :=
  char_text 1 +:+ prefix +:+ char_text 2 +:+ text +:+ char_text 1 +:+ suffix +:+ char_text 2 +:+ " > ".

(** [set_connected_prompt], [set_disconnected_prompt]. *)
Definition connected_prompt (text : string) : string := prompt green_prefix text green_suffix.
Definition disconnected_prompt : string := prompt red_prefix "not connected" red_suffix.

(** The prompt after a change of the connection. *)
Definition state_prompt (version : string) (state : ConnectionState) : string :=
  match state with CS_Connected => connected_prompt version | CS_Disconnected => disconnected_prompt end.

Definition println (text : string) : list Output := [Out_stdout (text +:+ NEWLINE)].

(** [print_resp_err]. *)
Definition print_resp_err (operation : string) (err : Status) : list Output :=
  [Out_stderr (white_dimmed ("[" +:+ operation +:+ "]") +:+ " " +:+
               white_on_red (" " +:+ code_to_text (status_code err) +:+ " ") +:+ " " +:+
               status_message err +:+ NEWLINE)].

(** [write_resp_ok]. *)
Definition write_resp_ok (operation : string) : string :=
  white_dimmed ("[" +:+ operation +:+ "]") +:+ " " +:+ black_on_green " OK " +:+ " ".

(** [print_resp_err_fmt]. *)
Definition print_resp_err_fmt (operation text : string) : list Output :=
  [Out_stderr (write_resp_ok operation); Out_stdout text; Out_stdout NEWLINE].

(** [print_resp_ok_fmt]. *)
Definition print_resp_ok_fmt (operation text : string) : list Output :=
  [Out_stderr (write_resp_ok operation); Out_stdout text; Out_stdout NEWLINE].

(** [print_resp_ok]. *)
Definition print_resp_ok (operation : string) : list Output :=
  [Out_stderr (write_resp_ok operation +:+ NEWLINE)].

(** [print_info]. *)
Definition print_info (info : string) : list Output := [Out_stderr (white_dimmed info +:+ NEWLINE)].

(** [print_error]. *)
Definition print_error (operation msg : string) : list Output :=
  [Out_stderr (white_dimmed ("[" +:+ operation +:+ "]") +:+ " " +:+ white_on_red " Error " +:+ " " +:+ msg +:+
               NEWLINE)].

(** The three arms for a [ClientError] that every command ends with; the debug
    text of the list of errors is a parameter. *)
Definition report_error (debug_errors : list ProtoVal.ProtoError -> string) (operation : string) (e : ClientError)
  : list Output :=
  match e with
  | CE_Status status => print_resp_err operation status
  | CE_Connection msg => print_error operation msg
  | CE_Function msg => print_resp_err_fmt operation ("Error " +:+ debug_errors msg)
  end.
End Printing.

(** ** The commands *)

Definition CLI_COMMANDS : list (string * string * string) :=
  [("connect", "[URI]", "Connect to server");
   ("get", "<PATH> [[PATH] ...]", "Get signal value(s)");
   ("set", "<PATH> <VALUE>", "Set actuator signal");
   ("subscribe", "<QUERY>", "Subscribe to signals with QUERY, if you use kuksa feature comma separated list");
   ("feed", "<PATH> <VALUE>", "Publish signal value");
   ("metadata", "[PATTERN]", "Fetch metadata. Provide PATTERN to list metadata of signals matching pattern.");
   ("token", "<TOKEN>", "Use TOKEN as access token");
   ("token-file", "<FILE>", "Use content of FILE as access token");
   ("help", "", "You're looking at it.");
   ("quit", "", "Quit")].

(** [print_usage]. *)
Definition print_usage (command : string) : list Output :=
  flat_map (fun '(cmd, usage, _) =>
    if String.eqb cmd command then println ("Usage: " +:+ cmd +:+ " " +:+ usage) else []) CLI_COMMANDS.

(** The command [help]. *)
Definition print_help : list Output :=
  println "" ++
  flat_map (fun '(cmd, args, help) =>
    println ("  " +:+ pad_right 24 (cmd +:+ " " +:+ args) +:+ " " +:+ help)) CLI_COMMANDS ++
  println "".

(** ** CliCompleter *)

(** The suffix linefeed appends to a completion. *)
Inductive Suffix := SX_None | SX_Default.

Record Completion := { completion : string; display : option string; suffix : Suffix }.

(** [Completion::display]. *)
Definition completion_display (c : Completion) : string := default (completion c) (display c).

Inductive PathPart := Part (rel_path full_path : string) (children : gmap string PathPart).

Definition rel_path (p : PathPart) : string := let '(Part r _ _) := p in r.
Definition full_path (p : PathPart) : string := let '(Part _ f _) := p in f.
Definition children (p : PathPart) : gmap string PathPart := let '(Part _ _ c) := p in c.

(** [PathPart::new]. *)
Definition PathPart_new : PathPart := Part "" "" ∅.

(** The inner loop of [CliCompleter::from_metadata]: one path, part by part. *)
Fixpoint insert_parts (parts : list string) (parent : PathPart) : PathPart :=
  match parts with
  | [] => parent
  | part :: parts =>
      let full := if String.eqb (full_path parent) "" then part
                  else full_path parent +:+ "." +:+ part in
      let entry := match children parent !! string_lower part with
                   | Some entry => entry
                   | None => Part part full ∅
                   end in
      Part (rel_path parent) (full_path parent)
        (<[string_lower part := insert_parts parts entry]> (children parent))
  end.

(** [CliCompleter::from_metadata], on the paths of the entries. *)
Definition completer_from (paths : list string) : PathPart :=
  fold_left (fun root path => insert_parts (split_on "."%char path) root) paths PathPart_new.

(** The completion that stands for a part. *)
Definition part_completion (path_spec : PathPart) : Completion :=
  if bool_decide (children path_spec = ∅) then
    {| completion := full_path path_spec; display := Some (rel_path path_spec); suffix := SX_Default |}
  else
    (* This is a branch *)
    {| completion := full_path path_spec +:+ "."; display := Some (rel_path path_spec +:+ "."); suffix := SX_None |}.

Section Completer.
Context `{HashOrder}.

(** The loop over the parts of the word. *)
Fixpoint complete_parts (parts : list string) (path : PathPart) : list Completion :=
  match parts with
  | part :: parts =>
      match children path !! part with
      | Some matching_path => complete_parts parts matching_path
      | None =>
          (* match partial *)
          omap (fun '(path_part_lower, path_spec) =>
                  if starts_with part path_part_lower then Some (part_completion path_spec) else None)
               (hash_order (map_to_list (children path)))
      end
  | [] => map (fun '(_, path_spec) => part_completion path_spec) (hash_order (map_to_list (children path)))
  end.

Definition display_le (x y : Completion) : Prop :=
  String.leb (completion_display x) (completion_display y) = true.
#[export] Instance display_le_dec x y : Decision (display_le x y).
Proof. unfold display_le. apply _. Defined.

(** [CliCompleter::complete_entry_path]. *)
Definition complete_entry_path (paths : PathPart) (word : string) : option (list Completion) :=
  if bool_decide (children paths = ∅) then None
  else Some (merge_sort display_le (complete_parts (split_on "."%char (string_lower word)) paths)).

(** The completion of the name of a command. *)
Definition complete_command (word : string) : list Completion :=
  omap (fun '(cmd, _, _) =>
    if starts_with word cmd then Some {| completion := cmd; display := None; suffix := SX_Default |} else None)
    CLI_COMMANDS.

(** [Completer::complete]; [before] is the line before the word, and the
    completion of file names is linefeed's.  The two clients differ in what
    they do after [subscribe]. *)
Definition complete (after_subscribe : list string -> string -> option (list Completion))
  (complete_file : string -> option (list Completion)) (paths : PathPart) (before word : string)
  : option (list Completion) :=
  match split_whitespace before with
  | [] => Some (complete_command word)
  | first :: words =>
      if String.eqb first "set" || String.eqb first "feed" then
        match words with [] => complete_entry_path paths word | _ => None end
      else if String.eqb first "get" || String.eqb first "metadata" then complete_entry_path paths word
      else if String.eqb first "subscribe" then after_subscribe words word
      else if String.eqb first "token-file" then complete_file word
      else None
  end.
End Completer.

(** ** Printing of values *)

(** [display_array]. *)
Definition display_array {T} (to_string : T -> string) (array : list T) : string :=
  "[" +:+ join ", " (map to_string array) +:+ "]".

(** [{value:.2}] of a float: the nearest number of hundredths, ties to the even
    one, of the exact value. *)
Definition hundredths (m : positive) (e : Z) : Z :=
  let num := (if e <? 0 then Zpos m else Zpos m * 2 ^ e) * 100 in
  let den := if e <? 0 then 2 ^ (- e) else 1 in
  let q := num / den in
  match 2 * (num mod den) ?= den with
  | Lt => q
  | Gt => q + 1
  | Eq => if Z.even q then q else q + 1
  end.

Definition float_to_string_2 (x : float) : string :=
  match x with
  | SpecFloat.S754_zero s => if s then "-0.00" else "0.00"
  | SpecFloat.S754_infinity s => if s then "-inf" else "inf"
  | SpecFloat.S754_nan => "NaN"
  | SpecFloat.S754_finite s m e =>
      let h := hundredths m e in
      (if s then "-" else "") +:+ int_to_string (h / 100) +:+ "." +:+
      (if h mod 100 <? 10 then "0" else "") +:+ int_to_string (h mod 100)
  end.

Example hundredths_examples :
  map (fun s => float_to_string_2 <$> parse_float f32 s) ["1.005"; "-0.125"; "0.375"; "99.996"; "1e10"; "0.001"]
  = [Some "1.00"; Some "-0.12"; Some "0.38"; Some "100.00"; Some "10000000000.00"; Some "0.00"].
Proof. vm_compute. reflexivity. Qed.

Example split_examples :
  map split_first_word ["  get  Vehicle.Speed  "; "quit"; ""; "set A.B 1 2"] =
  [("get", "Vehicle.Speed"); ("quit", ""); ("", ""); ("set", "A.B 1 2")].
Proof. reflexivity. Qed.
