(* ===== verification/KuksaCli.v ===== *)
(** * KuksaCli: the interactive client of kuksa.val.v1

    src/kuksa_databroker/databroker-cli/src/kuksa_cli.rs: reading and printing
    values, one definition per command, and the loop of [kuksa_main] as a step
    on what is read from the terminal.  A step is given by what it prints,
    whether the loop goes on, and the state it leaves; [unwrap] on an unknown
    number panics.  The history of the line editor is left out. *)

From S2P Require Import Prelude Floats Types Regex Display Glob Auth ProtoVal KuksaVal Client Cli.

(** ** Numbers of the protocol and their names *)

(** [DataType::from_i32]. *)
Definition proto_data_type_from_i32 (i : Z) : option ProtoDataType :=
  match i with
  | 0 => Some PDT_Unspecified | 1 => Some PDT_String | 2 => Some PDT_Boolean | 3 => Some PDT_Int8
  | 4 => Some PDT_Int16 | 5 => Some PDT_Int32 | 6 => Some PDT_Int64 | 7 => Some PDT_Uint8
  | 8 => Some PDT_Uint16 | 9 => Some PDT_Uint32 | 10 => Some PDT_Uint64 | 11 => Some PDT_Float
  | 12 => Some PDT_Double | 13 => Some PDT_Timestamp | 20 => Some PDT_StringArray
  | 21 => Some PDT_BooleanArray | 22 => Some PDT_Int8Array | 23 => Some PDT_Int16Array
  | 24 => Some PDT_Int32Array | 25 => Some PDT_Int64Array | 26 => Some PDT_Uint8Array
  | 27 => Some PDT_Uint16Array | 28 => Some PDT_Uint32Array | 29 => Some PDT_Uint64Array
  | 30 => Some PDT_FloatArray | 31 => Some PDT_DoubleArray | 32 => Some PDT_TimestampArray
  | _ => None
  end.

(** [EntryType::from_i32]. *)
Definition proto_entry_type_from_i32 (i : Z) : option ProtoEntryType :=
  match i with
  | 0 => Some PET_Unspecified | 1 => Some PET_Attribute | 2 => Some PET_Sensor | 3 => Some PET_Actuator
  | _ => None
  end.

(** The derived [Debug]. *)
Definition proto_data_type_debug (t : ProtoDataType) : string :=
  match t with
  | PDT_Unspecified => "Unspecified" | PDT_String => "String" | PDT_Boolean => "Boolean" | PDT_Int8 => "Int8"
  | PDT_Int16 => "Int16" | PDT_Int32 => "Int32" | PDT_Int64 => "Int64" | PDT_Uint8 => "Uint8"
  | PDT_Uint16 => "Uint16" | PDT_Uint32 => "Uint32" | PDT_Uint64 => "Uint64" | PDT_Float => "Float"
  | PDT_Double => "Double" | PDT_Timestamp => "Timestamp" | PDT_StringArray => "StringArray"
  | PDT_BooleanArray => "BooleanArray" | PDT_Int8Array => "Int8Array" | PDT_Int16Array => "Int16Array"
  | PDT_Int32Array => "Int32Array" | PDT_Int64Array => "Int64Array" | PDT_Uint8Array => "Uint8Array"
  | PDT_Uint16Array => "Uint16Array" | PDT_Uint32Array => "Uint32Array" | PDT_Uint64Array => "Uint64Array"
  | PDT_FloatArray => "FloatArray" | PDT_DoubleArray => "DoubleArray" | PDT_TimestampArray => "TimestampArray"
  end.
Definition proto_entry_type_debug (t : ProtoEntryType) : string :=
  match t with
  | PET_Unspecified => "Unspecified" | PET_Attribute => "Attribute" | PET_Sensor => "Sensor"
  | PET_Actuator => "Actuator"
  end.

(** [DisplayDataType] and [DisplayEntryType]. *)
Definition display_data_type (t : option ProtoDataType) : string :=
  match t with Some data_type => proto_data_type_debug data_type | None => "Unknown" end.
Definition display_entry_type (t : option ProtoEntryType) : string :=
  match t with Some entry_type => proto_entry_type_debug entry_type | None => "Unknown" end.

(** ** Values *)

(** A value read by [parse], and a list of values. *)
Definition parsed_value {T V} (value : option T) (mk : T -> V) : outcome (result V ParseErrorT) :=
  Returns (match value with Some value => Ok (mk value) | None => Err ParseErr end).
Definition parsed_array `{RegexSearch} {T V} (parse : string -> option T) (input : string) (mk : list T -> V)
  : outcome (result V ParseErrorT) :=
  match get_array_from_input parse input with
  | Returns r => Returns (result_map mk r)
  | Panics => Panics
  end.

(** [try_into_data_value]. *)
Definition try_into_data_value `{RegexSearch} (input : string) (data_type : ProtoDataType)
  : outcome (result ProtoValue ParseErrorT) :=
  if String.eqb input "NotAvailable" then Returns (Ok (PV_String input)) else
  match data_type with
  | PDT_String => Returns (Ok (PV_String input))
  | PDT_StringArray => parsed_array Some input PV_StringArray
  | PDT_Boolean => parsed_value (parse_bool input) PV_Bool
  | PDT_BooleanArray => parsed_array parse_bool input PV_BoolArray
  | PDT_Int8 => parsed_value (parse_int i8 input) PV_Int32
  | PDT_Int8Array => parsed_array (parse_int i32) input PV_Int32Array
  | PDT_Int16 => parsed_value (parse_int i16 input) PV_Int32
  | PDT_Int16Array => parsed_array (parse_int i32) input PV_Int32Array
  | PDT_Int32 => parsed_value (parse_int i32 input) PV_Int32
  | PDT_Int32Array => parsed_array (parse_int i32) input PV_Int32Array
  | PDT_Int64 => parsed_value (parse_int i64 input) PV_Int64
  | PDT_Int64Array => parsed_array (parse_int i64) input PV_Int64Array
  | PDT_Uint8 => parsed_value (parse_int u8 input) PV_Uint32
  | PDT_Uint8Array => parsed_array (parse_int u32) input PV_Uint32Array
  | PDT_Uint16 => parsed_value (parse_int u16 input) PV_Uint32
  | PDT_Uint16Array => parsed_array (parse_int u32) input PV_Uint32Array
  | PDT_Uint32 => parsed_value (parse_int u32 input) PV_Uint32
  | PDT_Uint32Array => parsed_array (parse_int u32) input PV_Uint32Array
  | PDT_Uint64 => parsed_value (parse_int u64 input) PV_Uint64
  | PDT_Uint64Array => parsed_array (parse_int u64) input PV_Uint64Array
  | PDT_Float => parsed_value (parse_float f32 input) PV_Float
  | PDT_FloatArray => parsed_array (parse_float f32) input PV_FloatArray
  | PDT_Double => parsed_value (parse_float f64 input) PV_Double
  | PDT_DoubleArray => parsed_array (parse_float f64) input PV_DoubleArray
  | PDT_Unspecified | PDT_Timestamp | PDT_TimestampArray => Returns (Err ParseErr)
  end.

Definition display_value (value : ProtoValue) : string :=
  match value with
  | PV_Bool value => bool_to_string value
  | PV_Int32 value | PV_Int64 value | PV_Uint32 value | PV_Uint64 value => int_to_string value
  | PV_Float value => float_to_string_2 value
  | PV_Double value => float_to_string f64 value
  | PV_String value => "'" +:+ value +:+ "'"
  | PV_StringArray array => display_array (fun s => s) array
  | PV_BoolArray array => display_array bool_to_string array
  | PV_Int32Array array | PV_Int64Array array | PV_Uint32Array array | PV_Uint64Array array =>
      display_array int_to_string array
  | PV_FloatArray array => display_array (float_to_string f32) array
  | PV_DoubleArray array => display_array (float_to_string f64) array
  end.

(** [DisplayDatapoint]. *)
Definition display_datapoint `{Timestamps} (d : ProtoDatapoint) : string :=
  match pd_value d with Some value => display_value value | None => "None" end.

(** ** What the clients get from their surroundings

    The debug text of a list of errors, the text of a status, reading a file,
    the TLS configuration that trusts a certificate, and the logo. *)
Class CliEnv `{Tonic} := {
  debug_errors : list ProtoError -> string;
  status_to_string : Status -> string;
  read_file : string -> result string string;
  pem_tls_config : string -> TlsConfig;
  logo : list Output
}.

(** The command line: [Cli] of cli.rs. *)
Record CliOptions := {
  op_server : string;
  op_token_file : option string;
  op_ca_cert : option string;
  op_command : option (list string)  (* [Get { paths }] *)
}.

(** What is read from the terminal. *)
Inductive ReadResult :=
| RR_Input (line : string)
| RR_Eof
| RR_Signal (debug : string).

Section KuksaCli.
Context `{RegexSearch} `{Remote} `{HashOrder} `{AnsiTerm} `{!CliEnv}.

Record KuksaCli := {
  kc_client : Client;
  kc_completer : PathPart;
  kc_subscription_nbr : Z
}.

Definition with_client (cli : KuksaCli) (client : Client) : KuksaCli :=
  {| kc_client := client; kc_completer := kc_completer cli; kc_subscription_nbr := kc_subscription_nbr cli |}.
Definition with_completer (cli : KuksaCli) (completer : PathPart) : KuksaCli :=
  {| kc_client := kc_client cli; kc_completer := completer; kc_subscription_nbr := kc_subscription_nbr cli |}.

Definition State : Type := KuksaCli * Net.

(** A method of the client called by a command. *)
Definition run_client {A} (c : M A) (s : State) : result A ClientError * State :=
  let '(cli, net) := s in
  let '(r, (client, net)) := c (kc_client cli, net) in
  (r, (with_client cli client, net)).

Definition report := report_error debug_errors.

(** The arms after fetching metadata: refusals by the server's functions are
    reported under another name. *)
Definition report_metadata (function_operation : string) (e : ClientError) : list Output :=
  match e with
  | CE_Function _ => report function_operation e
  | _ => report "metadata" e
  end.

(** [CliCompleter::from_metadata]. *)
Definition from_metadata (entries : list DataEntry) : PathPart := completer_from (map de_path entries).

(** The completer is made anew from the metadata of the paths. *)
Definition fetch_completer (function_operation : string) (paths : list string) (s : State) : list Output * State :=
  match run_client (client_get_metadata paths) s with
  | (Ok metadata, (cli, net)) => ([], (with_completer cli (from_metadata metadata), net))
  | (Err e, s) => (report_metadata function_operation e, s)
  end.

(** ** The commands *)

Definition unit_text (metadata : option ProtoMetadata) : string :=
  default "" (match metadata with Some meta => pm_unit meta | None => None end).

Definition print_entry (entry : DataEntry) : list Output :=
  match de_value entry with
  | Some val => println (de_path entry +:+ ": " +:+ display_datapoint val +:+ " " +:+ unit_text (de_metadata entry))
  | None => println (de_path entry +:+ ": NotAvailable")
  end.

(** [get]. *)
Definition cmd_get (args : string) (s : State) : list Output * State :=
  if String.eqb args "" then (print_usage "get", s) else
  match run_client (get_current_values (split_whitespace args)) s with
  | (Ok data_entries, s) => (print_resp_ok "get" ++ flat_map print_entry data_entries, s)
  | (Err e, s) => (report "get" e, s)
  end.

(** [set_access_token] and what follows it. *)
Definition use_token (cmd function_operation token : string) (s : State) : list Output * State :=
  let '(cli, net) := s in
  match set_access_token (kc_client cli) token with
  | (Ok _, client) =>
      let '(out, s) := fetch_completer function_operation [] (with_client cli client, net) in
      (print_info "Access token set." ++ out, s)
  | (Err (MalformedTokenError err), client) =>
      (print_error cmd ("Malformed token: " +:+ err), (with_client cli client, net))
  end.

(** [token]. *)
Definition cmd_token (args : string) (s : State) : list Output * State :=
  if String.eqb args "" then (print_usage "token", s) else use_token "token" "metadata" args s.

(** [token-file]. *)
Definition cmd_token_file (args : string) (s : State) : list Output * State :=
  if String.eqb args "" then (print_usage "token-file", s) else
  let token_filename := trim args in
  match read_file token_filename with
  | Ok token => use_token "token-file" "token-file" token s
  | Err err =>
      (print_error "token-file"
         ("Failed to open token file " +:+ QUOTE +:+ token_filename +:+ QUOTE +:+ ": " +:+ err), s)
  end.

(** The body of the loop of [set] and [feed] over the entries of the path:
    only [set] asks for an actuator. *)
Definition write_entry (cmd : string) (actuators_only : bool) (now : SystemTime) (path value : string)
  (entry : DataEntry) (s : State) : outcome (list Output * State) :=
  match de_metadata entry with
  | None => Returns ([], s)
  | Some metadata =>
      match proto_data_type_from_i32 (pm_data_type metadata) with
      | None => Panics
      | Some data_type =>
          match try_into_data_value value data_type with
          | Panics => Panics
          | Returns (Err _) =>
              Returns (println ("Could not parse " +:+ QUOTE +:+ value +:+ QUOTE +:+ " as " +:+
                                proto_data_type_debug data_type), s)
          | Returns (Ok data_value) =>
              if actuators_only && negb (pm_entry_type metadata =? proto_entry_type_i32 PET_Actuator) then
                Returns (print_error cmd (path +:+ " is not an actuator.") ++
                         print_info "If you want to provide the signal value, use `feed`.", s)
              else
                let ts := timestamp_from now in
                let datapoints := {[ path := {| pd_timestamp := Some ts; pd_value := Some data_value |} ]} in
                match run_client (set_current_values datapoints) s with
                | (Ok _, s) => Returns (print_resp_ok cmd, s)
                | (Err e, s) => Returns (report cmd e, s)
                end
          end
      end
  end.

Fixpoint write_entries (cmd : string) (actuators_only : bool) (now : SystemTime) (path value : string)
  (entries : list DataEntry) (s : State) : outcome (list Output * State) :=
  match entries with
  | [] => Returns ([], s)
  | entry :: entries =>
      match write_entry cmd actuators_only now path value entry s with
      | Panics => Panics
      | Returns (out, s) =>
          match write_entries cmd actuators_only now path value entries s with
          | Panics => Panics
          | Returns (out', s) => Returns (out ++ out', s)
          end
      end
  end.

Definition cmd_write (cmd : string) (actuators_only : bool) (now : SystemTime) (args : string) (s : State)
  : outcome (list Output * State) :=
  let '(path, value) := split_first_word args in
  if String.eqb value "" then Returns (print_usage cmd, s) else
  match run_client (client_get_metadata [path]) s with
  | (Err e, s) => Returns (report_metadata cmd e, s)
  | (Ok entries, s) => write_entries cmd actuators_only now path value entries s
  end.

(** [set]. *)
Definition cmd_set (now : SystemTime) (args : string) (s : State) : outcome (list Output * State) :=
  cmd_write "set" true now args s.

(** [feed]. *)
Definition cmd_feed (now : SystemTime) (args : string) (s : State) : outcome (list Output * State) :=
  cmd_write "feed" false now args s.

(** [subscribe]; the stream is what the task it starts reads. *)
Definition cmd_subscribe (args : string) (s : State) : list Output * option (Z * Streaming) * State :=
  if String.eqb args "" then (print_usage "subscribe", None, s) else
  match run_client (subscribe_current_values (split_whitespace args)) s with
  | (Ok subscription, (cli, net)) =>
      let nbr := kc_subscription_nbr cli in
      (print_resp_ok "subscribe" ++
       print_info ("Subscription is now running in the background. Received data is identified by [" +:+
                   int_to_string nbr +:+ "]."),
       Some (nbr, subscription),
       ({| kc_client := kc_client cli; kc_completer := kc_completer cli; kc_subscription_nbr := nbr + 1 |}, net))
  | (Err e, s) => (report "subscribe" e, None, s)
  end.

(** The task of a subscription: what it prints for one message, and whether it
    goes on. *)
Definition subscription_output (nbr : Z) (message : result (option (list ProtoEntryUpdate)) Status)
  : string * bool :=
  let sub_disp := "[" +:+ int_to_string nbr +:+ "]" in
  let sub_disp_pad := spaces (String.length sub_disp) in
  let sub_disp_color := white_dimmed sub_disp in
  match message with
  | Ok (Some updates) =>
      let line (first : bool) (update : ProtoEntryUpdate) :=
        (if first then sub_disp_color else sub_disp_pad) +:+ " " +:+
        match peu_entry update with
        | Some entry =>
            match de_value entry with
            | Some value =>
                de_path entry +:+ ": " +:+ display_datapoint value +:+ " " +:+ unit_text (de_metadata entry) +:+ NEWLINE
            | None => ""
            end
        | None => ""
        end in
      (match updates with
       | [] => ""
       | update :: updates => join "" (line true update :: map (line false) updates)
       end, true)
  | Ok None => (red_dimmed sub_disp +:+ " " +:+ white_dimmed "Server gone. Subscription stopped" +:+ NEWLINE, false)
  | Err err => (sub_disp_color +:+ " " +:+ red_dimmed ("Channel error: " +:+ status_to_string err), false)
  end.

(** The outcome of connecting. *)
Definition print_connected (prefix : string) (s : State) : list Output :=
  print_info (prefix +:+ "Successfully connected to " +:+ get_uri (kc_client (fst s))).

(** [connect]. *)
Definition cmd_connect (args : string) (s : State) : outcome (list Output * State) :=
  if is_connected (kc_client (fst s)) && String.eqb args "" then Returns ([], s) else
  let attempt (c : M unit) : list Output * State :=
    match run_client c s with
    | (Ok _, s) => (print_connected "[connect] " s, s)
    | (Err e, s) => (print_error "connect" (client_error_to_string status_to_string e), s)
    end in
  match (if String.eqb args "" then Returns (attempt try_connect)
         else match to_uri args with
              | Panics => Panics
              | Returns (Ok valid_uri) => Returns (attempt (try_connect_to valid_uri))
              | Returns (Err err) => Returns (print_error "connect" ("Failed to parse endpoint address: " +:+ err), s)
              end) with
  | Panics => Panics
  | Returns (out, s) =>
      if is_connected (kc_client (fst s)) then
        let '(out', s) := fetch_completer "connect" ["**"] s in Returns (out ++ out', s)
      else Returns (out, s)
  end.

(** The table printed by [metadata]. *)
Definition metadata_table (metadata : list DataEntry) : list Output :=
  let max_len_path :=
    fold_left (fun max_len item => if (max_len <? String.length (de_path item))%nat then String.length (de_path item)
                                   else max_len) metadata O in
  let row path entry_type data_type :=
    pad_right max_len_path path +:+ " " +:+ pad_right 10 entry_type +:+ " " +:+ pad_right 9 data_type in
  print_info (row "Path" "Entry type" "Data type") ++
  flat_map (fun entry =>
    match de_metadata entry with
    | Some entry_metadata =>
        println (row (de_path entry) (display_entry_type (proto_entry_type_from_i32 (pm_entry_type entry_metadata)))
                     (display_data_type (proto_data_type_from_i32 (pm_data_type entry_metadata))))
    | None => println ("No entry metadata for " +:+ de_path entry)
    end) metadata.

(** [metadata]. *)
Definition cmd_metadata (args : string) (s : State) : list Output * State :=
  match split_whitespace args with
  | [] => (print_info "If you want to list metadata of signals, use `metadata PATTERN`", s)
  | paths =>
      match run_client (client_get_metadata paths) s with
      | (Ok metadata, s) =>
          (print_resp_ok "metadata" ++ match metadata with [] => [] | _ => metadata_table metadata end, s)
      | (Err e, s) => (report "metadata" e, s)
      end
  end.

(** ** The loop *)

(** One line of input: what is printed, whether the loop goes on, a
    subscription that was started, and the state. *)
Definition kuksa_command (now : SystemTime) (line : string) (s : State)
  : outcome (list Output * bool * option (Z * Streaming) * State) :=
  let '(cmd, args) := split_first_word line in
  let go (r : list Output * State) := Returns (fst r, true, None, snd r) in
  let go_on (r : outcome (list Output * State)) :=
    match r with Returns r => go r | Panics => Panics end in
  if String.eqb cmd "help" then go (print_help, s)
  else if String.eqb cmd "get" then go (cmd_get args s)
  else if String.eqb cmd "token" then go (cmd_token args s)
  else if String.eqb cmd "token-file" then go (cmd_token_file args s)
  else if String.eqb cmd "set" then go_on (cmd_set now args s)
  else if String.eqb cmd "feed" then go_on (cmd_feed now args s)
  else if String.eqb cmd "subscribe" then
    let '(out, started, s) := cmd_subscribe args s in Returns (out, true, started, s)
  else if String.eqb cmd "connect" then go_on (cmd_connect args s)
  else if String.eqb cmd "metadata" then go (cmd_metadata args s)
  else if String.eqb cmd "quit" || String.eqb cmd "exit" then Returns (println "Bye bye!", false, None, s)
  else if String.eqb cmd "" then go ([], s)
  else go (println "Unknown command. See `help` for a list of available commands.", s).

(** One turn of the loop. *)
Definition kuksa_step (now : SystemTime) (res : ReadResult) (s : State)
  : outcome (list Output * bool * option (Z * Streaming) * State) :=
  match res with
  | RR_Input line => kuksa_command now line s
  | RR_Eof => Returns (println "Bye bye!", false, None, s)
  | RR_Signal debug => Returns ([Out_stdout ("signal received: " +:+ debug +:+ NEWLINE)], true, None, s)
  end.

(** ** kuksa_main *)

(** The client made from the command line; leaving [kuksa_main] early is an
    error. *)
Definition make_client (options : CliOptions) : outcome (result Client string) :=
  match to_uri (op_server options) with
  | Panics => Panics
  | Returns (Err err) => Returns (Err err)
  | Returns (Ok uri) =>
      let client := Client_new uri in
      Returns (
        let? client :=
          match op_token_file options with
          | None => Ok client
          | Some token_filename =>
              let? token := read_file token_filename in
              match set_access_token client token with
              | (Ok _, client) => Ok client
              | (Err (MalformedTokenError err), _) => Err err
              end
          end in
        let? client :=
          match op_ca_cert options with
          | None => Ok client
          | Some ca_cert_filename =>
              let? pem := read_file ca_cert_filename in Ok (set_tls_config client (pem_tls_config pem))
          end in
        Ok (snd (subscribe_to_connection_state client)))
  end.

(** The values printed by the command [get] of the command line. *)
Definition print_value (entry : DataEntry) : list Output :=
  match de_value entry with
  | Some val => println (de_path entry +:+ ": " +:+ display_datapoint val)
  | None => println (de_path entry +:+ ": NotAvailable")
  end.

(** [kuksa_main] up to its loop: what is printed, whether the loop is entered,
    and the state. *)
Definition kuksa_start (options : CliOptions) (net : Net)
  : outcome (list Output * result (bool * State) string) :=
  let banner := println "Using kuksa.val.v1" in
  match make_client options with
  | Panics => Panics
  | Returns (Err err) => Returns (banner, Err err)
  | Returns (Ok client) =>
      let s := ({| kc_client := client; kc_completer := PathPart_new; kc_subscription_nbr := 1 |}, net) in
      Returns
        match op_command options with
        | Some paths =>
            match run_client (get_current_values paths) s with
            | (Ok data_entries, s) => (banner ++ flat_map print_value data_entries, Ok (false, s))
            | (Err err, s) =>
                (banner ++ [Out_stderr (client_error_to_string status_to_string err +:+ NEWLINE)], Ok (false, s))
            end
        | None =>
            match run_client try_connect s with
            | (Ok _, s) =>
                let '(out, s') := fetch_completer "metadata" ["**"] s in
                (banner ++ logo ++ print_connected "" s ++ out, Ok (true, s'))
            | (Err err, s) =>
                (banner ++ logo ++ print_error "connect" (client_error_to_string status_to_string err), Ok (true, s))
            end
        end
  end.

(** What [subscribe] completes: the first path only. *)
Definition kuksa_after_subscribe (completer : PathPart) (words : list string) (word : string)
  : option (list Completion) :=
  match words with [] => complete_entry_path completer word | _ => None end.

Definition kuksa_complete (complete_file : string -> option (list Completion)) (cli : KuksaCli) (before word : string)
  : option (list Completion) :=
  complete (kuksa_after_subscribe (kc_completer cli)) complete_file (kc_completer cli) before word.
End KuksaCli.
