(* ===== verification/SdvCli.v ===== *)
(** * SdvCli: the interactive client of sdv.databroker.v1

    src/kuksa_databroker/databroker-cli/src/sdv_cli.rs, like [KuksaCli]: reading
    and printing values, one definition per command, and the loop of
    [sdv_main].  This client keeps the metadata it last fetched, and looks up
    there what [set] and [feed] need. *)

From stdpp Require Import sorting.
From S2P Require Import Prelude Floats Types Regex Display Glob Auth ProtoVal ProtoSdv Client Cli KuksaCli.

(** ** Numbers of the protocol and their names *)

(** [EntryType::from_i32], [DatapointError::from_i32], [Failure::from_i32]. *)
Definition sdv_entry_type_from_i32 (i : Z) : option SdvEntryType :=
  match i with
  | 0 => Some SET_Unspecified | 1 => Some SET_Sensor | 2 => Some SET_Actuator | 3 => Some SET_Attribute
  | _ => None
  end.
Definition datapoint_error_from_i32 (i : Z) : option DatapointError :=
  match i with
  | 0 => Some DE_UnknownDatapoint | 1 => Some DE_InvalidType | 2 => Some DE_AccessDenied
  | 3 => Some DE_InternalError | 4 => Some DE_OutOfBounds | _ => None
  end.
Definition failure_from_i32 (i : Z) : option Failure :=
  match i with
  | 0 => Some FL_InvalidValue | 1 => Some FL_NotAvailable | 2 => Some FL_UnknownDatapoint
  | 3 => Some FL_AccessDenied | 4 => Some FL_InternalError | _ => None
  end.

(** The derived [Debug]. *)
Definition sdv_data_type_debug (t : SdvDataType) : string :=
  match t with
  | SDT_String => "String" | SDT_Bool => "Bool" | SDT_Int8 => "Int8" | SDT_Int16 => "Int16"
  | SDT_Int32 => "Int32" | SDT_Int64 => "Int64" | SDT_Uint8 => "Uint8" | SDT_Uint16 => "Uint16"
  | SDT_Uint32 => "Uint32" | SDT_Uint64 => "Uint64" | SDT_Float => "Float" | SDT_Double => "Double"
  | SDT_StringArray => "StringArray" | SDT_BoolArray => "BoolArray" | SDT_Int8Array => "Int8Array"
  | SDT_Int16Array => "Int16Array" | SDT_Int32Array => "Int32Array" | SDT_Int64Array => "Int64Array"
  | SDT_Uint8Array => "Uint8Array" | SDT_Uint16Array => "Uint16Array" | SDT_Uint32Array => "Uint32Array"
  | SDT_Uint64Array => "Uint64Array" | SDT_FloatArray => "FloatArray" | SDT_DoubleArray => "DoubleArray"
  end.
Definition sdv_entry_type_debug (t : SdvEntryType) : string :=
  match t with
  | SET_Unspecified => "Unspecified" | SET_Sensor => "Sensor" | SET_Actuator => "Actuator"
  | SET_Attribute => "Attribute"
  end.
Definition datapoint_error_debug (e : DatapointError) : string :=
  match e with
  | DE_UnknownDatapoint => "UnknownDatapoint" | DE_InvalidType => "InvalidType"
  | DE_AccessDenied => "AccessDenied" | DE_InternalError => "InternalError" | DE_OutOfBounds => "OutOfBounds"
  end.
Definition failure_debug (f : Failure) : string :=
  match f with
  | FL_InvalidValue => "InvalidValue" | FL_NotAvailable => "NotAvailable"
  | FL_UnknownDatapoint => "UnknownDatapoint" | FL_AccessDenied => "AccessDenied"
  | FL_InternalError => "InternalError"
  end.

(** [DisplayDataType] and [DisplayEntryType]. *)
Definition display_sdv_data_type (t : option SdvDataType) : string :=
  match t with Some data_type => sdv_data_type_debug data_type | None => "Unknown" end.
Definition display_sdv_entry_type (t : option SdvEntryType) : string :=
  match t with Some entry_type => sdv_entry_type_debug entry_type | None => "Unknown" end.

(** ** Values *)

(** [try_into_data_value]. *)
Definition sdv_try_into_data_value `{RegexSearch} (input : string) (data_type : SdvDataType)
  : outcome (result SdvValue ParseErrorT) :=
  if String.eqb input "NotAvailable" then Returns (Ok (SV_Failure (failure_i32 FL_NotAvailable))) else
  match data_type with
  | SDT_String => Returns (Ok (SV_String input))
  | SDT_StringArray => parsed_array Some input SV_StringArray
  | SDT_Bool => parsed_value (parse_bool input) SV_Bool
  | SDT_BoolArray => parsed_array parse_bool input SV_BoolArray
  | SDT_Int8 => parsed_value (parse_int i8 input) SV_Int32
  | SDT_Int8Array => parsed_array (parse_int i32) input SV_Int32Array
  | SDT_Int16 => parsed_value (parse_int i16 input) SV_Int32
  | SDT_Int16Array => parsed_array (parse_int i32) input SV_Int32Array
  | SDT_Int32 => parsed_value (parse_int i32 input) SV_Int32
  | SDT_Int32Array => parsed_array (parse_int i32) input SV_Int32Array
  | SDT_Int64 => parsed_value (parse_int i64 input) SV_Int64
  | SDT_Int64Array => parsed_array (parse_int i64) input SV_Int64Array
  | SDT_Uint8 => parsed_value (parse_int u8 input) SV_Uint32
  | SDT_Uint8Array => parsed_array (parse_int u32) input SV_Uint32Array
  | SDT_Uint16 => parsed_value (parse_int u16 input) SV_Uint32
  | SDT_Uint16Array => parsed_array (parse_int u32) input SV_Uint32Array
  | SDT_Uint32 => parsed_value (parse_int u32 input) SV_Uint32
  | SDT_Uint32Array => parsed_array (parse_int u32) input SV_Uint32Array
  | SDT_Uint64 => parsed_value (parse_int u64 input) SV_Uint64
  | SDT_Uint64Array => parsed_array (parse_int u64) input SV_Uint64Array
  | SDT_Float => parsed_value (parse_float f32 input) SV_Float
  | SDT_FloatArray => parsed_array (parse_float f32) input SV_FloatArray
  | SDT_Double => parsed_value (parse_float f64 input) SV_Double
  | SDT_DoubleArray => parsed_array (parse_float f64) input SV_DoubleArray
  end.

Definition sdv_display_value (value : SdvValue) : outcome string :=
  match value with
  | SV_Bool value => Returns (bool_to_string value)
  | SV_Failure failure =>
      match failure_from_i32 failure with
      | Some failure => Returns ("( " +:+ failure_debug failure +:+ " )")
      | None => Panics
      end
  | SV_Int32 value | SV_Int64 value | SV_Uint32 value | SV_Uint64 value => Returns (int_to_string value)
  | SV_Float value => Returns (float_to_string_2 value)
  | SV_Double value => Returns (float_to_string f64 value)
  | SV_String value => Returns ("'" +:+ value +:+ "'")
  | SV_StringArray array => Returns (display_array (fun s => s) array)
  | SV_BoolArray array => Returns (display_array bool_to_string array)
  | SV_Int32Array array | SV_Int64Array array | SV_Uint32Array array | SV_Uint64Array array =>
      Returns (display_array int_to_string array)
  | SV_FloatArray array => Returns (display_array (float_to_string f32) array)
  | SV_DoubleArray array => Returns (display_array (float_to_string f64) array)
  end.

(** [DisplayDatapoint]. *)
Definition sdv_display_datapoint `{Timestamps} (d : SdvDatapoint) : outcome string :=
  match sd_value d with Some value => sdv_display_value value | None => Returns "None" end.

(** [path_to_regex]. *)
Definition path_to_regex `{RegexEngine} (path : string) : option Regex :=
  regex_new ("^" +:+ replace "*" "(.*)" (replace "." "\." path) +:+ "$").

Section SdvCli.
Context `{RegexSearch} `{Remote} `{HashOrder} `{AnsiTerm} `{!CliEnv}.

Record SdvCli := {
  sc_client : Client;
  sc_completer : PathPart;
  sc_properties : list SdvMetadata;
  sc_subscription_nbr : Z
}.

Definition sdv_with_client (cli : SdvCli) (client : Client) : SdvCli :=
  {| sc_client := client; sc_completer := sc_completer cli; sc_properties := sc_properties cli;
     sc_subscription_nbr := sc_subscription_nbr cli |}.

(** [CliCompleter::from_metadata]. *)
Definition sdv_from_metadata (metadata : list SdvMetadata) : PathPart := completer_from (map sm_name metadata).

(** The metadata is kept and the completer made from it. *)
Definition sdv_with_metadata (cli : SdvCli) (metadata : list SdvMetadata) : SdvCli :=
  {| sc_client := sc_client cli; sc_completer := sdv_from_metadata metadata;
     sc_properties := metadata; sc_subscription_nbr := sc_subscription_nbr cli |}.

Definition SdvState : Type := SdvCli * Net.

Definition sdv_run_client {A} (c : M A) (s : SdvState) : result A ClientError * SdvState :=
  let '(cli, net) := s in
  let '(r, (client, net)) := c (sc_client cli, net) in
  (r, (sdv_with_client cli client, net)).

(** All metadata is fetched: an empty list of names stands for every signal. *)
Definition fetch_properties (function_operation : string) (s : SdvState) : list Output * SdvState :=
  match sdv_run_client (sdv_client_get_metadata []) s with
  | (Ok metadata, (cli, net)) => ([], (sdv_with_metadata cli metadata, net))
  | (Err e, s) => (report_metadata function_operation e, s)
  end.

(** The lines for the values of a map, in the order of iteration. *)
Fixpoint print_datapoints (l : list (string * SdvDatapoint)) : outcome (list Output) :=
  match l with
  | [] => Returns []
  | (name, datapoint) :: l =>
      match sdv_display_datapoint datapoint with
      | Panics => Panics
      | Returns text =>
          match print_datapoints l with
          | Panics => Panics
          | Returns out => Returns (println (name +:+ ": " +:+ text) ++ out)
          end
      end
  end.

(** ** The commands *)

(** [get]. *)
Definition sdv_cmd_get (args : string) (s : SdvState) : outcome (list Output * SdvState) :=
  if String.eqb args "" then Returns (print_usage "get", s) else
  match sdv_run_client (sdv_client_get_datapoints (split_whitespace args)) s with
  | (Ok datapoints, s) =>
      match print_datapoints (hash_order (map_to_list datapoints)) with
      | Returns out => Returns (print_resp_ok "get" ++ out, s)
      | Panics => Panics
      end
  | (Err e, s) => Returns (report "get" e, s)
  end.

(** [set_access_token] and what follows it. *)
Definition sdv_use_token (cmd function_operation token : string) (s : SdvState) : list Output * SdvState :=
  let '(cli, net) := s in
  match set_access_token (sc_client cli) token with
  | (Ok _, client) =>
      let '(out, s) := fetch_properties function_operation (sdv_with_client cli client, net) in
      (print_info "Access token set." ++ out, s)
  | (Err (MalformedTokenError err), client) =>
      (print_error cmd ("Malformed token: " +:+ err), (sdv_with_client cli client, net))
  end.

(** [token]. *)
Definition sdv_cmd_token (args : string) (s : SdvState) : list Output * SdvState :=
  if String.eqb args "" then (print_usage "token", s) else sdv_use_token "token" "metadata" args s.

(** [token-file]. *)
Definition sdv_cmd_token_file (args : string) (s : SdvState) : list Output * SdvState :=
  if String.eqb args "" then (print_usage "token-file", s) else
  let token_filename := trim args in
  match read_file token_filename with
  | Ok token => sdv_use_token "token-file" "token-file" token s
  | Err err =>
      (print_error "token-file"
         ("Failed to open token file " +:+ QUOTE +:+ token_filename +:+ QUOTE +:+ ": " +:+ err), s)
  end.

(** The loop over [properties] of [set] and [feed]: the last with the name. *)
Definition find_property (properties : list SdvMetadata) (path : string) : option SdvMetadata :=
  fold_left (fun found metadata => if String.eqb (sm_name metadata) path then Some metadata else found)
    properties None.

Definition no_metadata (path : string) : list Output :=
  print_info ("No metadata available for " +:+ path +:+
              ". Needed to determine data type for serialization.").

(** The value of [set] and [feed] for a signal, or what is printed instead. *)
Definition read_value (metadata : SdvMetadata) (value : string) : outcome (result SdvValue (list Output)) :=
  match sdv_data_type_from_i32 (sm_data_type metadata) with
  | None => Panics
  | Some data_type =>
      match sdv_try_into_data_value value data_type with
      | Panics => Panics
      | Returns (Ok data_value) => Returns (Ok data_value)
      | Returns (Err _) =>
          Returns (Err (println ("Could not parse " +:+ QUOTE +:+ value +:+ QUOTE +:+ " as " +:+
                                 sdv_data_type_debug data_type)))
      end
  end.

(** The errors of the reply to [set]. *)
Definition print_set_errors (errors : gmap string Z) : list Output :=
  flat_map (fun '(id, error) =>
    match datapoint_error_from_i32 error with
    | Some error =>
        print_resp_ok "set" ++ println ("Error setting " +:+ id +:+ ": " +:+ red (datapoint_error_debug error))
    | None => print_resp_ok_fmt "set" ("Error setting id " +:+ id)
    end) (hash_order (map_to_list errors)).

(** [set]. *)
Definition sdv_cmd_set (now : SystemTime) (args : string) (s : SdvState) : outcome (list Output * SdvState) :=
  let '(path, value) := split_first_word args in
  if String.eqb value "" then Returns (print_usage "set", s) else
  match find_property (sc_properties (fst s)) path with
  | None => Returns (no_metadata path, s)
  | Some metadata =>
      match read_value metadata value with
      | Panics => Panics
      | Returns (Err out) => Returns (out, s)
      | Returns (Ok data_value) =>
          if negb (sm_entry_type metadata =? sdv_entry_type_i32 SET_Actuator) then
            Returns (print_error "set" (sm_name metadata +:+ " is not an actuator.") ++
                     print_info "If you want to provide the signal value, use `feed`.", s)
          else
            let ts := timestamp_from now in
            let datapoints := {[ sm_name metadata := {| sd_timestamp := Some ts; sd_value := Some data_value |} ]} in
            match sdv_run_client (sdv_client_set_datapoints datapoints) s with
            | (Ok errors, s) =>
                Returns (if bool_decide (errors = ∅) then print_resp_ok "set" else print_set_errors errors, s)
            | (Err e, s) => Returns (report "set" e, s)
            end
      end
  end.

(** The errors of the reply to [feed]. *)
Definition print_feed_errors (metadata : SdvMetadata) (errors : gmap Z Z) : list Output :=
  flat_map (fun '(id, error) =>
    let identifier := if id =? sm_id metadata then sm_name metadata else "id " +:+ int_to_string id in
    match datapoint_error_from_i32 error with
    | Some error =>
        print_resp_ok_fmt "feed" ("Error providing " +:+ identifier +:+ ": " +:+ datapoint_error_debug error)
    | None => print_resp_ok_fmt "feed" ("Error providing " +:+ identifier)
    end) (hash_order (map_to_list errors)).

(** [feed]. *)
Definition sdv_cmd_feed (now : SystemTime) (args : string) (s : SdvState) : outcome (list Output * SdvState) :=
  let '(path, value) := split_first_word args in
  if String.eqb value "" then Returns (print_usage "feed", s) else
  match find_property (sc_properties (fst s)) path with
  | None => Returns (no_metadata path, s)
  | Some metadata =>
      match read_value metadata value with
      | Panics => Panics
      | Returns (Err out) => Returns (out, s)
      | Returns (Ok data_value) =>
          let ts := timestamp_from now in
          let datapoints := {[ sm_id metadata := {| sd_timestamp := Some ts; sd_value := Some data_value |} ]} in
          match sdv_run_client (sdv_client_update_datapoints datapoints) s with
          | (Ok errors, s) =>
              Returns (if bool_decide (errors = ∅) then print_resp_ok "feed" else print_feed_errors metadata errors, s)
          | (Err e, s) => Returns (report "feed" e, s)
          end
      end
  end.

(** [subscribe]; the query is the rest of the line. *)
Definition sdv_cmd_subscribe (args : string) (s : SdvState) : list Output * option (Z * Streaming) * SdvState :=
  if String.eqb args "" then (print_usage "subscribe", None, s) else
  match sdv_run_client (sdv_client_subscribe args) s with
  | (Ok subscription, (cli, net)) =>
      let nbr := sc_subscription_nbr cli in
      (print_resp_ok "subscribe" ++
       print_info ("Subscription is now running in the background. Received data is identified by [" +:+
                   int_to_string nbr +:+ "]."),
       Some (nbr, subscription),
       ({| sc_client := sc_client cli; sc_completer := sc_completer cli; sc_properties := sc_properties cli;
           sc_subscription_nbr := nbr + 1 |}, net))
  | (Err e, s) => (report "subscribe" e, None, s)
  end.

(** The lines for one message of a subscription. *)
Fixpoint subscription_lines (disp pad : string) (fields : list (string * SdvDatapoint)) : outcome string :=
  match fields with
  | [] => Returns ""
  | (name, value) :: fields =>
      match sdv_display_datapoint value with
      | Panics => Panics
      | Returns text =>
          match subscription_lines pad pad fields with
          | Panics => Panics
          | Returns output => Returns (disp +:+ " " +:+ name +:+ ": " +:+ text +:+ NEWLINE +:+ output)
          end
      end
  end.

(** The task of a subscription. *)
Definition sdv_subscription_output (nbr : Z) (message : result (option (gmap string SdvDatapoint)) Status)
  : outcome (string * bool) :=
  let sub_disp := "[" +:+ int_to_string nbr +:+ "]" in
  let sub_disp_pad := spaces (String.length sub_disp) in
  let sub_disp_color := white_dimmed sub_disp in
  match message with
  | Ok (Some fields) =>
      match subscription_lines sub_disp_color sub_disp_pad (hash_order (map_to_list fields)) with
      | Returns output => Returns (output, true)
      | Panics => Panics
      end
  | Ok None =>
      Returns (red_dimmed sub_disp +:+ " " +:+ white_dimmed "Server gone. Subscription stopped" +:+ NEWLINE, false)
  | Err err =>
      Returns (sub_disp_color +:+ " " +:+ red_dimmed ("Channel error: " +:+ status_to_string err), false)
  end.

Definition sdv_print_connected (prefix : string) (s : SdvState) : list Output :=
  print_info (prefix +:+ "Successfully connected to " +:+ get_uri (sc_client (fst s))).

(** [connect]. *)
Definition sdv_cmd_connect (args : string) (s : SdvState) : outcome (list Output * SdvState) :=
  if is_connected (sc_client (fst s)) && String.eqb args "" then Returns ([], s) else
  let attempt (c : M unit) : list Output * SdvState :=
    match sdv_run_client c s with
    | (Ok _, s) => (sdv_print_connected "[connect] " s, s)
    | (Err e, s) => (print_error "connect" (client_error_to_string status_to_string e), s)
    end in
  match (if String.eqb args "" then Returns (attempt try_connect)
         else match to_uri args with
              | Panics => Panics
              | Returns (Ok valid_uri) => Returns (attempt (try_connect_to valid_uri))
              | Returns (Err err) => Returns (print_error "connect" ("Failed to parse endpoint address: " +:+ err), s)
              end) with
  | Panics => Panics
  | Returns (out, s) =>
      if is_connected (sc_client (fst s)) then
        let '(out', s) := fetch_properties "connect" s in Returns (out ++ out', s)
      else Returns (out, s)
  end.

Definition name_le (x y : SdvMetadata) : Prop := String.leb (sm_name x) (sm_name y) = true.
#[export] Instance name_le_dec x y : Decision (name_le x y).
Proof. unfold name_le. apply _. Defined.

(** The signals that match a pattern.  For a pattern that is no regular
    expression a line is printed per signal; [regex_error] is its text. *)
Definition filter_path (regex_error : string -> string) (properties : list SdvMetadata) (path : string)
  : list Output * list SdvMetadata :=
  match path_to_regex path with
  | Some re => ([], List.filter (fun item => regex_is_match re (sm_name item)) properties)
  | None => (flat_map (fun _ => print_info ("Invalid path: " +:+ regex_error path)) properties, [])
  end.

(** The table printed by [metadata]. *)
Definition sdv_metadata_table (metadata : list SdvMetadata) : list Output :=
  let max_len_path :=
    fold_left (fun max_len item => if (max_len <? String.length (sm_name item))%nat then String.length (sm_name item)
                                   else max_len) metadata O in
  let row path entry_type data_type :=
    pad_right max_len_path path +:+ " " +:+ pad_right 10 entry_type +:+ " " +:+ pad_right 9 data_type in
  print_info (row "Path" "Entry type" "Data type") ++
  flat_map (fun entry =>
    println (row (sm_name entry) (display_sdv_entry_type (sdv_entry_type_from_i32 (sm_entry_type entry)))
                 (display_sdv_data_type (sdv_data_type_from_i32 (sm_data_type entry))))) metadata.

(** [metadata]. *)
Definition sdv_cmd_metadata (regex_error : string -> string) (args : string) (s : SdvState)
  : list Output * SdvState :=
  match sdv_run_client (sdv_client_get_metadata []) s with
  | (Err e, s) => (report "metadata" e, s)
  | (Ok metadata, (cli, net)) =>
      let cli := sdv_with_metadata cli (merge_sort name_le metadata) in
      let '(out, filtered_metadata) :=
        match split_whitespace args with
        | [] => (print_info "If you want to list metadata of signals, use `metadata PATTERN`", [])
        | paths =>
            let filtered := map (filter_path regex_error (sc_properties cli)) paths in
            (flat_map fst filtered, flat_map snd filtered)
        end in
      (print_resp_ok "metadata" ++ out ++
       match filtered_metadata with [] => [] | _ => sdv_metadata_table filtered_metadata end, (cli, net))
  end.

(** ** The loop *)

(** One line of input. *)
Definition sdv_command (regex_error : string -> string) (now : SystemTime) (line : string) (s : SdvState)
  : outcome (list Output * bool * option (Z * Streaming) * SdvState) :=
  let '(cmd, args) := split_first_word line in
  let go (r : list Output * SdvState) := Returns (fst r, true, None, snd r) in
  let go_on (r : outcome (list Output * SdvState)) :=
    match r with Returns r => go r | Panics => Panics end in
  if String.eqb cmd "help" then go (print_help, s)
  else if String.eqb cmd "get" then go_on (sdv_cmd_get args s)
  else if String.eqb cmd "token" then go (sdv_cmd_token args s)
  else if String.eqb cmd "token-file" then go (sdv_cmd_token_file args s)
  else if String.eqb cmd "set" then go_on (sdv_cmd_set now args s)
  else if String.eqb cmd "feed" then go_on (sdv_cmd_feed now args s)
  else if String.eqb cmd "subscribe" then
    let '(out, started, s) := sdv_cmd_subscribe args s in Returns (out, true, started, s)
  else if String.eqb cmd "connect" then go_on (sdv_cmd_connect args s)
  else if String.eqb cmd "metadata" then go (sdv_cmd_metadata regex_error args s)
  else if String.eqb cmd "quit" || String.eqb cmd "exit" then Returns (println "Bye bye!", false, None, s)
  else if String.eqb cmd "" then go ([], s)
  else go (println "Unknown command. See `help` for a list of available commands.", s).

(** One turn of the loop. *)
Definition sdv_step (regex_error : string -> string) (now : SystemTime) (res : ReadResult) (s : SdvState)
  : outcome (list Output * bool * option (Z * Streaming) * SdvState) :=
  match res with
  | RR_Input line => sdv_command regex_error now line s
  | RR_Eof => Returns (println "Bye bye!", false, None, s)
  | RR_Signal debug => Returns ([Out_stdout ("signal received: " +:+ debug +:+ NEWLINE)], true, None, s)
  end.

(** [sdv_main] up to its loop; the client is made as in [kuksa_main]. *)
Definition sdv_start (options : CliOptions) (net : Net)
  : outcome (list Output * result (bool * SdvState) string) :=
  let banner := println "Using sdv.databroker.v1" in
  match make_client options with
  | Panics => Panics
  | Returns (Err err) => Returns (banner, Err err)
  | Returns (Ok client) =>
      let s := ({| sc_client := client; sc_completer := PathPart_new; sc_properties := [];
                   sc_subscription_nbr := 1 |}, net) in
      match op_command options with
      | Some paths =>
          match sdv_run_client (sdv_client_get_datapoints paths) s with
          | (Ok datapoints, s) =>
              match print_datapoints (hash_order (map_to_list datapoints)) with
              | Returns out => Returns (banner ++ out, Ok (false, s))
              | Panics => Panics
              end
          | (Err err, s) =>
              Returns (banner ++ [Out_stderr (client_error_to_string status_to_string err +:+ NEWLINE)], Ok (false, s))
          end
      | None =>
          match sdv_run_client try_connect s with
          | (Ok _, s) =>
              let '(out, s') := fetch_properties "metadata" s in
              Returns (banner ++ logo ++ sdv_print_connected "" s ++ out, Ok (true, s'))
          | (Err err, s) =>
              Returns (banner ++ logo ++ print_error "connect" (client_error_to_string status_to_string err),
                       Ok (true, s))
          end
      end
  end.

(** This client's [CliCompleter::complete_entry_path]: the text of the other one. *)
Definition sdv_complete_entry_path : PathPart -> string -> option (list Completion) := complete_entry_path.

(** What [subscribe] completes: the keyword, and paths right after it. *)
Definition sdv_after_subscribe (completer : PathPart) (words : list string) (word : string)
  : option (list Completion) :=
  match words with
  | [] => Some [{| completion := "SELECT"; display := None; suffix := SX_Default |}]
  | next :: _ => if String.eqb next "SELECT" then sdv_complete_entry_path completer word else None
  end.

Definition sdv_complete (complete_file : string -> option (list Completion)) (cli : SdvCli) (before word : string)
  : option (list Completion) :=
  complete (sdv_after_subscribe (sc_completer cli)) complete_file (sc_completer cli) before word.

(** ** main.rs *)

(** [main]: the client of the protocol that is asked for, up to its loop; the
    client whose loop is entered is left. *)
Definition cli_main (protocol : CliAPI) (options : CliOptions) (net : Net)
  : outcome (list Output * option (SdvState + State)) :=
  let finish {S} (inj : S -> SdvState + State) (r : outcome (list Output * result (bool * S) string)) :=
    match r with
    | Panics => Panics
    | Returns (out, Ok (enter, s)) => Returns (out, if enter then Some (inj s) else None)
    | Returns (out, Err e) => Returns (out ++ [Out_stderr ("Error: " +:+ e +:+ NEWLINE)], None)
    end in
  match protocol with
  | SdvDatabrokerV1 => finish inl (sdv_start options net)
  | KuksaValV1 => finish inr (kuksa_start options net)
  end.

(** What happens while a client runs: something is read from the terminal, or
    others use the network. *)
Inductive Event :=
| EV_Read (now : SystemTime) (res : ReadResult)
| EV_Net (net : Net).

(** The loop of [kuksa_main] and of [sdv_main] on a sequence of events: what is
    printed, and whether the loop was left. *)
Fixpoint session {S}
  (step : SystemTime -> ReadResult -> S * Net -> outcome (list Output * bool * option (Z * Streaming) * (S * Net)))
  (events : list Event) (s : S * Net) : outcome (list Output * bool * (S * Net)) :=
  match events with
  | [] => Returns ([], false, s)
  | EV_Net net :: events => session step events (fst s, net)
  | EV_Read now res :: events =>
      match step now res s with
      | Panics => Panics
      | Returns (out, false, _, s) => Returns (out, true, s)
      | Returns (out, true, _, s) =>
          match session step events s with
          | Panics => Panics
          | Returns (out', ended, s) => Returns (out ++ out', ended, s)
          end
      end
  end.
End SdvCli.
