(* ===== verification/CliSpec.v ===== *)
(** * CliSpec: what the interactive clients promise

    The theorems about [Cli], [KuksaCli] and [SdvCli]: that values read as they
    are printed, that values read have the type of the signal, what is
    completed, and what the commands do with a broker at the other end. *)

From stdpp Require Import sorting.
From S2P Require Import Prelude Floats Types Regex Search Display Glob Permissions Auth Entry.
From S2P Require Import ProtoVal KuksaVal ProtoSdv Client Cli KuksaCli SdvCli.

(** ** The expression of [get_array_from_input] *)

Definition quote_char : Ascii.ascii := Ascii.ascii_of_N 34.
Definition escape_re : re := RSeq (RClass (is_char "\"%char)) (RClass any_char).
Definition not_quote_comma (c : Ascii.ascii) : bool := negb (is_char quote_char c || is_char ","%char c).
Definition not_quote (c : Ascii.ascii) : bool := negb (is_char quote_char c).

(** [ARRAY_REGEX]: a text with a quoted part, escapes inside, or a text without
    quotes and commas. *)
Definition array_re : re :=
  RAlt (RSeq (RStar (RAlt escape_re (RClass not_quote_comma)))
             (RSeq (RClass (is_char quote_char))
                   (RSeq (RStar (RAlt escape_re (RClass not_quote))) (RClass (is_char quote_char)))))
       (RPlus (RClass not_quote_comma)).

(** Documented behaviour of the crate [regex] on that expression. *)
Class SearchLaws `{RegexSearch} := {
  law_array : exists rx, regex_new ARRAY_REGEX = Some rx /\ forall s, is_ascii s = true ->
    regex_captures_iter rx s =
      map String.string_of_list_ascii (find_iter (length (bytes s)) array_re (bytes s))
}.

(** The characters of an element that is read as it stands. *)
Definition word_char (c : Ascii.ascii) : bool :=
  not_quote_comma c && negb (is_char "\"%char c) && (byte_code c <? 128)%N.

Fixpoint commas (l : list (list Ascii.ascii)) : list Ascii.ascii :=
  match l with [] => [] | [w] => w | w :: l => w ++ ","%char :: commas l end.

Definition tail_stops (rest : list Ascii.ascii) : Prop :=
  match rest with [] => True | c :: _ => c = ","%char end.

Lemma word_char_spec c : word_char c = true ->
  not_quote_comma c = true /\ is_char "\"%char c = false /\ is_char quote_char c = false.
Proof.
  unfold word_char. intros [[Hn Hb]%andb_true_iff _]%andb_true_iff. apply negb_true_iff in Hb.
  split_and!; [done|done|]. unfold not_quote_comma in Hn. by destruct (is_char quote_char c).
Qed.

Lemma flat_map_empty {A B} (f : A -> list B) l : (forall x, x ∈ l -> f x = []) -> flat_map f l = [].
Proof.
  induction l as [|x l IH]; intros Hf; simpl; [done|]. rewrite (Hf x) by left. apply IH.
  intros y Hy. apply Hf. by right.
Qed.

(** At an element followed by a comma or nothing, the search takes exactly the
    element. *)
Lemma rests_array c w rest :
  Forall (fun c => word_char c = true) (c :: w) -> tail_stops rest ->
  exists l, rests array_re ((c :: w) ++ rest) = rest :: l.
Proof.
  intros Hw Hrest. set (s := (c :: w) ++ rest).
  assert (forall inner, (forall c s, word_char c = true -> rests inner (c :: s) = [s]) -> rests inner rest = [] ->
    rests (RStar inner) s = map (fun v => v ++ rest) (suffixes (c :: w))) as Hstar.
  { intros inner Hi Hr. unfold s. cbn [rests]. by apply (star_rests_run _ (fun c => word_char c = true)). }
  change (rests array_re s) with
    (flat_map (rests (RSeq (RClass (is_char quote_char))
        (RSeq (RStar (RAlt escape_re (RClass not_quote))) (RClass (is_char quote_char)))))
      (rests (RStar (RAlt escape_re (RClass not_quote_comma))) s) ++
     flat_map (rests (RStar (RClass not_quote_comma))) (rests (RClass not_quote_comma) s)).
  rewrite Hstar.
  - assert (flat_map (rests (RSeq (RClass (is_char quote_char))
        (RSeq (RStar (RAlt escape_re (RClass not_quote))) (RClass (is_char quote_char)))))
      (map (fun v => v ++ rest) (suffixes (c :: w))) = []) as ->.
    { apply flat_map_empty. intros x (v & -> & Hv)%list_elem_of_fmap.
      destruct (elem_of_suffixes v (c :: w) Hv) as (u & Hu). rewrite Hu in Hw. apply Forall_app in Hw as [_ Hvw].
      cbn [rests]. destruct v as [|d v]; simpl.
      - destruct rest as [|d rest]; [done|]. simpl in Hrest. by subst d.
      - apply Forall_cons in Hvw as [Hd _]. destruct (word_char_spec d Hd) as (_ & _ & ->). done. }
    apply Forall_cons in Hw as [Hc Hw]. destruct (word_char_spec c Hc) as (Hn & _).
    assert (rests (RClass not_quote_comma) s = [w ++ rest]) as -> by (unfold s; simpl; by rewrite Hn).
    cbn [flat_map app]. rewrite app_nil_r.
    change (rests (RStar (RClass not_quote_comma)) (w ++ rest)) with
      (star_rests (rests (RClass not_quote_comma)) (length (w ++ rest)) (w ++ rest)).
    rewrite (star_rests_run _ (fun c => word_char c = true));
      [| |by destruct rest as [|d rest]; [done|simpl in Hrest; subst d]|done|done].
    + destruct (suffixes_head w) as (l & ->). by exists (map (fun v => v ++ rest) l).
    + intros d s' Hd. destruct (word_char_spec d Hd) as (Hdn & _). simpl. by rewrite Hdn.
  - intros d s' Hd. destruct (word_char_spec d Hd) as (Hdn & Hb & _). simpl. by rewrite Hb, Hdn.
  - destruct rest as [|d rest]; [done|]. simpl in Hrest. by subst d.
Qed.

Lemma rests_comma s : rests array_re (","%char :: s) = [].
Proof. reflexivity. Qed.

(** The search of a list of elements finds the elements. *)
Lemma find_iter_commas l fuel :
  Forall (fun w => w <> [] /\ Forall (fun c => word_char c = true) w) l ->
  (length (commas l) <= fuel)%nat -> find_iter fuel array_re (commas l) = l.
Proof.
  revert fuel. induction l as [|w l IH]; intros fuel Hl Hf; [by destruct fuel|].
  apply Forall_cons in Hl as [[Hne Hw] Hl]. destruct w as [|c w]; [done|].
  set (rest := match l with [] => [] | _ => ","%char :: commas l end).
  assert (commas ((c :: w) :: l) = (c :: w) ++ rest) as Hc
    by (unfold rest; destruct l; simpl; by rewrite ?app_nil_r).
  assert (tail_stops rest) as Hrest by (unfold rest; by destruct l).
  rewrite Hc in Hf |- *. destruct fuel as [|fuel]; [simpl in Hf; lia|].
  destruct (rests_array c w rest Hw Hrest) as (k & Hk).
  change ((c :: w) ++ rest) with (c :: w ++ rest) in *. cbn [find_iter]. rewrite Hk.
  change (c :: w ++ rest) with ((c :: w) ++ rest) in *.
  rewrite length_app, Nat.add_sub, firstn_app, firstn_all, Nat.sub_diag. simpl. rewrite app_nil_r. f_equal.
  unfold rest in *. destruct l as [|w2 l]; [by destruct fuel|].
  rewrite length_app in Hf. simpl in Hf. destruct fuel as [|fuel]; [lia|].
  cbn [find_iter]. rewrite rests_comma. apply IH; [done|]. simpl. lia.
Qed.

(** ** Texts that are read as they stand *)

(** An element without whitespace, quotes, commas and backslashes. *)
Definition plain_char (c : Ascii.ascii) : bool := word_char c && negb (is_whitespace c).
Definition plain_word (s : string) : Prop := s <> "" /\ all_chars plain_char s.

Lemma trim_start_plain s : all_chars (fun c => negb (is_whitespace c)) s -> trim_start s = s.
Proof.
  destruct s as [|c s]; [done|]. intros [Hc _]%Forall_cons. simpl. by destruct (is_whitespace c).
Qed.

Lemma trim_end_plain s : all_chars (fun c => negb (is_whitespace c)) s -> trim_end s = s.
Proof.
  induction s as [|c s IH]; [done|]. intros [Hc Hs]%Forall_cons. simpl. rewrite IH by done.
  destruct s; [|done]. by destruct (is_whitespace c).
Qed.

Lemma replace_absent x to s : all_chars (fun c => negb (is_char x c)) s -> replace (String x "") to s = s.
Proof.
  unfold replace. induction s as [|c s IH]; [done|]. intros [Hc Hs]%Forall_cons. simpl.
  unfold starts_with. simpl. unfold is_char in Hc. rewrite Ascii.eqb_sym.
  destruct (Ascii.eqb c x); [done|]. simpl. by rewrite IH.
Qed.

Lemma all_chars_impl (f g : Ascii.ascii -> bool) s :
  (forall c, f c = true -> g c = true) -> all_chars f s -> all_chars g s.
Proof. intros Hfg Hs. eapply Forall_impl; [exact Hs|]. intros c. apply Hfg. Qed.

Lemma element_text_plain s : plain_word s -> element_text s = s /\ element_text (" " +:+ s) = s.
Proof.
  intros [_ Hs].
  assert (trim s = s /\ trim (" " +:+ s) = s) as [Ht1 Ht2].
  { assert (all_chars (fun c => negb (is_whitespace c)) s) as Hw.
    { revert Hs. apply all_chars_impl. intros c [_ Hc]%andb_true_iff. done. }
    unfold trim. change (trim_start (" " +:+ s)) with (trim_start s).
    rewrite trim_start_plain, trim_end_plain by done. done. }
  assert (replace "\" QUOTE (replace QUOTE "" s) = s) as Hr.
  { assert (forall x, (forall c, word_char c = true -> is_char x c = false) ->
      all_chars (fun c => negb (is_char x c)) s) as Ha.
    { intros x Hx. revert Hs. apply all_chars_impl. intros c [Hc _]%andb_true_iff. by rewrite (Hx c Hc). }
    unfold QUOTE, char_text. rewrite (replace_absent (Ascii.ascii_of_N 34)), (replace_absent "\"%char); [done|..];
      apply Ha; intros c Hc; by destruct (word_char_spec c Hc) as (_ & ? & ?). }
  unfold element_text. by rewrite Ht1, Ht2, Hr.
Qed.

Lemma bytes_join s l :
  bytes (join ", " (s :: l)) = commas (bytes s :: map (fun t => " "%char :: bytes t) l).
Proof.
  revert s. induction l as [|t l IH]; intros s; [done|].
  change (join ", " (s :: t :: l)) with (s +:+ ", " +:+ join ", " (t :: l)).
  rewrite bytes_append. change (bytes (", " +:+ ?x)) with (","%char :: " "%char :: bytes x). rewrite IH.
  simpl. by destruct l.
Qed.

Lemma plain_forall s : all_chars plain_char s -> Forall (fun c => word_char c = true) (bytes s).
Proof. intros Hs. eapply Forall_impl; [exact Hs|]. intros c [Hc _]%andb_true_iff. done. Qed.

Lemma strip_suffix_app x s : strip_suffix x (s +:+ String x "") = Some s.
Proof.
  induction s as [|c s IH]; simpl; [by rewrite Ascii.eqb_refl|]. rewrite IH.
  by destruct (s +:+ String x "") eqn:E; [destruct s|].
Qed.

Lemma word_char_ascii w : Forall (fun c => word_char c = true) w -> forallb (fun c => (byte_code c <? 128)%N) w = true.
Proof.
  intros Hw. apply forallb_forall. intros c Hc%list_elem_of_In. rewrite Forall_forall in Hw.
  specialize (Hw c Hc). unfold word_char in Hw. by apply andb_true_iff in Hw as [_ ?].
Qed.

Section Arrays.
Context `{SearchLaws}.

Lemma parse_elements_map {T} (parse : string -> option T) (to_string : T -> string) l :
  Forall (fun v => plain_word (to_string v) /\ parse (to_string v) = Some v) l ->
  parse_elements parse (map (fun v => to_string v) l) = Ok l /\
  parse_elements parse (map (fun v => " " +:+ to_string v) l) = Ok l.
Proof.
  induction 1 as [|v l [Hw Hp] _ [IH1 IH2]]; [done|]. cbn [map parse_elements].
  destruct (element_text_plain _ Hw) as [-> ->]. rewrite Hp, IH1, IH2. done.
Qed.

(** A list printed by [display_array] is read back by [get_array_from_input],
    when its elements are and print as plain words. *)
Lemma array_roundtrip {T} (parse : string -> option T) (to_string : T -> string) l :
  Forall (fun v => plain_word (to_string v) /\ parse (to_string v) = Some v) l ->
  get_array_from_input parse (display_array to_string l) = Returns (Ok l).
Proof.
  intros Hl. unfold get_array_from_input, display_array. rewrite strip_prefix_app.
  change "]" with (String "]"%char ""). rewrite strip_suffix_app.
  destruct law_array as (rx & -> & Hfind). do 2 f_equal.
  destruct l as [|v l].
  { rewrite Hfind by done. done. }
  pose proof Hl as [[[Hne Hv] Hpv] Hl']%Forall_cons.
  assert (Forall (fun w => w <> [] /\ Forall (fun c => word_char c = true) w)
    (bytes (to_string v) :: map (fun t => " "%char :: bytes t) (map to_string l))) as Hwords.
  { apply Forall_cons. split.
    - split; [by destruct (to_string v)|by apply plain_forall].
    - rewrite map_map. apply Forall_map. eapply Forall_impl; [exact Hl'|]. intros u [[_ Hu] _]. split; [done|].
      constructor; [done|by apply plain_forall]. }
  cbn [map]. rewrite Hfind.
  - rewrite bytes_join, find_iter_commas by done. cbn [map].
    rewrite !map_map. destruct (parse_elements_map parse to_string l Hl') as [_ Hrest].
    assert (forall s, String.string_of_list_ascii (bytes s) = s) as Hsb by apply String.string_of_list_ascii_of_string.
    assert (map (fun x => String.string_of_list_ascii (" "%char :: bytes (to_string x))) l =
      map (fun v => " " +:+ to_string v) l) as ->.
    { apply map_ext. intros u. simpl. by rewrite Hsb. }
    rewrite Hsb. cbn [parse_elements].
    destruct (element_text_plain (to_string v)) as [-> _]; [by split|]. by rewrite Hpv, Hrest.
  - unfold is_ascii. rewrite bytes_join. clear -Hwords. revert Hwords.
    generalize (bytes (to_string v) :: map (fun t => " "%char :: bytes t) (map to_string l)) as ws.
    induction ws as [|w ws IH]; [done|]. intros [[_ Hw] Hws]%Forall_cons. destruct ws as [|w2 ws].
    + by apply word_char_ascii.
    + change (commas (w :: w2 :: ws)) with (w ++ ","%char :: commas (w2 :: ws)).
      rewrite forallb_app. rewrite (word_char_ascii w Hw). simpl. by apply IH.
Qed.
End Arrays.

(** ** Printed numbers are plain words *)

Lemma digit_plain c d : digit_of c = Some d -> plain_char c = true.
Proof.
  destruct c as [b0 b1 b2 b3 b4 b5 b6 b7].
  destruct b0, b1, b2, b3, b4, b5, b6, b7; vm_compute; by intros.
Qed.

Lemma digits_plain acc s v : digits_value acc s = Some v -> all_chars plain_char s.
Proof.
  revert acc. induction s as [|c s IH]; intros acc; [constructor|]. simpl.
  destruct (digit_of c) as [d|] eqn:E; [|done]. intros Hv. constructor; [by eapply digit_plain|by eapply IH].
Qed.

Lemma all_chars_app f s t : all_chars f s -> all_chars f t -> all_chars f (s +:+ t).
Proof. unfold all_chars. rewrite bytes_append. by apply Forall_app_2. Qed.

Lemma int_plain z : plain_word (int_to_string z).
Proof.
  destruct z as [|p|p].
  - split; [done|]. by repeat constructor.
  - destruct (digits_pos p) as [Hv Hs]. split; [done|by eapply digits_plain].
  - change (int_to_string (Zneg p)) with (String "-"%char (int_to_string (Zpos p))).
    destruct (digits_pos p) as [Hv _]. split; [done|]. constructor; [done|by eapply digits_plain].
Qed.

Lemma bool_plain b : plain_word (bool_to_string b).
Proof. destruct b; split; try done; by repeat constructor. Qed.

Lemma insert_point_plain n s : all_chars plain_char s -> all_chars plain_char (insert_point n s).
Proof.
  revert s. induction n as [|n IH]; intros s Hs; simpl; [by constructor|].
  destruct s as [|c s]; [by constructor|]. apply Forall_cons in Hs as [Hc Hs]. constructor; [done|by apply IH].
Qed.

Lemma zeros_plain n : all_chars plain_char (zeros n).
Proof. apply (digits_plain 0 _ _ (digits_value_zeros n 0)). Qed.

Lemma render_plain d q : plain_word (render d q).
Proof.
  destruct (int_plain d) as [Hne Hd]. unfold render.
  repeat case_match.
  - split; [by destruct (int_to_string d)|]. apply all_chars_app; [done|apply zeros_plain].
  - split; [done|]. constructor; [done|]. constructor; [done|]. apply all_chars_app; [apply zeros_plain|done].
  - split; [|by apply insert_point_plain]. by destruct (Z.to_nat _), (int_to_string d).
Qed.

Lemma float_plain fmt x : printable fmt x = true -> plain_word (float_to_string fmt x).
Proof.
  destruct x as [s|s| |s m e]; simpl.
  - intros _. destruct s; (split; [done|by repeat constructor]).
  - intros _. destruct s; (split; [done|by repeat constructor]).
  - intros _. split; [done|by repeat constructor].
  - destruct (float_digits fmt s m e) as [[d q]|]; [|done]. intros _. destruct (render_plain d q) as [Hne Hr].
    destruct s; simpl; [|done]. split; [done|]. by constructor.
Qed.

(** ** Values *)

Section Values.
Context `{SearchLaws}.

(** The values whose printed form loses nothing: texts are printed in quotes,
    and single floats with two decimals. *)
Definition prints_exactly (pv : ProtoValue) : bool :=
  match pv with
  | PV_String _ | PV_StringArray _ | PV_Float _ => false
  | PV_Double x => printable f64 x
  | PV_FloatArray l => forallb (printable f32) l
  | PV_DoubleArray l => forallb (printable f64) l
  | _ => true
  end.

Lemma is_value {T} (parse : string -> option T) s v :
  parse s = Some v -> parse "NotAvailable" = None -> String.eqb s "NotAvailable" = false.
Proof. intros Hs Hn. destruct (String.eqb_spec s "NotAvailable") as [->|]; congruence. Qed.

Lemma display_array_value {T} (to_string : T -> string) l :
  String.eqb (display_array to_string l) "NotAvailable" = false.
Proof. done. Qed.

Lemma parsed_array_roundtrip {T} (parse : string -> option T) (to_string : T -> string) (mk : list T -> ProtoValue) l :
  Forall (fun v => plain_word (to_string v) /\ parse (to_string v) = Some v) l ->
  parsed_array parse (display_array to_string l) mk = Returns (Ok (mk l)).
Proof. intros Hl. unfold parsed_array. by rewrite (array_roundtrip parse to_string l Hl). Qed.

Lemma ints_roundtrip ty l :
  forallb (in_range ty) l = true ->
  Forall (fun z => plain_word (int_to_string z) /\ parse_int ty (int_to_string z) = Some z) l.
Proof.
  intros Hl. apply Forall_forall. intros z Hz. split; [apply int_plain|]. apply parse_int_to_string.
  by apply (proj1 (forallb_forall _ _) Hl), list_elem_of_In.
Qed.

Lemma floats_roundtrip fmt l :
  forallb (printable fmt) l = true ->
  Forall (fun x => plain_word (float_to_string fmt x) /\ parse_float fmt (float_to_string fmt x) = Some x) l.
Proof.
  intros Hl. apply Forall_forall. intros x Hx. apply list_elem_of_In in Hx.
  apply (proj1 (forallb_forall _ _) Hl) in Hx. split; [by apply float_plain|by apply parse_float_to_string].
Qed.

Lemma bools_roundtrip l :
  Forall (fun b => plain_word (bool_to_string b) /\ parse_bool (bool_to_string b) = Some b) l.
Proof. apply Forall_forall. intros b _. split; [apply bool_plain|apply parse_bool_to_string]. Qed.


(** ** What is read has the type of the signal *)

Lemma parse_elements_parsed {T} (parse : string -> option T) inputs l :
  parse_elements parse inputs = Ok l -> Forall (fun v => exists s, parse s = Some v) l.
Proof.
  revert l. induction inputs as [|part inputs IH]; intros l; simpl; [by intros [= <-]|].
  destruct (parse (element_text part)) as [v|] eqn:Ep; [|done].
  destruct (parse_elements parse inputs) as [vs|]; [|done]. intros [= <-]. constructor; [by eexists|by apply IH].
Qed.

Lemma parsed_array_Ok {T} (parse : string -> option T) input (mk : list T -> ProtoValue) pv :
  parsed_array parse input mk = Returns (Ok pv) ->
  exists l, pv = mk l /\ Forall (fun v => exists s, parse s = Some v) l.
Proof.
  unfold parsed_array, get_array_from_input.
  destruct (match strip_prefix "[" input with Some _ => _ | None => _ end) as [raw|]; [|done].
  destruct (regex_new ARRAY_REGEX) as [rx|]; [|done].
  destruct (parse_elements parse _) as [l|] eqn:El; [|done]. intros [= <-]. exists l.
  split; [done|by eapply parse_elements_parsed].
Qed.

Lemma parsed_scalar_Ok {T} (value : option T) (mk : T -> ProtoValue) pv :
  parsed_value value mk = Returns (Ok pv) -> exists v, value = Some v /\ pv = mk v.
Proof. unfold parsed_value. destruct value as [v|]; [|done]. intros [= <-]. by exists v. Qed.

Lemma parsed_ints_range ty l :
  Forall (fun v => exists s, parse_int ty s = Some v) l -> forallb (in_range ty) l = true.
Proof.
  intros Hl. apply forallb_forall. intros z Hz%list_elem_of_In. rewrite Forall_forall in Hl.
  destruct (Hl z Hz) as (s & Hs). by apply in_range_spec, (parse_int_bounds ty s).
Qed.

Lemma in_range_widen ty ty' z :
  int_min ty <= z <= int_max ty -> int_min ty' <= int_min ty -> int_max ty <= int_max ty' -> in_range ty' z = true.
Proof. intros. apply in_range_spec. lia. Qed.

(** The type an array of narrow integers is read as. *)
Definition widened (dt : DataType) : DataType :=
  match dt with
  | DT_Int8Array | DT_Int16Array => DT_Int32Array
  | DT_Uint8Array | DT_Uint16Array => DT_Uint32Array
  | _ => dt
  end.

(** A text that is read for a signal becomes a value that fits its Rust
    type and has the type of the signal, the bounds of the narrow integers
    included; but the elements of an array of narrow integers are only held to
    32 bits, and the word NotAvailable is sent as that text, whatever the type
    is. *)
Theorem cli_value_typed input dt pv :
  try_into_data_value input (data_type_to_proto dt) = Returns (Ok pv) ->
  let v := data_value_from_proto (Some pv) in
  dv_wf v = true /\
  (input = "NotAvailable" /\ v = DV_String "NotAvailable" \/
   input <> "NotAvailable" /\ has_type (widened dt) v).
Proof.
  unfold try_into_data_value. destruct (String.eqb_spec input "NotAvailable") as [->|Hne].
  { intros [= <-]. split; [done|by left]. }
  intros Hp. cbv zeta.
  assert (dv_wf (data_value_from_proto (Some pv)) = true /\ has_type (widened dt) (data_value_from_proto (Some pv)))
    as [Hwf Ht]; [|split; [done|by right]].
  destruct dt; cbn in Hp;
    first [injection Hp as <-
          |apply parsed_scalar_Ok in Hp as (x & Hx & ->); try apply parse_int_bounds in Hx
          |apply parsed_array_Ok in Hp as (l & -> & Hl)];
    (split; [|by constructor]); simpl; try done; try (by apply parsed_ints_range);
    apply (in_range_widen _ _ _ Hx); done.
Qed.
End Values.

(** ** Completion of paths *)

(** The part of the tree at the end of a list of keys. *)
Fixpoint node (keys : list string) (p : PathPart) : option PathPart :=
  match keys with
  | [] => Some p
  | key :: keys => match children p !! key with Some c => node keys c | None => None end
  end.

Lemma node_app k1 k2 p : node (k1 ++ k2) p = match node k1 p with Some q => node k2 q | None => None end.
Proof. revert p. induction k1 as [|k k1 IH]; intros p; simpl; [done|]. by destruct (children p !! k). Qed.

Lemma node_insert keys parts p :
  is_Some (node keys (insert_parts parts p)) <->
  is_Some (node keys p) \/ keys `prefix_of` map string_lower parts.
Proof.
  revert keys p. induction parts as [|part parts IH]; intros keys p; cbn [insert_parts map].
  - split; [by left|]. intros [?|Hp]; [done|]. apply prefix_nil_inv in Hp as ->. by eexists.
  - destruct keys as [|k keys]; [split; [by left|by eexists]|]. cbn [node children].
    destruct (decide (k = string_lower part)) as [->|Hk].
    + rewrite lookup_insert_eq, IH.
      assert (keys `prefix_of` map string_lower parts <->
        string_lower part :: keys `prefix_of` string_lower part :: map string_lower parts) as ->.
      { split; [apply prefix_cons|apply prefix_cons_inv_2]. }
      destruct (children p !! string_lower part) as [c|]; [done|]. split; [|by intros [[? ?]|?]; [done|right]].
      intros [Hn|?]; [|by right]. right. destruct keys as [|k keys]; [apply prefix_cons, prefix_nil|].
      simpl in Hn. by rewrite lookup_empty in Hn; destruct Hn.
    + rewrite lookup_insert_ne by done. split; [by left|]. intros [?|Hp]; [done|].
      by apply prefix_cons_inv_1 in Hp.
Qed.

(** The keys of a path, and the lists of keys that lead to some path. *)
Definition keys_of (path : string) : list string := map string_lower (split_on "."%char path).
Definition leads (paths : list string) (keys : list string) : Prop :=
  exists path, path ∈ paths /\ keys `prefix_of` keys_of path.

Lemma completer_nodes paths keys :
  is_Some (node keys (completer_from paths)) <-> keys = [] \/ leads paths keys.
Proof.
  unfold completer_from, leads.
  assert (forall p, is_Some (node keys (fold_left (fun root path => insert_parts (split_on "."%char path) root) paths p))
    <-> is_Some (node keys p) \/ exists path, path ∈ paths /\ keys `prefix_of` keys_of path) as Hgen.
  { induction paths as [|path paths IH]; intros p; simpl.
    - split; [by left|]. intros [?|(? & ?%not_elem_of_nil & _)]; done.
    - rewrite IH, node_insert. fold (keys_of path). split.
      + intros [[?|?]|(q & ? & ?)]; [by left|right; exists path; split; [by left|done]|right; exists q].
        split; [by right|done].
      + intros [?|(q & [->|Hq]%elem_of_cons & ?)]; [by left; left|by left; right|right; by exists q]. }
  rewrite Hgen. assert (is_Some (node keys PathPart_new) <-> keys = []) as ->; [|done].
  destruct keys as [|k keys]; [split; [done|by eexists]|]. simpl. rewrite lookup_empty.
  split; [by intros [? ?]|done].
Qed.

Lemma string_lower_app s t : string_lower (s +:+ t) = string_lower s +:+ string_lower t.
Proof. induction s as [|c s IH]; [done|]. by apply (f_equal (String (ascii_lower c))). Qed.

Lemma string_lower_empty s : string_lower s = "" -> s = "".
Proof. by destruct s. Qed.

Lemma join_snoc sep l x : join sep (l ++ [x]) = match l with [] => x | _ => join sep l +:+ sep +:+ x end.
Proof. destruct l; [done|]. by rewrite join_app. Qed.

Lemma join_empty l : Forall (fun k => k <> "") l -> join "." l = "" -> l = [].
Proof.
  destruct l as [|k [|k2 l]]; [done| |]; intros [Hk _]%Forall_cons; [done|].
  rewrite join_cons2. by destruct k.
Qed.

(** The parts below the keys [pre] have, in lower case, their keys as their
    full path. *)
Definition named (pre : list string) (p : PathPart) : Prop :=
  forall keys n, node keys p = Some n -> string_lower (full_path n) = join "." (pre ++ keys).

Lemma named_child pre p k c : named pre p -> children p !! k = Some c -> named (pre ++ [k]) c.
Proof.
  intros Hp Hc keys n Hn. rewrite <- app_assoc. apply Hp. simpl. by rewrite Hc.
Qed.

Lemma insert_named parts pre p :
  Forall (fun part => part <> "") parts -> Forall (fun k => k <> "") pre ->
  named pre p -> named pre (insert_parts parts p).
Proof.
  revert pre p. induction parts as [|part parts IH]; intros pre p Hparts Hpre Hp; [done|].
  apply Forall_cons in Hparts as [Hpart Hparts].
  pose proof (Hp [] p eq_refl) as Hroot. rewrite app_nil_r in Hroot.
  intros keys n Hn. cbn [insert_parts] in Hn.
  destruct keys as [|k keys]; [injection Hn as <-; by rewrite app_nil_r|].
  cbn [node children] in Hn. destruct (decide (k = string_lower part)) as [->|Hk].
  - rewrite lookup_insert_eq in Hn.
    change (string_lower part :: keys) with ([string_lower part] ++ keys). rewrite app_assoc.
    revert keys n Hn. apply IH; [done| |].
    + apply Forall_app. split; [done|]. apply Forall_singleton. by intros ?%string_lower_empty.
    + destruct (children p !! string_lower part) as [c|] eqn:Hc; [by eapply named_child|].
      intros [|k keys] n; simpl; [|by rewrite lookup_empty]. intros [= <-]. rewrite app_nil_r, join_snoc. simpl.
      destruct (String.eqb_spec (full_path p) "") as [E|E].
      * rewrite E in Hroot. symmetry in Hroot. by apply join_empty in Hroot as ->.
      * rewrite !string_lower_app, Hroot. destruct pre as [|k0 pre]; [|done].
        exfalso. apply E, string_lower_empty. exact Hroot.
  - rewrite lookup_insert_ne in Hn by done. apply Hp. simpl. exact Hn.
Qed.

Definition nonempty_parts (path : string) : Prop := Forall (fun part => part <> "") (split_on "."%char path).

Lemma completer_named paths : Forall nonempty_parts paths -> named [] (completer_from paths).
Proof.
  unfold completer_from. assert (named [] PathPart_new) as H0.
  { intros [|k keys] n; simpl; [by intros [= <-]|by rewrite lookup_empty]. }
  revert H0. generalize PathPart_new as p. induction paths as [|path paths IH]; intros p Hp Hall; simpl; [done|].
  apply Forall_cons in Hall as [Hpath Hall]. apply IH; [by apply insert_named|done].
Qed.

Section Completion.
Context `{HashOrder}.

Definition offered (c : Completion) (n : PathPart) (key : string) : Prop :=
  exists p, children n !! key = Some p /\ c = part_completion p.

Lemma complete_parts_spec pre rest p n c :
  node pre p = Some n ->
  match rest with [] => True | part :: _ => children n !! part = None end ->
  c ∈ complete_parts (pre ++ rest) p <->
  exists key, match rest with [] => True | part :: _ => starts_with part key = true end /\ offered c n key.
Proof.
  revert p. induction pre as [|k pre IH]; intros p Hn Hrest.
  - injection Hn as ->. destruct rest as [|part rest]; simpl.
    + rewrite list_elem_of_fmap. unfold offered. split.
      * intros ([key q] & -> & Hin). rewrite elem_of_hash_order, elem_of_map_to_list in Hin. eauto.
      * intros (key & _ & q & Hq & ->). exists (key, q). split; [done|].
        by rewrite elem_of_hash_order, elem_of_map_to_list.
    + rewrite Hrest, list_elem_of_omap. unfold offered. split.
      * intros ([key q] & Hin & Hc). rewrite elem_of_hash_order, elem_of_map_to_list in Hin.
        destruct (starts_with part key) eqn:E; [|done]. injection Hc as <-. eauto.
      * intros (key & Hs & q & Hq & ->). exists (key, q).
        rewrite elem_of_hash_order, elem_of_map_to_list. split; [done|]. by rewrite Hs.
  - simpl in Hn |- *. destruct (children p !! k) as [q|]; [|done]. by apply IH.
Qed.

Lemma lower_split word : split_on "."%char (string_lower word) = keys_of word.
Proof.
  unfold keys_of. induction word as [|c word IH]; [done|]. cbn [string_lower split_on].
  assert (Ascii.eqb (ascii_lower c) "."%char = Ascii.eqb c "."%char) as ->.
  { destruct c as [b0 b1 b2 b3 b4 b5 b6 b7]. by destruct b0, b1, b2, b3, b4, b5, b6, b7. }
  rewrite IH. destruct (Ascii.eqb c "."%char); [done|]. by destruct (split_on "."%char word).
Qed.

(** What is offered for the keys of a path: the path so far, with a dot when
    there is more below it. *)
Definition completion_text (paths : list string) (keys : list string) (text : string) : Prop :=
  (exists k, leads paths (keys ++ [k])) /\ text = join "." keys +:+ "." \/
  (forall k, ~ leads paths (keys ++ [k])) /\ text = join "." keys.

Lemma part_completion_text paths keys p :
  Forall nonempty_parts paths -> keys <> [] -> node keys (completer_from paths) = Some p ->
  completion_text paths keys (string_lower (completion (part_completion p))).
Proof.
  intros Hall Hne Hp. pose proof (completer_named paths Hall keys p Hp) as Hname. simpl in Hname.
  assert (forall k, is_Some (children p !! k) <-> leads paths (keys ++ [k])) as Hch.
  { intros k. assert (is_Some (children p !! k) <-> is_Some (node (keys ++ [k]) (completer_from paths))) as ->.
    { rewrite node_app, Hp. simpl. by destruct (children p !! k). }
    rewrite completer_nodes. split; [|by right]. intros [E|?]; [|done]. by destruct keys. }
  unfold part_completion, completion_text. case_bool_decide as He; simpl; [right|left].
  - split; [|done]. intros k Hk%Hch. rewrite He, lookup_empty in Hk. by destruct Hk.
  - apply map_choose in He as (k & c & Hk). split; [exists k; apply Hch; by eexists|].
    by rewrite string_lower_app, Hname.
Qed.

(** Completion of a path: let [pre] be the components typed that lead to
    registered paths, as far as they do, ignoring case.  If the whole word is
    matched so, the next components of those paths are offered; otherwise those
    that start with the first component that is not.  Exactly these are
    offered, each as the path up to it, with a dot when paths go on from
    there. *)
Theorem completion_spec paths word pre rest res :
  Forall nonempty_parts paths -> keys_of word = pre ++ rest ->
  pre = [] \/ leads paths pre ->
  match rest with [] => True | part :: _ => ~ leads paths (pre ++ [part]) end ->
  complete_entry_path (completer_from paths) word = Some res ->
  forall text, (exists c, c ∈ res /\ string_lower (completion c) = text) <->
    exists key, leads paths (pre ++ [key]) /\
      match rest with [] => True | part :: _ => starts_with part key = true end /\
      completion_text paths (pre ++ [key]) text.
Proof.
  intros Hall Hword Hpre Hrest Hres text. unfold complete_entry_path in Hres.
  case_bool_decide; [done|]. injection Hres as <-.
  assert (is_Some (node pre (completer_from paths))) as [n Hn] by by apply completer_nodes.
  assert (forall k, is_Some (children n !! k) <-> leads paths (pre ++ [k])) as Hch.
  { intros k. assert (is_Some (children n !! k) <-> is_Some (node (pre ++ [k]) (completer_from paths))) as ->.
    { rewrite node_app, Hn. simpl. by destruct (children n !! k). }
    rewrite completer_nodes. split; [|by right]. intros [E|?]; [|done]. by destruct pre. }
  assert (forall key p, children n !! key = Some p -> node (pre ++ [key]) (completer_from paths) = Some p) as Hnode.
  { intros key p Hp. rewrite node_app, Hn. simpl. by rewrite Hp. }
  assert (match rest with [] => True | part :: _ => children n !! part = None end) as Hrest'.
  { destruct rest as [|part rest]; [done|]. rewrite eq_None_not_Some. by rewrite Hch. }
  setoid_rewrite merge_sort_Permutation. rewrite lower_split, Hword.
  setoid_rewrite (complete_parts_spec pre rest _ n _ Hn Hrest'). unfold offered. split.
  - intros (c & (key & Hs & p & Hp & ->) & <-). exists key. split_and!; [apply Hch; by eexists|done|].
    apply part_completion_text; [done|by destruct pre|by apply Hnode].
  - intros (key & [p Hp]%Hch & Hs & Htext). exists (part_completion p). split; [by exists key; eauto|].
    pose proof (part_completion_text paths (pre ++ [key]) p Hall ltac:(by destruct pre) (Hnode _ _ Hp)) as Ht.
    unfold completion_text in *. destruct Htext as [[[k Hk] ->]|[Hno ->]], Ht as [[[k' Hk'] Et]|[Hno' Et]]; try done.
    + by destruct (Hno' k).
    + by destruct (Hno k').
Qed.
End Completion.

(** Exact matches hide longer names: when a component typed in full is also the
    start of another, the other is not offered. *)
Example completion_hides_longer :
  complete_entry_path (completer_from ["Vehicle.Speed"; "Vehicle.SpeedLimit"]) "Vehicle.Spee" =
    Some [{| completion := "Vehicle.Speed"; display := Some "Speed"; suffix := SX_Default |};
          {| completion := "Vehicle.SpeedLimit"; display := Some "SpeedLimit"; suffix := SX_Default |}] /\
  complete_entry_path (completer_from ["Vehicle.Speed"; "Vehicle.SpeedLimit"]) "Vehicle.Speed" = Some [].
Proof. split; vm_compute; reflexivity. Qed.

(** ** The two clients *)

Section TwoClients.
Context `{RegexSearch}.

(** The value the broker makes of what was read. *)
Definition as_value {V} (to_value : option V -> DataValue) (r : outcome (result V ParseErrorT))
  : outcome (result DataValue ParseErrorT) :=
  match r with Returns r => Returns (result_map (fun v => to_value (Some v)) r) | Panics => Panics end.

(** The two clients, with the same code written twice, read the same texts
    for a signal of any type as the same values, and refuse the same, except
    that only the client of sdv.databroker.v1 can say that a value is not
    available. *)
Theorem clients_read_alike dt input :
  as_value data_value_from_sdv (sdv_try_into_data_value input (data_type_to_sdv dt)) =
  if String.eqb input "NotAvailable" then Returns (Ok DV_NotAvailable)
  else as_value data_value_from_proto (try_into_data_value input (data_type_to_proto dt)).
Proof.
  unfold sdv_try_into_data_value, try_into_data_value. destruct (String.eqb input "NotAvailable"); [done|].
  destruct dt; simpl; unfold as_value, parsed_value, parsed_array; try done;
    try match goal with |- context [get_array_from_input ?p input] => by destruct (get_array_from_input p input) as [[]|] end;
    match goal with |- context [match ?o with Some _ => _ | None => _ end] => by destruct o end.
Qed.
End TwoClients.

Section Token.
Context `{RegexSearch} `{Remote} `{HashOrder} `{AnsiTerm} `{!CliEnv}.

(** In the client of kuksa.val.v1 a new token empties the completion of paths:
    the metadata of no path is fetched, where the other client fetches that of
    all. *)
Theorem token_clears_completion args (s : State) client :
  args <> "" -> set_access_token (kc_client (fst s)) args = (Ok tt, client) ->
  forall word, complete_entry_path (kc_completer (fst (snd (cmd_token args s)))) word = None.
Proof.
  intros Hargs Ht word. unfold cmd_token. destruct (String.eqb_spec args "") as [|_]; [done|].
  destruct s as [cli net]. simpl in Ht. unfold use_token. rewrite Ht. reflexivity.
Qed.
End Token.

(** ** Witnesses *)

Section Witnesses.

(** An engine that knows the expression of the elements of an array. *)
Definition array_engine : RegexEngine :=
  table_engine [(ARRAY_REGEX, {| mt_match := fun _ => true; mt_groups := fun _ _ => None |})].
#[local] Existing Instance array_engine.

#[local] Instance array_search : RegexSearch :=
  {| regex_captures_iter := fun _ s => map String.string_of_list_ascii (find_iter (length (bytes s)) array_re (bytes s)) |}.

Lemma array_search_laws : SearchLaws.
Proof. constructor. eexists. split; [reflexivity|]. intros s _. reflexivity. Qed.


Lemma cli_value_typed_witness :
  dv_wf (DV_Int32Array [300]) = true /\ has_type DT_Int32Array (DV_Int32Array [300]) /\
  try_into_data_value "[300]" PDT_Int8Array = Returns (Ok (PV_Int32Array [300])) /\
  try_into_data_value "300" PDT_Int8 = Returns (Err ParseErr).
Proof.
  assert (try_into_data_value "[300]" PDT_Int8Array = Returns (Ok (PV_Int32Array [300]))) as Hr
    by (vm_compute; reflexivity).
  destruct (cli_value_typed "[300]" DT_Int8Array (PV_Int32Array [300]) Hr) as [Hwf [[Hn _]|[_ Ht]]];
    [discriminate Hn|].
  split_and!; [exact Hwf|exact Ht|exact Hr|reflexivity].
Defined.

Lemma completion_spec_witness :
  exists c, c ∈ default [] (complete_entry_path (completer_from ["Vehicle.Speed"; "Vehicle.Cabin.Temp"]) "vehicle.c") /\
    string_lower (completion c) = "vehicle.cabin.".
Proof.
  set (paths := ["Vehicle.Speed"; "Vehicle.Cabin.Temp"]).
  destruct (complete_entry_path (completer_from paths) "vehicle.c") as [res|] eqn:Er; [|vm_compute in Er; discriminate].
  refine (proj2 (completion_spec paths "vehicle.c" ["vehicle"] ["c"] res _ eq_refl _ _ Er "vehicle.cabin.") _).
  - repeat constructor; discriminate.
  - right. exists "Vehicle.Speed". split; [left|]. by exists ["speed"].
  - intros (path & Hp & [l Hl]). unfold paths in Hp.
    apply elem_of_cons in Hp as [->|Hp]; [discriminate Hl|]. apply list_elem_of_singleton in Hp as ->. discriminate Hl.
  - assert (leads paths ["vehicle"; "cabin"; "temp"]) as Ht.
    { exists "Vehicle.Cabin.Temp". split; [right; left|]. by exists []. }
    exists "cabin". split_and!; [|reflexivity|].
    + destruct Ht as (path & Hp & [l Hl]). exists path. split; [exact Hp|]. by exists ("temp" :: l).
    + left. split; [|reflexivity]. exists "temp". exact Ht.
Defined.
End Witnesses.
