(* ===== verification/CliTests.v ===== *)
(** * CliTests: the test suites of kuksa_cli.rs and sdv_cli.rs

    The tests of src/kuksa_databroker/databroker-cli/src/kuksa_cli.rs and
    sdv_cli.rs on the model. *)

From S2P Require Import Prelude Floats Types Regex Search Glob Entry ProtoVal ProtoSdv Client Cli KuksaCli SdvCli CliSpec.

#[local] Existing Instance array_engine.
#[local] Existing Instance array_search.
#[local] Existing Instance z_timestamps.

(** [matches!(r, Ok(value) if ...)], [r.is_err()]. *)
Definition gives {A} `{EqDecision A} (r : outcome (result A ParseErrorT)) (value : A) : bool :=
  match r with Returns (Ok x) => bool_decide (x = value) | _ => false end.
Definition fails {A} (r : outcome (result A ParseErrorT)) : bool :=
  match r with Returns (Err _) => true | _ => false end.

#[local] Instance ProtoValue_eq_dec : EqDecision ProtoValue.
Proof. solve_decision. Defined.
#[local] Instance SdvValue_eq_dec : EqDecision SdvValue.
Proof. solve_decision. Defined.

(** ** Values *)

Definition test_parse_values : bool :=
  gives (try_into_data_value "test" PDT_String) (PV_String "test")
  && gives (try_into_data_value "[test, test2, test4]" PDT_StringArray) (PV_StringArray ["test"; "test2"; "test4"])
  && gives (try_into_data_value "true" PDT_Boolean) (PV_Bool true)
  && gives (try_into_data_value "false" PDT_Boolean) (PV_Bool false)
  && fails (try_into_data_value "truefalse" PDT_Boolean)
  && gives (try_into_data_value "[true, false, true]" PDT_BooleanArray) (PV_BoolArray [true; false; true])
  && gives (try_into_data_value "100" PDT_Int8) (PV_Int32 100)
  && gives (try_into_data_value "-100" PDT_Int8) (PV_Int32 (-100))
  && fails (try_into_data_value "300" PDT_Int8)
  && fails (try_into_data_value "-300" PDT_Int8)
  && fails (try_into_data_value "-100.1" PDT_Int8)
  && gives (try_into_data_value "100" PDT_Int16) (PV_Int32 100)
  && gives (try_into_data_value "-100" PDT_Int16) (PV_Int32 (-100))
  && gives (try_into_data_value "32000" PDT_Int16) (PV_Int32 32000)
  && gives (try_into_data_value "-32000" PDT_Int16) (PV_Int32 (-32000))
  && fails (try_into_data_value "33000" PDT_Int16)
  && fails (try_into_data_value "-33000" PDT_Int16)
  && fails (try_into_data_value "-32000.1" PDT_Int16).

Definition sdv_test_parse_values : bool :=
  gives (sdv_try_into_data_value "test" SDT_String) (SV_String "test")
  && gives (sdv_try_into_data_value "[test, test2, test4]" SDT_StringArray) (SV_StringArray ["test"; "test2"; "test4"])
  && gives (sdv_try_into_data_value "true" SDT_Bool) (SV_Bool true)
  && gives (sdv_try_into_data_value "false" SDT_Bool) (SV_Bool false)
  && fails (sdv_try_into_data_value "truefalse" SDT_Bool)
  && gives (sdv_try_into_data_value "[true, false, true]" SDT_BoolArray) (SV_BoolArray [true; false; true])
  && gives (sdv_try_into_data_value "100" SDT_Int8) (SV_Int32 100)
  && gives (sdv_try_into_data_value "-100" SDT_Int8) (SV_Int32 (-100))
  && fails (sdv_try_into_data_value "300" SDT_Int8)
  && fails (sdv_try_into_data_value "-300" SDT_Int8)
  && fails (sdv_try_into_data_value "-100.1" SDT_Int8)
  && gives (sdv_try_into_data_value "100" SDT_Int16) (SV_Int32 100)
  && gives (sdv_try_into_data_value "-100" SDT_Int16) (SV_Int32 (-100))
  && gives (sdv_try_into_data_value "32000" SDT_Int16) (SV_Int32 32000)
  && gives (sdv_try_into_data_value "-32000" SDT_Int16) (SV_Int32 (-32000))
  && fails (sdv_try_into_data_value "33000" SDT_Int16)
  && fails (sdv_try_into_data_value "-33000" SDT_Int16)
  && fails (sdv_try_into_data_value "-32000.1" SDT_Int16).

(** ** Completion *)

(** The displays of the completions of a word. *)
Definition displays (completions : option (list Completion)) : option (list string) :=
  option_map (map completion_display) completions.

Definition completes (complete : string -> option (list Completion)) : bool :=
  bool_decide (displays (complete "") = Some ["Vehicle."])
  && bool_decide (displays (complete "v") = Some ["Vehicle."])
  && bool_decide (displays (complete "vehicle.") = Some ["AnotherTest."; "Test."])
  && bool_decide (displays (complete "vehicle") = Some ["AnotherTest."; "Test."]).

(** The number of children of the root, and of [Vehicle]. *)
Definition two_levels (root : PathPart) : bool :=
  bool_decide (size (children root) = 1%nat)
  && match children root !! "vehicle" with Some p => bool_decide (size (children p) = 2%nat) | None => false end.

Definition test_entry (name : string) : DataEntry :=
  {| de_path := name; de_value := None; de_actuator_target := None;
     de_metadata := Some {| pm_data_type := proto_data_type_i32 PDT_Boolean; pm_entry_type := proto_entry_type_i32 PET_Sensor;
                            pm_comment := None; pm_deprecation := None; pm_unit := None; pm_description := Some "" |} |}.

Definition test_entry_path_completion : bool :=
  let completer := from_metadata
    [test_entry "Vehicle.Test.Test1"; test_entry "Vehicle.AnotherTest.AnotherTest1";
     test_entry "Vehicle.AnotherTest.AnotherTest2"] in
  two_levels completer && completes (complete_entry_path completer).

Definition sdv_test_metadata (i : Z) (name : string) : SdvMetadata :=
  {| sm_id := i; sm_name := name; sm_data_type := sdv_data_type_i32 SDT_Bool;
     sm_entry_type := sdv_entry_type_i32 SET_Sensor; sm_change_type := sdv_change_type_i32 SCT_OnChange;
     sm_description := "" |}.

Definition sdv_test_entry_path_completion : bool :=
  let completer := sdv_from_metadata
    [sdv_test_metadata 1 "Vehicle.Test.Test1"; sdv_test_metadata 2 "Vehicle.AnotherTest.AnotherTest1";
     sdv_test_metadata 3 "Vehicle.AnotherTest.AnotherTest2"] in
  two_levels completer && completes (sdv_complete_entry_path completer).

(** [format!] with the widths of the tables of metadata; both clients have it. *)
Definition test_alignment : bool :=
  let max := 7%nat in
  String.eqb "hej     1    4" (pad_right max "hej" +:+ " " +:+ pad_right 4 "1" +:+ " " +:+ "4").

Definition cli_tests : list bool := [
  test_parse_values; sdv_test_parse_values; test_entry_path_completion; sdv_test_entry_path_completion; test_alignment
].

Theorem cli_tests_pass : forallb Datatypes.id cli_tests = true.
Proof. vm_compute. reflexivity. Qed.
