(* ===== verification/ProtoText.v ===== *)
(** * ProtoText: values and types of kuksa.val.v1 read from text

    What src/kuksa_databroker/databroker-proto/src/lib.rs adds by hand to the
    generated messages: [DataType::from_str] and [Value::new], with the errors
    of the standard library's parsers that they pass on.  [Value::new] is
    compared with the reading of values of the command line client. *)

From S2P Require Import Prelude Floats Types Regex Search Display Glob Auth Entry ProtoVal KuksaVal Client Cli KuksaCli CliSpec.

(** ** The errors of [str::parse] *)

(** The loop of [from_str_radix] over the digits after the sign: a character
    that is no digit, or the first step that leaves the type. *)
Fixpoint digits_error (ty : IntTy) (sign acc : Z) (s : string) : option string :=
  match s with
  | EmptyString => None
  | String c s =>
      match digit_of c with
      | None => Some "invalid digit found in string"
      | Some d =>
          let acc := acc * 10 + sign * d in
          if int_max ty <? acc then Some "number too large to fit in target type"
          else if acc <? int_min ty then Some "number too small to fit in target type"
          else digits_error ty sign acc s
      end
  end.

(** [ParseIntError::to_string], for a text that is not parsed. *)
Definition int_error (ty : IntTy) (s : string) : option string :=
  match s with
  | EmptyString => Some "cannot parse integer from empty string"
  | String c rest =>
      if is_char "+"%char c || is_char "-"%char c && (int_min ty <? 0) then
        match rest with
        | EmptyString => Some "invalid digit found in string"
        | _ => digits_error ty (if is_char "-"%char c then -1 else 1) 0 rest
        end
      else digits_error ty 1 0 s
  end.

(** [ParseBoolError::to_string] and [ParseFloatError::to_string]. *)
Definition bool_error : string := "provided string was not `true` or `false`".
Definition float_error (s : string) : string :=
  match s with
  | EmptyString => "cannot parse float from empty string"
  | _ => "invalid float literal"
  end.

(** ** lib.rs *)

(** [ParsingError], [ParsingError::new] and its [Display]. *)
Record ParsingError := ParsingError_new { parsing_message : string }.
Definition parsing_error_to_string (self : ParsingError) : string := parsing_message self.

(** [DataType::from_str]. *)
Definition data_type_from_str (s : string) : result ProtoDataType ParsingError :=
  let t := string_lower s in
  if String.eqb t "string" then Ok PDT_String
  else if String.eqb t "string[]" then Ok PDT_StringArray
  else if String.eqb t "bool" then Ok PDT_Boolean
  else if String.eqb t "bool[]" then Ok PDT_BooleanArray
  else if String.eqb t "int8" then Ok PDT_Int8
  else if String.eqb t "int8[]" then Ok PDT_Int8Array
  else if String.eqb t "int16" then Ok PDT_Int16
  else if String.eqb t "int16[]" then Ok PDT_Int16Array
  else if String.eqb t "int32" then Ok PDT_Int32
  else if String.eqb t "int32[]" then Ok PDT_Int32Array
  else if String.eqb t "int64" then Ok PDT_Int64
  else if String.eqb t "int64[]" then Ok PDT_Int64Array
  else if String.eqb t "uint8" then Ok PDT_Uint8
  else if String.eqb t "uint8[]" then Ok PDT_Uint8Array
  else if String.eqb t "uint16" then Ok PDT_Uint16
  else if String.eqb t "uint16[]" then Ok PDT_Uint16Array
  else if String.eqb t "uint32" then Ok PDT_Uint32
  else if String.eqb t "uint32[]" then Ok PDT_Uint32Array
  else if String.eqb t "uint64" then Ok PDT_Uint64
  else if String.eqb t "uint64[]" then Ok PDT_Uint64Array
  else if String.eqb t "float" then Ok PDT_Float
  else if String.eqb t "float[]" then Ok PDT_FloatArray
  else if String.eqb t "double" then Ok PDT_Double
  else if String.eqb t "double[]" then Ok PDT_DoubleArray
  else Err (ParsingError_new ("unsupported data type '" +:+ s +:+ "'")).

(** [value.parse().map(mk).map_err(|e| ParsingError::new(e.to_string()))]. *)
Definition parse_as {T} (parsed : option T) (mk : T -> ProtoValue) (error : string)
  : result ProtoValue ParsingError :=
  match parsed with
  | Some v => Ok (mk v)
  | None => Err (ParsingError_new error)
  end.
Definition parse_int_as (ty : IntTy) (value : string) (mk : Z -> ProtoValue) : result ProtoValue ParsingError :=
  parse_as (parse_int ty value) mk (default "" (int_error ty value)).

Section Value.
(** The debug text of the [TypeId] of [DataType], which the compiler chooses. *)
Variable type_id : string.

(** [Value::new]. *)
Definition Value_new (dt : ProtoDataType) (value : string) : result ProtoValue ParsingError :=
  match dt with
  | PDT_String => Ok (PV_String value)
  | PDT_Boolean => parse_as (parse_bool value) PV_Bool bool_error
  | PDT_Int8 => parse_int_as i8 value PV_Int32
  | PDT_Int16 => parse_int_as i16 value PV_Int32
  | PDT_Int32 => parse_int_as i32 value PV_Int32
  | PDT_Int64 => parse_int_as i64 value PV_Int64
  | PDT_Uint8 => parse_int_as u8 value PV_Uint32
  | PDT_Uint16 => parse_int_as u16 value PV_Uint32
  | PDT_Uint32 => parse_int_as u32 value PV_Uint32
  | PDT_Uint64 => parse_int_as u64 value PV_Uint64
  | PDT_Float => parse_as (parse_float f32 value) PV_Float (float_error value)
  | PDT_Double => parse_as (parse_float f64 value) PV_Double (float_error value)
  | _ => Err (ParsingError_new
           ("data type '" +:+ type_id +:+ "' not supported for parsing string into typed value"))
  end.
End Value.

(** ** Integers: an error is reported exactly when there is no value *)

Lemma digit_range c d : digit_of c = Some d -> 0 <= d <= 9.
Proof.
  unfold digit_of. destruct (_ && _) eqn:E; [|done]. apply andb_true_iff in E as [? ?].
  intros [= <-]. lia.
Qed.

Lemma digits_value_ge acc s n : 0 <= acc -> digits_value acc s = Some n -> acc <= n.
Proof.
  revert acc. induction s as [|c s IH]; intros acc Ha; cbn [digits_value]; [intros [= <-]; lia|].
  destruct (digit_of c) as [d|] eqn:Ed; [|done]. apply digit_range in Ed. intros Hn%IH; lia.
Qed.

(** The loop leaves the type at some step exactly when the number does. *)
Lemma digits_error_spec ty sign acc s :
  int_min ty <= 0 <= int_max ty -> sign = 1 \/ sign = -1 -> 0 <= acc -> in_range ty (sign * acc) = true ->
  digits_error ty sign (sign * acc) s = None <->
  exists n, digits_value acc s = Some n /\ in_range ty (sign * n) = true.
Proof.
  intros Hty Hsign. revert acc. induction s as [|c s IH]; intros acc Ha Hr; cbn [digits_error digits_value].
  - split; [intros _; by exists acc|done].
  - destruct (digit_of c) as [d|] eqn:Ed; [|split; [done|by intros (n & ? & _)]].
    apply digit_range in Ed. replace (sign * acc * 10 + sign * d) with (sign * (acc * 10 + d)) by ring.
    destruct (in_range ty (sign * (acc * 10 + d))) eqn:Er.
    + pose proof (proj1 (in_range_spec _ _) Er).
      rewrite (proj2 (Z.ltb_ge _ _)), (proj2 (Z.ltb_ge _ _)) by lia. apply IH; [lia|done].
    + split.
      * destruct (Z.ltb_spec (int_max ty) (sign * (acc * 10 + d))); [done|].
        destruct (Z.ltb_spec (sign * (acc * 10 + d)) (int_min ty)); [done|]. intros _.
        assert (in_range ty (sign * (acc * 10 + d)) = true) by (apply in_range_spec; lia). congruence.
      * intros (n & Hn%digits_value_ge & Hin%in_range_spec); [|lia]. exfalso.
        assert (in_range ty (sign * (acc * 10 + d)) = true); [|congruence].
        apply in_range_spec. destruct Hsign as [-> | ->]; lia.
Qed.

Lemma digits_finish ty sign s :
  int_min ty <= 0 <= int_max ty -> sign = 1 \/ sign = -1 ->
  digits_error ty sign 0 s = None <->
  match digits_value 0 s with Some n => in_range ty (sign * n) = true | None => False end.
Proof.
  intros Hty Hsign. replace 0 with (sign * 0) at 1 by ring. rewrite digits_error_spec; [|done..|].
  - destruct (digits_value 0 s) as [n|]; [|split; [by intros (n & ? & _)|done]].
    split; [by intros (m & [= <-] & Hm)|by exists n].
  - apply in_range_spec. lia.
Qed.

(** Reading an integer fails exactly when there is an error to report: the
    bounds of the type that the value is checked against and those that the
    steps of the loop are checked against agree. *)
Theorem int_error_spec ty s :
  int_min ty <= 0 <= int_max ty -> parse_int ty s = None <-> is_Some (int_error ty s).
Proof.
  intros Hty.
  assert (forall sign t, sign = 1 \/ sign = -1 ->
    (match digits_value 0 t with
     | Some n => if in_range ty (sign * n) then Some (sign * n) else None
     | None => None
     end = None <-> is_Some (digits_error ty sign 0 t))) as Hdigits.
  { intros sign t Hsign. pose proof (digits_finish ty sign t Hty Hsign) as Hf.
    destruct (digits_value 0 t) as [n|]; [destruct (in_range ty (sign * n))|];
      destruct (digits_error ty sign 0 t) as [e|]; split; try done; try (by intros [e' ?]).
    - by intros _; specialize (proj2 Hf eq_refl).
    - by specialize (proj1 Hf eq_refl).
    - by intros _; specialize (proj1 Hf eq_refl). }
  destruct s as [|c rest]; [by split; [intros _; eexists|]|].
  unfold parse_int, int_error, is_char. destruct (Ascii.eqb_spec c "+"%char) as [->|Hp].
  - destruct rest as [|c' rest]; [by split; [intros _; eexists|]|]. apply (Hdigits 1 _ (or_introl eq_refl)).
  - destruct (Ascii.eqb_spec c "-"%char) as [->|Hm]; simpl orb.
    + destruct (int_min ty <? 0) eqn:Eneg; simpl andb.
      * destruct rest as [|c' rest]; [by split; [intros _; eexists|]|]. apply (Hdigits (-1) _ (or_intror eq_refl)).
      * split; [intros _; by eexists|done].
    + apply (Hdigits 1 _ (or_introl eq_refl)).
Qed.

(** ** Types and their names *)

(** The name of a type in VSS; none for those that have no values here. *)
Definition vss_name (t : ProtoDataType) : option string :=
  match t with
  | PDT_String => Some "string" | PDT_StringArray => Some "string[]"
  | PDT_Boolean => Some "bool" | PDT_BooleanArray => Some "bool[]"
  | PDT_Int8 => Some "int8" | PDT_Int8Array => Some "int8[]"
  | PDT_Int16 => Some "int16" | PDT_Int16Array => Some "int16[]"
  | PDT_Int32 => Some "int32" | PDT_Int32Array => Some "int32[]"
  | PDT_Int64 => Some "int64" | PDT_Int64Array => Some "int64[]"
  | PDT_Uint8 => Some "uint8" | PDT_Uint8Array => Some "uint8[]"
  | PDT_Uint16 => Some "uint16" | PDT_Uint16Array => Some "uint16[]"
  | PDT_Uint32 => Some "uint32" | PDT_Uint32Array => Some "uint32[]"
  | PDT_Uint64 => Some "uint64" | PDT_Uint64Array => Some "uint64[]"
  | PDT_Float => Some "float" | PDT_FloatArray => Some "float[]"
  | PDT_Double => Some "double" | PDT_DoubleArray => Some "double[]"
  | PDT_Unspecified | PDT_Timestamp | PDT_TimestampArray => None
  end.

(** [from_str] reads the name of a type, in any case, and nothing else. *)
Theorem data_type_from_str_spec s t :
  data_type_from_str s = Ok t <-> vss_name t = Some (string_lower s).
Proof.
  unfold data_type_from_str. split.
  - repeat case_match; intros [= <-]; simpl; by f_equal; symmetry; apply String.eqb_eq.
  - destruct t; simpl; intros [= <-]; reflexivity.
Qed.

(** ** Values *)

(** The types of single values. *)
Definition single (t : ProtoDataType) : bool :=
  match t with
  | PDT_StringArray | PDT_BooleanArray | PDT_Int8Array | PDT_Int16Array | PDT_Int32Array | PDT_Int64Array
  | PDT_Uint8Array | PDT_Uint16Array | PDT_Uint32Array | PDT_Uint64Array | PDT_FloatArray | PDT_DoubleArray
  | PDT_TimestampArray => false
  | _ => true
  end.

Lemma parse_as_parsed {T} (value : option T) (mk : T -> ProtoValue) error :
  Returns (map_err (fun _ => ParseErr) (parse_as value mk error)) = parsed_value value mk.
Proof. by destruct value. Qed.

(** [Value::new] reads a single value as the command line client does; the
    word NotAvailable means something to the client only. *)
Theorem value_new_as_cli `{RegexSearch} type_id dt s :
  s <> "NotAvailable" -> single dt = true ->
  Returns (map_err (fun _ => ParseErr) (Value_new type_id dt s)) = try_into_data_value s dt.
Proof.
  intros Hs Hdt. unfold try_into_data_value. rewrite (proj2 (String.eqb_neq _ _) Hs).
  destruct dt; try done; apply parse_as_parsed.
Qed.

(** What [Value::new] reads for the type of a signal is a value of that type,
    within the bounds of the narrow integers, for the broker that gets it. *)
Theorem value_new_typed type_id dt s pv :
  Value_new type_id (data_type_to_proto dt) s = Ok pv ->
  dv_wf (data_value_from_proto (Some pv)) = true /\ has_type dt (data_value_from_proto (Some pv)).
Proof.
  destruct dt; simpl; try done; unfold parse_int_as, parse_as;
    (try destruct (parse_int _ _) as [z|] eqn:Ez; try apply parse_int_bounds in Ez);
    (try case_match); intros [= <-]; simpl;
    (split; [try done; apply (in_range_widen _ _ _ Ez); done|by constructor]).
Qed.

(** A text for an integer type is refused with the message of the standard
    library, or is the integer it denotes. *)
Theorem value_new_refuses type_id dt ty mk s :
  In (dt, ty, mk)
    [(PDT_Int8, i8, PV_Int32); (PDT_Int16, i16, PV_Int32); (PDT_Int32, i32, PV_Int32); (PDT_Int64, i64, PV_Int64);
     (PDT_Uint8, u8, PV_Uint32); (PDT_Uint16, u16, PV_Uint32); (PDT_Uint32, u32, PV_Uint32);
     (PDT_Uint64, u64, PV_Uint64)] ->
  match int_error ty s with
  | Some message => Value_new type_id dt s = Err (ParsingError_new message)
  | None => exists z, parse_int ty s = Some z /\ Value_new type_id dt s = Ok (mk z)
  end.
Proof.
  intros Hin.
  assert (int_min ty <= 0 <= int_max ty /\ Value_new type_id dt s = parse_int_as ty s mk) as [Hty ->].
  { repeat destruct Hin as [[= <- <- <-]|Hin]; [split; [simpl; lia|done]..|done]. }
  pose proof (int_error_spec ty s Hty) as Hspec. unfold parse_int_as.
  destruct (parse_int ty s) as [z|]; destruct (int_error ty s) as [m|]; simpl.
  - by specialize (proj2 Hspec (mk_is_Some _ _ eq_refl)).
  - by exists z.
  - done.
  - by destruct (proj1 Hspec eq_refl).
Qed.
