(* ===== verification/FeatureTests.v ===== *)
(** * FeatureTests: the acceptance tests of the broker

    The Cucumber suite of src/kuksa_databroker/databroker/tests on the model: the
    world of a scenario (world/mod.rs), the step functions (read_write_values.rs)
    and the scenarios themselves, text for text
    (features/read_write_values.feature).  A scenario starts a broker, opens a
    client of LIB/kuksa on it and runs against the network of [ClientServer], so
    that client, interceptor, token, service and database all take part.  The
    crate [cucumber] is its documented behaviour: the step function that matches
    the text is called with the words at its placeholders, an outline stands for
    one scenario per row of its examples. *)

From S2P Require Import Prelude Floats Types Regex Search Display Glob Permissions Auth Entry Database Query Broker.
From S2P Require Import ProtoVal KuksaVal ProtoSdv Sdv Client ClientSpec ClientServer Cli KuksaCli ProtoText.

(** ** Equality of values: the derived [PartialEq] *)

Fixpoint list_eqb {A} (eqb : A -> A -> bool) (l k : list A) : bool :=
  match l, k with
  | [], [] => true
  | a :: l, b :: k => eqb a b && list_eqb eqb l k
  | _, _ => false
  end.

Definition proto_value_eqb (v w : ProtoValue) : bool :=
  match v, w with
  | PV_String s, PV_String t => String.eqb s t
  | PV_Bool b, PV_Bool c => Bool.eqb b c
  | PV_Int32 x, PV_Int32 y | PV_Int64 x, PV_Int64 y | PV_Uint32 x, PV_Uint32 y | PV_Uint64 x, PV_Uint64 y => x =? y
  | PV_Float x, PV_Float y | PV_Double x, PV_Double y => f_eq x y
  | PV_StringArray l, PV_StringArray k => list_eqb String.eqb l k
  | PV_BoolArray l, PV_BoolArray k => list_eqb Bool.eqb l k
  | PV_Int32Array l, PV_Int32Array k | PV_Int64Array l, PV_Int64Array k
  | PV_Uint32Array l, PV_Uint32Array k | PV_Uint64Array l, PV_Uint64Array k => list_eqb Z.eqb l k
  | PV_FloatArray l, PV_FloatArray k | PV_DoubleArray l, PV_DoubleArray k => list_eqb f_eq l k
  | _, _ => false
  end.

(** ** world/mod.rs *)

Inductive ValueType := VT_Current | VT_Target.

(** [ValueType::from_str]. *)
Definition value_type_from_str (s : string) : result ValueType string :=
  let t := string_lower s in
  if String.eqb t "current" then Ok VT_Current
  else if String.eqb t "target" then Ok VT_Target
  else Err ("Invalid `ValueType`: " +:+ t).

#[local] Instance status_code_eq_dec : EqDecision StatusCode.
Proof. solve_decision. Defined.
#[local] Instance proto_data_type_eq_dec : EqDecision ProtoDataType.
Proof. solve_decision. Defined.

(** [Code::from_i32]: the numbers of gRPC. *)
Definition code_from_i32 (i : Z) : StatusCode :=
  nth (Z.to_nat (if i <? 0 then 2 else i))
    [SC_Ok; SC_Cancelled; SC_Unknown; SC_InvalidArgument; SC_DeadlineExceeded; SC_NotFound; SC_AlreadyExists;
     SC_PermissionDenied; SC_ResourceExhausted; SC_FailedPrecondition; SC_Aborted; SC_OutOfRange;
     SC_Unimplemented; SC_Internal; SC_Unavailable; SC_DataLoss; SC_Unauthenticated] SC_Unknown.

(** The encoder of [jsonwebtoken], with the test's private key, and the calendar
    of [chrono] ([checked_add_months] on seconds). *)
Class TokenEncoder := {
  jwt_encode : Claims -> string;
  add_months : Z -> Z -> option Z
}.

(** A row of the table of registered entries. *)
Record EntrySpec := {
  es_path : string;
  es_data_type : DataType;
  es_change_type : ChangeType;
  es_entry_type : EntryType
}.

Section World.
Context `{RegexEngine} `{HashOrder} `{SqlParser} `{Timestamps} `{JwtLibrary} `{Tonic} `{TokenEncoder}.

(** What the tests do not fix: the address of the listener, the key material,
    and the clock. *)
Variables (address public_key type_id : string) (now : SystemTime).

Record DataBrokerState := { running : bool; state_address : option string }.

(** A test fails by a panic: [None]. *)
Record DataBrokerWorld := {
  current_data_entries : option (list DataEntry);
  current_client_error : option ClientError;
  broker_client : option Client;
  data_broker_state : DataBrokerState;
  (* what the broker's task serves *)
  network : BrokerNet
}.

Definition with_entries (w : DataBrokerWorld) (l : list DataEntry) : DataBrokerWorld :=
  {| current_data_entries := Some l; current_client_error := current_client_error w;
     broker_client := broker_client w; data_broker_state := data_broker_state w; network := network w |}.
Definition with_error (w : DataBrokerWorld) (e : option ClientError) : DataBrokerWorld :=
  {| current_data_entries := current_data_entries w; current_client_error := e;
     broker_client := broker_client w; data_broker_state := data_broker_state w; network := network w |}.
Definition with_client (w : DataBrokerWorld) (s : Client * BrokerNet) : DataBrokerWorld :=
  {| current_data_entries := current_data_entries w; current_client_error := current_client_error w;
     broker_client := Some (fst s); data_broker_state := data_broker_state w; network := snd s |}.

(** A broker that serves, or a listener that nobody serves. *)
Definition served_by (b : DataBroker) (authorization : Authorization) : BrokerNet :=
  {| bn_broker := b; bn_authorization := authorization; bn_reach := fun _ => Ok tt;
     bn_clock := fun _ => now; bn_calls := 0; bn_refusal := "Invalid auth token";
     bn_broken := {| status_code := SC_Unknown; status_message := "" |}; bn_debug := fun _ => "" |}.
Definition unserved : BrokerNet :=
  {| bn_broker := DataBroker_new ""; bn_authorization := Disabled; bn_reach := fun _ => Err "transport error";
     bn_clock := fun _ => now; bn_calls := 0; bn_refusal := "";
     bn_broken := {| status_code := SC_Unknown; status_message := "" |}; bn_debug := fun _ => "" |}.

(** [DataBrokerWorld::new]. *)
Definition DataBrokerWorld_new : DataBrokerWorld :=
  {| current_data_entries := Some []; current_client_error := None; broker_client := None;
     data_broker_state := {| running := false; state_address := None |}; network := unserved |}.

(** The loop of [start_databroker] that registers the entries: it stops at the
    first error. *)
Fixpoint register_entries (b : DataBroker) (data_entries : list EntrySpec) : option DataBroker :=
  match data_entries with
  | [] => Some b
  | es :: data_entries =>
      match add_entry b ALLOW_ALL now (es_path es) (es_data_type es) (es_change_type es) (es_entry_type es)
              "N/A" None None with
      | (Ok _, b) => register_entries b data_entries
      | (Err _, _) => None
      end
  end.

(** [start_databroker], with the task it spawns. *)
Definition start_databroker (w : DataBrokerWorld) (data_entries : list EntrySpec) (authorization_enabled : bool)
  : option DataBrokerWorld :=
  if running (data_broker_state w) then
    match state_address (data_broker_state w) with
    | Some _ => Some w
    | None => None (* Databroker seems to be running but listener address is unknown *)
    end
  else
    let '(state, net) :=
      match register_entries (DataBroker_new "unknown") data_entries with
      | None => (data_broker_state w, unserved)
      | Some b =>
          let authorization :=
            if authorization_enabled then
              match Authorization_new public_key with Ok auth => auth | Err _ => Disabled end
            else Disabled in
          ({| running := true; state_address := Some address |}, served_by b authorization)
      end in
    match to_uri ("http://" +:+ address) with
    | Panics => None
    | Returns uri =>
        Some {| current_data_entries := current_data_entries w; current_client_error := current_client_error w;
                broker_client := match uri with Ok uri => Some (Client_new uri) | Err _ => None end;
                data_broker_state := state; network := net |}
    end.

(** [stop_databroker]. *)
Definition stop_databroker (w : DataBrokerWorld) : DataBrokerWorld :=
  {| current_data_entries := current_data_entries w; current_client_error := current_client_error w;
     broker_client := None;
     data_broker_state := {| running := false; state_address := state_address (data_broker_state w) |};
     network := unserved |}.

(** [get_current_data_entry], [get_current_value] and [get_target_value]. *)
Definition get_current_data_entry (w : DataBrokerWorld) (path : string) : option DataEntry :=
  current_data_entries w ≫= fun res => find (fun data_entry => String.eqb (de_path data_entry) path) res.
Definition get_current_value (w : DataBrokerWorld) (path : string) : option ProtoValue :=
  e ← get_current_data_entry w path; dp ← de_value e; pd_value dp.
Definition get_target_value (w : DataBrokerWorld) (path : string) : option ProtoValue :=
  e ← get_current_data_entry w path; dp ← de_actuator_target e; pd_value dp.

(** An assertion. *)
Definition assert_that (b : bool) (w : DataBrokerWorld) : option DataBrokerWorld := if b then Some w else None.

(** [assert_status_has_code]. *)
Definition assert_status_has_code (w : DataBrokerWorld) (expected_status_code : Z) : option DataBrokerWorld :=
  match current_client_error w with
  | Some (CE_Status status) => assert_that (bool_decide (status_code status = code_from_i32 expected_status_code)) w
  | Some (CE_Connection _) | Some (CE_Function _) | None => None
  end.

(** The codes of a list of errors, each once, in the order of the list. *)
Fixpoint distinct_codes (code : list Z) (e : list ProtoError) : list Z :=
  match e with
  | [] => code
  | element :: e =>
      distinct_codes (if existsb (Z.eqb (err_code element)) code then code else code ++ [err_code element]) e
  end.

(** [assert_response_has_error_code]. *)
Definition assert_response_has_error_code (w : DataBrokerWorld) (error_codes : list Z) : option DataBrokerWorld :=
  match current_client_error w with
  | Some (CE_Function e) =>
      let code := distinct_codes [] e in
      match code with
      | [] => None
      | _ => assert_that (bool_decide (code = error_codes)) w
      end
  | Some (CE_Connection _) | Some (CE_Status _) | None => None
  end.

(** [assert_set_succeeded]. *)
Definition assert_set_succeeded (w : DataBrokerWorld) : option DataBrokerWorld :=
  match current_client_error w with None => Some w | Some _ => None end.

(** [create_token]. *)
Definition create_token (scope : string) : option string :=
  let timestamp := now `div` 1000000000 in
  match add_months timestamp 24 with
  | None => None
  | Some timestamp_exp =>
      Some (jwt_encode {| sub := "test dev"; iss := "integration test instance"; aud := ["kuksa.val"];
                          iat := timestamp; exp := timestamp_exp; claims_scope := scope |})
  end.

(** ** read_write_values.rs *)

Definition table_data_type (s : string) : option DataType :=
  if String.eqb s "bool" then Some DT_Bool
  else if String.eqb s "double" then Some DT_Double
  else if String.eqb s "float" then Some DT_Float
  else if String.eqb s "int8" then Some DT_Int8
  else if String.eqb s "int16" then Some DT_Int16
  else if String.eqb s "int32" then Some DT_Int32
  else if String.eqb s "uint8" then Some DT_Uint8
  else if String.eqb s "uint16" then Some DT_Uint16
  else if String.eqb s "uint32" then Some DT_Uint32
  else if String.eqb s "uint64" then Some DT_Uint64
  else None.
Definition table_change_type (s : string) : option ChangeType :=
  if String.eqb s "onchange" then Some CT_OnChange
  else if String.eqb s "continuous" then Some CT_Continuous
  else if String.eqb s "static" then Some CT_Static
  else None.
Definition table_entry_type (s : string) : option EntryType :=
  if String.eqb s "actuator" then Some ET_Actuator
  else if String.eqb s "attribute" then Some ET_Attribute
  else if String.eqb s "sensor" then Some ET_Sensor
  else None.

(** [get_data_entries_from_table]: the rows after the header. *)
Definition table_row (row : list string) : option EntrySpec :=
  match row with
  | path :: data_type_string :: change_type_string :: entry_type_string :: _ =>
      data_type ← table_data_type (string_lower data_type_string);
      change_type ← table_change_type (string_lower change_type_string);
      entry_type ← table_entry_type (string_lower entry_type_string);
      Some {| es_path := path; es_data_type := data_type; es_change_type := change_type;
              es_entry_type := entry_type |}
  | _ => None
  end.
Definition get_data_entries_from_table (table : list (list string)) : option (list EntrySpec) :=
  mapM table_row (tail table).

(** [start_databroker_server]. *)
Definition start_databroker_server (w : DataBrokerWorld) (auth : string) (table : list (list string))
  : option DataBrokerWorld :=
  authorization_enabled ←
    (if String.eqb auth "enabled" then Some true
     else if String.eqb auth "disabled" then Some false else None);
  data_entries ← get_data_entries_from_table table;
  w ← start_databroker w data_entries authorization_enabled;
  assert_that (is_some (broker_client w)) w.

(** [authorize_client]. *)
Definition authorize_client (w : DataBrokerWorld) (scope : string) : option DataBrokerWorld :=
  token ← create_token scope;
  client ← broker_client w;
  match set_access_token client token with
  | (Ok _, client) => Some (with_client w (client, network w))
  | (Err _, _) => None
  end.

(** [set_value]. *)
Definition set_value (w : DataBrokerWorld) (value_type : ValueType) (path : string) (data_type : ProtoDataType)
  (value : string) : option DataBrokerWorld :=
  client ← broker_client w;
  match Value_new type_id data_type value with
  | Err _ => None
  | Ok value =>
      let datapoint := {| pd_timestamp := Some (timestamp_from now); pd_value := Some value |} in
      let '(r, s) :=
        match value_type with
        | VT_Target => set_target_values {[ path := datapoint ]} (client, network w)
        | VT_Current => set_current_values {[ path := datapoint ]} (client, network w)
        end in
      Some (with_error (with_client w s) (match r with Ok _ => None | Err e => Some e end))
  end.

(** [get_value]. *)
Definition get_value (w : DataBrokerWorld) (value_type : ValueType) (path : string) : option DataBrokerWorld :=
  client ← broker_client w;
  let '(r, s) :=
    match value_type with
    | VT_Target => get_target_values [path] (client, network w)
    | VT_Current => get_current_values [path] (client, network w)
    end in
  let w := with_client w s in
  Some (match r with Ok res => with_entries w res | Err e => with_error w (Some e) end).

(** [a_known_data_entry_has_value]. *)
Definition a_known_data_entry_has_value (w : DataBrokerWorld) (path : string) (data_type : ProtoDataType)
  (value_type : ValueType) (value : string) : option DataBrokerWorld :=
  w ← set_value w value_type path data_type value;
  assert_set_succeeded w.

(** [assert_value]. *)
Definition assert_value (w : DataBrokerWorld) (value_type : ValueType) (path expected_value : string)
  (expected_type : ProtoDataType) : option DataBrokerWorld :=
  data_entry ← get_current_data_entry w path;
  data_point ← match value_type with
               | VT_Current => de_value data_entry
               | VT_Target => de_actuator_target data_entry
               end;
  actual_value ← pd_value data_point;
  match Value_new type_id expected_type expected_value with
  | Err _ => None
  | Ok expected_value =>
      m ← de_metadata data_entry;
      actual_type ← proto_data_type_from_i32 (pm_data_type m);
      assert_that (proto_value_eqb actual_value expected_value && bool_decide (actual_type = expected_type)) w
  end.

(** [assert_value_is_unspecified]. *)
Definition assert_value_is_unspecified (w : DataBrokerWorld) (value_type : ValueType) (path : string)
  : option DataBrokerWorld :=
  let value := match value_type with VT_Current => get_current_value w path | VT_Target => get_target_value w path end in
  assert_that (negb (is_some value)) w.

(** [assert_value_not_found], [assert_set_request_failure],
    [assert_request_failure] and [assert_set_succeeds]. *)
Definition assert_value_not_found (w : DataBrokerWorld) : option DataBrokerWorld :=
  assert_response_has_error_code w [404].
Definition assert_set_request_failure (w : DataBrokerWorld) (_path : string) (expected_error_code : Z)
  : option DataBrokerWorld :=
  assert_response_has_error_code w [expected_error_code].
Definition assert_request_failure (w : DataBrokerWorld) (expected_status_code : Z) : option DataBrokerWorld :=
  assert_status_has_code w expected_status_code.
Definition assert_set_succeeds (w : DataBrokerWorld) : option DataBrokerWorld := assert_set_succeeded w.

(** ** Steps

    A step is a keyword, a text and a table; a Cucumber expression matches a text
    word by word. *)

Inductive Keyword := Given | When | Then.

Record Step := { step_keyword : Keyword; step_text : string; step_table : list (list string) }.

(** The words at the placeholders. *)
Fixpoint match_words (expr text : list string) : option (list string) :=
  match expr, text with
  | [], [] => Some []
  | e :: expr, t :: text =>
      args ← match_words expr text;
      if String.eqb e "{word}" || String.eqb e "{int}" then Some (t :: args)
      else if String.eqb e t then Some args else None
  | _, _ => None
  end.
Definition match_expr (expr text : string) : option (list string) :=
  match_words (split_on " "%char expr) (split_on " "%char text).

(** The two steps with a regular expression. *)
Definition match_server (text : string) : option string :=
  rest ← strip_prefix "a running Databroker server with authorization " text;
  if starts_with "enabled" rest then Some "enabled"
  else if starts_with "disabled" rest then Some "disabled" else None.
Definition match_not_found (text : string) : bool :=
  String.eqb text "the current value is not found" || String.eqb text "the target value is not found".

(** A parameter that does not parse fails the step. *)
Definition ok {A E} (r : result A E) : option A := match r with Ok a => Some a | Err _ => None end.

(** The step functions that match, each with its call. *)
Definition matching_steps (s : Step) : list (DataBrokerWorld -> option DataBrokerWorld) :=
  let text := step_text s in
  let on (expr : string) (f : list string -> DataBrokerWorld -> option DataBrokerWorld) :=
    match match_expr expr text with Some args => [f args] | None => [] end in
  match step_keyword s with
  | Given =>
      match match_server text with
      | Some auth => [fun w => start_databroker_server w auth (step_table s)]
      | None => []
      end ++
      on "a Data Entry {word} of type {word} having {word} value {word}" (fun args w =>
        match args with
        | [path; data_type; value_type; value] =>
            data_type ← ok (data_type_from_str data_type); value_type ← ok (value_type_from_str value_type);
            a_known_data_entry_has_value w path data_type value_type value
        | _ => None
        end)
  | When =>
      on "a client uses a token with scope {word}" (fun args w =>
        match args with [scope] => authorize_client w scope | _ => None end) ++
      on "a client sets the {word} value of {word} of type {word} to {word}" (fun args w =>
        match args with
        | [value_type; path; data_type; value] =>
            value_type ← ok (value_type_from_str value_type); data_type ← ok (data_type_from_str data_type);
            set_value w value_type path data_type value
        | _ => None
        end) ++
      on "a client gets the {word} value of {word}" (fun args w =>
        match args with
        | [value_type; path] => value_type ← ok (value_type_from_str value_type); get_value w value_type path
        | _ => None
        end)
  | Then =>
      on "the {word} value for {word} is {word} having type {word}" (fun args w =>
        match args with
        | [value_type; path; expected_value; expected_type] =>
            value_type ← ok (value_type_from_str value_type); expected_type ← ok (data_type_from_str expected_type);
            assert_value w value_type path expected_value expected_type
        | _ => None
        end) ++
      on "the {word} value for {word} is not specified" (fun args w =>
        match args with
        | [value_type; path] =>
            value_type ← ok (value_type_from_str value_type); assert_value_is_unspecified w value_type path
        | _ => None
        end) ++
      (if match_not_found text then [assert_value_not_found] else []) ++
      on "setting the value for {word} fails with error code {int}" (fun args w =>
        match args with
        | [path; code] => code ← parse_int u32 code; assert_set_request_failure w path code
        | _ => None
        end) ++
      on "the operation fails with status code {int}" (fun args w =>
        match args with [code] => code ← parse_int i32 code; assert_request_failure w code | _ => None end) ++
      (if String.eqb text "the set operation succeeds" then [assert_set_succeeds] else [])
  end.

(** A step without a function fails ([fail_on_skipped]), and so does one with
    several. *)
Definition run_step (w : DataBrokerWorld) (s : Step) : option DataBrokerWorld :=
  match matching_steps s with
  | [f] => f w
  | _ => None
  end.

(** A scenario: a world of its own, the steps, and the broker is stopped. *)
Fixpoint run_steps (w : DataBrokerWorld) (l : list Step) : option DataBrokerWorld :=
  match l with
  | [] => Some (stop_databroker w)
  | s :: l => w ← run_step w s; run_steps w l
  end.
Definition run_scenario (l : list Step) : bool := is_some (run_steps DataBrokerWorld_new l).
End World.

(** ** Features *)

Record Scenario := { scenario_steps : list Step; examples : list (list string) }.
Record Rule := { background : list Step; scenarios : list Scenario }.

(** A row of the examples put for the names of the header. *)
Fixpoint fill (header row : list string) (text : string) : string :=
  match header, row with
  | name :: header, value :: row => fill header row (replace ("<" +:+ name +:+ ">") value text)
  | _, _ => text
  end.
Definition fill_step (header row : list string) (s : Step) : Step :=
  {| step_keyword := step_keyword s; step_text := fill header row (step_text s); step_table := step_table s |}.

(** The scenarios that run: the background first. *)
Definition expand (r : Rule) : list (list Step) :=
  flat_map (fun sc =>
    match examples sc with
    | [] => [background r ++ scenario_steps sc]
    | header :: rows => map (fun row => background r ++ map (fill_step header row) (scenario_steps sc)) rows
    end) (scenarios r).

Definition given (text : string) : Step := {| step_keyword := Given; step_text := text; step_table := [] |}.
Definition given_table (text : string) (table : list (list string)) : Step :=
  {| step_keyword := Given; step_text := text; step_table := table |}.
Definition when (text : string) : Step := {| step_keyword := When; step_text := text; step_table := [] |}.
Definition then_ (text : string) : Step := {| step_keyword := Then; step_text := text; step_table := [] |}.
Definition scenario (steps : list Step) : Scenario := {| scenario_steps := steps; examples := [] |}.
Definition outline (steps : list Step) (rows : list (list string)) : Scenario :=
  {| scenario_steps := steps; examples := rows |}.

(** ** read_write_values.feature *)

(** Access with right permissions succeeds and fails with wrong/no permissions. *)
Definition rule_permissions : Rule := {|
  background :=
    [given_table "a running Databroker server with authorization enabled with the following Data Entries registered"
       [["path"; "data type"; "change type"; "type"];
        ["Vehicle.Speed"; "float"; "Static"; "Sensor"];
        ["Vehicle.ADAS.ABS.IsEnabled"; "bool"; "Static"; "Actuator"]]];
  scenarios :=
    [scenario
       [when "a client sets the current value of Vehicle.Width of type float to 13.4";
        then_ "the operation fails with status code 16"];
     scenario
       [when "a client gets the current value of Vehicle.Width";
        then_ "the operation fails with status code 16"];
     scenario
       [when "a client uses a token with scope read";
        when "a client sets the current value of Vehicle.Speed of type float to 13.4";
        then_ "setting the value for Vehicle.Speed fails with error code 403"];
     scenario
       [when "a client uses a token with scope actuate";
        when "a client sets the current value of Vehicle.Speed of type float to 13.4";
        then_ "setting the value for Vehicle.Speed fails with error code 403"];
     scenario
       [when "a client uses a token with scope provide:Vehicle.ADAS.ABS.IsEnabled";
        when "a client sets the current value of Vehicle.Speed of type float to 13.4";
        then_ "setting the value for Vehicle.Speed fails with error code 403"];
     scenario
       [when "a client uses a token with scope provide:Vehicle.Speed";
        when "a client sets the current value of Vehicle.Speed of type float to 13.4";
        then_ "the set operation succeeds"];
     scenario
       [when "a client uses a token with scope read";
        when "a client sets the target value of Vehicle.ADAS.ABS.IsEnabled of type bool to true";
        then_ "setting the value for Vehicle.Speed fails with error code 403"];
     scenario
       [when "a client uses a token with scope provide";
        when "a client sets the target value of Vehicle.ADAS.ABS.IsEnabled of type bool to true";
        then_ "setting the value for Vehicle.Speed fails with error code 403"];
     scenario
       [when "a client uses a token with scope actuate:Vehicle.Speed";
        when "a client sets the target value of Vehicle.ADAS.ABS.IsEnabled of type bool to true";
        then_ "setting the value for Vehicle.Speed fails with error code 403"];
     scenario
       [when "a client uses a token with scope actuate:Vehicle.ADAS.ABS.IsEnabled";
        when "a client sets the target value of Vehicle.ADAS.ABS.IsEnabled of type bool to true";
        then_ "the set operation succeeds"]]
|}.

(** Accessing unregistered Data Entries fails. *)
Definition rule_unregistered : Rule := {|
  background :=
    [given "a running Databroker server with authorization disabled"];
  scenarios :=
    [scenario
       [when "a client sets the current value of No.Such.Path of type float to 13.4";
        then_ "setting the value for No.Such.Path fails with error code 404"];
     scenario
       [when "a client gets the current value of No.Such.Path";
        then_ "the current value is not found"];
     scenario
       [when "a client sets the target value of No.Such.Path of type float to 13.4";
        then_ "setting the value for No.Such.Path fails with error code 404"];
     scenario
       [when "a client gets the target value of No.Such.Path";
        then_ "the target value is not found"]]
|}.

(** Target values can only be set on Actuators. *)
Definition rule_targets : Rule := {|
  background :=
    [given_table "a running Databroker server with authorization disabled with the following Data Entries registered"
       [["path"; "data type"; "change type"; "type"];
        ["Vehicle.Powertrain.Range"; "uint32"; "Continuous"; "Sensor"];
        ["Vehicle.Width"; "uint16"; "Static"; "Attribute"]]];
  scenarios :=
    [scenario
       [when "a client sets the target value of Vehicle.Width of type uint16 to 13";
        then_ "the operation fails with status code 3"];
     scenario
       [when "a client sets the target value of Vehicle.Powertrain.Range of type uint32 to 13455";
        then_ "the operation fails with status code 3"]]
|}.

(** Accessing registered Data Entries works. *)
Definition rule_registered : Rule := {|
  background :=
    [given_table "a running Databroker server with authorization disabled with the following Data Entries registered"
       [["path"; "data type"; "change type"; "type"];
        ["Vehicle.Cabin.Lights.AmbientLight"; "uint8"; "OnChange"; "Actuator"];
        ["Vehicle.Cabin.Sunroof.Position"; "int8"; "OnChange"; "Actuator"];
        ["Vehicle.CurrentLocation.Longitude"; "double"; "Continuous"; "Sensor"];
        ["Vehicle.IsMoving"; "bool"; "OnChange"; "Sensor"];
        ["Vehicle.Powertrain.ElectricMotor.Power"; "int16"; "Continuous"; "Sensor"];
        ["Vehicle.Powertrain.ElectricMotor.Speed"; "int32"; "Continuous"; "Sensor"];
        ["Vehicle.Powertrain.Range"; "uint32"; "Continuous"; "Sensor"];
        ["Vehicle.Speed"; "float"; "Continuous"; "Sensor"];
        ["Vehicle.TraveledDistanceHighRes"; "uint64"; "Continuous"; "Sensor"];
        ["Vehicle.Width"; "uint16"; "Static"; "Attribute"]]];
  scenarios :=
    [scenario
       [when "a client gets the current value of Vehicle.Width";
        then_ "the current value for Vehicle.Width is not specified"];
     outline
       [given "a Data Entry <path> of type <type> having current value <value>";
        when "a client gets the current value of <path>";
        then_ "the current value for <path> is <value> having type <type>"]
       [["path"; "type"; "value"];
        ["Vehicle.Cabin.Sunroof.Position"; "int8"; "-128"];
        ["Vehicle.Powertrain.ElectricMotor.Power"; "int16"; "-32768"];
        ["Vehicle.Powertrain.ElectricMotor.Speed"; "int32"; "-2147483648"];
        ["Vehicle.Cabin.Lights.AmbientLight"; "uint8"; "255"];
        ["Vehicle.Width"; "uint16"; "65535"];
        ["Vehicle.Powertrain.Range"; "uint32"; "4294967295"];
        ["Vehicle.TraveledDistanceHighRes"; "uint64"; "23425462462563924"];
        ["Vehicle.CurrentLocation.Longitude"; "double"; "145.023544"];
        ["Vehicle.Speed"; "float"; "45.5"];
        ["Vehicle.IsMoving"; "bool"; "true"]];
     outline
       [when "a client sets the current value of Vehicle.Speed of type <type> to <value>";
        then_ "setting the value for Vehicle.Speed fails with error code 400"]
       [["type"; "value"];
        ["bool"; "true"];
        ["double"; "145.023544"];
        ["uint8"; "15"];
        ["uint16"; "13648"];
        ["uint32"; "4294967295"];
        ["uint64"; "24234543543535354"];
        ["int8"; "-35"];
        ["int16"; "-7295"];
        ["int32"; "-2552565"];
        ["int64"; "-255256525864925"]];
     scenario
       [when "a client gets the target value of Vehicle.Cabin.Sunroof.Position";
        then_ "the target value for Vehicle.Cabin.Sunroof.Position is not specified"];
     outline
       [given "a Data Entry <path> of type <type> having target value <value>";
        when "a client gets the target value of <path>";
        then_ "the target value for <path> is <value> having type <type>"]
       [["path"; "type"; "value"];
        ["Vehicle.Cabin.Lights.AmbientLight"; "uint8"; "255"];
        ["Vehicle.Cabin.Sunroof.Position"; "int8"; "-128"]];
     outline
       [when "a client sets the target value of Vehicle.Cabin.Sunroof.Position of type <type> to <value>";
        then_ "setting the value for Vehicle.Cabin.Sunroof.Position fails with error code 400"]
       [["type"; "value"];
        ["bool"; "true"];
        ["double"; "-285625145.023544"];
        ["float"; "145.023544"];
        ["uint8"; "15"];
        ["uint16"; "13648"];
        ["uint32"; "4294967295"];
        ["uint64"; "24234543543535354"];
        ["int16"; "-7295"];
        ["int32"; "-2552565"];
        ["int64"; "-255256525864925"]]]
|}.

Definition read_write_values : list (list Step) :=
  flat_map expand [rule_permissions; rule_unregistered; rule_targets; rule_registered].

(** ** The run *)

#[local] Existing Instance auth_engine.
#[local] Existing Instance one_query_parser.
#[local] Existing Instance z_timestamps.
#[local] Existing Instance plain_tonic.

(** Tokens in clear text: the two times and the scope; months of thirty days. *)
#[local] Instance clear_encoder : TokenEncoder := {|
  jwt_encode claims := pretty (iat claims) +:+ "/" +:+ pretty (exp claims) +:+ "/" +:+ claims_scope claims;
  add_months t n := Some (t + n * 2592000)
|}.
#[local] Instance clear_decoder : JwtLibrary := {|
  DecodingKey := unit;
  from_rsa_pem _ := Some tt;
  jwt_decode token _ _ :=
    match split_on "/"%char token with
    | [t0; t1; scope] =>
        iat ← parse_int i64 t0; exp ← parse_int u64 t1;
        Some {| sub := "test dev"; iss := "integration test instance"; aud := ["kuksa.val"];
                iat := iat; exp := exp; claims_scope := scope |}
    | _ => None
    end
|}.

(** Every scenario of the feature passes, on any address and with any key:
    the statuses, the error codes and the values that the steps expect are what
    the client gets from the broker. *)
Theorem feature_passes :
  length read_write_values = 50%nat /\
  forallb (run_scenario "127.0.0.1:55555" "" "" 1700000000000000000) read_write_values = true.
Proof. split; vm_compute; reflexivity. Qed.
