(* ===== verification/CliServer.v ===== *)
(** * CliServer: the interactive client connected to the broker

    The commands of [KuksaCli] with the broker of [ClientServer] at the other
    end: what a user reads after what a user wrote, and what [set] does not
    do. *)

From S2P Require Import Prelude Floats Types Regex Search Display Glob Permissions Auth Entry Database Query Broker.
From S2P Require Import Delivery ProtoVal KuksaVal KuksaValSpec Client ClientSpec ClientServer Cli KuksaCli CliSpec.

(** ** Lines of input *)

Definition no_space (s : string) : Prop := all_chars (fun c => negb (is_whitespace c)) s.

(** A text that [trim] leaves as it is, with something in it. *)
Definition trimmed (s : string) : Prop := s <> "" /\ trim_start s = s /\ trim_end s = s.

Lemma trim_end_app s t : t <> "" -> trim_end t = t -> trim_end (s +:+ t) = s +:+ t.
Proof.
  intros Hne Ht. induction s as [|c s IH]; [done|].
  change (String c s +:+ t) with (String c (s +:+ t)). cbn [trim_end]. rewrite IH.
  destruct (s +:+ t) eqn:E; [|done]. by destruct s, t.
Qed.

Lemma span_word_app w s : no_space w -> span_word (w +:+ String " "%char s) = (w, String " "%char s).
Proof.
  induction w as [|c w IH]; [done|]. intros [Hc Hw]%Forall_cons. apply negb_true_iff in Hc.
  change (String c w +:+ String " "%char s) with (String c (w +:+ String " "%char s)). cbn [span_word].
  by rewrite Hc, IH.
Qed.

Lemma span_word_all w : no_space w -> span_word w = (w, "").
Proof.
  induction w as [|c w IH]; [done|]. intros [Hc Hw]%Forall_cons. apply negb_true_iff in Hc. cbn [span_word].
  by rewrite Hc, IH.
Qed.

Lemma trim_start_word w s : w <> "" -> no_space w -> trim_start (w +:+ s) = w +:+ s.
Proof.
  destruct w as [|c w]; [done|]. intros _ [Hc _]%Forall_cons. apply negb_true_iff in Hc.
  change (String c w +:+ s) with (String c (w +:+ s)). cbn [trim_start]. by rewrite Hc.
Qed.

Lemma no_space_trimmed w : w <> "" -> no_space w -> trimmed w.
Proof.
  intros Hne Hw. split; [done|]. split; [by apply trim_start_plain|by apply trim_end_plain].
Qed.

(** A word, a space and the rest of the line. *)
Lemma split_first_word_cons w s :
  w <> "" -> no_space w -> trimmed s -> split_first_word (w +:+ String " "%char s) = (w, s).
Proof.
  intros Hne Hw (Hs & Hts & Hte). unfold split_first_word, trim. rewrite trim_start_word by done.
  assert (trim_end (w +:+ String " "%char s) = w +:+ String " "%char s) as ->.
  { apply trim_end_app; [done|]. cbn [trim_end]. rewrite Hte. by destruct s. }
  rewrite span_word_app by done. cbn [trim_start]. by rewrite Hts.
Qed.

Lemma trimmed_cons w s : w <> "" -> no_space w -> trimmed s -> trimmed (w +:+ String " "%char s).
Proof.
  intros Hne Hw (Hs & Hts & Hte). split; [by destruct w|]. split; [by apply trim_start_word|].
  apply trim_end_app; [done|]. cbn [trim_end]. rewrite Hte. by destruct s.
Qed.

Lemma split_whitespace_single w : w <> "" -> no_space w -> split_whitespace w = [w].
Proof. intros Hne Hw. exact (split_whitespace_join [w] (proj2 (Forall_singleton _ _) (conj Hne Hw))). Qed.

(** ** What is fed is what is got *)

Section CliServer.
Context `{RegexSearch} `{HashOrder} `{SqlParser} `{Timestamps} `{JwtLibrary} `{Tonic} `{AnsiTerm} `{!CliEnv}.

Lemma proto_data_type_from_to t : proto_data_type_from_i32 (proto_data_type_i32 t) = Some t.
Proof. by destruct t. Qed.

Lemma datapoint_to_proto_value t pv :
  datapoint_to_proto {| ts := t; value := data_value_from_proto (Some pv) |} =
    Some {| pd_timestamp := Some (timestamp_from t); pd_value := Some pv |}.
Proof. by destruct pv. Qed.

(** The fields of the two requests made for a path. *)
Lemma metadata_fields :
  let fs := combine_view_and_fields VW_Metadata (known_fields [10]) in
  PF_Metadata ∈ fs /\ (PF_Value ∉ fs) /\ (PF_ActuatorTarget ∉ fs).
Proof.
  split_and!.
  - apply (bool_decide_eq_true_1 (PF_Metadata ∈ combine_view_and_fields VW_Metadata (known_fields [10]))). reflexivity.
  - apply (bool_decide_eq_false_1 (PF_Value ∈ combine_view_and_fields VW_Metadata (known_fields [10]))). reflexivity.
  - apply (bool_decide_eq_false_1 (PF_ActuatorTarget ∈ combine_view_and_fields VW_Metadata (known_fields [10]))).
    reflexivity.
Qed.

Lemma value_metadata_fields :
  let fs := combine_view_and_fields VW_CurrentValue (known_fields [2; 10]) in PF_Value ∈ fs /\ PF_Metadata ∈ fs.
Proof.
  split; [exact get_value_fields|].
  apply (bool_decide_eq_true_1 (PF_Metadata ∈ combine_view_and_fields VW_CurrentValue (known_fields [2; 10]))).
  reflexivity.
Qed.

(** The metadata part of an answer that has it. *)
Lemma answer_metadata e permissions now fs :
  PF_Metadata ∈ fs ->
  de_metadata (proto_entry_from_entry_and_fields (EntryReadAccess_new e permissions now) fs) =
    Some {| pm_data_type := proto_data_type_i32 (data_type_to_proto (data_type (metadata e)));
            pm_entry_type := proto_entry_type_i32 (entry_type_to_proto (entry_type (metadata e)));
            pm_description := Some (description (metadata e)); pm_comment := None; pm_deprecation := None;
            pm_unit := unit_ (metadata e) |}.
Proof.
  intros Hf. unfold proto_entry_from_entry_and_fields. cbn -[datapoint_to_proto].
  destruct (EntryReadAccess_new_spec e permissions now) as (-> & _). by rewrite (bool_decide_true _ Hf).
Qed.

Lemma answer_value e permissions now fs :
  PF_Value ∈ fs -> can_read permissions now (path (metadata e)) = Ok tt ->
  de_value (proto_entry_from_entry_and_fields (EntryReadAccess_new e permissions now) fs) =
    datapoint_to_proto (datapoint e) /\
  de_path (proto_entry_from_entry_and_fields (EntryReadAccess_new e permissions now) fs) = path (metadata e).
Proof.
  intros Hf Hr. unfold proto_entry_from_entry_and_fields. cbn -[datapoint_to_proto].
  destruct (EntryReadAccess_new_spec e permissions now) as (Hm & Hok & Hd & _). rewrite Hm.
  rewrite (bool_decide_true _ Hf). split; [|done].
  apply Hok in Hr. destruct (era_datapoint _) as [d|]; [|done]. by destruct (Hd d eq_refl) as [-> _].
Qed.

(** The client reads one path, the broker has one entry for it. *)
Lemma client_get_one self net permissions p view fields rx i e :
  let fs := combine_view_and_fields view (known_fields (map proto_field_i32 fields)) in
  holds self net permissions ->
  contains "*" p = false -> to_regex p = Ok rx -> view_from_i32 (view_i32 view) = Some view ->
  entries (database (bn_broker net)) !! i = Some e -> regex_is_match rx (path (metadata e)) = true ->
  (forall j f, entries (database (bn_broker net)) !! j = Some f -> regex_is_match rx (path (metadata f)) = true ->
     j = i) ->
  PF_Metadata ∈ fs /\ (PF_Value ∉ fs) /\ (PF_ActuatorTarget ∉ fs) \/
    PF_Value ∈ fs /\ can_read permissions (bn_now net) (path (metadata e)) = Ok tt ->
  get_each view fields [p] [] (self, net) =
    (Ok [proto_entry_from_entry_and_fields (EntryReadAccess_new e permissions (bn_now net)) fs],
     (self, served net (bn_broker net))).
Proof.
  intros fs Hh Hp Hrx Hview He Hm Hone Hf.
  pose proof (get_one (bn_broker net) permissions (bn_now net) p view (view_i32 view) (map proto_field_i32 fields) rx i e
    Hp Hrx Hview He Hm Hone Hf) as Hg.
  simpl. unfold bind. rewrite (client_get_broker self net permissions p view fields _ Hh Hg). done.
Qed.

Lemma run_client_eq {A} (c : M A) cli net r client' net' :
  c (kc_client cli, net) = (r, (client', net')) -> run_client c (cli, net) = (r, (with_client cli client', net')).
Proof. intros Hc. unfold run_client. by rewrite Hc. Qed.

(** C17. What is fed is what is got: after the line [feed PATH VALUE] of a user
    whose token may provide and read the signal, with a text of the signal's
    type that its allowed list admits and a value other than the one it has,
    the client prints OK, and after the line [get PATH] it prints the path, the
    value read from that text, and the signal's unit. *)
Theorem cli_feed_then_get cli net permissions p text pv i e rx now now' :
  let t n := bn_clock net (bn_calls net + n) in
  let db := database (bn_broker net) in
  let v := data_value_from_proto (Some pv) in
  holds (kc_client cli) net permissions ->
  db_inv db -> path_to_id db !! p = Some i -> entries db !! i = Some e ->
  p <> "" -> no_space p -> contains "*" p = false -> to_regex p = Ok rx -> regex_is_match rx p = true ->
  (forall j f, entries db !! j = Some f -> regex_is_match rx (path (metadata f)) = true -> j = i) ->
  trimmed text -> try_into_data_value text (data_type_to_proto (data_type (metadata e))) = Returns (Ok pv) ->
  can_write_datapoint permissions (t 1%nat) p = Ok tt -> can_read permissions (t 2%nat) p = Ok tt ->
  has_type (data_type (metadata e)) v -> validate_allowed e v = Ok tt -> dv_eqb v (value (datapoint e)) = false ->
  exists s1 s2,
    kuksa_command now ("feed " +:+ p +:+ " " +:+ text) (cli, net) = Returns (print_resp_ok "feed", true, None, s1) /\
    kuksa_command now' ("get " +:+ p) s1 =
      Returns (print_resp_ok "get" ++
               println (p +:+ ": " +:+ display_value pv +:+ " " +:+ default "" (unit_ (metadata e))),
               true, None, s2).
Proof.
  intros t db v Hh Hinv Hi He Hpne Hps Hstar Hrx Hm Hone Htext Hparse Hw Hr Hty Hal Hdiff.
  assert (path (metadata e) = p) as Hpe.
  { destruct (inv_index _ Hinv _ _ Hi) as (e0 & He0 & Hp0). by simplify_eq. }
  (* the metadata *)
  set (net1 := served net (bn_broker net)).
  pose proof (client_get_one (kc_client cli) net permissions p VW_Metadata [PF_Metadata] rx i e Hh Hstar Hrx eq_refl
    He ltac:(by rewrite Hpe) Hone (or_introl metadata_fields)) as Hmeta. fold net1 in Hmeta.
  (* the value *)
  set (pd := {| pd_timestamp := Some (timestamp_from now); pd_value := Some pv |}).
  destruct set_value_fields as [Hfv Hft].
  assert (bn_now net1 = t 1%nat) as Hn1 by (unfold bn_now, t; simpl; f_equal; lia).
  destruct (set_value_stored (bn_broker net1) permissions (bn_now net1) p pd [2; 1] i e Hinv Hi He Hfv Hft)
    as (b' & e' & Hs & Hents & Hpi & Hme & Hd);
    [by rewrite Hn1|by right|done|].
  pose proof (client_set_broker (kc_client cli) net1 permissions (value_entry p pd) [PF_Value; PF_Path] b' Hh Hs) as Hset.
  destruct Hd as [Hd|(_ & Heq & _)]; [|].
  2: { change (value (datapoint_from_proto (bn_now net1) pd)) with v in Heq. congruence. }
  (* the answer *)
  set (net2 := served net1 b').
  assert (bn_now net2 = t 2%nat) as Hn2 by (unfold bn_now, t; simpl; f_equal; lia).
  assert (path (metadata e') = p) as Hpe' by (by rewrite Hme).
  destruct value_metadata_fields as [Hvf Hmf].
  assert (can_read permissions (bn_now net2) (path (metadata e')) = Ok tt) as Hread by (by rewrite Hn2, Hpe').
  assert (entries (database (bn_broker net2)) !! i = Some e') as He2 by (simpl; by rewrite Hents, lookup_insert_eq).
  assert (forall j f, entries (database (bn_broker net2)) !! j = Some f -> regex_is_match rx (path (metadata f)) = true ->
    j = i) as Hone2.
  { intros j f. simpl. rewrite Hents, lookup_insert_Some. intros [[<- _]|[_ Hj]]; [done|by apply Hone]. }
  pose proof (client_get_one (kc_client cli) net2 permissions p VW_CurrentValue [PF_Value; PF_Metadata] rx i e' Hh Hstar
    Hrx eq_refl He2 ltac:(by rewrite Hpe') Hone2 (or_intror (conj Hvf Hread))) as Hget.
  eexists _, _. split.
  - change ("feed " +:+ p +:+ " " +:+ text) with ("feed" +:+ String " "%char (p +:+ String " "%char text)).
    unfold kuksa_command. rewrite split_first_word_cons; [|done|by repeat constructor|by apply trimmed_cons].
    cbn [String.eqb Ascii.eqb Bool.eqb]. cbv beta iota. unfold cmd_feed, cmd_write.
    rewrite split_first_word_cons by done.
    destruct Htext as (Htne & _). destruct (String.eqb_spec text "") as [|_]; [done|].
    erewrite run_client_eq by exact Hmeta. cbn [write_entries]. unfold write_entry.
    rewrite answer_metadata by apply metadata_fields. cbn [pm_data_type].
    rewrite proto_data_type_from_to, Hparse. cbn [andb].
    erewrite run_client_eq.
    2: { unfold set_current_values. rewrite map_to_list_singleton.
         rewrite hash_order_single. fold pd. simpl. unfold bind. rewrite Hset. reflexivity. }
    cbn [fst snd]. rewrite app_nil_r. reflexivity.
  - change ("get " +:+ p) with ("get" +:+ String " "%char p).
    unfold kuksa_command. rewrite split_first_word_cons; [|done|by repeat constructor|by apply no_space_trimmed].
    cbn [String.eqb Ascii.eqb Bool.eqb]. cbv beta iota. unfold cmd_get.
    destruct (String.eqb_spec p "") as [|_]; [done|].
    rewrite split_whitespace_single by done.
    erewrite run_client_eq by exact Hget. cbn [flat_map fst snd]. unfold print_entry.
    destruct (answer_value e' permissions (bn_now net2)
      (combine_view_and_fields VW_CurrentValue (known_fields (map proto_field_i32 [PF_Value; PF_Metadata]))) Hvf Hread)
      as [-> ->].
    rewrite answer_metadata by exact Hmf. rewrite Hd. unfold datapoint_from_proto. cbn [pd_value pd].
    rewrite datapoint_to_proto_value. cbn [display_datapoint pd_value unit_text pm_unit].
    rewrite Hme, Hpe, app_nil_r. reflexivity.
Qed.

(** ** What [set] does not do *)

Definition same_targets (db db' : Database) : Prop :=
  forall i, actuator_target <$> entries db' !! i = actuator_target <$> entries db !! i.

#[export] Instance same_targets_preorder : PreOrder same_targets.
Proof. split; [by intros db i|]. intros db1 db2 db3 H12 H23 i. by rewrite H23, H12. Qed.

(** A computation of a client that changes no target in the broker. *)
Definition keeps_targets {A} (c : M A) : Prop :=
  forall s : Client * Net, same_targets (database (bn_broker (snd s))) (database (bn_broker (snd (snd (c s))))).

Lemma keeps_bind {A B} (c : M A) (k : A -> M B) :
  keeps_targets c -> (forall a, keeps_targets (k a)) -> keeps_targets (bind c k).
Proof.
  intros Hc Hk s. unfold bind. specialize (Hc s).
  destruct (c s) as [[a|e] s1]; [|done]. etrans; [exact Hc|]. apply Hk.
Qed.

Lemma keeps_ret {A} (a : A) : keeps_targets (ret a).
Proof. by intros s. Qed.
Lemma keeps_fail {A} e : keeps_targets (fail (A := A) e).
Proof. by intros s. Qed.

Lemma create_channel_net self net : snd (snd (try_create_channel (self, net))) = net.
Proof.
  unfold try_create_channel.
  destruct (match client_tls_config self with Some _ => _ | None => _ end) as [b|e]; [|done]. simpl.
  destruct (bn_reach net b); [|done]. by destruct (notify_state self CS_Connected) as [[]].
Qed.

Lemma keeps_call {A} (rpc : Conn -> option string -> Net -> result A Status * Net) :
  (forall channel header net,
     same_targets (database (bn_broker net)) (database (bn_broker (snd (rpc channel header net))))) ->
  keeps_targets (call rpc).
Proof.
  intros Hrpc. unfold call. apply keeps_bind.
  - intros [self net]. unfold get_channel. destruct (client_channel self); [done|]. by rewrite create_channel_net.
  - intros channel [self net]. specialize (Hrpc channel (auth_header self) net).
    by destruct (rpc channel (auth_header self) net).
Qed.

Lemma serve_reads {A} (handler : DataBroker -> option Permissions -> SystemTime -> result A Status) header net :
  bn_broker (snd (serve (reads handler) header net)) = bn_broker net.
Proof. unfold serve, reads. by destruct (authorize net header). Qed.

(** A request that gives a value gives no target. *)
Lemma set_value_targets b permissions now p pd :
  same_targets (database b)
    (database (snd (KuksaVal.set b (Some permissions) now
       [{| peu_entry := Some (value_entry p pd); peu_fields := [2; 1] |}]))).
Proof.
  unfold KuksaVal.set. change {| peu_entry := Some (value_entry p pd); peu_fields := [2; 1] |} with
    (set_value_update p pd [2; 1]).
  destruct (access_get_id_by_path b p) as [i|] eqn:Hi.
  - destruct set_value_fields as [Hv Ht]. rewrite (collect_value_update b now p pd [2; 1] i Hi Hv Ht).
    destruct (update_entries_one b permissions now i (datapoint_update (datapoint_from_proto now pd))) as [_ Hdb].
    destruct (update_entries _ _ _ _) as [r b']. simpl in Hdb |- *. rewrite Hdb.
    destruct (update _ _ _ _ _) as [[cf|err] db'] eqn:Eu; simpl; [|by apply update_Err in Eu as ->].
    apply update_Ok in Eu as (e & e' & He & Ha & _ & -> & _). intros j. simpl.
    destruct (decide (j = i)) as [->|Hj]; [|by rewrite lookup_insert_ne].
    rewrite lookup_insert_eq, He. simpl. f_equal. apply apply_fields in Ha as (_ & -> & _).
    by rewrite (proj1 (diff_other _ _)).
  - simpl. rewrite Hi. simpl. destruct (update_entries b permissions now []) as [r b'] eqn:Eu.
    apply update_entries_inv in Eu as (db' & changed & errors & nr & chans & Ea & _ & _ & Hdb & _).
    simpl in Ea. injection Ea as <- _ _. simpl. by rewrite Hdb.
Qed.

Lemma keeps_client_set p pd : keeps_targets (client_set (value_entry p pd) [PF_Value; PF_Path]).
Proof.
  unfold client_set. apply keeps_bind.
  - apply keeps_call. intros channel header net. simpl. unfold serve, writes.
    destruct (authorize net header) as [permissions|]; [|done].
    pose proof (set_value_targets (bn_broker net) permissions (bn_now net) p pd) as Hs.
    by destruct (KuksaVal.set _ _ _ _).
  - intros message. destruct (response_errors _ _); [apply keeps_ret|apply keeps_fail].
Qed.

Lemma keeps_client_get p view fields : keeps_targets (client_get p view fields).
Proof.
  unfold client_get. apply keeps_bind.
  - apply keeps_call. intros channel header net. simpl. by rewrite serve_reads.
  - intros message. destruct (response_errors _ _); [apply keeps_ret|apply keeps_fail].
Qed.

Lemma keeps_get_each view fields paths acc : keeps_targets (get_each view fields paths acc).
Proof.
  revert acc. induction paths as [|p paths IH]; intros acc; simpl; [apply keeps_ret|].
  apply keeps_bind; [apply keeps_client_get|]. intros entry. apply IH.
Qed.

Lemma keeps_set_each l : keeps_targets (set_each value_entry [PF_Value; PF_Path] l).
Proof.
  induction l as [|[p pd] l IH]; simpl; [apply keeps_ret|].
  apply keeps_bind; [apply keeps_client_set|]. intros _. apply IH.
Qed.

Lemma keeps_run {A} (c : M A) (s : State) :
  keeps_targets c -> same_targets (database (bn_broker (snd s))) (database (bn_broker (snd (snd (run_client c s))))).
Proof.
  destruct s as [cli net]. intros Hc. specialize (Hc (kc_client cli, net)). unfold run_client.
  by destruct (c (kc_client cli, net)) as [r [client net']].
Qed.

Lemma write_entries_targets cmd actuators now p value l (s s' : State) out :
  write_entries cmd actuators now p value l s = Returns (out, s') ->
  same_targets (database (bn_broker (snd s))) (database (bn_broker (snd s'))).
Proof.
  revert s out. induction l as [|entry l IH]; intros s out; simpl; [by intros [= _ <-]|].
  destruct (write_entry cmd actuators now p value entry s) as [[out1 s1]|] eqn:Ew; [|done].
  destruct (write_entries cmd actuators now p value l s1) as [[out2 s2]|] eqn:Ews; [|done].
  intros [= _ <-]. etrans; [|by eapply IH]. clear Ews IH. unfold write_entry in Ew.
  destruct (de_metadata entry) as [m|]; [|by simplify_eq].
  destruct (proto_data_type_from_i32 _) as [dt|]; [|done].
  destruct (try_into_data_value value dt) as [[v|]|]; simplify_eq; try done.
  destruct (actuators && _); [by simplify_eq|].
  pose proof (keeps_run (set_current_values
    {[ p := {| pd_timestamp := Some (timestamp_from now); pd_value := Some v |} ]}) s (keeps_set_each _)) as Hk.
  destruct (run_client _ s) as [[u|e] s3]; by simplify_eq.
Qed.

(** The command [set], documented as the one that sets an actuator, sets no
    target: whatever is typed, whatever the token, and whether or not it prints
    OK, the target of every signal is what it was before.  (It sets the value,
    as [feed] does.) *)
Theorem cli_set_keeps_targets now args (s s' : State) out :
  cmd_set now args s = Returns (out, s') ->
  forall i, actuator_target <$> entries (database (bn_broker (snd s'))) !! i =
            actuator_target <$> entries (database (bn_broker (snd s))) !! i.
Proof.
  unfold cmd_set, cmd_write. destruct (split_first_word args) as [p value].
  destruct (String.eqb value ""); [by intros [= _ <-]|].
  pose proof (keeps_run (client_get_metadata [p]) s (keeps_get_each _ _ _ _)) as Hk.
  destruct (run_client (client_get_metadata [p]) s) as [[entries|e] s1]; [|by intros [= _ <-]].
  intros Hw%write_entries_targets. exact (transitivity Hk Hw).
Qed.
End CliServer.

(** ** Witnesses *)

Section Witnesses.
#[local] Existing Instance auth_engine.
#[local] Existing Instance one_query_parser.
#[local] Existing Instance z_timestamps.
#[local] Existing Instance one_token.
#[local] Existing Instance plain_tonic.

#[local] Instance one_expression : RegexSearch :=
  {| regex_captures_iter := fun _ s => map String.string_of_list_ascii (find_iter (length (bytes s)) array_re (bytes s)) |}.

#[local] Instance no_colours : AnsiTerm := {|
  white_dimmed := fun s => s; white_on_red := fun s => s; black_on_green := fun s => s; red := fun s => s;
  red_dimmed := fun s => s; green_prefix := ""; green_suffix := ""; red_prefix := ""; red_suffix := ""
|}.

#[local] Instance plain_env : CliEnv := {|
  debug_errors := fun _ => "[]"; status_to_string := status_message; read_file := fun _ => Err "not found";
  pem_tls_config := fun _ => tt; logo := []
|}.

Definition user : KuksaCli :=
  {| kc_client := trusted_client; kc_completer := PathPart_new; kc_subscription_nbr := 1 |}.

Lemma cli_feed_then_get_witness :
  exists s1 s2,
    kuksa_command 8 "feed Vehicle.Speed 42" (user, remote_broker) =
      Returns ([Out_stderr ("[feed]  OK  " +:+ NEWLINE)], true, None, s1) /\
    kuksa_command 12 "get Vehicle.Speed" s1 =
      Returns ([Out_stderr ("[get]  OK  " +:+ NEWLINE); Out_stdout ("Vehicle.Speed: 42 " +:+ NEWLINE)], true, None, s2).
Proof.
  assert (is_ok (to_regex "Vehicle.Speed") = true) as Hrx by (vm_compute; reflexivity).
  destruct (to_regex "Vehicle.Speed") as [rx|] eqn:Erx; [clear Hrx|discriminate].
  assert (regex_is_match rx "Vehicle.Speed" = true) as Hm.
  { apply (f_equal (fun r => match r with Ok rx => regex_is_match rx "Vehicle.Speed" | Err _ => true end)) in Erx.
    rewrite <- Erx. vm_compute. reflexivity. }
  destruct (cli_feed_then_get user remote_broker test_permissions "Vehicle.Speed" "42" (PV_Int32 42) 0 speed_entry rx 8
    12) as (s1 & s2 & Hf & Hg); try reflexivity; try assumption.
  - apply trusted_holds.
  - apply speed_database_inv.
  - discriminate.
  - repeat constructor.
  - intros j f Hj _. change (entries (database (bn_broker remote_broker))) with (entries speed_database) in Hj.
    rewrite speed_database_entries in Hj. by apply lookup_singleton_Some in Hj as [<- _].
  - split; [discriminate|split; reflexivity].
  - apply ht_Int8. vm_compute. split; discriminate.
  - exists s1, s2. split; [exact Hf|exact Hg].
Defined.

Lemma cli_set_keeps_targets_witness :
  exists out s', cmd_set 8 "Vehicle.Speed 42" (user, remote_broker) = Returns (out, s') /\
    out = [Out_stderr ("[set]  OK  " +:+ NEWLINE)] /\
    actuator_target <$> entries (database (bn_broker (snd s'))) !! 0 = Some None.
Proof.
  destruct (cmd_set 8 "Vehicle.Speed 42" (user, remote_broker)) as [[out s']|] eqn:E.
  - exists out, s'. split; [reflexivity|]. split.
    + apply (f_equal (fun r => match r with Returns (out, _) => out | Panics => [] end)) in E.
      cbn beta iota in E. rewrite <- E. vm_compute. reflexivity.
    + rewrite (cli_set_keeps_targets 8 "Vehicle.Speed 42" (user, remote_broker) s' out E 0). reflexivity.
  - exfalso. apply (f_equal (fun r => match r with Returns _ => true | Panics => false end)) in E.
    vm_compute in E. discriminate.
Defined.
End Witnesses.
