(* ===== verification/CliTotal.v ===== *)
(** * CliTotal: the interactive clients do not panic

    The [unwrap]s of [KuksaCli] and [SdvCli] are on numbers that the server
    sent and on texts of the program itself.  [HonestRemote] is what a server
    promises about the numbers; with it every line that can be typed is
    answered, and the loop is left exactly where it should be. *)

From stdpp Require Import sorting.
From S2P Require Import Prelude Types Regex Search Display Glob Permissions Auth Entry Database Query Broker Delivery.
From S2P Require Import ProtoVal KuksaVal KuksaValSpec ProtoSdv Sdv SdvSpec Client ClientSpec ClientServer.
From S2P Require Import Cli KuksaCli SdvCli CliSpec CliServer.

(** ** Numbers that the protocols name *)

Definition known_entry `{Timestamps} (entry : DataEntry) : Prop :=
  forall m, de_metadata entry = Some m -> is_Some (proto_data_type_from_i32 (pm_data_type m)).
Definition known_property (m : SdvMetadata) : Prop := is_Some (sdv_data_type_from_i32 (sm_data_type m)).
Definition known_datapoint `{Timestamps} (d : SdvDatapoint) : Prop :=
  forall f, sd_value d = Some (SV_Failure f) -> is_Some (failure_from_i32 f).

(** What a server promises to its clients. *)
Class HonestRemote `{Remote} := {
  honest_get channel header requested net response net' :
    rpc_get channel header requested net = (Ok response, net') -> Forall known_entry (get_entries response);
  honest_get_metadata channel header names net metadata net' :
    rpc_sdv_get_metadata channel header names net = (Ok metadata, net') -> Forall known_property metadata;
  honest_get_datapoints channel header names net (datapoints : gmap string SdvDatapoint) net' :
    rpc_sdv_get_datapoints channel header names net = (Ok datapoints, net') ->
    map_Forall (fun _ d => known_datapoint d) datapoints
}.

(** The texts of the program that it expects to be read: the scheme and the
    path of [to_uri], and the expression of [get_array_from_input]. *)
Class OwnTexts `{RegexEngine} `{Tonic} := {
  own_scheme : is_Some (scheme_parse "http");
  own_path : is_Some (path_parse "");
  own_array : is_Some (regex_new ARRAY_REGEX)
}.

(** ** Results that are there *)

Definition returns {A} (r : outcome A) (Q : A -> Prop) : Prop := exists a, r = Returns a /\ Q a.

Lemma returns_intro {A} (a : A) (Q : A -> Prop) : Q a -> returns (Returns a) Q.
Proof. intros Ha. by exists a. Qed.

Lemma returns_weaken {A} (r : outcome A) (Q Q' : A -> Prop) : (forall a, Q a -> Q' a) -> returns r Q -> returns r Q'.
Proof. intros HQ (a & -> & Ha). exists a. auto. Qed.

(** A computation whose result, if it has one, satisfies [P]. *)
Definition yields `{Remote} {A} (c : M A) (P : A -> Prop) : Prop :=
  forall s a s', c s = (Ok a, s') -> P a.

Section Yields.
Context `{HonestRemote} `{HashOrder}.

Lemma yields_ret {A} (a : A) (P : A -> Prop) : P a -> yields (ret a) P.
Proof. by intros Ha s b s' [= <- _]. Qed.

Lemma yields_fail {A} e (P : A -> Prop) : yields (fail e) P.
Proof. by intros s a s' [=]. Qed.

Lemma yields_bind {A B} (c : M A) (k : A -> M B) (P : A -> Prop) (Q : B -> Prop) :
  yields c P -> (forall a, P a -> yields (k a) Q) -> yields (bind c k) Q.
Proof.
  intros Hc Hk s b s'. unfold bind. destruct (c s) as [[a|e] s1] eqn:Ec; [|done].
  apply Hk. by eapply Hc.
Qed.

(** What a call yields is what the other end answers. *)
Lemma yields_call {A} (rpc : Conn -> option string -> Net -> result A Status * Net) (P : A -> Prop) :
  (forall channel header net a net', rpc channel header net = (Ok a, net') -> P a) -> yields (call rpc) P.
Proof.
  intros Hrpc. unfold call. apply (yields_bind _ _ (fun _ => True)); [by intros s a s' _|].
  intros channel _ [self net] a s'. destruct (rpc channel (auth_header self) net) as [[a'|e] net'] eqn:Er; [|done].
  intros [= -> _]. by eapply Hrpc.
Qed.

Lemma yields_get path view fields : yields (client_get path view fields) (Forall known_entry).
Proof.
  unfold client_get. eapply yields_bind; [apply yields_call; intros channel header; apply honest_get|]. intros message Hm.
  destruct (response_errors _ _); [by apply yields_ret|apply yields_fail].
Qed.

Lemma yields_get_each view fields paths acc :
  Forall known_entry acc -> yields (get_each view fields paths acc) (Forall known_entry).
Proof.
  revert acc. induction paths as [|p paths IH]; intros acc Hacc; simpl; [by apply yields_ret|].
  eapply yields_bind; [apply yields_get|]. intros entry He. apply IH. by apply Forall_app.
Qed.

Lemma yields_metadata paths : yields (client_get_metadata paths) (Forall known_entry).
Proof. by apply yields_get_each. Qed.

Lemma yields_sdv_metadata paths : yields (sdv_client_get_metadata paths) (Forall known_property).
Proof. apply yields_call. intros channel header. apply honest_get_metadata. Qed.

Lemma yields_sdv_datapoints paths :
  yields (sdv_client_get_datapoints paths) (map_Forall (fun _ d => known_datapoint d)).
Proof. apply yields_call. intros channel header. apply honest_get_datapoints. Qed.
End Yields.

(** ** Reading values *)

Section Total.
Context `{RegexSearch} `{HonestRemote} `{HashOrder} `{AnsiTerm} `{!CliEnv} `{!OwnTexts}.

Lemma to_uri_returns text : returns (to_uri text) (fun _ => True).
Proof.
  unfold to_uri. destruct (uri_parse text) as [u|err]; [|by apply returns_intro].
  destruct own_scheme as [s Hs]. destruct own_path as [p Hp]. rewrite Hs, Hp.
  destruct (up_scheme (into_parts u)), (up_authority (into_parts u)); by apply returns_intro.
Qed.

Lemma get_array_returns {T} (parse : string -> option T) values :
  returns (get_array_from_input parse values) (fun _ => True).
Proof.
  unfold get_array_from_input. destruct own_array as [rx Hrx]. rewrite Hrx.
  destruct (match strip_prefix "[" values with Some s => _ | None => None end); by apply returns_intro.
Qed.

Lemma parsed_returns {T V} (value : option T) (mk : T -> V) : returns (parsed_value value mk) (fun _ => True).
Proof. by apply returns_intro. Qed.

Lemma parsed_array_returns {T V} (parse : string -> option T) input (mk : list T -> V) :
  returns (parsed_array parse input mk) (fun _ => True).
Proof.
  unfold parsed_array. destruct (get_array_returns parse input) as (r & -> & _). by apply returns_intro.
Qed.

#[local] Hint Resolve returns_intro parsed_returns parsed_array_returns : core.

Lemma try_into_data_value_returns input dt : returns (try_into_data_value input dt) (fun _ => True).
Proof. unfold try_into_data_value. destruct (String.eqb input "NotAvailable"); [auto|]. destruct dt; auto. Qed.

Lemma sdv_try_into_data_value_returns input dt : returns (sdv_try_into_data_value input dt) (fun _ => True).
Proof. unfold sdv_try_into_data_value. destruct (String.eqb input "NotAvailable"); [auto|]. destruct dt; auto. Qed.

(** ** The client of kuksa.val.v1 *)

Lemma run_client_yields {A} (c : M A) (P : A -> Prop) s a s' : yields c P -> run_client c s = (Ok a, s') -> P a.
Proof.
  intros Hc. destruct s as [cli net]. unfold run_client.
  destruct (c (kc_client cli, net)) as [r [client net']] eqn:Ec. intros [= -> _]. by eapply Hc.
Qed.

Lemma write_entry_returns cmd actuators now path value entry s :
  known_entry entry -> returns (write_entry cmd actuators now path value entry s) (fun _ => True).
Proof.
  intros Hk. unfold write_entry. destruct (de_metadata entry) as [m|] eqn:Em; [|auto].
  destruct (Hk m Em) as [dt ->]. destruct (try_into_data_value_returns value dt) as ([v|] & -> & _); [|auto].
  destruct (actuators && _); [auto|]. destruct (run_client _ s) as [[]]; auto.
Qed.

Lemma write_entries_returns cmd actuators now path value entries s :
  Forall known_entry entries -> returns (write_entries cmd actuators now path value entries s) (fun _ => True).
Proof.
  intros Hk. revert s. induction Hk as [|entry entries He _ IH]; intros s; simpl; [auto|].
  destruct (write_entry_returns cmd actuators now path value entry s He) as ([out s1] & -> & _).
  destruct (IH s1) as ([out' s2] & -> & _). auto.
Qed.

Lemma cmd_write_returns cmd actuators now args s : returns (cmd_write cmd actuators now args s) (fun _ => True).
Proof.
  unfold cmd_write. destruct (split_first_word args) as [path value].
  destruct (String.eqb value ""); [auto|].
  destruct (run_client (client_get_metadata [path]) s) as [[entries|e] s1] eqn:Em; [|auto].
  apply write_entries_returns. exact (run_client_yields _ _ _ _ _ (yields_metadata [path]) Em).
Qed.

Lemma cmd_connect_returns args s : returns (cmd_connect args s) (fun _ => True).
Proof.
  unfold cmd_connect. destruct (is_connected (kc_client (fst s)) && String.eqb args ""); [auto|].
  match goal with |- returns (match ?r with _ => _ end) _ => assert (returns r (fun _ => True)) as Hr end.
  { destruct (String.eqb args ""); [auto|]. destruct (to_uri_returns args) as ([u|err] & -> & _); auto. }
  destruct Hr as ([out s1] & -> & _). destruct (is_connected _); [|auto].
  destruct (fetch_completer "connect" ["**"] s1); auto.
Qed.

(** Whether the loop is left: the two words for it and the end of the input. *)
Definition quits (event : Event) : bool :=
  match event with
  | EV_Read _ (RR_Input line) =>
      let cmd := fst (split_first_word line) in String.eqb cmd "quit" || String.eqb cmd "exit"
  | EV_Read _ RR_Eof => true
  | EV_Read _ (RR_Signal _) | EV_Net _ => false
  end.

(** A turn is answered, the loop goes on unless it is told to stop, and the
    property [I] of the state holds afterwards. *)
Definition turn {S} (I : S -> Prop) (now : SystemTime) (res : ReadResult)
  (r : outcome (list Output * bool * option (Z * Streaming) * (S * Net))) : Prop :=
  returns r (fun a => let '(_, go, _, s) := a in go = negb (quits (EV_Read now res)) /\ I (fst s)).

Lemma kuksa_step_turn now res (s : State) : turn (fun _ => True) now res (kuksa_step now res s).
Proof.
  unfold turn. destruct res as [line| |debug]; simpl; [|by apply returns_intro..].
  unfold kuksa_command. destruct (split_first_word line) as [cmd args]. simpl.
  repeat match goal with
  | |- context [if String.eqb cmd ?w then _ else _] => destruct (String.eqb_spec cmd w) as [->|]
  end; simpl; try (by apply returns_intro).
  - destruct (cmd_write_returns "set" true now args s) as ([out s1] & Hs & _). unfold cmd_set. rewrite Hs.
    by apply returns_intro.
  - destruct (cmd_write_returns "feed" false now args s) as ([out s1] & Hs & _). unfold cmd_feed. rewrite Hs.
    by apply returns_intro.
  - destruct (cmd_subscribe args s) as [[out started] s1]. by apply returns_intro.
  - destruct (cmd_connect_returns args s) as ([out s1] & -> & _). by apply returns_intro.
  - destruct (String.eqb cmd "quit" || String.eqb cmd "exit"); by apply returns_intro.
Qed.

(** ** The client of sdv.databroker.v1 *)

(** What the client keeps: metadata it got from the server. *)
Definition known_cli (cli : SdvCli) : Prop := Forall known_property (sc_properties cli).

(** A method of the client keeps the metadata. *)
Lemma sdv_run_client_yields {A} (c : M A) (P : A -> Prop) s r s' :
  yields c P -> sdv_run_client c s = (r, s') ->
  sc_properties (fst s') = sc_properties (fst s) /\ forall a, r = Ok a -> P a.
Proof.
  intros Hc. destruct s as [cli net]. unfold sdv_run_client.
  destruct (c (sc_client cli, net)) as [r1 [client net']] eqn:Ec. intros [= -> <-]. split; [done|].
  intros a ->. by eapply Hc.
Qed.

Lemma sdv_run_client_known {A} (c : M A) s r s' :
  sdv_run_client c s = (r, s') -> known_cli (fst s) -> known_cli (fst s').
Proof.
  intros Hc Hs. destruct (sdv_run_client_yields c (fun _ => True) s r s') as [Hp _]; [by intros ? ? ? _|done|].
  unfold known_cli. by rewrite Hp.
Qed.

Lemma fetch_properties_known op s : known_cli (fst s) -> known_cli (fst (snd (fetch_properties op s))).
Proof.
  intros Hs. unfold fetch_properties.
  destruct (sdv_run_client (sdv_client_get_metadata []) s) as [r [cli net]] eqn:Em.
  destruct (sdv_run_client_yields _ _ _ _ _ (yields_sdv_metadata []) Em) as [Hp Hok].
  destruct r as [metadata|e]; simpl in *; [by apply (Hok metadata)|]. unfold known_cli. by rewrite Hp.
Qed.

Lemma sdv_display_returns d : known_datapoint d -> returns (sdv_display_datapoint d) (fun _ => True).
Proof.
  intros Hd. unfold sdv_display_datapoint. destruct (sd_value d) as [v|] eqn:Ev; [|auto].
  destruct v; simpl; auto. destruct (Hd _ Ev) as [? ->]. auto.
Qed.

Lemma print_datapoints_returns l :
  Forall (fun '(_, d) => known_datapoint d) l -> returns (print_datapoints l) (fun _ => True).
Proof.
  induction 1 as [|[name d] l Hd _ (out & IH & _)]; simpl; [auto|].
  destruct (sdv_display_returns d Hd) as (text & -> & _). rewrite IH. auto.
Qed.

Lemma print_map_returns (datapoints : gmap string SdvDatapoint) :
  map_Forall (fun _ d => known_datapoint d) datapoints ->
  returns (print_datapoints (hash_order (map_to_list datapoints))) (fun _ => True).
Proof.
  intros Hd. apply print_datapoints_returns. rewrite hash_order_perm. by apply map_Forall_to_list in Hd.
Qed.

Lemma find_property_elem properties path m : find_property properties path = Some m -> m ∈ properties.
Proof.
  unfold find_property. assert (forall found, fold_left (fun found metadata =>
    if String.eqb (sm_name metadata) path then Some metadata else found) properties found = Some m ->
    found = Some m \/ m ∈ properties) as Hf.
  { induction properties as [|x properties IH]; intros found; simpl; [by left|].
    intros [Hx|Hx]%IH; [|right; by right]. destruct (String.eqb _ _); [|by left].
    injection Hx as ->. right. left. }
  intros [Hm|Hm]%Hf; [done|done].
Qed.

Lemma read_value_returns m value : known_property m -> returns (read_value m value) (fun _ => True).
Proof.
  intros [dt Hdt]. unfold read_value. rewrite Hdt.
  destruct (sdv_try_into_data_value_returns value dt) as ([v|] & -> & _); auto.
Qed.

(** The one call of a command: what the client keeps stays known. *)
Ltac client_call :=
  match goal with |- context [sdv_run_client ?c ?s] =>
    let r := fresh "r" in let s1 := fresh "s1" in let Ec := fresh "Ec" in
    destruct (sdv_run_client c s) as [r s1] eqn:Ec; apply sdv_run_client_known in Ec; [destruct r|done]
  end.

(** What a command of this client leaves. *)
Definition leaves_known (r : outcome (list Output * SdvState)) : Prop :=
  returns r (fun '(_, s) => known_cli (fst s)).

Lemma sdv_cmd_get_turn args s : known_cli (fst s) -> leaves_known (sdv_cmd_get args s).
Proof.
  intros Hs. unfold leaves_known, sdv_cmd_get. destruct (String.eqb args ""); [auto|].
  destruct (sdv_run_client (sdv_client_get_datapoints (split_whitespace args)) s) as [r s1] eqn:Eg.
  destruct (sdv_run_client_yields _ _ _ _ _ (yields_sdv_datapoints _) Eg) as [_ Hok].
  apply sdv_run_client_known in Eg; [|done]. destruct r as [datapoints|e]; [|auto].
  destruct (print_map_returns datapoints (Hok _ eq_refl)) as (out & -> & _). auto.
Qed.

Lemma sdv_use_token_known cmd op token s : known_cli (fst s) -> known_cli (fst (snd (sdv_use_token cmd op token s))).
Proof.
  intros Hs. destruct s as [cli net]. unfold sdv_use_token.
  destruct (set_access_token (sc_client cli) token) as [[[]|[err]] client]; [|done].
  pose proof (fetch_properties_known op (sdv_with_client cli client, net) Hs) as Hf.
  by destruct (fetch_properties op _).
Qed.

(** [set] and [feed] look up the signal, read the value and make one call. *)
Lemma sdv_cmd_set_turn now args s : known_cli (fst s) -> leaves_known (sdv_cmd_set now args s).
Proof.
  intros Hs. unfold leaves_known, sdv_cmd_set. destruct (split_first_word args) as [path value].
  destruct (String.eqb value ""); [auto|]. destruct (find_property _ path) as [m|] eqn:Ef; [|auto].
  apply find_property_elem in Ef. pose proof (proj1 (Forall_forall _ _) Hs m Ef) as Hm.
  destruct (read_value_returns m value Hm) as ([v|out] & -> & _); [|auto].
  destruct (negb _); [auto|].
  client_call; auto.
Qed.

Lemma sdv_cmd_feed_turn now args s : known_cli (fst s) -> leaves_known (sdv_cmd_feed now args s).
Proof.
  intros Hs. unfold leaves_known, sdv_cmd_feed. destruct (split_first_word args) as [path value].
  destruct (String.eqb value ""); [auto|]. destruct (find_property _ path) as [m|] eqn:Ef; [|auto].
  apply find_property_elem in Ef. pose proof (proj1 (Forall_forall _ _) Hs m Ef) as Hm.
  destruct (read_value_returns m value Hm) as ([v|out] & -> & _); [|auto].
  client_call; auto.
Qed.

Lemma sdv_cmd_subscribe_known args s : known_cli (fst s) -> known_cli (fst (snd (sdv_cmd_subscribe args s))).
Proof.
  intros Hs. unfold sdv_cmd_subscribe. destruct (String.eqb args ""); [done|].
  destruct (sdv_run_client (sdv_client_subscribe args) s) as [[c|e] [cli net]] eqn:Ec; by apply sdv_run_client_known in Ec.
Qed.

Lemma sdv_cmd_connect_turn args s : known_cli (fst s) -> leaves_known (sdv_cmd_connect args s).
Proof.
  intros Hs. unfold leaves_known, sdv_cmd_connect.
  destruct (is_connected (sc_client (fst s)) && String.eqb args ""); [auto|].
  match goal with |- returns (match ?r with _ => _ end) _ => assert (leaves_known r) as Hr end.
  { unfold leaves_known. assert (forall c : M unit, returns (Returns match sdv_run_client c s with
      | (Ok _, s) => (sdv_print_connected "[connect] " s, s)
      | (Err e, s) => (print_error "connect" (client_error_to_string status_to_string e), s)
      end) (fun '(_, s) => known_cli (fst s))) as Hc.
    { intros c. client_call; auto. }
    destruct (String.eqb args ""); [apply Hc|].
    destruct (to_uri_returns args) as ([u|err] & -> & _); [apply Hc|auto]. }
  destruct Hr as ([out s1] & -> & Hs1). destruct (is_connected _); [|auto].
  pose proof (fetch_properties_known "connect" s1 Hs1) as Hf.
  destruct (fetch_properties "connect" s1); auto.
Qed.

Lemma sdv_cmd_metadata_known regex_error args s :
  known_cli (fst s) -> known_cli (fst (snd (sdv_cmd_metadata regex_error args s))).
Proof.
  intros Hs. unfold sdv_cmd_metadata.
  destruct (sdv_run_client (sdv_client_get_metadata []) s) as [r [cli net]] eqn:Em.
  destruct (sdv_run_client_yields _ _ _ _ _ (yields_sdv_metadata []) Em) as [Hp Hok].
  destruct r as [metadata|e]; [|unfold known_cli; simpl in *; by rewrite Hp].
  assert (known_cli (sdv_with_metadata cli (merge_sort name_le metadata))) as Hk.
  { unfold known_cli. simpl. rewrite merge_sort_Permutation. by apply Hok. }
  by destruct (split_whitespace args).
Qed.

Lemma sdv_step_turn regex_error now res (s : SdvState) :
  known_cli (fst s) -> turn known_cli now res (sdv_step regex_error now res s).
Proof.
  intros Hs. unfold turn. destruct res as [line| |debug]; simpl; [|by apply returns_intro..].
  unfold sdv_command. destruct (split_first_word line) as [cmd args]. simpl.
  assert (forall r : outcome (list Output * SdvState), leaves_known r ->
    returns (match r with Returns r => Returns (fst r, true, None (A := Z * Streaming), snd r) | Panics => Panics end)
      (fun a => let '(_, go, _, s) := a in go = true /\ known_cli (fst s))) as Hgo.
  { intros r ([out s1] & -> & Hs1). by apply returns_intro. }
  repeat match goal with
  | |- context [if String.eqb cmd ?w then _ else _] => destruct (String.eqb_spec cmd w) as [->|]
  end; simpl; try (by apply returns_intro).
  - apply Hgo, sdv_cmd_get_turn, Hs.
  - apply returns_intro. split; [done|]. unfold sdv_cmd_token. destruct (String.eqb args ""); [done|].
    by apply sdv_use_token_known.
  - apply returns_intro. split; [done|]. unfold sdv_cmd_token_file. destruct (String.eqb args ""); [done|].
    destruct (read_file _); [|done]. by apply sdv_use_token_known.
  - apply Hgo, sdv_cmd_set_turn, Hs.
  - apply Hgo, sdv_cmd_feed_turn, Hs.
  - pose proof (sdv_cmd_subscribe_known args s Hs) as Hk.
    destruct (sdv_cmd_subscribe args s) as [[out started] s1]. by apply returns_intro.
  - apply Hgo, sdv_cmd_connect_turn, Hs.
  - apply returns_intro. split; [done|]. by apply sdv_cmd_metadata_known.
  - destruct (String.eqb cmd "quit" || String.eqb cmd "exit"); by apply returns_intro.
Qed.

(** ** The two programs *)

(** A loop whose every turn is answered is left at the first event that asks
    for it, and not before. *)
Lemma session_ends {S} (I : S -> Prop) step events s :
  (forall now res s, I (fst s) -> turn I now res (step now res s)) -> I (fst s) ->
  exists out s', session step events s = Returns (out, existsb quits events, s').
Proof.
  intros Hstep. revert s. induction events as [|[now res|net] events IH]; intros s Hs; simpl.
  - by exists [], s.
  - destruct (Hstep now res s Hs) as ([[[out go] started] s1] & -> & Hgo & Hs1).
    simpl in Hgo. destruct (match res with RR_Input _ => _ | RR_Eof => _ | RR_Signal _ => _ end); subst go; simpl.
    + by exists out, s1.
    + destruct (IH s1 Hs1) as (out' & s2 & ->). by exists (out ++ out'), s2.
  - by apply (IH (fst s, net)).
Qed.

Lemma make_client_returns options : returns (make_client options) (fun _ => True).
Proof. unfold make_client. destruct (to_uri_returns (op_server options)) as ([u|err] & -> & _); auto. Qed.

Lemma kuksa_start_returns options net : returns (kuksa_start options net) (fun _ => True).
Proof.
  unfold kuksa_start. destruct (make_client_returns options) as ([client|err] & -> & _); [|auto].
  destruct (op_command options) as [paths|].
  - destruct (run_client (get_current_values paths) _) as [[] ?]; auto.
  - destruct (run_client try_connect _) as [[] s]; [|auto]. destruct (fetch_completer _ _ s); auto.
Qed.

Lemma sdv_start_returns options net :
  returns (sdv_start options net) (fun '(_, r) => forall enter s, r = Ok (enter, s) -> known_cli (fst s)).
Proof.
  unfold sdv_start. destruct (make_client_returns options) as ([client|err] & -> & _); [|by apply returns_intro].
  assert (known_cli {| sc_client := client; sc_completer := PathPart_new; sc_properties := [];
    sc_subscription_nbr := 1 |}) as Hk by apply Forall_nil_2.
  destruct (op_command options) as [paths|].
  - destruct (sdv_run_client (sdv_client_get_datapoints paths) _) as [r s] eqn:Eg.
    destruct (sdv_run_client_yields _ _ _ _ _ (yields_sdv_datapoints _) Eg) as [_ Hok].
    apply sdv_run_client_known in Eg; [|done].
    destruct r as [datapoints|e]; [destruct (print_map_returns datapoints (Hok _ eq_refl)) as (out & -> & _)|];
      apply returns_intro; by intros enter s' [= _ <-].
  - destruct (sdv_run_client try_connect _) as [r s] eqn:Eg. apply sdv_run_client_known in Eg; [|done].
    destruct r as [u|e]; [|apply returns_intro; by intros enter s' [= _ <-]].
    pose proof (fetch_properties_known "metadata" s Eg) as Hf. destruct (fetch_properties "metadata" s) as [out s1].
    apply returns_intro. by intros enter s' [= _ <-].
Qed.

(** C16. The programs do not panic: connected to any server that sends only the
    numbers its protocol names, for any command line, either client starts (or
    says why it does not), and then, whatever is typed and whatever others do
    to the server in between, every line is answered, and the loop is left at
    the first [quit], [exit] or end of input, and only there. *)
Theorem cli_never_panics protocol options net :
  exists out entered, cli_main protocol options net = Returns (out, entered) /\
    match entered with
    | None => True
    | Some (inl s) => forall regex_error events, exists out s',
        session (sdv_step regex_error) events s = Returns (out, existsb quits events, s')
    | Some (inr s) => forall events, exists out s',
        session kuksa_step events s = Returns (out, existsb quits events, s')
    end.
Proof.
  destruct protocol; simpl.
  - destruct (kuksa_start_returns options net) as ([out [[enter s]|e]] & -> & _); [|by eexists _, None].
    eexists _, _. split; [reflexivity|]. destruct enter; [|done]. intros events.
    apply (session_ends (fun _ => True)); [|done]. intros now res s' _. apply kuksa_step_turn.
  - destruct (sdv_start_returns options net) as ([out [[enter s]|e]] & -> & Hk); [|by eexists _, None].
    eexists _, _. split; [reflexivity|]. destruct enter; [|done]. intros regex_error events.
    apply (session_ends known_cli); [|by eapply Hk]. intros now res s'. apply sdv_step_turn.
Qed.
End Total.

(** ** The broker is such a server *)

Section Broker.
Context `{RegexEngine} `{HashOrder} `{SqlParser} `{Timestamps} `{JwtLibrary} `{Tonic}.

Lemma serve_ok {A}
  (handler : DataBroker -> option Permissions -> SystemTime -> outcome (result A Status) * DataBroker)
  header net a net' :
  serve handler header net = (Ok a, net') ->
  exists permissions, fst (handler (bn_broker net) (Some permissions) (bn_now net)) = Returns (Ok a).
Proof.
  unfold serve. destruct (authorize net header) as [permissions|]; [|done].
  destruct (handler _ _ _) as [[r|] b] eqn:Eh; intros [= -> _]. exists permissions. by rewrite Eh.
Qed.

Lemma answer_known entry fields : known_entry (proto_entry_from_entry_and_fields entry fields).
Proof.
  intros m. unfold proto_entry_from_entry_and_fields. simpl. destruct (_ || _); [|done]. intros [= <-]. simpl.
  destruct (_ || _); [by destruct (data_type (era_metadata entry)); eexists|by eexists].
Qed.

Lemma get_known b permissions now requested response :
  KuksaVal.get b (Some permissions) now requested = Ok response -> Forall known_entry (get_entries response).
Proof.
  intros Hg. destruct requested as [|q qs]; [done|].
  destruct (fill_valid_requests (q :: qs) [] []) as [[errors valid]|e] eqn:Ef.
  - rewrite (get_comprehension b permissions now _ errors valid) in Hg by done. injection Hg as <-. simpl.
    destruct (existsb _ valid); [done|]. apply Forall_forall.
    intros entry (a & _ & Ha)%list_elem_of_omap. unfold answer in Ha.
    case_bool_decide; [done|]. injection Ha as <-. apply answer_known.
  - unfold KuksaVal.get in Hg. by rewrite Ef in Hg.
Qed.

Lemma metadata_to_sdv_known m : known_property (metadata_to_sdv m).
Proof. unfold known_property. simpl. rewrite sdv_data_type_from_to. by eexists. Qed.

Lemma get_metadata_known b permissions now names metadata :
  Sdv.get_metadata b (Some permissions) now names = Ok metadata -> Forall known_property metadata.
Proof.
  intros [= <-]. apply Forall_forall. intros m Hm.
  destruct names as [|name names]; apply list_elem_of_fmap in Hm as (a & -> & _); apply metadata_to_sdv_known.
Qed.

Lemma get_reply_known r : known_datapoint (get_reply r).
Proof.
  intros f. destruct r as [d|[]]; simpl; [|by intros [= <-]; eexists..].
  destruct (value d); simpl; try done. intros [= <-]. by eexists.
Qed.

Lemma get_datapoints_known b permissions now names (datapoints : gmap string SdvDatapoint) :
  get_datapoints b (Some permissions) now names = Ok datapoints -> map_Forall (fun _ d => known_datapoint d) datapoints.
Proof.
  unfold get_datapoints. assert (forall m : gmap string SdvDatapoint, map_Forall (fun _ d => known_datapoint d) m ->
    map_Forall (fun _ d => known_datapoint d) (fold_left (fun datapoints name =>
      <[name := get_reply (access_get_datapoint_by_path b permissions now name)]> datapoints) names m)) as Hf.
  { induction names as [|name names IH]; intros m Hm; [done|]. simpl. apply IH.
    apply map_Forall_insert_2; [apply get_reply_known|done]. }
  destruct names as [|name names]; [done|]. intros [= <-]. apply Hf. apply map_Forall_empty.
Qed.

#[export] Instance broker_honest : HonestRemote.
Proof.
  split.
  - intros channel header requested net response net' Hs. apply serve_ok in Hs as (permissions & [= Hs]).
    by eapply get_known.
  - intros channel header names net metadata net' Hs. apply serve_ok in Hs as (permissions & [= Hs]).
    eapply (get_metadata_known (bn_broker net) permissions (bn_now net) names). by rewrite <- Hs.
  - intros channel header names net datapoints net' Hs. apply serve_ok in Hs as (permissions & [= Hs]).
    by eapply get_datapoints_known.
Qed.
End Broker.

(** ** Witness *)

Section Witnesses.
Definition total_engine : RegexEngine :=
  table_engine ((ARRAY_REGEX, {| mt_match := fun _ => true; mt_groups := fun _ _ => None |}) :: glob_table).
#[local] Existing Instance total_engine.
#[local] Existing Instance one_query_parser.
#[local] Existing Instance z_timestamps.
#[local] Existing Instance one_token.
#[local] Existing Instance plain_tonic.
#[local] Existing Instance no_colours.
#[local] Existing Instance plain_env.

#[local] Instance no_search : RegexSearch := {| regex_captures_iter := fun _ _ => [] |}.

#[local] Instance own_texts : OwnTexts.
Proof. split; by eexists. Qed.

(** A broker without authorization that has one signal. *)
Definition open_broker : BrokerNet := {|
  bn_broker := set_database (DataBroker_new "test")
    (snd (add Database_new ALLOW_ALL 0 "Vehicle.Speed" DT_Int8 CT_OnChange ET_Sensor "" None None None));
  bn_authorization := Disabled;
  bn_reach := fun _ => Ok tt;
  bn_clock := fun n => 9 + Z.of_nat n;
  bn_calls := 0;
  bn_refusal := "";
  bn_broken := {| status_code := SC_Internal; status_message := "" |};
  bn_debug := fun _ => ""
|}.

Definition interactive : CliOptions :=
  {| op_server := "127.0.0.1:55555"; op_token_file := None; op_ca_cert := None; op_command := None |}.

Definition three_lines : list Event :=
  [EV_Read 20 (RR_Input "feed Vehicle.Speed 42"); EV_Read 21 (RR_Input "get Vehicle.Speed");
   EV_Read 22 (RR_Input "quit")].

Lemma cli_never_panics_witness :
  exists out s out' s', cli_main SdvDatabrokerV1 interactive (open_broker : @Net _ _ broker_remote) = Returns (out, Some (inl s)) /\
    session (sdv_step (fun _ => "")) three_lines s = Returns (out', true, s').
Proof.
  destruct (cli_never_panics SdvDatabrokerV1 interactive (open_broker : @Net _ _ broker_remote)) as (out & [[s|s]|] & Hm & Hs).
  - destruct (Hs (fun _ => "") three_lines) as (out' & s' & Hl). exists out, s, out', s'. split; [exact Hm|exact Hl].
  - apply (f_equal (fun r => match r with Returns (_, Some (inr _)) => true | _ => false end)) in Hm.
    vm_compute in Hm. discriminate.
  - apply (f_equal (fun r => match r with Returns (_, None) => true | _ => false end)) in Hm.
    vm_compute in Hm. discriminate.
Defined.
End Witnesses.
